(** * notion-to-markdown: a shallow embedding of the renderer package

    The development follows the Go sources of [internal/renderer]:
    - [block_types.go]  per-kind block formatters, rich text, link resolution;
    - [file_cache.go]   the content-addressed cache of remote media;
    - [render_config]   templates ([renderTemplate], [RenderConfig]);
    - [renderer.go]     metadata, front matter, paths, the recursive renderer
                        (the variant with the open [Properties] map).

    Go strings are modelled as [string] (sequences of bytes) and runes as
    numbers.  The functions of the Go library the renderer calls follow Go
    1.21, the version the repository builds with: [strings.ToLower] and
    [strings.TrimSpace] decode UTF-8 and use the case ranges and the white
    space of Unicode 15.0.0, [url.Parse] checks the authority as [net/url]
    does.

    Everything the Go code obtains from outside (the children-fetch callback,
    the file system, the HTTP client, the iteration order of Go maps, the
    YAML encoder, SHA-256, time formatting, [path/filepath]) is a variable of
    the section that uses it; effects thread an abstract world. *)

From Stdlib Require Import Ascii String List Bool Arith ZArith Lia DecimalString.
From stdpp Require Import base option list strings gmap.

#[local] Arguments String.append : simpl nomatch.
#[local] Open Scope stdpp_scope.

(* ===================================================================== *)
(** * [unicode/utf8] and [unicode]                                        *)
(* ===================================================================== *)

Module utf8.

(** Runes are numbers ([Z]); bytes are [ascii]. *)

Definition RuneError : Z := 0xFFFD%Z.
Definition RuneSelf : nat := 0x80.
Definition UTFMax : nat := 4.
Definition MaxRune : Z := 0x10FFFF%Z.

Definition byte (c : ascii) : Z := Z.of_nat (nat_of_ascii c).

(** A byte between [lo] and [hi]. *)
Definition between (lo hi : nat) (c : ascii) : bool :=
  let n := nat_of_ascii c in (lo <=? n) && (n <=? hi).

(** A continuation byte, [locb <= c <= hicb]. *)
Definition isCont (c : ascii) : bool := between 0x80 0xBF c.

(** The table [first] with [acceptRanges]: for a leading byte, the size of
    the encoding and the bounds of the second byte; [None] for a byte that
    starts no encoding of more than one byte. *)
Definition first (c : ascii) : option (nat * nat * nat) :=
  if between 0xC2 0xDF c then Some (2, 0x80, 0xBF)
  else if between 0xE0 0xE0 c then Some (3, 0xA0, 0xBF)
  else if between 0xE1 0xEC c then Some (3, 0x80, 0xBF)
  else if between 0xED 0xED c then Some (3, 0x80, 0x9F)
  else if between 0xEE 0xEF c then Some (3, 0x80, 0xBF)
  else if between 0xF0 0xF0 c then Some (4, 0x90, 0xBF)
  else if between 0xF1 0xF3 c then Some (4, 0x80, 0xBF)
  else if between 0xF4 0xF4 c then Some (4, 0x80, 0x8F)
  else None.

(** [utf8.DecodeRuneInString]: the first rune of [s] and its width in
    bytes; [(RuneError, 0)] for the empty string and [(RuneError, 1)] for a
    byte that starts no valid encoding. *)
Definition DecodeRuneInString (s : string) : Z * nat :=
  match s with
  | EmptyString => (RuneError, 0)
  | String s0 rest =>
      if nat_of_ascii s0 <? RuneSelf then (byte s0, 1)
      else
        match first s0 with
        | None => (RuneError, 1)
        | Some (sz, lo, hi) =>
            match rest with
            | EmptyString => (RuneError, 1)
            | String s1 rest1 =>
                if negb (between lo hi s1) then (RuneError, 1)
                else if sz <=? 2
                then (Z.lor (Z.shiftl (Z.land (byte s0) 0x1F) 6)
                            (Z.land (byte s1) 0x3F), 2)
                else
                  match rest1 with
                  | EmptyString => (RuneError, 1)
                  | String s2 rest2 =>
                      if negb (isCont s2) then (RuneError, 1)
                      else if sz <=? 3
                      then (Z.lor (Z.lor (Z.shiftl (Z.land (byte s0) 0x0F) 12)
                                         (Z.shiftl (Z.land (byte s1) 0x3F) 6))
                                  (Z.land (byte s2) 0x3F), 3)
                      else
                        match rest2 with
                        | EmptyString => (RuneError, 1)
                        | String s3 _ =>
                            if negb (isCont s3) then (RuneError, 1)
                            else
                              (Z.lor (Z.lor (Z.lor
                                 (Z.shiftl (Z.land (byte s0) 0x07) 18)
                                 (Z.shiftl (Z.land (byte s1) 0x3F) 12))
                                 (Z.shiftl (Z.land (byte s2) 0x3F) 6))
                                 (Z.land (byte s3) 0x3F), 4)
                        end
                  end
            end
        end
  end.

(** [RuneStart]: not a continuation byte. *)
Definition RuneStart (c : ascii) : bool := negb (isCont c).

(** [s[n:]]. *)
Fixpoint from (n : nat) (s : string) : string :=
  match n, s with
  | O, _ => s
  | S _, EmptyString => EmptyString
  | S k, String _ r => from k r
  end.

(** The loop [for start--; start >= lim; start-- { if RuneStart(s[start])
    { break } }] of [DecodeLastRuneInString], entered after [start--];
    [turns] bounds its length, and the result is the value of [start]
    after the loop (it may be -1). *)
Fixpoint lastStart (s : string) (lim : Z) (turns : nat) (start : Z) : Z :=
  match turns with
  | O => start
  | S t =>
      if (start <? lim)%Z then start
      else
        match String.get (Z.to_nat start) s with
        | Some c => if RuneStart c then start else lastStart s lim t (start - 1)%Z
        | None => start
        end
  end.

(** [utf8.DecodeLastRuneInString]: the last rune of [s] and its width. *)
Definition DecodeLastRuneInString (s : string) : Z * nat :=
  let end_ := Z.of_nat (String.length s) in
  if (end_ =? 0)%Z then (RuneError, 0)
  else
    let start := (end_ - 1)%Z in
    match String.get (Z.to_nat start) s with
    | None => (RuneError, 0)
    | Some c =>
        if nat_of_ascii c <? RuneSelf then (byte c, 1)
        else
          let lim := Z.max 0 (end_ - Z.of_nat UTFMax) in
          let start := lastStart s lim UTFMax (start - 1)%Z in
          let start := Z.max 0 start in
          let '(r, size) := DecodeRuneInString (from (Z.to_nat start) s) in
          if negb (start + Z.of_nat size =? end_)%Z then (RuneError, 1)
          else (r, size)
    end.

Definition ofZ (z : Z) : ascii := ascii_of_nat (Z.to_nat z).

(** [utf8.AppendRune] to the empty string: the encoding of [r], that of
    [RuneError] for a surrogate or a number that is no Z. *)
Definition EncodeRune (r : Z) : string :=
  let three (r : Z) :=
    String (ofZ (Z.lor 0xE0 (Z.shiftr r 12)))
      (String (ofZ (Z.lor 0x80 (Z.land (Z.shiftr r 6) 0x3F)))
         (String (ofZ (Z.lor 0x80 (Z.land r 0x3F))) EmptyString)) in
  if ((0 <=? r) && (r <=? 0x7F))%Z then String (ofZ r) EmptyString
  else if ((0 <=? r) && (r <=? 0x7FF))%Z
  then String (ofZ (Z.lor 0xC0 (Z.shiftr r 6)))
         (String (ofZ (Z.lor 0x80 (Z.land r 0x3F))) EmptyString)
  else if ((r <? 0) || (MaxRune <? r) || ((0xD800 <=? r) && (r <=? 0xDFFF)))%Z
  then three RuneError
  else if (r <=? 0xFFFF)%Z then three r
  else
    String (ofZ (Z.lor 0xF0 (Z.shiftr r 18)))
      (String (ofZ (Z.lor 0x80 (Z.land (Z.shiftr r 12) 0x3F)))
         (String (ofZ (Z.lor 0x80 (Z.land (Z.shiftr r 6) 0x3F)))
            (String (ofZ (Z.lor 0x80 (Z.land r 0x3F))) EmptyString))).

End utf8.

Module unicode.

#[local] Open Scope Z_scope.

Definition MaxASCII : Z := 0x7F.
Definition MaxLatin1 : Z := 0xFF.

(** [unicode.IsSpace]: the Latin-1 white space, and above it the ranges
    of the table [White_Space]. *)
Definition IsSpace (r : Z) : bool :=
  if (0 <=? r) && (r <=? MaxLatin1)
  then ((0x09 <=? r) && (r <=? 0x0D)) || (r =? 0x20) || (r =? 0x85) || (r =? 0xA0)
  else (r =? 0x1680) || ((0x2000 <=? r) && (r <=? 0x200A))
       || (r =? 0x2028) || (r =? 0x2029) || (r =? 0x202F) || (r =? 0x205F)
       || (r =? 0x3000).

(** The lower-case delta of a [CaseRange]: a number to add, or the marker
    of a sequence of alternating upper- and lower-case letters. *)
Inductive delta : Type :=
| Delta (d : Z)
| UpperLower.

(** [unicode.CaseRanges] (Unicode 15.0.0), the ranges with a lower-case
    mapping: [(Lo, Hi, delta)], in increasing order. *)
Definition CaseRanges : list (Z * Z * delta) :=
  [(0x00C0, 0x00D6, Delta 32); (0x00D8, 0x00DE, Delta 32);
   (0x0100, 0x012F, UpperLower); (0x0130, 0x0130, Delta (-199));
   (0x0132, 0x0137, UpperLower); (0x0139, 0x0148, UpperLower);
   (0x014A, 0x0177, UpperLower); (0x0178, 0x0178, Delta (-121));
   (0x0179, 0x017E, UpperLower); (0x0181, 0x0181, Delta 210);
   (0x0182, 0x0185, UpperLower); (0x0186, 0x0186, Delta 206);
   (0x0187, 0x0187, Delta 1); (0x0189, 0x018A, Delta 205);
   (0x018B, 0x018B, Delta 1); (0x018E, 0x018E, Delta 79);
   (0x018F, 0x018F, Delta 202); (0x0190, 0x0190, Delta 203);
   (0x0191, 0x0191, Delta 1); (0x0193, 0x0193, Delta 205);
   (0x0194, 0x0194, Delta 207); (0x0196, 0x0196, Delta 211);
   (0x0197, 0x0197, Delta 209); (0x0198, 0x0198, Delta 1);
   (0x019C, 0x019C, Delta 211); (0x019D, 0x019D, Delta 213);
   (0x019F, 0x019F, Delta 214); (0x01A0, 0x01A5, UpperLower);
   (0x01A6, 0x01A6, Delta 218); (0x01A7, 0x01A7, Delta 1);
   (0x01A9, 0x01A9, Delta 218); (0x01AC, 0x01AC, Delta 1);
   (0x01AE, 0x01AE, Delta 218); (0x01AF, 0x01AF, Delta 1);
   (0x01B1, 0x01B2, Delta 217); (0x01B3, 0x01B6, UpperLower);
   (0x01B7, 0x01B7, Delta 219); (0x01B8, 0x01B8, Delta 1);
   (0x01BC, 0x01BC, Delta 1); (0x01C4, 0x01C4, Delta 2);
   (0x01C5, 0x01C5, Delta 1); (0x01C7, 0x01C7, Delta 2);
   (0x01C8, 0x01C8, Delta 1); (0x01CA, 0x01CA, Delta 2);
   (0x01CB, 0x01DC, UpperLower); (0x01DE, 0x01EF, UpperLower);
   (0x01F1, 0x01F1, Delta 2); (0x01F2, 0x01F5, UpperLower);
   (0x01F6, 0x01F6, Delta (-97)); (0x01F7, 0x01F7, Delta (-56));
   (0x01F8, 0x021F, UpperLower); (0x0220, 0x0220, Delta (-130));
   (0x0222, 0x0233, UpperLower); (0x023A, 0x023A, Delta 10795);
   (0x023B, 0x023B, Delta 1); (0x023D, 0x023D, Delta (-163));
   (0x023E, 0x023E, Delta 10792); (0x0241, 0x0241, Delta 1);
   (0x0243, 0x0243, Delta (-195)); (0x0244, 0x0244, Delta 69);
   (0x0245, 0x0245, Delta 71); (0x0246, 0x024F, UpperLower);
   (0x0370, 0x0373, UpperLower); (0x0376, 0x0376, Delta 1);
   (0x037F, 0x037F, Delta 116); (0x0386, 0x0386, Delta 38);
   (0x0388, 0x038A, Delta 37); (0x038C, 0x038C, Delta 64);
   (0x038E, 0x038F, Delta 63); (0x0391, 0x03A1, Delta 32);
   (0x03A3, 0x03AB, Delta 32); (0x03CF, 0x03CF, Delta 8);
   (0x03D8, 0x03EF, UpperLower); (0x03F4, 0x03F4, Delta (-60));
   (0x03F7, 0x03F7, Delta 1); (0x03F9, 0x03F9, Delta (-7));
   (0x03FA, 0x03FA, Delta 1); (0x03FD, 0x03FF, Delta (-130));
   (0x0400, 0x040F, Delta 80); (0x0410, 0x042F, Delta 32);
   (0x0460, 0x0481, UpperLower); (0x048A, 0x04BF, UpperLower);
   (0x04C0, 0x04C0, Delta 15); (0x04C1, 0x04CE, UpperLower);
   (0x04D0, 0x052F, UpperLower); (0x0531, 0x0556, Delta 48);
   (0x10A0, 0x10C5, Delta 7264); (0x10C7, 0x10C7, Delta 7264);
   (0x10CD, 0x10CD, Delta 7264); (0x13A0, 0x13EF, Delta 38864);
   (0x13F0, 0x13F5, Delta 8); (0x1C90, 0x1CBA, Delta (-3008));
   (0x1CBD, 0x1CBF, Delta (-3008)); (0x1E00, 0x1E95, UpperLower);
   (0x1E9E, 0x1E9E, Delta (-7615)); (0x1EA0, 0x1EFF, UpperLower);
   (0x1F08, 0x1F0F, Delta (-8)); (0x1F18, 0x1F1D, Delta (-8));
   (0x1F28, 0x1F2F, Delta (-8)); (0x1F38, 0x1F3F, Delta (-8));
   (0x1F48, 0x1F4D, Delta (-8)); (0x1F59, 0x1F59, Delta (-8));
   (0x1F5B, 0x1F5B, Delta (-8)); (0x1F5D, 0x1F5D, Delta (-8));
   (0x1F5F, 0x1F5F, Delta (-8)); (0x1F68, 0x1F6F, Delta (-8));
   (0x1F88, 0x1F8F, Delta (-8)); (0x1F98, 0x1F9F, Delta (-8));
   (0x1FA8, 0x1FAF, Delta (-8)); (0x1FB8, 0x1FB9, Delta (-8));
   (0x1FBA, 0x1FBB, Delta (-74)); (0x1FBC, 0x1FBC, Delta (-9));
   (0x1FC8, 0x1FCB, Delta (-86)); (0x1FCC, 0x1FCC, Delta (-9));
   (0x1FD8, 0x1FD9, Delta (-8)); (0x1FDA, 0x1FDB, Delta (-100));
   (0x1FE8, 0x1FE9, Delta (-8)); (0x1FEA, 0x1FEB, Delta (-112));
   (0x1FEC, 0x1FEC, Delta (-7)); (0x1FF8, 0x1FF9, Delta (-128));
   (0x1FFA, 0x1FFB, Delta (-126)); (0x1FFC, 0x1FFC, Delta (-9));
   (0x2126, 0x2126, Delta (-7517)); (0x212A, 0x212A, Delta (-8383));
   (0x212B, 0x212B, Delta (-8262)); (0x2132, 0x2132, Delta 28);
   (0x2160, 0x216F, Delta 16); (0x2183, 0x2183, Delta 1);
   (0x24B6, 0x24CF, Delta 26); (0x2C00, 0x2C2F, Delta 48);
   (0x2C60, 0x2C60, Delta 1); (0x2C62, 0x2C62, Delta (-10743));
   (0x2C63, 0x2C63, Delta (-3814)); (0x2C64, 0x2C64, Delta (-10727));
   (0x2C67, 0x2C6C, UpperLower); (0x2C6D, 0x2C6D, Delta (-10780));
   (0x2C6E, 0x2C6E, Delta (-10749)); (0x2C6F, 0x2C6F, Delta (-10783));
   (0x2C70, 0x2C70, Delta (-10782)); (0x2C72, 0x2C72, Delta 1);
   (0x2C75, 0x2C75, Delta 1); (0x2C7E, 0x2C7F, Delta (-10815));
   (0x2C80, 0x2CE3, UpperLower); (0x2CEB, 0x2CEE, UpperLower);
   (0x2CF2, 0x2CF2, Delta 1); (0xA640, 0xA66D, UpperLower);
   (0xA680, 0xA69B, UpperLower); (0xA722, 0xA72F, UpperLower);
   (0xA732, 0xA76F, UpperLower); (0xA779, 0xA77C, UpperLower);
   (0xA77D, 0xA77D, Delta (-35332)); (0xA77E, 0xA787, UpperLower);
   (0xA78B, 0xA78B, Delta 1); (0xA78D, 0xA78D, Delta (-42280));
   (0xA790, 0xA793, UpperLower); (0xA796, 0xA7A9, UpperLower);
   (0xA7AA, 0xA7AA, Delta (-42308)); (0xA7AB, 0xA7AB, Delta (-42319));
   (0xA7AC, 0xA7AC, Delta (-42315)); (0xA7AD, 0xA7AD, Delta (-42305));
   (0xA7AE, 0xA7AE, Delta (-42308)); (0xA7B0, 0xA7B0, Delta (-42258));
   (0xA7B1, 0xA7B1, Delta (-42282)); (0xA7B2, 0xA7B2, Delta (-42261));
   (0xA7B3, 0xA7B3, Delta 928); (0xA7B4, 0xA7C3, UpperLower);
   (0xA7C4, 0xA7C4, Delta (-48)); (0xA7C5, 0xA7C5, Delta (-42307));
   (0xA7C6, 0xA7C6, Delta (-35384)); (0xA7C7, 0xA7CA, UpperLower);
   (0xA7D0, 0xA7D0, Delta 1); (0xA7D6, 0xA7D9, UpperLower);
   (0xA7F5, 0xA7F5, Delta 1); (0xFF21, 0xFF3A, Delta 32);
   (0x10400, 0x10427, Delta 40); (0x104B0, 0x104D3, Delta 40);
   (0x10570, 0x1057A, Delta 39); (0x1057C, 0x1058A, Delta 39);
   (0x1058C, 0x10592, Delta 39); (0x10594, 0x10595, Delta 39);
   (0x10C80, 0x10CB2, Delta 64); (0x118A0, 0x118BF, Delta 32);
   (0x16E40, 0x16E5F, Delta 32); (0x1E900, 0x1E921, Delta 34)].

(** [unicode.to(LowerCase, r, caseRange)]: the range that holds [r]
    decides (the search of the Go code is a binary one). *)
Fixpoint to (caseRange : list (Z * Z * delta)) (r : Z) : Z :=
  match caseRange with
  | [] => r
  | (lo, hi, d) :: rest =>
      if (lo <=? r) && (r <=? hi)
      then match d with
           | Delta d => r + d
           | UpperLower => lo + Z.lor (Z.ldiff (r - lo) 1) 1
           end
      else to rest r
  end.

(** [unicode.ToLower]. *)
Definition ToLower (r : Z) : Z :=
  if r <=? MaxASCII
  then if (0x41 <=? r) && (r <=? 0x5A) then r + 0x20 else r
  else to CaseRanges r.

End unicode.

(* ===================================================================== *)
(** * The Go [strings] package                                            *)
(* ===================================================================== *)

Module strings.

Definition len (s : string) : nat := String.length s.

(** The loop of [ToLower] that looks for a byte outside ASCII. *)
Fixpoint isASCII (s : string) : bool :=
  match s with
  | EmptyString => true
  | String c r => (nat_of_ascii c <? utf8.RuneSelf) && isASCII r
  end.

(** [c += 'a' - 'A'] for ['A' <= c <= 'Z'], the step of [ToLower] on a
    string that is ASCII only. *)
Definition lowerByte (c : ascii) : ascii :=
  let n := nat_of_ascii c in
  if (65 <=? n) && (n <=? 90) then ascii_of_nat (n + 32) else c.

Fixpoint lowerASCII (s : string) : string :=
  match s with
  | EmptyString => EmptyString
  | String c r => String (lowerByte c) (lowerASCII r)
  end.

(** [strings.Map]: the runes of [s], an invalid byte read as
    [utf8.RuneError], are mapped one by one and encoded again; a negative
    result drops the rune.  [skip] counts the bytes of the rune just
    mapped that are still to be passed. *)
Fixpoint mapFrom (mapping : Z -> Z) (skip : nat) (s : string) : string :=
  match s with
  | EmptyString => EmptyString
  | String _ r =>
      match skip with
      | S k => mapFrom mapping k r
      | O =>
          let '(c, size) := utf8.DecodeRuneInString s in
          let m := mapping c in
          (if (0 <=? m)%Z then utf8.EncodeRune m else EmptyString)
          +:+ mapFrom mapping (size - 1) r
      end
  end.

Definition Map (mapping : Z -> Z) (s : string) : string := mapFrom mapping 0 s.

(** [strings.ToLower]: byte by byte on an ASCII string, rune by rune
    otherwise. *)
Definition ToLower (s : string) : string :=
  if isASCII s then lowerASCII s else Map unicode.ToLower s.

Fixpoint HasPrefix (s prefix : string) {struct prefix} : bool :=
  match prefix, s with
  | EmptyString, _ => true
  | String _ _, EmptyString => false
  | String p ps, String c r => if Ascii.eqb c p then HasPrefix r ps else false
  end.

(** [s] ends with [suffix]: one of the tails of [s] is [suffix]. *)
Fixpoint HasSuffix (s suffix : string) : bool :=
  if String.eqb s suffix then true
  else match s with
       | EmptyString => false
       | String _ r => HasSuffix r suffix
       end.

Fixpoint Contains (s substr : string) : bool :=
  if HasPrefix s substr then true
  else match s with
       | EmptyString => false
       | String _ r => Contains r substr
       end.

(** [s[n:]] and [s[:n]]. *)
Fixpoint drop (n : nat) (s : string) : string :=
  match n, s with
  | O, _ => s
  | S _, EmptyString => EmptyString
  | S k, String _ r => drop k r
  end.

Fixpoint take (n : nat) (s : string) : string :=
  match n, s with
  | O, _ => EmptyString
  | S _, EmptyString => EmptyString
  | S k, String c r => String c (take k r)
  end.

Definition TrimPrefix (s prefix : string) : string :=
  if HasPrefix s prefix then drop (len prefix) s else s.

(** Only the tail of [s] that equals [suffix] (there is at most one, by
    length) is dropped; without one, [s] is rebuilt unchanged. *)
Fixpoint TrimSuffix (s suffix : string) : string :=
  if String.eqb s suffix then EmptyString
  else match s with
       | EmptyString => EmptyString
       | String c r => String c (TrimSuffix r suffix)
       end.

(** Replacing the empty string: [new] before every byte and at the end. *)
Fixpoint interleave (new s : string) : string :=
  match s with
  | EmptyString => new
  | String c r => new +:+ String c (interleave new r)
  end.

(** Left-to-right, non-overlapping replacement of a non-empty [old];
    [skip] counts the bytes of a match that are still to be passed. *)
Fixpoint replaceFrom (old new : string) (skip : nat) (s : string) : string :=
  match s with
  | EmptyString => EmptyString
  | String c r =>
      match skip with
      | S k => replaceFrom old new k r
      | O =>
          if HasPrefix s old
          then new +:+ replaceFrom old new (len old - 1) r
          else String c (replaceFrom old new 0 r)
      end
  end.

Definition ReplaceAll (s old new : string) : string :=
  match old with
  | EmptyString => interleave new s
  | _ => replaceFrom old new 0 s
  end.

(** Splitting around a non-empty separator with at most [cuts] cuts; the
    head of the result is the piece being read. *)
Fixpoint splitFrom (sep : string) (cuts skip : nat) (s : string) : list string :=
  match s with
  | EmptyString => [EmptyString]
  | String c r =>
      match skip with
      | S k => splitFrom sep cuts k r
      | O =>
          match cuts with
          | S n =>
              if HasPrefix s sep
              then EmptyString :: splitFrom sep n (len sep - 1) r
              else match splitFrom sep cuts 0 r with
                   | p :: ps => String c p :: ps
                   | [] => [String c EmptyString]
                   end
          | O => [s]
          end
      end
  end.

Fixpoint explode (s : string) : list string :=
  match s with
  | EmptyString => []
  | String c r => String c EmptyString :: explode r
  end.

Definition Split (s sep : string) : list string :=
  match sep with
  | EmptyString => explode s
  | _ => splitFrom sep (len s) 0 s
  end.

(** [strings.SplitN(s, sep, n)] for [n > 0] and a non-empty [sep]. *)
Definition SplitN (s sep : string) (n : nat) : list string :=
  match n with
  | O => []
  | S k => splitFrom sep k 0 s
  end.

Fixpoint Join (elems : list string) (sep : string) : string :=
  match elems with
  | [] => EmptyString
  | [e] => e
  | e :: rest => e +:+ sep +:+ Join rest sep
  end.

Fixpoint Repeat (s : string) (count : nat) : string :=
  match count with
  | O => EmptyString
  | S k => s +:+ Repeat s k
  end.

Fixpoint inCutset (cutset : string) (c : ascii) : bool :=
  match cutset with
  | EmptyString => false
  | String d r => Ascii.eqb c d || inCutset r c
  end.

Fixpoint trimLeftBy (p : ascii -> bool) (s : string) : string :=
  match s with
  | EmptyString => EmptyString
  | String c r => if p c then trimLeftBy p r else s
  end.

Fixpoint trimRightBy (p : ascii -> bool) (s : string) : string :=
  match s with
  | EmptyString => EmptyString
  | String c r =>
      match trimRightBy p r with
      | EmptyString => if p c then EmptyString else String c EmptyString
      | r' => String c r'
      end
  end.

Definition TrimLeft (s cutset : string) : string := trimLeftBy (inCutset cutset) s.
Definition TrimRight (s cutset : string) : string := trimRightBy (inCutset cutset) s.
Definition Trim (s cutset : string) : string :=
  trimRightBy (inCutset cutset) (trimLeftBy (inCutset cutset) s).

(** [strings.TrimLeftFunc]: the runes at the start of [s] that satisfy [f]
    are dropped; [skip] counts the bytes of a dropped rune that are still
    to be passed. *)
Fixpoint trimLeftFuncFrom (f : Z -> bool) (skip : nat) (s : string) : string :=
  match s with
  | EmptyString => EmptyString
  | String _ r =>
      match skip with
      | S k => trimLeftFuncFrom f k r
      | O =>
          let '(c, size) := utf8.DecodeRuneInString s in
          if f c then trimLeftFuncFrom f (size - 1) r else s
      end
  end.

Definition TrimLeftFunc (s : string) (f : Z -> bool) : string :=
  trimLeftFuncFrom f 0 s.

(** [strings.TrimRightFunc]: the runes at the end of [s] that satisfy [f]
    are dropped, read backwards with [utf8.DecodeLastRuneInString]; every
    turn drops at least one byte, so [len s] turns are enough.  (Go returns
    [s] up to the end of the last rune that stays, which it decodes
    forwards from the index [lastIndexFunc] gives; that end is where the
    backwards reading stops: a byte that completes the rune would have been
    read as an error rune before it, and the two would stay or go
    together.) *)
Fixpoint trimRightFuncTurns (f : Z -> bool) (turns : nat) (s : string) : string :=
  match turns with
  | O => s
  | S n =>
      match s with
      | EmptyString => EmptyString
      | _ =>
          let '(c, size) := utf8.DecodeLastRuneInString s in
          if f c then trimRightFuncTurns f n (take (len s - size) s) else s
      end
  end.

Definition TrimRightFunc (s : string) (f : Z -> bool) : string :=
  trimRightFuncTurns f (len s) s.

Definition TrimFunc (s : string) (f : Z -> bool) : string :=
  TrimRightFunc (TrimLeftFunc s f) f.

(** [strings.TrimSpace]: Unicode white space is dropped on both sides (the
    loops over ASCII bytes the Go code starts with give the same). *)
Definition TrimSpace (s : string) : string := TrimFunc s unicode.IsSpace.

(** [strings.Cut]: the text before and after the first [sep]. *)
Fixpoint Cut (s sep : string) : string * string * bool :=
  if HasPrefix s sep then (EmptyString, drop (len sep) s, true)
  else match s with
       | EmptyString => (EmptyString, EmptyString, false)
       | String c r =>
           let '(before, after, found) := Cut r sep in
           (String c before, after, found)
       end.

Fixpoint Count (s : string) (c : ascii) : nat :=
  match s with
  | EmptyString => 0
  | String d r => (if Ascii.eqb c d then 1 else 0) + Count r c
  end.

(** [strings.Index] and [strings.LastIndex]; [None] is Go's -1. *)
Fixpoint Index (s substr : string) : option nat :=
  if HasPrefix s substr then Some 0
  else match s with
       | EmptyString => None
       | String _ r => option_map S (Index r substr)
       end.

Fixpoint LastIndex (s substr : string) : option nat :=
  match s with
  | EmptyString => if HasPrefix s substr then Some 0 else None
  | String _ r =>
      match LastIndex r substr with
      | Some i => Some (S i)
      | None => if HasPrefix s substr then Some 0 else None
      end
  end.

End strings.

(** The line feed, Go's ["\n"], and the double quote. *)
Definition LF : string := String "010"%char EmptyString.
Definition DQ : string := String "034"%char EmptyString.

(** Go's multi-valued returns [(T, error)]. *)
Inductive result (A : Type) : Type :=
| Ok (a : A)
| Err (e : string).
Arguments Ok {A} a.
Arguments Err {A} e.

(* ===================================================================== *)
(** * [net/url] and [path/filepath]                                       *)
(* ===================================================================== *)

Module url.

(** An error of [net/url] is written as its message, without the text Go
    quotes in it (the escape, the byte or the port it refuses) and without
    the [parse] prefix of [url.Error]: the renderer only tests whether there
    is an error. *)

(** The fields of [url.URL] the renderer reads. *)
Record URL : Type := mkURL {
  Scheme : string;
  Opaque : string;
  Host : string;
  Path : string;
  RawQuery : string
}.

Definition isAlpha (c : ascii) : bool :=
  let n := nat_of_ascii c in
  ((97 <=? n) && (n <=? 122)) || ((65 <=? n) && (n <=? 90)).

Definition isDigit (c : ascii) : bool :=
  let n := nat_of_ascii c in (48 <=? n) && (n <=? 57).

Definition ishex (c : ascii) : bool :=
  let n := nat_of_ascii c in
  isDigit c || ((97 <=? n) && (n <=? 102)) || ((65 <=? n) && (n <=? 70)).

Definition unhex (c : ascii) : nat :=
  let n := nat_of_ascii c in
  if isDigit c then n - 48
  else if (97 <=? n) && (n <=? 102) then n - 97 + 10
  else if (65 <=? n) && (n <=? 70) then n - 65 + 10
  else 0.

(** [stringContainsCTLByte]. *)
Fixpoint stringContainsCTLByte (s : string) : bool :=
  match s with
  | EmptyString => false
  | String c r =>
      let n := nat_of_ascii c in
      (n <? 32) || (n =? 127) || stringContainsCTLByte r
  end.

(** [getScheme]: [i] is the index of the byte being read, [raw] the whole
    input. *)
Fixpoint getSchemeFrom (raw : string) (i : nat) (s : string)
  : result (string * string) :=
  match s with
  | EmptyString => Ok (EmptyString, raw)
  | String c r =>
      if isAlpha c then getSchemeFrom raw (S i) r
      else if isDigit c || Ascii.eqb c "+" || Ascii.eqb c "-" || Ascii.eqb c "."
      then match i with
           | O => Ok (EmptyString, raw)
           | S _ => getSchemeFrom raw (S i) r
           end
      else if Ascii.eqb c ":"
      then match i with
           | O => Err "missing protocol scheme"
           | S _ => Ok (strings.take i raw, r)
           end
      else Ok (EmptyString, raw)
  end.

Definition getScheme (rawURL : string) : result (string * string) :=
  getSchemeFrom rawURL 0 rawURL.

(** The modes of [unescape] that [Parse] uses. *)
Inductive encoding : Type :=
| encodePath
| encodeHost
| encodeZone
| encodeUserPassword
| encodeFragment.

Definition hostMode (mode : encoding) : bool :=
  match mode with
  | encodeHost | encodeZone => true
  | _ => false
  end.

(** [shouldEscape(c, encodeHost)]: letters, digits, the sub-delimiters and
    the marks a host may hold are not escaped, every other byte is. *)
Definition shouldEscapeHost (c : ascii) : bool :=
  negb (isAlpha c || isDigit c
        || strings.inCutset ("!$&'()*+,;=:[]<>" +:+ DQ) c
        || strings.inCutset "-_.~" c).

(** [unescape]: [%XX] is decoded and every other byte kept.  A host may
    escape bytes above 127 and the percent sign only, a zone no byte that a
    host cannot hold, and neither may hold an ASCII byte that needs
    escaping.  (The messages of the errors, which quote the offending
    text, are shortened.) *)
Fixpoint unescape (s : string) (mode : encoding) : result string :=
  match s with
  | EmptyString => Ok EmptyString
  | String c r =>
      if Ascii.eqb c "%" then
        match r with
        | String a (String b r') =>
            if ishex a && ishex b then
              let isPercent := Ascii.eqb a "2" && Ascii.eqb b "5" in
              let v := ascii_of_nat (16 * unhex a + unhex b) in
              match mode with
              | encodeHost =>
                  if (unhex a <? 8) && negb isPercent
                  then Err "invalid URL escape"
                  else match unescape r' mode with
                       | Ok t => Ok (String v t)
                       | Err e => Err e
                       end
              | encodeZone =>
                  if negb isPercent && negb (Ascii.eqb v " ") && shouldEscapeHost v
                  then Err "invalid URL escape"
                  else match unescape r' mode with
                       | Ok t => Ok (String v t)
                       | Err e => Err e
                       end
              | _ =>
                  match unescape r' mode with
                  | Ok t => Ok (String v t)
                  | Err e => Err e
                  end
              end
            else Err "invalid URL escape"
        | _ => Err "invalid URL escape"
        end
      else if hostMode mode && (nat_of_ascii c <? 128) && shouldEscapeHost c
      then Err "invalid character in host name"
      else
        match unescape r mode with
        | Ok t => Ok (String c t)
        | Err e => Err e
        end
  end.

Fixpoint allDigits (s : string) : bool :=
  match s with
  | EmptyString => true
  | String c r => isDigit c && allDigits r
  end.

(** [validOptionalPort]: empty, or a colon and digits. *)
Definition validOptionalPort (port : string) : bool :=
  match port with
  | EmptyString => true
  | String c r => Ascii.eqb c ":" && allDigits r
  end.

(** [validUserinfo]. *)
Fixpoint validUserinfo (s : string) : bool :=
  match s with
  | EmptyString => true
  | String c r =>
      (isAlpha c || isDigit c || strings.inCutset "-._:~!$&'()*+,;=%@" c)
      && validUserinfo r
  end.

(** [parseHost]: [host[:port]], the host possibly an IP literal in
    brackets with a zone. *)
Definition parseHost (host : string) : result string :=
  if strings.HasPrefix host "[" then
    match strings.LastIndex host "]" with
    | None => Err "missing ']' in host"
    | Some i =>
        if negb (validOptionalPort (strings.drop (i + 1) host))
        then Err "invalid port after host"
        else
          match strings.Index (strings.take i host) "%25" with
          | Some zone =>
              match unescape (strings.take zone host) encodeHost with
              | Err e => Err e
              | Ok host1 =>
                  match unescape (strings.drop zone (strings.take i host))
                                 encodeZone with
                  | Err e => Err e
                  | Ok host2 =>
                      match unescape (strings.drop i host) encodeHost with
                      | Err e => Err e
                      | Ok host3 => Ok (host1 +:+ host2 +:+ host3)
                      end
                  end
              end
          | None => unescape host encodeHost
          end
    end
  else
    match strings.LastIndex host ":" with
    | Some i =>
        if negb (validOptionalPort (strings.drop i host))
        then Err "invalid port after host"
        else unescape host encodeHost
    | None => unescape host encodeHost
    end.

(** [parseAuthority]: the host of [[userinfo@]host]; the user information
    is checked, and not kept (the renderer does not read it). *)
Definition parseAuthority (authority : string) : result string :=
  let i := strings.LastIndex authority "@" in
  let host :=
    match i with
    | None => parseHost authority
    | Some i => parseHost (strings.drop (i + 1) authority)
    end in
  match host, i with
  | Err e, _ => Err e
  | Ok host, None => Ok host
  | Ok host, Some i =>
      let userinfo := strings.take i authority in
      if negb (validUserinfo userinfo) then Err "net/url: invalid userinfo"
      else if negb (strings.Contains userinfo ":") then
        match unescape userinfo encodeUserPassword with
        | Err e => Err e
        | Ok _ => Ok host
        end
      else
        let '(username, password, _) := strings.Cut userinfo ":" in
        match unescape username encodeUserPassword with
        | Err e => Err e
        | Ok _ =>
            match unescape password encodeUserPassword with
            | Err e => Err e
            | Ok _ => Ok host
            end
        end
  end.

(** [parse(rawURL, viaRequest = false)]. *)
Definition parse (rawURL : string) : result URL :=
  if stringContainsCTLByte rawURL
  then Err "net/url: invalid control character in URL"
  else if String.eqb rawURL "*"
  then Ok (mkURL EmptyString EmptyString EmptyString "*" EmptyString)
  else
    match getScheme rawURL with
    | Err e => Err e
    | Ok (scheme, rest) =>
        let scheme := strings.ToLower scheme in
        let '(rest, rawQuery) :=
          if strings.HasSuffix rest "?" && (strings.Count rest "?" =? 1)
          then (strings.take (strings.len rest - 1) rest, EmptyString)
          else let '(before, after, _) := strings.Cut rest "?" in (before, after) in
        if negb (strings.HasPrefix rest "/") && negb (String.eqb scheme EmptyString)
        then Ok (mkURL scheme rest EmptyString EmptyString rawQuery)
        else if negb (strings.HasPrefix rest "/")
                && strings.Contains (fst (fst (strings.Cut rest "/"))) ":"
        then Err "first path segment in URL cannot contain colon"
        else
          let '(host, rest) :=
            if (negb (String.eqb scheme EmptyString)
                || negb (strings.HasPrefix rest "///"))
               && strings.HasPrefix rest "//"
            then
              let authority := strings.drop 2 rest in
              let '(auth, after, found) := strings.Cut authority "/" in
              (parseAuthority auth, if found then "/" +:+ after else EmptyString)
            else (Ok EmptyString, rest) in
          match host with
          | Err e => Err e
          | Ok host =>
              match unescape rest encodePath with
              | Err e => Err e
              | Ok path => Ok (mkURL scheme EmptyString host path rawQuery)
              end
          end
    end.

(** [url.Parse]: the fragment is cut off first and must itself unescape. *)
Definition Parse (rawURL : string) : result URL :=
  let '(u, frag, _) := strings.Cut rawURL "#" in
  match parse u with
  | Err e => Err e
  | Ok parsed =>
      match unescape frag encodeFragment with
      | Err e => Err e
      | Ok _ => Ok parsed
      end
  end.

End url.

Module filepath.

(** [filepath.Ext] with ["/"] as separator: the text from the last dot of
    the last element. *)
Fixpoint Ext (path : string) : string :=
  match path with
  | EmptyString => EmptyString
  | String c r =>
      match Ext r with
      | EmptyString =>
          if Ascii.eqb c "." && negb (strings.Contains r "/") then path
          else EmptyString
      | e => e
      end
  end.

(** [filepath.Base] with ["/"] as separator. *)
Definition Base (path : string) : string :=
  if String.eqb path EmptyString then "."
  else
    let p := strings.TrimRight path "/" in
    let p := List.last (strings.Split p "/") EmptyString in
    if String.eqb p EmptyString then "/" else p.

End filepath.


(* ===================================================================== *)
(** * The data model of [github.com/jomei/notionapi]                      *)
(* ===================================================================== *)

Module notionapi.

Record Annotations : Type := mkAnnotations {
  Bold : bool;
  Italic : bool;
  Strikethrough : bool;
  Underline : bool;
  Code : bool
}.

(** The field [Annots] is Go's [Annotations], the name of its type. *)
Record RichText : Type := mkRichText {
  PlainText : string;
  Href : string;
  Annots : Annotations
}.

Definition BlockID : Type := string.

(** [BasicBlock]: what every block kind embeds. *)
Record BasicBlock : Type := mkBasic {
  ID : BlockID;
  HasChildren : bool
}.

(** An image, file, PDF or video payload: an internally hosted file, an
    external one, or neither ([nil] pointers), and a caption. *)
Record FileObject : Type := mkFileObject {
  File : option string;
  External : option string;
  Caption : list RichText
}.

(** [notionapi.Block] is an interface; the renderer switches over these
    implementations.  [OtherBlock] stands for every kind it has no case for
    (child pages, unsupported blocks, ...). *)
Inductive Block : Type :=
| ParagraphBlock (b : BasicBlock) (richText : list RichText)
| Heading1Block (b : BasicBlock) (richText : list RichText)
| Heading2Block (b : BasicBlock) (richText : list RichText)
| Heading3Block (b : BasicBlock) (richText : list RichText)
| BulletedListItemBlock (b : BasicBlock) (richText : list RichText)
| NumberedListItemBlock (b : BasicBlock) (richText : list RichText)
| ToDoBlock (b : BasicBlock) (richText : list RichText) (checked : bool)
| ToggleBlock (b : BasicBlock) (richText : list RichText)
| EquationBlock (b : BasicBlock) (expression : string)
| CodeBlock (b : BasicBlock) (richText : list RichText) (language : string)
| QuoteBlock (b : BasicBlock) (richText : list RichText)
| CalloutBlock (b : BasicBlock) (richText : list RichText)
| DividerBlock (b : BasicBlock)
| ImageBlock (b : BasicBlock) (image : FileObject)
| BookmarkBlock (b : BasicBlock) (url : string) (caption : list RichText)
| EmbedBlock (b : BasicBlock) (url : string) (caption : list RichText)
| LinkPreviewBlock (b : BasicBlock) (url : string)
| FileBlock (b : BasicBlock) (file : FileObject)
| PdfBlock (b : BasicBlock) (pdf : FileObject)
| VideoBlock (b : BasicBlock) (video : FileObject)
| TableBlock (b : BasicBlock) (hasColumnHeader : bool)
| TableRowBlock (b : BasicBlock) (cells : list (list RichText))
| ColumnListBlock (b : BasicBlock)
| ColumnBlock (b : BasicBlock)
| OtherBlock (b : BasicBlock).

(** [time.Time]: an instant (seconds and nanoseconds since the zero time)
    and the offset of its zone. *)
Record Time : Type := mkTime {
  seconds : Z;
  nanoseconds : Z;
  zoneOffset : Z
}.

Definition IsZero (t : Time) : bool :=
  Z.eqb (seconds t) 0 && Z.eqb (nanoseconds t) 0.

(** [notionapi.Property] is an interface; [OtherProperty] stands for the
    implementations [extractPropertyValue] has no case for. *)
Inductive Property : Type :=
| TitleProperty (title : list RichText)
| RichTextProperty (richText : list RichText)
| DateProperty (start : option Time)
| SelectProperty (name : string)
| MultiSelectProperty (names : list string)
| StatusProperty (name : string)
| OtherProperty.

(** [Properties] is a Go map; a page carries it as the list of its entries
    in the order the [range] statement of [parseMetadata] visits them. *)
Record Page : Type := mkPage {
  CreatedTime : Time;
  LastEditedTime : Time;
  Properties : list (string * Property)
}.

End notionapi.

Import notionapi.

(* ===================================================================== *)
(** * Slugs and link resolution                                           *)
(* ===================================================================== *)

Definition isSlugRune (r : ascii) : bool :=
  let n := nat_of_ascii r in
  ((97 <=? n) && (n <=? 122)) || ((48 <=? n) && (n <=? 57))
  || Ascii.eqb r "-" || Ascii.eqb r "_".

Fixpoint keepSlugRunes (s : string) : string :=
  match s with
  | EmptyString => EmptyString
  | String r rest =>
      if isSlugRune r then String r (keepSlugRunes rest) else keepSlugRunes rest
  end.

Definition slugify (s : string) : string :=
  let s := strings.ToLower s in
  let s := strings.ReplaceAll s " " "-" in
  keepSlugRunes s.

Module regexp.

Fixpoint allHex (s : string) : bool :=
  match s with
  | EmptyString => true
  | String c r => url.ishex c && allHex r
  end.

(** Groups of hexadecimal digits of the given sizes, separated by ["-"]. *)
Fixpoint matchGroups (groups : list nat) (s : string) : bool :=
  match groups with
  | [] => String.eqb s EmptyString
  | [n] => (strings.len s =? n) && allHex s
  | n :: gs =>
      (strings.len (strings.take n s) =? n) && allHex (strings.take n s)
      && strings.HasPrefix (strings.drop n s) "-"
      && matchGroups gs (strings.drop (S n) s)
  end.

(** A pattern of fixed width [w] anchored at the end of the text by [$]
    can only match the last [w] bytes. *)
Definition findAtEnd (groups : list nat) (w : nat) (s : string) : option string :=
  let n := strings.len s in
  if w <=? n then
    let cand := strings.drop (n - w) s in
    if matchGroups groups cand then Some cand else None
  else None.

(** [(?i)([0-9a-f]{8}-[0-9a-f]{4}-[0-9a-f]{4}-[0-9a-f]{4}-[0-9a-f]{12})$],
    first submatch. *)
Definition reDashed : string -> option string := findAtEnd [8; 4; 4; 4; 12] 36.

(** [(?i)([0-9a-f]{32})$], first submatch. *)
Definition reNoDash : string -> option string := findAtEnd [32] 32.

End regexp.

(** The identifier at the end of the last path segment and the title part
    in front of it, as [notionURLToHugoLink] extracts them. *)
Definition extractUUID (lastSegment : string) : string * string :=
  match regexp.reDashed lastSegment with
  | Some uuid =>
      let titlePart := strings.TrimSuffix lastSegment ("-" +:+ uuid) in
      let titlePart :=
        if String.eqb titlePart lastSegment
        then strings.TrimSuffix lastSegment uuid
        else titlePart in
      (uuid, titlePart)
  | None =>
      match regexp.reNoDash lastSegment with
      | Some uuid =>
          let titlePart := strings.TrimSuffix lastSegment uuid in
          let titlePart := strings.TrimSuffix titlePart "-" in
          (uuid, titlePart)
      | None => (EmptyString, EmptyString)
      end
  end.

Definition notionURLToHugoLink (raw : string) (resolve : option (string -> string))
  : string :=
  if String.eqb raw EmptyString then raw
  else
    match url.Parse raw with
    | Err _ => raw
    | Ok parsedURL =>
        if String.eqb (url.Host parsedURL) EmptyString then raw
        else if negb (strings.Contains (url.Host parsedURL) "notion.so") then raw
        else
          let pathSegments :=
            strings.Split (strings.Trim (url.Path parsedURL) "/") "/" in
          match pathSegments with
          | [] => raw
          | _ =>
              let lastSegment := List.last pathSegments EmptyString in
              let '(uuid, titlePart) := extractUUID lastSegment in
              if String.eqb uuid EmptyString then raw
              else
                let normalizedUUID := strings.ReplaceAll uuid "-" EmptyString in
                let resolvedPath :=
                  match resolve with
                  | Some f => f normalizedUUID
                  | None => EmptyString
                  end in
                if negb (String.eqb resolvedPath EmptyString) then resolvedPath
                else
                  let titlePart :=
                    if String.eqb titlePart EmptyString then lastSegment
                    else titlePart in
                  let slug := slugify (strings.ReplaceAll titlePart "-" " ") in
                  let slug :=
                    if String.eqb slug EmptyString then normalizedUUID else slug in
                  "/posts/" +:+ slug +:+ "/"
          end
    end.

(* ===================================================================== *)
(** * Rich text                                                           *)
(* ===================================================================== *)

Definition escapeBackticks (s : string) : string :=
  strings.ReplaceAll s "`" "\`".

Definition escapeMarkdown (s : string) : string :=
  let s := strings.ReplaceAll s "[" "\[" in
  let s := strings.ReplaceAll s "]" "\]" in
  s.

Definition richTextAnnotationsToMarkdown (t : RichText) : string :=
  let txt := PlainText t in
  if Code (Annots t) then "`" +:+ escapeBackticks txt +:+ "`"
  else
    let wrapped := txt in
    let wrapped := if Bold (Annots t) then "**" +:+ wrapped +:+ "**" else wrapped in
    let wrapped := if Italic (Annots t) then "*" +:+ wrapped +:+ "*" else wrapped in
    let wrapped :=
      if Strikethrough (Annots t) then "~~" +:+ wrapped +:+ "~~" else wrapped in
    let wrapped :=
      if Underline (Annots t) then "<u>" +:+ wrapped +:+ "</u>" else wrapped in
    wrapped.

(** One turn of the loop of [richTextArrToMarkdown]: what the span [t]
    appends to [result]. *)
Definition richTextSpan (resolve : option (string -> string)) (t : RichText)
  : string :=
  let txt := PlainText t in
  if negb (String.eqb (Href t) EmptyString) then
    let url := notionURLToHugoLink (Href t) resolve in
    "[" +:+ escapeMarkdown (richTextAnnotationsToMarkdown t) +:+ "](" +:+ url +:+ ")"
  else if Code (Annots t) then "`" +:+ escapeBackticks txt +:+ "`"
  else
    let wrapped := txt in
    let wrapped := if Bold (Annots t) then "**" +:+ wrapped +:+ "**" else wrapped in
    let wrapped := if Italic (Annots t) then "*" +:+ wrapped +:+ "*" else wrapped in
    let wrapped :=
      if Strikethrough (Annots t) then "~~" +:+ wrapped +:+ "~~" else wrapped in
    let wrapped :=
      if Underline (Annots t) then "<u>" +:+ wrapped +:+ "</u>" else wrapped in
    wrapped.

Definition richTextArrToMarkdown (arr : list RichText)
  (resolve : option (string -> string)) : string :=
  fold_left (fun result t => result +:+ richTextSpan resolve t) arr EmptyString.

Definition dedentChildContent (childContent : string) : string :=
  if String.eqb childContent EmptyString then childContent
  else
    let lines := strings.Split childContent LF in
    let lines :=
      map (fun l => if strings.HasPrefix l "    " then strings.TrimPrefix l "    " else l)
          lines in
    strings.Join lines LF.

Definition shortenURLLabel (raw : string) : string :=
  if String.eqb raw EmptyString then EmptyString
  else
    let max := 40 in
    let fallback :=
      if strings.len raw <=? max then raw
      else strings.take (max - 3) raw +:+ "..." in
    match url.Parse raw with
    | Err _ => fallback
    | Ok u =>
        if String.eqb (url.Scheme u) EmptyString then fallback
        else
          let filename := filepath.Base (url.Path u) in
          let hostAndPath :=
            if negb (String.eqb (url.Host u) EmptyString) then
              let cleanURL := url.Host u +:+ url.Path u in
              let cleanURL :=
                if negb (String.eqb (url.RawQuery u) EmptyString)
                then cleanURL +:+ "?" +:+ url.RawQuery u
                else cleanURL in
              if strings.len cleanURL <=? max then cleanURL
              else
                let pathParts :=
                  strings.Split (strings.Trim (url.Path u) "/") "/" in
                let first := List.hd EmptyString pathParts in
                let candidate := url.Host u +:+ "/" +:+ first in
                if (0 <? length pathParts) && negb (String.eqb first EmptyString)
                   && (strings.len candidate <=? max)
                then candidate +:+ "..."
                else if strings.len (url.Host u) <=? max - 3
                then url.Host u +:+ "..."
                else fallback
            else fallback in
          if negb (String.eqb filename ".") && negb (String.eqb filename "/")
             && strings.Contains filename "."
          then
            if (strings.len filename <=? max - 10)
               && negb (String.eqb (url.Host u) EmptyString)
               && (strings.len (url.Host u) + strings.len filename + 5 <=? max)
            then url.Host u +:+ "/.../" +:+ filename
            else if strings.len filename <=? max then filename
            else if max - 3 <? strings.len filename then
              let ext := filepath.Ext filename in
              let nameLen := max - strings.len ext - 3 in
              let base :=
                strings.take (strings.len filename - strings.len ext) filename in
              if (strings.len ext <=? 8) && (0 <? strings.len ext)
                 && (0 <? nameLen) && (nameLen <? strings.len base)
              then strings.take nameLen base +:+ "..." +:+ ext
              else strings.take (max - 3) filename +:+ "..."
            else hostAndPath
          else hostAndPath
    end.

Definition captionFirstParagraph (arr : list RichText)
  (resolve : option (string -> string)) : string :=
  match arr with
  | [] => EmptyString
  | _ =>
      let full := richTextArrToMarkdown arr resolve in
      let parts := strings.Split full (LF +:+ LF) in
      match parts with
      | [] => strings.TrimSpace full
      | p :: _ => strings.TrimSpace p
      end
  end.


(* ===================================================================== *)
(** * The outside world                                                   *)
(* ===================================================================== *)

(** Values held by the open [Properties] map of the front matter
    ([map[string]interface{}]): only these shapes are ever stored. *)
Inductive PropValue : Type :=
| VString (s : string)
| VStrings (l : list string)
| VBool (b : bool).

(** Pure library functions the renderer calls and whose results no
    statement below depends on. *)
Class Library : Type := {
  (** [fmt.Sprintf("%x", sha256.Sum(...))] *)
  sha256_hex : string -> string;
  (** [Time.Format("2006-01-02T15:04:05Z07:00")] *)
  time_Format : Time -> string;
  yaml_Marshal : gmap string PropValue -> result string;
  filepath_Dir : string -> string;
  filepath_Join : list string -> string;
  filepath_ToSlash : string -> string
}.

Record Response : Type := mkResponse {
  StatusCode : nat;
  Body : string
}.

(** Effects on a world [W]: the order in which a [range] statement visits a
    Go map, the file system and the HTTP client. *)
Class Platform (W : Type) : Type := {
  map_range : list (string * string) -> W -> list (string * string) * W;
  map_range_perm : forall l w, Permutation (fst (map_range l w)) l;
  os_MkdirAll : string -> W -> option string * W;
  (** [true] when [os.Stat] returns no error *)
  os_Stat : string -> W -> bool * W;
  http_Get : string -> W -> result Response * W;
  os_Create : string -> W -> option string * W;
  (** [io.Copy(file, resp.Body)], the file named by its path *)
  io_Copy : string -> string -> W -> option string * W
}.

(** Computations on the world. *)
Definition M (W A : Type) : Type := W -> A * W.

#[global] Instance M_ret {W : Type} : MRet (M W) := fun A a w => (a, w).

#[global] Instance M_bind {W : Type} : MBind (M W) :=
  fun A B k m w => let '(a, w') := m w in k a w'.

(* ===================================================================== *)
(** * Templates ([render_config])                                         *)
(* ===================================================================== *)

Record RenderConfig : Type := mkRenderConfig {
  MathTemplate : string;
  DetailsTemplate : string;
  VideoTemplate : string;
  PDFTemplate : string;
  EmbedTemplate : string;
  CalloutTemplate : string;
  FileTemplate : string
}.

(** The body of [renderTemplate] once the order of the [range] is known. *)
Definition renderTemplateIn (template : string) (data : list (string * string))
  : string :=
  fold_left
    (fun result kv => strings.ReplaceAll result ("{{." +:+ fst kv +:+ "}}") (snd kv))
    data template.

Definition renderTemplate {W} `{Platform W} (template : string)
  (data : list (string * string)) : M W string :=
  visited ← map_range data;
  mret (renderTemplateIn template visited).

Definition DefaultRenderConfig : RenderConfig :=
  {| MathTemplate := "{{< math >}}" +:+ LF +:+ "$$" +:+ LF +:+ "{{.Expression}}"
                     +:+ LF +:+ "$$" +:+ LF +:+ "{{< /math >}}";
     DetailsTemplate := "{{< details summary=" +:+ DQ +:+ "{{.Summary}}" +:+ DQ +:+ ">}}" +:+ LF
                        +:+ "{{.Content}}" +:+ LF +:+ "{{< /details >}}";
     VideoTemplate := "{{< video src=" +:+ DQ +:+ "{{.URL}}" +:+ DQ +:+ " >}}";
     PDFTemplate := "{{< pdf src=" +:+ DQ +:+ "{{.URL}}" +:+ DQ +:+ " >}}";
     EmbedTemplate := "{{< embed url=" +:+ DQ +:+ "{{.URL}}" +:+ DQ +:+ " >}}";
     CalloutTemplate := "> {{.Content}}";
     FileTemplate := "[{{.Text}}]({{.URL}})" |}.

(* ===================================================================== *)
(** * The file cache ([file_cache.go])                                    *)
(* ===================================================================== *)

Record FileCache : Type := mkFileCache {
  basePath : string
}.

Definition NewFileCache (basePath : string) : FileCache := mkFileCache basePath.

Definition itoa (n : nat) : string := NilEmpty.string_of_uint (Nat.to_uint n).

Section FileCacheOps.
Context `{Library} {W : Type} `{Platform W}.

Definition extractFileIdentifier (notionURL : string) : string :=
  match url.Parse notionURL with
  | Err _ => notionURL
  | Ok parsed =>
      if strings.Contains (url.Host parsed) "amazonaws.com" then url.Path parsed
      else if strings.Contains (url.Host parsed) "notion.so"
      then url.Host parsed +:+ url.Path parsed
      else url.Host parsed +:+ url.Path parsed
  end.

Definition extractExtension (u : string) : string :=
  match url.Parse u with
  | Err _ => ".bin"
  | Ok parsed =>
      let path := url.Path parsed in
      let ext := filepath.Ext path in
      if String.eqb ext EmptyString then
        if strings.Contains u "image" then ".jpg"
        else if strings.Contains u "video" then ".mp4"
        else if strings.Contains u "pdf" then ".pdf"
        else ".bin"
      else ext
  end.

Definition generateFilename (notionURL : string) : result string :=
  let ext := extractExtension notionURL in
  let fileId := extractFileIdentifier notionURL in
  let hash := sha256_hex fileId in
  let filename := strings.take 8 hash +:+ ext in
  Ok filename.

(** [None] is Go's [nil] error. *)
Definition downloadFile (url localPath : string) : M W (option string) :=
  resp ← http_Get url;
  match resp with
  | Err err => mret (Some ("failed to fetch URL " +:+ url +:+ ": " +:+ err))
  | Ok resp =>
      if negb (StatusCode resp =? 200)
      then mret (Some ("HTTP " +:+ itoa (StatusCode resp) +:+ " when fetching " +:+ url))
      else
        created ← os_Create localPath;
        match created with
        | Some err =>
            mret (Some ("failed to create file " +:+ localPath +:+ ": " +:+ err))
        | None =>
            copied ← io_Copy localPath (Body resp);
            match copied with
            | Some err =>
                mret (Some ("failed to write file " +:+ localPath +:+ ": " +:+ err))
            | None => mret None
            end
        end
  end.

Definition CacheFile (fc : FileCache) (notionURL articlePath : string)
  : M W (result string) :=
  let articleDir := filepath_Dir articlePath in
  let fullArticleDir := filepath_Join [basePath fc; articleDir] in
  made ← os_MkdirAll fullArticleDir;
  match made with
  | Some err =>
      mret (Err ("failed to create directory " +:+ fullArticleDir +:+ ": " +:+ err))
  | None =>
      match generateFilename notionURL with
      | Err err => mret (Err ("failed to generate filename: " +:+ err))
      | Ok filename =>
          let localPath := filepath_Join [fullArticleDir; filename] in
          exists_ ← os_Stat localPath;
          if (exists_ : bool) then mret (Ok ("./" +:+ filename))
          else
            failed ← downloadFile notionURL localPath;
            match failed with
            | Some err => mret (Err ("failed to download file: " +:+ err))
            | None => mret (Ok ("./" +:+ filename))
            end
      end
  end.

End FileCacheOps.

(* ===================================================================== *)
(** * Per-kind formatters ([block_types.go])                              *)
(* ===================================================================== *)

Definition paragraphToMarkdown (richText : list RichText)
  (resolve : option (string -> string)) : string :=
  richTextArrToMarkdown richText resolve.

Definition heading1ToMarkdown (richText : list RichText)
  (resolve : option (string -> string)) : string :=
  "# " +:+ richTextArrToMarkdown richText resolve.

Definition heading2ToMarkdown (richText : list RichText)
  (resolve : option (string -> string)) : string :=
  "## " +:+ richTextArrToMarkdown richText resolve.

Definition heading3ToMarkdown (richText : list RichText)
  (resolve : option (string -> string)) : string :=
  "### " +:+ richTextArrToMarkdown richText resolve.

Definition renderListItemWithChild (base childContent : string) : string :=
  if String.eqb childContent EmptyString then base
  else base +:+ LF +:+ childContent.

Definition bulletedListItemToMarkdown (richText : list RichText)
  (childContent : string) (resolve : option (string -> string)) : string :=
  let base := "- " +:+ richTextArrToMarkdown richText resolve in
  renderListItemWithChild base childContent.

Definition numberedListItemToMarkdown (richText : list RichText)
  (childContent : string) (resolve : option (string -> string)) : string :=
  let base := "1. " +:+ richTextArrToMarkdown richText resolve in
  renderListItemWithChild base childContent.

Definition toDoToMarkdown (richText : list RichText) (isChecked : bool)
  (childContent : string) (resolve : option (string -> string)) : string :=
  let checked := if isChecked then "x" else " " in
  let base := "- [" +:+ checked +:+ "] " +:+ richTextArrToMarkdown richText resolve in
  renderListItemWithChild base childContent.

Definition codeToMarkdown (richText : list RichText) (language : string)
  (resolve : option (string -> string)) : string :=
  "```" +:+ language +:+ LF +:+ richTextArrToMarkdown richText resolve +:+ LF +:+ "```".

Definition quoteToMarkdown (richText : list RichText)
  (resolve : option (string -> string)) : string :=
  "> " +:+ richTextArrToMarkdown richText resolve.

Definition dividerToMarkdown : string := "---".

(** The first non-blank line decides whether the callout needs a separating
    quote line (the loop of [calloutToMarkdown] that ends in [break]). *)
Fixpoint calloutAddSeparator (lines : list string) : bool :=
  match lines with
  | [] => false
  | l :: rest =>
      let t := strings.TrimSpace l in
      if String.eqb t EmptyString then calloutAddSeparator rest
      else if strings.HasPrefix t "-" || strings.HasPrefix t "1."
              || strings.HasPrefix t "*" || strings.HasPrefix t "<"
              || strings.HasPrefix t "|"
      then false
      else true
  end.

(** The text [calloutToMarkdown] hands to its template. *)
Definition calloutContent (richText : list RichText) (childContent : string)
  (resolve : option (string -> string)) : string :=
  let contentText := richTextArrToMarkdown richText resolve in
  if negb (String.eqb childContent EmptyString) then
    let childContent := dedentChildContent childContent in
    let lines := strings.Split childContent LF in
    let addSeparator := calloutAddSeparator lines in
    let childLines := if addSeparator then ["> "] else [] in
    let childLines :=
      childLines ++
      map (fun l => if String.eqb (strings.TrimSpace l) EmptyString then "> "
                    else "> " +:+ l) lines in
    contentText +:+ LF +:+ strings.Join childLines LF
  else contentText.

(** The rows of a table, parsed from the rendered child content. *)
Definition tableParseLine (ln : string) : list string :=
  let parts :=
    if strings.Contains ln " | " then strings.Split ln " | "
    else strings.Split ln "|" in
  map strings.TrimSpace parts.

Definition tableParse (lines : list string) : list (list string) :=
  map tableParseLine
      (filter (fun ln => negb (String.eqb (strings.TrimSpace ln) EmptyString)) lines).

Definition tableMaxCols (parsed : list (list string)) : nat :=
  fold_left (fun maxCols parts => if maxCols <? length parts then length parts else maxCols)
            parsed 0.

Definition tablePad (maxCols : nat) (parts : list string) : list string :=
  if length parts <? maxCols
  then parts ++ repeat EmptyString (maxCols - length parts)
  else parts.

Definition tableNormalize (maxCols : nat) (parts : list string) : string :=
  "| " +:+ strings.Join (tablePad maxCols parts) " | " +:+ " |".

Definition tableToMarkdown (hasColumnHeader : bool) (childContent : string) : string :=
  let childContent := dedentChildContent childContent in
  let s := strings.TrimSpace childContent in
  if String.eqb s EmptyString then EmptyString
  else
    let lines := strings.Split s LF in
    match lines with
    | [] => EmptyString
    | _ =>
        let parsed := tableParse lines in
        let maxCols := tableMaxCols parsed in
        match parsed with
        | [] => EmptyString
        | _ =>
            let normalized := map (tableNormalize maxCols) parsed in
            match hasColumnHeader, normalized with
            | true, header :: others =>
                let sep := repeat "---" maxCols in
                let rest :=
                  match others with
                  | [] => EmptyString
                  | _ => LF +:+ strings.Join others LF
                  end in
                header +:+ LF +:+ "| " +:+ strings.Join sep " | " +:+ " |" +:+ rest
            | _, _ => strings.Join normalized LF
            end
        end
    end.

Definition tableRowToMarkdown (cells : list (list RichText))
  (resolve : option (string -> string)) : string :=
  match cells with
  | [] => EmptyString
  | _ =>
      let cols :=
        map (fun cell => strings.TrimSpace (richTextArrToMarkdown cell resolve)) cells in
      strings.Join cols " | "
  end.

Definition COLUMN_BREAK : string := "__COLUMN_BREAK__".

Definition columnListToMarkdown (childContent : string) : string :=
  if String.eqb (strings.TrimSpace childContent) EmptyString then EmptyString
  else
    let childContent := dedentChildContent childContent in
    let parts := strings.Split childContent COLUMN_BREAK in
    let cols :=
      map (fun p => "<td>" +:+ LF +:+ LF +:+ p +:+ LF +:+ "</td>")
          (filter (fun p => negb (String.eqb p EmptyString))
                  (map strings.TrimSpace parts)) in
    match cols with
    | [] => EmptyString
    | _ => "<table><tr>" +:+ strings.Join cols EmptyString +:+ "</tr></table>"
    end.

Definition columnToMarkdown (childContent : string) : string :=
  dedentChildContent childContent.

Definition renderLinkWithCaption (url : string) (caption : list RichText) : string :=
  let viaLabel := "[" +:+ escapeMarkdown (shortenURLLabel url) +:+ "](" +:+ url +:+ ")" in
  match caption with
  | [] => viaLabel
  | _ =>
      let text := captionFirstParagraph caption None in
      if negb (String.eqb text EmptyString)
      then "[" +:+ text +:+ "](" +:+ url +:+ ")"
      else viaLabel
  end.

Definition bookmarkToMarkdown (url : string) (caption : list RichText) : string :=
  renderLinkWithCaption url caption.

Definition linkPreviewToMarkdown (url : string) : string :=
  let text := shortenURLLabel url in
  "[" +:+ escapeMarkdown text +:+ "](" +:+ url +:+ ")".

(** The four extractors ([imageURLExtractor], [fileURLExtractorImpl],
    [pdfURLExtractor], [videoURLExtractor]) share this body. *)
Definition getFileURL (f : FileObject) : string * bool :=
  match File f, External f with
  | Some u, _ => (u, true)
  | None, Some u => (u, false)
  | None, None => (EmptyString, false)
  end.

Definition getCaption (f : FileObject) : list RichText := Caption f.

Section Formatters.
Context `{Library} {W : Type} `{Platform W}.

Definition toggleToMarkdown (richText : list RichText) (childContent : string)
  (resolve : option (string -> string)) (config : RenderConfig) : M W string :=
  let summary := richTextArrToMarkdown richText resolve in
  if String.eqb childContent EmptyString then mret ("> " +:+ summary)
  else
    let childContent := dedentChildContent childContent in
    renderTemplate (DetailsTemplate config)
                   [("Summary", summary); ("Content", childContent)].

Definition equationToMarkdown (expression : string) (config : RenderConfig)
  : M W string :=
  if negb (String.eqb expression EmptyString)
  then renderTemplate (MathTemplate config) [("Expression", expression)]
  else mret EmptyString.

Definition calloutToMarkdown (richText : list RichText) (childContent : string)
  (resolve : option (string -> string)) (config : RenderConfig) : M W string :=
  renderTemplate (CalloutTemplate config)
                 [("Content", calloutContent richText childContent resolve)].

Definition embedToMarkdown (url : string) (caption : list RichText)
  (config : RenderConfig) : M W string :=
  let text :=
    match caption with
    | [] => EmptyString
    | _ => captionFirstParagraph caption None
    end in
  let text :=
    if String.eqb text EmptyString then escapeMarkdown (shortenURLLabel url)
    else text in
  renderTemplate (EmbedTemplate config) [("URL", url); ("Text", text)].

Definition processFileURLWithCache (extractor : FileObject)
  (fileCache : option FileCache) (articlePath : string) : M W (string * string) :=
  let '(originalURL, shouldCache) := getFileURL extractor in
  if String.eqb originalURL EmptyString then mret (EmptyString, EmptyString)
  else
    let caption := getCaption extractor in
    let text :=
      match caption with
      | [] => EmptyString
      | _ => captionFirstParagraph caption None
      end in
    let text :=
      if String.eqb text EmptyString then escapeMarkdown (shortenURLLabel originalURL)
      else text in
    match fileCache with
    | Some fc =>
        if shouldCache && negb (String.eqb articlePath EmptyString) then
          cached ← CacheFile fc originalURL articlePath;
          match cached with
          | Ok cachedPath => mret (cachedPath, text)
          | Err _ => mret (originalURL, text)
          end
        else mret (originalURL, text)
    | None => mret (originalURL, text)
    end.

Definition imageToMarkdownWithCache (image : FileObject)
  (fileCache : option FileCache) (articlePath : string) : M W string :=
  '(url, alt) ← processFileURLWithCache image fileCache articlePath;
  if String.eqb url EmptyString then mret EmptyString
  else mret ("![" +:+ escapeMarkdown alt +:+ "](" +:+ url +:+ ")").

Definition fileToMarkdownWithCache (file : FileObject)
  (fileCache : option FileCache) (articlePath : string) (config : RenderConfig)
  : M W string :=
  '(url, text) ← processFileURLWithCache file fileCache articlePath;
  if String.eqb url EmptyString then mret EmptyString
  else renderTemplate (FileTemplate config) [("URL", url); ("Text", text)].

Definition pdfToMarkdownWithCache (pdf : FileObject)
  (fileCache : option FileCache) (articlePath : string) (config : RenderConfig)
  : M W string :=
  '(url, text) ← processFileURLWithCache pdf fileCache articlePath;
  if String.eqb url EmptyString then mret EmptyString
  else renderTemplate (PDFTemplate config) [("URL", url); ("Text", text)].

Definition videoToMarkdownWithCache (video : FileObject)
  (fileCache : option FileCache) (articlePath : string) (config : RenderConfig)
  : M W string :=
  '(url, text) ← processFileURLWithCache video fileCache articlePath;
  if String.eqb url EmptyString then mret EmptyString
  else renderTemplate (VideoTemplate config) [("URL", url); ("Text", text)].

(** The formatter of every kind, with the flag that tells list items. *)
Definition blockToMarkdownWithCache (block : Block) (childContent : string)
  (resolve : option (string -> string)) (fileCache : option FileCache)
  (articlePath : string) (config : RenderConfig) : M W (string * bool) :=
  match block with
  | ParagraphBlock _ rt => mret (paragraphToMarkdown rt resolve, false)
  | Heading1Block _ rt => mret (heading1ToMarkdown rt resolve, false)
  | Heading2Block _ rt => mret (heading2ToMarkdown rt resolve, false)
  | Heading3Block _ rt => mret (heading3ToMarkdown rt resolve, false)
  | BulletedListItemBlock _ rt =>
      mret (bulletedListItemToMarkdown rt childContent resolve, true)
  | NumberedListItemBlock _ rt =>
      mret (numberedListItemToMarkdown rt childContent resolve, true)
  | ToDoBlock _ rt checked => mret (toDoToMarkdown rt checked childContent resolve, true)
  | ToggleBlock _ rt =>
      s ← toggleToMarkdown rt childContent resolve config; mret (s, false)
  | EquationBlock _ expression =>
      s ← equationToMarkdown expression config; mret (s, false)
  | CodeBlock _ rt language => mret (codeToMarkdown rt language resolve, false)
  | QuoteBlock _ rt => mret (quoteToMarkdown rt resolve, false)
  | CalloutBlock _ rt =>
      s ← calloutToMarkdown rt childContent resolve config; mret (s, false)
  | DividerBlock _ => mret (dividerToMarkdown, false)
  | ImageBlock _ image =>
      s ← imageToMarkdownWithCache image fileCache articlePath; mret (s, false)
  | BookmarkBlock _ url caption => mret (bookmarkToMarkdown url caption, false)
  | EmbedBlock _ url caption =>
      s ← embedToMarkdown url caption config; mret (s, false)
  | LinkPreviewBlock _ url => mret (linkPreviewToMarkdown url, false)
  | FileBlock _ file =>
      s ← fileToMarkdownWithCache file fileCache articlePath config; mret (s, false)
  | PdfBlock _ pdf =>
      s ← pdfToMarkdownWithCache pdf fileCache articlePath config; mret (s, false)
  | VideoBlock _ video =>
      s ← videoToMarkdownWithCache video fileCache articlePath config; mret (s, false)
  | TableBlock _ hasColumnHeader =>
      mret (tableToMarkdown hasColumnHeader childContent, false)
  | TableRowBlock _ cells => mret (tableRowToMarkdown cells resolve, false)
  | ColumnListBlock _ => mret (columnListToMarkdown childContent, false)
  | ColumnBlock _ => mret (columnToMarkdown childContent, false)
  | OtherBlock _ => mret (EmptyString, false)
  end.

End Formatters.

(* ===================================================================== *)
(** * Metadata, paths and front matter ([renderer.go])                    *)
(* ===================================================================== *)

(** [config] is a pointer in Go; the formatters of the template kinds read
    through it, so the renderer is given one. *)
Record Renderer : Type := mkRenderer {
  resolve : option (string -> string);
  fileCache : option FileCache;
  config : RenderConfig
}.

Definition New (resolve : option (string -> string)) (basePath : string)
  (config : RenderConfig) : Renderer :=
  mkRenderer resolve (Some (NewFileCache basePath)) config.

Record metadata : Type := mkMetadata {
  Title : string;
  Slug : string;
  pathType : string;
  Properties : gmap string PropValue
}.

Definition setProperty (m : metadata) (k : string) (v : PropValue) : metadata :=
  mkMetadata (Title m) (Slug m) (pathType m) (<[k := v]> (Properties m)).

Definition setPathType (m : metadata) (t : string) : metadata :=
  mkMetadata (Title m) (Slug m) t (Properties m).

Section Metadata.
Context `{Library}.

(** [None] is the [nil] interface value. *)
Definition extractPropertyValue (prop : Property) : option PropValue :=
  match prop with
  | TitleProperty (t :: _) => Some (VString (PlainText t))
  | TitleProperty [] => None
  | RichTextProperty (t :: _) => Some (VString (PlainText t))
  | RichTextProperty [] => None
  | DateProperty (Some start) => Some (VString (time_Format start))
  | DateProperty None => None
  | SelectProperty name => Some (VString name)
  | MultiSelectProperty names => Some (VStrings names)
  | StatusProperty name => Some (VString name)
  | OtherProperty => None
  end.

(** The [case "type"] arm of [parseMetadata], for a non-empty string. *)
Definition parseType (m : metadata) (originalType : string) : metadata :=
  let m := setProperty m "type" (VString originalType) in
  if strings.Contains originalType ":" then
    match strings.SplitN originalType ":" 2 with
    | [part0; part1] =>
        let pathCategory := strings.ToLower (strings.TrimSpace part0) in
        let typeValue := strings.TrimSpace part1 in
        if String.eqb pathCategory "pages"
        then setProperty (setPathType m "pages") "type" (VString typeValue)
        else setPathType m (strings.ToLower originalType)
    | _ => setPathType m (strings.ToLower originalType)
    end
  else
    let lowerType := strings.ToLower originalType in
    if String.eqb lowerType "post"
    then setProperty (setPathType m "posts") "type" (VString "posts")
    else setPathType m lowerType.

(** One turn of the loop over [page.Properties]. *)
Definition parseProperty (m : metadata) (entry : string * Property) : metadata :=
  let '(k, prop) := entry in
  let lowerKey := strings.ToLower k in
  if String.eqb lowerKey "title" || String.eqb lowerKey "name" then
    match prop with
    | TitleProperty (t :: _) =>
        setProperty (mkMetadata (PlainText t) (Slug m) (pathType m) (Properties m))
                    "title" (VString (PlainText t))
    | _ => m
    end
  else if String.eqb lowerKey "slug" then
    match extractPropertyValue prop with
    | Some (VString str) =>
        if negb (String.eqb str EmptyString)
        then setProperty (mkMetadata (Title m) str (pathType m) (Properties m))
                         "slug" (VString str)
        else m
    | _ => m
    end
  else if String.eqb lowerKey "date" then
    match prop with
    | DateProperty (Some start) => setProperty m "date" (VString (time_Format start))
    | _ => m
    end
  else if String.eqb lowerKey "type" then
    match extractPropertyValue prop with
    | Some (VString str) =>
        if negb (String.eqb str EmptyString) then parseType m str else m
    | _ => m
    end
  else if String.eqb lowerKey "status" then
    match prop with
    | StatusProperty statusName =>
        let m := setProperty m "status" (VString statusName) in
        if String.eqb (strings.ToLower statusName) "draft"
        then setProperty m "draft" (VBool true)
        else m
    | _ => m
    end
  else
    match extractPropertyValue prop with
    | Some value => setProperty m k value
    | None => m
    end.

Definition parseMetadata (page : Page) : metadata :=
  let m := mkMetadata "untitled" EmptyString EmptyString ∅ in
  let m :=
    if negb (IsZero (CreatedTime page))
    then setProperty m "date" (VString (time_Format (CreatedTime page)))
    else m in
  let m :=
    if negb (IsZero (LastEditedTime page))
    then setProperty m "lastmod" (VString (time_Format (LastEditedTime page)))
    else m in
  let m := fold_left parseProperty (notionapi.Properties page) m in
  let slug := if String.eqb (Slug m) EmptyString then Title m else Slug m in
  let m := mkMetadata (Title m) (slugify slug) (pathType m) (Properties m) in
  if String.eqb (pathType m) EmptyString then
    match Properties m !! "type" with
    | Some (VString str) => setPathType m str
    | _ => m
    end
  else m.

Definition GetPageSlug (page : Page) : string := Slug (parseMetadata page).

Definition GetPagePath (page : Page) : string :=
  let m := parseMetadata page in
  let safeType := slugify (pathType m) in
  if String.eqb safeType EmptyString then "/posts/" +:+ Slug m +:+ "/"
  else if String.eqb safeType "pages" then "/" +:+ Slug m +:+ "/"
  else "/" +:+ safeType +:+ "/" +:+ Slug m +:+ "/".

Definition buildFilename (m : metadata) : string :=
  let safeType := slugify (pathType m) in
  if String.eqb safeType EmptyString
  then filepath_ToSlash (filepath_Join ["posts"; Slug m; "index.md"])
  else if String.eqb safeType "pages"
  then filepath_ToSlash (filepath_Join [Slug m; "index.md"])
  else filepath_ToSlash (filepath_Join [safeType; Slug m; "index.md"]).

Definition buildFrontMatter (m : metadata) : result string :=
  match yaml_Marshal (Properties m) with
  | Err err => Err err
  | Ok out => Ok ("---" +:+ LF +:+ out +:+ "---" +:+ LF +:+ LF)
  end.

End Metadata.

(* ===================================================================== *)
(** * The recursive renderer ([renderer.go])                              *)
(* ===================================================================== *)

(** The renderer runs in the world extended with the record of the calls
    made to the children-fetch callback: the identifier asked for and the
    answer.  The Go code never reads this record. *)
Definition Call : Type := BlockID * result (list Block).
Definition Traced (W : Type) : Type := W * list Call.

Definition liftW {W A : Type} (m : M W A) : M (Traced W) A :=
  fun st => let '(a, w') := m (fst st) in (a, (w', snd st)).

Definition fetch {W : Type} (getChildren : BlockID -> M W (result (list Block)))
  (id : BlockID) : M (Traced W) (result (list Block)) :=
  fun st =>
    let '(r, w') := getChildren id (fst st) in (r, (w', snd st ++ [(id, r)])).

(** A recursion bounded by fuel either returns what the Go function returns
    or runs out of fuel. *)
Inductive outcome (A : Type) : Type :=
| Returns (a : A)
| OutOfFuel.
Arguments Returns {A} a.
Arguments OutOfFuel {A}.

Definition getBlockIDAndHasChildren (block : Block) : BlockID * bool :=
  match block with
  | ParagraphBlock b _ => (ID b, HasChildren b)
  | Heading1Block b _ => (ID b, HasChildren b)
  | Heading2Block b _ => (ID b, HasChildren b)
  | Heading3Block b _ => (ID b, HasChildren b)
  | BulletedListItemBlock b _ => (ID b, HasChildren b)
  | NumberedListItemBlock b _ => (ID b, HasChildren b)
  | ToDoBlock b _ _ => (ID b, HasChildren b)
  | ToggleBlock b _ => (ID b, HasChildren b)
  | EquationBlock b _ => (ID b, HasChildren b)
  | CodeBlock b _ _ => (ID b, HasChildren b)
  | QuoteBlock b _ => (ID b, HasChildren b)
  | CalloutBlock b _ => (ID b, HasChildren b)
  | DividerBlock b => (ID b, HasChildren b)
  | ImageBlock b _ => (ID b, HasChildren b)
  | BookmarkBlock b _ _ => (ID b, HasChildren b)
  | EmbedBlock b _ _ => (ID b, HasChildren b)
  | FileBlock b _ => (ID b, HasChildren b)
  | VideoBlock b _ => (ID b, HasChildren b)
  | TableBlock b _ => (ID b, HasChildren b)
  | TableRowBlock b _ => (ID b, HasChildren b)
  | ColumnListBlock b => (ID b, HasChildren b)
  | ColumnBlock b => (ID b, HasChildren b)
  | LinkPreviewBlock _ _ | PdfBlock _ _ | OtherBlock _ => (EmptyString, false)
  end.

Definition isColumnListBlock (block : Block) : bool :=
  match block with
  | ColumnListBlock _ => true
  | _ => false
  end.

(** The indentation a parent gives to the lines of its children. *)
Definition childIndent (block : Block) : string :=
  match block with
  | BulletedListItemBlock _ _ | NumberedListItemBlock _ _ | ToDoBlock _ _ _ =>
      strings.Repeat " " 4
  | _ => EmptyString
  end.

(** What one child adds to [childContent] in the loop of [renderBlock]. *)
Definition appendChild (block : Block) (childContent : string)
  (prevChildIsList : bool) (cstr : string) (childIsList : bool) : string :=
  let indent := childIndent block in
  let lines := strings.Split (strings.TrimRight cstr LF) LF in
  let lines :=
    map (fun l => if String.eqb (strings.TrimSpace l) EmptyString then l
                  else indent +:+ l) lines in
  let rendered := strings.Join lines LF in
  let sep := if prevChildIsList && childIsList then LF else LF +:+ LF in
  let childContent :=
    if String.eqb childContent EmptyString then rendered
    else childContent +:+ sep +:+ rendered in
  if isColumnListBlock block
  then childContent +:+ LF +:+ COLUMN_BREAK +:+ LF
  else childContent.

(** What one block adds to [markdown] in the loop of
    [renderBlocksRecursive]. *)
Definition appendBlock (markdown : string) (prevIsList : bool) (s : string)
  (isList : bool) : string :=
  let markdown :=
    if negb (String.eqb markdown EmptyString) then
      if prevIsList && isList then markdown +:+ LF else markdown +:+ LF +:+ LF
    else markdown in
  markdown +:+ s.

Section Render.
Context `{Library} {W : Type} `{Platform W}.
Variable r : Renderer.
Variable getChildren : option (BlockID -> M W (result (list Block))).
Variable resolver : option (string -> string).
Variable articlePath : string.

(** The loop over the children of [block]; [render] is [renderBlock] with
    the fuel that is left. *)
Fixpoint renderChildren
  (render : Block -> M (Traced W) (outcome (string * bool * option string)))
  (block : Block) (children : list Block) (childContent : string)
  (prevChildIsList : bool) : M (Traced W) (outcome (string * option string)) :=
  match children with
  | [] => mret (Returns (childContent, None))
  | cb :: rest =>
      rendered ← render cb;
      match rendered with
      | OutOfFuel => mret OutOfFuel
      | Returns (_, _, Some err) => mret (Returns (EmptyString, Some err))
      | Returns (cstr, childIsList, None) =>
          renderChildren render block rest
            (appendChild block childContent prevChildIsList cstr childIsList)
            childIsList
      end
  end.

Fixpoint renderBlock (fuel : nat) (block : Block)
  : M (Traced W) (outcome (string * bool * option string)) :=
  match fuel with
  | O => mret OutOfFuel
  | S fuel' =>
      let '(id, has) := getBlockIDAndHasChildren block in
      fetched ←
        match getChildren with
        | Some callback =>
            if has then
              answer ← fetch callback id;
              match answer with
              | Err err => mret (Returns (EmptyString, Some err))
              | Ok children =>
                  looped ← renderChildren (renderBlock fuel') block children
                                          EmptyString false;
                  match looped with
                  | OutOfFuel => mret OutOfFuel
                  | Returns (_, Some err) => mret (Returns (EmptyString, Some err))
                  | Returns (childContent, None) =>
                      mret (Returns (strings.TrimRight childContent LF, None))
                  end
              end
            else mret (Returns (EmptyString, None))
        | None => mret (Returns (EmptyString, None))
        end;
      match fetched with
      | OutOfFuel => mret OutOfFuel
      | Returns (_, Some err) => mret (Returns (EmptyString, false, Some err))
      | Returns (childContent, None) =>
          '(s, isList) ←
            liftW (blockToMarkdownWithCache block childContent resolver
                     (fileCache r) articlePath (config r));
          mret (Returns (strings.TrimRight s LF, isList, None))
      end
  end.

(** The loop over the top-level blocks. *)
Fixpoint renderBlocks
  (render : Block -> M (Traced W) (outcome (string * bool * option string)))
  (blocks : list Block) (markdown : string) (prevIsList : bool)
  : M (Traced W) (outcome (string * option string)) :=
  match blocks with
  | [] => mret (Returns (markdown, None))
  | block :: rest =>
      rendered ← render block;
      match rendered with
      | OutOfFuel => mret OutOfFuel
      | Returns (_, _, Some err) => mret (Returns (EmptyString, Some err))
      | Returns (s, isList, None) =>
          renderBlocks render rest (appendBlock markdown prevIsList s isList) isList
      end
  end.

Definition renderBlocksRecursive (fuel : nat) (blocks : list Block)
  : M (Traced W) (outcome (string * option string)) :=
  renderBlocks (renderBlock fuel) blocks EmptyString false.

End Render.

Section RenderPage.
Context `{Library} {W : Type} `{Platform W}.

(** [RenderPage] returns a file name, the file content and an error. *)
Definition RenderPage (r : Renderer) (fuel : nat) (page : Page)
  (blocks : list Block)
  (getChildren : option (BlockID -> M W (result (list Block))))
  (resolveArg : option (string -> string))
  : M (Traced W) (outcome (string * string * option string)) :=
  let meta := parseMetadata page in
  let filename := buildFilename meta in
  let resolver :=
    match resolveArg with
    | None => resolve r
    | Some _ => resolveArg
    end in
  rendered ← renderBlocksRecursive r getChildren resolver filename fuel blocks;
  match rendered with
  | OutOfFuel => mret OutOfFuel
  | Returns (_, Some err) => mret (Returns (EmptyString, EmptyString, Some err))
  | Returns (body, None) =>
      match buildFrontMatter meta with
      | Err err => mret (Returns (EmptyString, EmptyString, Some err))
      | Ok fm => mret (Returns (filename, fm +:+ body, None))
      end
  end.

End RenderPage.

(* ===================================================================== *)
(** * Sample instances, used to run the definitions                       *)
(* ===================================================================== *)

Module Sample.

(** A library whose digest is constant and whose YAML encoder lists the
    keys; paths are joined with ["/"]. *)
Definition library : Library :=
  {| sha256_hex := fun _ =>
       "9f86d081884c7d659a2feaa0c55ad015a3bf4f1b2b0b822cd15d6c15b0f00a08";
     time_Format := fun _ => "2025-01-15T10:00:00Z";
     yaml_Marshal := fun m =>
       Ok (strings.Join (map (fun kv => fst kv +:+ ":" +:+ LF) (map_to_list m))
                        EmptyString);
     filepath_Dir := fun p =>
       strings.TrimSuffix p ("/" +:+ List.last (strings.Split p "/") EmptyString);
     filepath_Join := fun elems =>
       strings.Join (filter (fun e => negb (String.eqb e EmptyString)) elems) "/";
     filepath_ToSlash := fun p => p |}.

(** A machine without network: directories can be made, no file exists,
    every download fails.  A [range] visits a map in the order written. *)
Definition offline : Platform unit :=
  {| map_range := fun l w => (l, w);
     map_range_perm := fun l _ => Permutation_refl l;
     os_MkdirAll := fun _ w => (None, w);
     os_Stat := fun _ w => (false, w);
     http_Get := fun _ w => (Err "dial tcp: no route to host", w);
     os_Create := fun _ w => (None, w);
     io_Copy := fun _ _ w => (None, w) |}.

Definition plain : Annotations := mkAnnotations false false false false false.

Definition text (s : string) : list RichText := [mkRichText s EmptyString plain].

Definition leaf (id : string) : BasicBlock := mkBasic id false.
Definition node (id : string) : BasicBlock := mkBasic id true.

(** A callback over a small tree: ["list"] has two bulleted items,
    ["columns"] has two bulleted items as well, ["broken"] cannot be
    fetched, everything else has no children. *)
Definition children (id : BlockID) : M unit (result (list Block)) :=
  fun w =>
    if String.eqb id "list" || String.eqb id "columns"
    then (Ok [BulletedListItemBlock (leaf "a") (text "a");
              BulletedListItemBlock (leaf "b") (text "b")], w)
    else if String.eqb id "outer"
    then (Ok [ParagraphBlock (leaf "p") (text "p");
              ToggleBlock (node "broken") (text "t")], w)
    else if String.eqb id "broken" then (Err "notion: request timed out", w)
    else (Ok [], w).

(** A second tree: the table ["crew"] has three rows, the last of which
    ends in an empty cell; the table ["people"] has three rows with no
    empty cell; the column list ["grid"] has two columns with one paragraph
    each. *)
Definition tree (id : BlockID) : M unit (result (list Block)) :=
  fun w =>
    if String.eqb id "people"
    then (Ok [TableRowBlock (leaf "p1") [text "Name"; text "Born"];
              TableRowBlock (leaf "p2") [text " Ada Lovelace "; text "1815"];
              TableRowBlock (leaf "p3") [text "Grace"]], w)
    else if String.eqb id "crew"
    then (Ok [TableRowBlock (leaf "r1") [text "Name"; text "Role"; text "Team"];
              TableRowBlock (leaf "r2") [text "Grace"; text "Admiral"];
              TableRowBlock (leaf "r3") [text "Ada"; text "Eng"; []]], w)
    else if String.eqb id "grid"
    then (Ok [ColumnBlock (node "left"); ColumnBlock (node "right")], w)
    else if String.eqb id "left" then (Ok [ParagraphBlock (leaf "l") (text "Left")], w)
    else if String.eqb id "right" then (Ok [ParagraphBlock (leaf "r") (text "Right")], w)
    else (Ok [], w).

Definition renderer : Renderer := New None "content" DefaultRenderConfig.

Definition page (type : string) : Page :=
  mkPage (mkTime 1 0 0) (mkTime 1 0 0)
         [("Title", TitleProperty (text "My Friends"));
          ("Type", SelectProperty type)].

End Sample.

(* ===================================================================== *)
(** * Definitions used to state the properties                            *)
(* ===================================================================== *)

(** [flatMap f s]: every byte of [s] replaced by the string [f] gives it. *)
Fixpoint flatMap (f : ascii -> string) (s : string) : string :=
  match s with
  | EmptyString => EmptyString
  | String c r => f c +:+ flatMap f r
  end.


(** One annotation wrapper, applied when the annotation is set. *)
Definition wrapIf (on : bool) (opening closing s : string) : string :=
  if on then opening +:+ s +:+ closing else s.

(** The nesting with bold next to the text and underline outermost. *)
Definition nestBoldInnermost (a : Annotations) (txt : string) : string :=
  wrapIf (Underline a) "<u>" "</u>"
    (wrapIf (Strikethrough a) "~~" "~~"
       (wrapIf (Italic a) "*" "*" (wrapIf (Bold a) "**" "**" txt))).

(** The nesting with bold outermost and underline next to the text. *)
Definition nestBoldOutermost (a : Annotations) (txt : string) : string :=
  wrapIf (Bold a) "**" "**"
    (wrapIf (Italic a) "*" "*"
       (wrapIf (Strikethrough a) "~~" "~~" (wrapIf (Underline a) "<u>" "</u>" txt))).

Definition isBracket (c : ascii) : bool := Ascii.eqb c "[" || Ascii.eqb c "]".

(** Every bracket of [s] stands right after a backslash;
    [afterBackslash] tells whether the byte before [s] is one. *)
Fixpoint bracketsEscaped (afterBackslash : bool) (s : string) : bool :=
  match s with
  | EmptyString => true
  | String c r =>
      (if isBracket c then afterBackslash else true)
      && bracketsEscaped (Ascii.eqb c "\") r
  end.

Definition escapeBracketByte (c : ascii) : string :=
  if Ascii.eqb c "[" then "\[" else if Ascii.eqb c "]" then "\]"
  else String c EmptyString.

Definition escapeBacktickByte (c : ascii) : string :=
  if Ascii.eqb c "`" then "\`" else String c EmptyString.

(** The page has a ['type'] property (a key that is ["type"] up to case),
    and each such property holds the string [value]. *)
Definition hasTypeProperty `{Library} (page : Page) (value : string) : Prop :=
  (exists k prop, In (k, prop) (notionapi.Properties page)
                  /\ strings.ToLower k = "type")
  /\ (forall k prop, In (k, prop) (notionapi.Properties page) ->
                     strings.ToLower k = "type" ->
                     extractPropertyValue prop = Some (VString value)).

(** What the ['type'] property has set so far. *)
Definition typeState (m : metadata) : string * option PropValue :=
  (pathType m, Properties m !! "type").

(** The label of a media block: the first paragraph of its caption or, with
    none, the shortened URL. *)
Definition mediaText (f : FileObject) (originalURL : string) : string :=
  let text :=
    match getCaption f with
    | [] => EmptyString
    | _ => captionFirstParagraph (getCaption f) None
    end in
  if String.eqb text EmptyString then escapeMarkdown (shortenURLLabel originalURL)
  else text.

(** The fragment of an image, file, PDF or video block, once its URL and
    label are known; any other kind has none. *)
Definition mediaFragment {W : Type} `{Platform W} (config : RenderConfig)
  (block : Block) (url text : string) : M W string :=
  match block with
  | ImageBlock _ _ => mret ("![" +:+ escapeMarkdown text +:+ "](" +:+ url +:+ ")")
  | FileBlock _ _ => renderTemplate (FileTemplate config) [("URL", url); ("Text", text)]
  | PdfBlock _ _ => renderTemplate (PDFTemplate config) [("URL", url); ("Text", text)]
  | VideoBlock _ _ =>
      renderTemplate (VideoTemplate config) [("URL", url); ("Text", text)]
  | _ => mret EmptyString
  end.

(** [block] is an image, file, PDF or video block with payload [f]. *)
Definition isMediaBlock (block : Block) (f : FileObject) : Prop :=
  exists b, block = ImageBlock b f \/ block = FileBlock b f
            \/ block = PdfBlock b f \/ block = VideoBlock b f.

(** The rows a table block reads back from its rendered child content. *)
Definition tableRows (childContent : string) : list (list string) :=
  tableParse
    (strings.Split (strings.TrimSpace (dedentChildContent childContent)) LF).

(** The number of cells of the widest row. *)
Definition tableWidth (rows : list (list string)) : nat :=
  foldr (fun row acc => Nat.max (length row) acc) 0 rows.

(** A row with empty cells added at its end up to [width]. *)
Definition padRow (width : nat) (cells : list string) : list string :=
  cells ++ repeat EmptyString (width - length cells).

Definition formatRow (cells : list string) : string :=
  "| " +:+ strings.Join cells " | " +:+ " |".

(** The strings of a list, one after the other. *)
Definition concatAll (l : list string) : string := foldr String.append EmptyString l.

(** No recorded call was answered with an error. *)
Definition clean (calls : list Call) : Prop :=
  forall id e, ~ In (id, Err e) calls.

(** The last recorded call, and only it, was answered with the error [e]. *)
Definition failedLast (calls : list Call) (e : string) : Prop :=
  exists pre id, calls = pre ++ [(id, Err e)] /\ clean pre.

(** How the result [res] of a run from state [st] relates to the calls the
    run has recorded: a returned error is the answer of the last call, and
    without a returned error no call has failed. *)
Definition traceOK {W A : Type} (errOf : A -> option string) (st : Traced W)
  (res : outcome A * Traced W) : Prop :=
  exists new,
    snd (snd res) = snd st ++ new
    /\ match fst res with
       | Returns a =>
           match errOf a with
           | Some e => failedLast new e
           | None => clean new
           end
       | OutOfFuel => clean new
       end.

(** The list-like kinds: bulleted and numbered list items and to-do items. *)
Definition isListLike (block : Block) : bool :=
  match block with
  | BulletedListItemBlock _ _ | NumberedListItemBlock _ _ | ToDoBlock _ _ _ => true
  | _ => false
  end.

(** One newline between two list-like siblings, a blank line otherwise. *)
Definition siblingSeparator (prevIsList isList : bool) : string :=
  if prevIsList && isList then LF else LF +:+ LF.

(** The fragment of a child with the indentation of its parent on every
    non-blank line. *)
Definition indentedFragment (parent : Block) (cstr : string) : string :=
  strings.Join
    (map (fun l => if String.eqb (strings.TrimSpace l) EmptyString then l
                   else childIndent parent +:+ l)
         (strings.Split (strings.TrimRight cstr LF) LF))
    LF.

(** The marker line a column list puts after each of its children. *)
Definition columnBreak (parent : Block) : string :=
  if isColumnListBlock parent then LF +:+ COLUMN_BREAK +:+ LF else EmptyString.

(** The fragments and list flags [render] returns for [blocks], in order,
    or the first error. *)
Fixpoint renderFragments {V : Type}
  (render : Block -> M V (outcome (string * bool * option string)))
  (blocks : list Block) : M V (outcome (list (string * bool) * option string)) :=
  match blocks with
  | [] => mret (Returns ([], None))
  | block :: rest =>
      rendered ← render block;
      match rendered with
      | OutOfFuel => mret OutOfFuel
      | Returns (_, _, Some err) => mret (Returns ([], Some err))
      | Returns (s, isList, None) =>
          others ← renderFragments render rest;
          match others with
          | OutOfFuel => mret OutOfFuel
          | Returns (_, Some err) => mret (Returns ([], Some err))
          | Returns (frs, None) => mret (Returns ((s, isList) :: frs, None))
          end
      end
  end.

(** The loops of [renderBlocksRecursive] and [renderBlock] on fragments
    that are already rendered. *)
Definition joinBlocksFrom (markdown : string) (prevIsList : bool)
  (frs : list (string * bool)) : string * bool :=
  fold_left (fun acc fr => (appendBlock (fst acc) (snd acc) (fst fr) (snd fr), snd fr))
            frs (markdown, prevIsList).

Definition joinBlocks (frs : list (string * bool)) : string :=
  fst (joinBlocksFrom EmptyString false frs).

Definition joinChildrenFrom (parent : Block) (childContent : string)
  (prevChildIsList : bool) (frs : list (string * bool)) : string * bool :=
  fold_left
    (fun acc fr => (appendChild parent (fst acc) (snd acc) (fst fr) (snd fr), snd fr))
    frs (childContent, prevChildIsList).

Definition joinChildren (parent : Block) (frs : list (string * bool)) : string :=
  fst (joinChildrenFrom parent EmptyString false frs).

(** The last byte of [s] satisfies [p] (no byte of the empty string does). *)
Fixpoint endsIn (p : ascii -> bool) (s : string) : bool :=
  match s with
  | EmptyString => false
  | String c r =>
      match r with
      | EmptyString => p c
      | _ => endsIn p r
      end
  end.

(** Splitting around one byte. *)
Fixpoint splitByte (c : ascii) (s : string) : list string :=
  match s with
  | EmptyString => [EmptyString]
  | String d r =>
      if Ascii.eqb d c then EmptyString :: splitByte c r
      else match splitByte c r with
           | p :: ps => String d p :: ps
           | [] => [String d EmptyString]
           end
  end.

(** The last path segment [notionURLToHugoLink] looks at. *)
Definition lastPathSegment (path : string) : string :=
  List.last (strings.Split (strings.Trim path "/") "/") EmptyString.

(** The two shapes of an identifier: 32 hexadecimal digits, plain or in
    the 8-4-4-4-12 grouping. *)
Definition isPlainUUID (id : string) : bool := regexp.matchGroups [32] id.

Definition isDashedUUID (id : string) : bool :=
  (strings.len id =? 36) && regexp.matchGroups [8; 4; 4; 4; 12] id.

Definition normalizeUUID (id : string) : string :=
  strings.ReplaceAll id "-" EmptyString.

(** The title fragment: what stands before the identifier, without the
    hyphen that joins the two. *)
Definition titleFragment (title : string) : string := strings.TrimSuffix title "-".

(** The slug of the fallback link for a last segment [title +:+ id]. *)
Definition fallbackSlug (title id : string) : string :=
  if String.eqb (titleFragment title) EmptyString
  then strings.ToLower (title +:+ id)
  else
    let slug := slugify (strings.ReplaceAll (titleFragment title) "-" " ") in
    if String.eqb slug EmptyString then normalizeUUID id else slug.

(** There is no resolver, or it knows no path for the identifier. *)
Definition resolverSilent (resolve : option (string -> string)) (id : string) : Prop :=
  match resolve with
  | Some f => f (normalizeUUID id) = EmptyString
  | None => True
  end.

Definition isHexOrDash (c : ascii) : bool := url.ishex c || Ascii.eqb c "-".

Fixpoint allHexOrDash (s : string) : bool :=
  match s with
  | EmptyString => true
  | String c r => isHexOrDash c && allHexOrDash r
  end.

(* ===================================================================== *)
(** * Definitions used to state further properties                        *)
(* ===================================================================== *)

(** Every byte of [s] satisfies [p]. *)
Fixpoint allBytes (p : ascii -> bool) (s : string) : bool :=
  match s with
  | EmptyString => true
  | String c r => p c && allBytes p r
  end.

(** A byte of a rune that is not ASCII. *)
Definition nonASCII (c : ascii) : bool := negb (nat_of_ascii c <? utf8.RuneSelf).

(** A text that starts with an ASCII byte, or is empty. *)
Definition startsASCII (t : string) : bool :=
  match t with
  | EmptyString => true
  | String c _ => negb (nonASCII c)
  end.

(** ASCII white space, as a test on bytes. *)
Definition isSpaceByte (c : ascii) : bool := unicode.IsSpace (utf8.byte c) && negb (nonASCII c).

(** Every byte of [s] is one that [slugify] keeps. *)
Fixpoint allSlugRunes (s : string) : bool :=
  match s with
  | EmptyString => true
  | String c r => isSlugRune c && allSlugRunes r
  end.

(** [parseMetadata] before its loop over the properties: the title
    ["untitled"] and the two time stamps of the page. *)
Definition startMetadata `{Library} (page : Page) : metadata :=
  let m := mkMetadata "untitled" EmptyString EmptyString ∅ in
  let m :=
    if negb (IsZero (CreatedTime page))
    then setProperty m "date" (VString (time_Format (CreatedTime page)))
    else m in
  if negb (IsZero (LastEditedTime page))
  then setProperty m "lastmod" (VString (time_Format (LastEditedTime page)))
  else m.

(** [parseMetadata] after its loop: the defaults of the slug and of the
    path type. *)
Definition finishMetadata (m : metadata) : metadata :=
  let slug := if String.eqb (Slug m) EmptyString then Title m else Slug m in
  let m := mkMetadata (Title m) (slugify slug) (pathType m) (Properties m) in
  if String.eqb (pathType m) EmptyString then
    match Properties m !! "type" with
    | Some (VString str) => setPathType m str
    | _ => m
    end
  else m.

(** The property is filed under [name], up to the case of its key. *)
Definition keyIs (name : string) (entry : string * Property) : bool :=
  String.eqb (strings.ToLower (fst entry)) name.

(** The date a ['date'] property carries. *)
Definition customDate (entry : string * Property) : option Time :=
  match snd entry with
  | DateProperty (Some start) => if keyIs "date" entry then Some start else None
  | _ => None
  end.

(** The title a ['title'] or ['name'] property carries. *)
Definition customTitle (entry : string * Property) : option string :=
  match snd entry with
  | TitleProperty (t :: _) =>
      if keyIs "title" entry || keyIs "name" entry then Some (PlainText t) else None
  | _ => None
  end.

(** The non-empty text a ['slug'] property carries. *)
Definition customSlug `{Library} (entry : string * Property) : option string :=
  if keyIs "slug" entry then
    match extractPropertyValue (snd entry) with
    | Some (VString str) => if String.eqb str EmptyString then None else Some str
    | _ => None
    end
  else None.

(** A ['status'] property whose name is ["draft"], up to case. *)
Definition isDraftStatus (entry : string * Property) : bool :=
  match snd entry with
  | StatusProperty statusName =>
      keyIs "status" entry && String.eqb (strings.ToLower statusName) "draft"
  | _ => false
  end.

(** A machine that writes down what is asked of it.  Directories can be
    made and files written; whether a file exists and the status of every
    response are fixed beforehand. *)
Module Recorded.

Definition machine (fileExists : bool) (status : nat) : Platform (list string) :=
  {| map_range := fun l w => (l, w);
     map_range_perm := fun l _ => Permutation_refl l;
     os_MkdirAll := fun p w => (None, w ++ ["mkdir " +:+ p]);
     os_Stat := fun p w => (fileExists, w ++ ["stat " +:+ p]);
     http_Get := fun u w => (Ok (mkResponse status "bytes"), w ++ ["get " +:+ u]);
     os_Create := fun p w => (None, w ++ ["create " +:+ p]);
     io_Copy := fun p b w => (None, w ++ ["copy " +:+ b +:+ " to " +:+ p]) |}.

End Recorded.

(** A span without link and without annotation. *)
Definition isPlainSpan (t : RichText) : bool :=
  String.eqb (Href t) EmptyString
  && negb (Bold (Annots t) || Italic (Annots t) || Strikethrough (Annots t)
           || Underline (Annots t) || Code (Annots t)).

(** Rendering [blocks] makes no call to the callback: there is none, or no
    block says it has children. *)
Definition neverFetches {W : Type}
  (getChildren : option (BlockID -> M W (result (list Block))))
  (blocks : list Block) : bool :=
  match getChildren with
  | None => true
  | Some _ => forallb (fun b => negb (snd (getBlockIDAndHasChildren b))) blocks
  end.

(** The fragments and list flags of [blocks] when each formatter is given
    empty child content, in the world the formatter before it left, and the
    world the last one leaves. *)
Fixpoint flatFragments `{Library} {W : Type} `{Platform W} (r : Renderer)
  (resolver : option (string -> string)) (articlePath : string)
  (blocks : list Block) (w : W) : list (string * bool) * W :=
  match blocks with
  | [] => ([], w)
  | block :: rest =>
      let out := blockToMarkdownWithCache block EmptyString resolver (fileCache r)
                   articlePath (config r) w in
      let others := flatFragments r resolver articlePath rest (snd out) in
      ((strings.TrimRight (fst (fst out)) LF, snd (fst out)) :: fst others,
       snd others)
  end.

(* ===================================================================== *)
(** * The command ([main.go])                                             *)
(* ===================================================================== *)

Module main.

(** The first loop of [main] fills [pageMap]: the site path of every page
    of the database under its identifier without hyphens.  A page comes
    with its identifier [p.ID], which the renderer does not read. *)
Definition pageMap `{Library} (pages : list (string * Page)) : gmap string string :=
  fold_left
    (fun m p => <[strings.ReplaceAll (fst p) "-" EmptyString := GetPagePath (snd p)]> m)
    pages ∅.

(** The closure [resolve] over the filled map. *)
Definition resolve (pageMap : gmap string string) (pageID : string) : string :=
  match pageMap !! pageID with
  | Some path => path
  | None => EmptyString
  end.

(** Where the file of a page is written. *)
Definition finalPath (outDir filename : string) : string :=
  if negb (String.eqb outDir EmptyString)
     && negb (strings.HasPrefix filename (outDir +:+ "/"))
  then outDir +:+ "/" +:+ filename
  else filename.

End main.

(** The site path of the page [p] if its identifier, without hyphens, is
    [pageID]. *)
Definition pathUnder `{Library} (pageID : string) (p : string * Page) : option string :=
  if String.eqb (normalizeUUID (fst p)) pageID then Some (GetPagePath (snd p))
  else None.

(** The keys, in lower case, that [parseMetadata] treats in an arm of their
    own. *)
Definition isSpecialKey (lowerKey : string) : bool :=
  String.eqb lowerKey "title" || String.eqb lowerKey "name"
  || String.eqb lowerKey "slug" || String.eqb lowerKey "date"
  || String.eqb lowerKey "type" || String.eqb lowerKey "status".

(** The value of a property filed under exactly [k]. *)
Definition customValue `{Library} (k : string) (entry : string * Property)
  : option PropValue :=
  if String.eqb (fst entry) k then extractPropertyValue (snd entry) else None.

(** One cell of the table a column list becomes. *)
Definition columnCell (p : string) : string :=
  "<td>" +:+ LF +:+ LF +:+ p +:+ LF +:+ "</td>".

(** The child content of a column list after the marker of its first
    column: for every further column a newline, the separator, the
    fragment ([f] of it), a newline and the marker. *)
Fixpoint moreColumns (f : string -> string) (prev : bool)
  (frs : list (string * bool)) : string :=
  match frs with
  | [] => EmptyString
  | (c, l) :: rest =>
      LF +:+ siblingSeparator prev l +:+ f c +:+ LF +:+ COLUMN_BREAK
      +:+ moreColumns f l rest
  end.

(** The pieces of that text between the markers. *)
Fixpoint morePieces (f : string -> string) (prev : bool)
  (frs : list (string * bool)) : list string :=
  match frs with
  | [] => [EmptyString]
  | (c, l) :: rest =>
      (LF +:+ siblingSeparator prev l +:+ f c +:+ LF) :: morePieces f l rest
  end.

(** The texts of the cells of a table row, as [tableRowToMarkdown] trims
    them. *)
Definition rowCols (resolve : option (string -> string))
  (cells : list (list RichText)) : list string :=
  map (fun cell => strings.TrimSpace (richTextArrToMarkdown cell resolve)) cells.

(** A cell text with no vertical bar and no newline. *)
Definition plainCell (c : string) : bool :=
  negb (strings.Contains c "|") && negb (strings.Contains c LF).

(** A row with no cell, or with one cell that is empty. *)
Definition blankRow (row : list string) : bool :=
  match row with
  | [] => true
  | [c] => String.eqb c EmptyString
  | _ => false
  end.

(** Rows whose cells are plain, none of them blank, the first cell of the
    first row and the last cell of the last row not empty. *)
Definition readableRows (rows : list (list string)) : bool :=
  forallb (fun row => negb (blankRow row) && forallb plainCell row) rows
  && negb (String.eqb (hd EmptyString (hd [] rows)) EmptyString)
  && negb (String.eqb (List.last (List.last rows []) EmptyString) EmptyString).

(** The Markdown table of [rows]: one line per row, every row padded to the
    width of the widest, and with the column-header flag a separator row
    beneath the first. *)
Definition tableText (hasColumnHeader : bool) (rows : list (list string)) : string :=
  let width := tableWidth rows in
  let lines := map (fun row => formatRow (padRow width row)) rows in
  match hasColumnHeader, lines with
  | true, header :: others =>
      strings.Join (header :: formatRow (repeat "---" width) :: others) LF
  | _, _ => strings.Join lines LF
  end.
(* ===================================================================== *)
(** * Facts about strings                                                 *)
(* ===================================================================== *)

Lemma str_app_nil_l (s : string) : EmptyString +:+ s = s.
Proof. reflexivity. Qed.

Lemma str_app_cons (c : ascii) (s t : string) : String c s +:+ t = String c (s +:+ t).
Proof. reflexivity. Qed.

Lemma str_app_nil_r (s : string) : s +:+ EmptyString = s.
Proof. induction s as [|c s IH]; [reflexivity|]. rewrite str_app_cons. by f_equal. Qed.

Lemma str_app_assoc (s t u : string) : (s +:+ t) +:+ u = s +:+ (t +:+ u).
Proof. induction s as [|c s IH]; [reflexivity|]. rewrite !str_app_cons. by f_equal. Qed.

Lemma str_len_app (s t : string) : strings.len (s +:+ t) = strings.len s + strings.len t.
Proof.
  unfold strings.len. induction s as [|c s IH]; [reflexivity|].
  rewrite str_app_cons. simpl. by rewrite IH.
Qed.

Lemma str_app_eq_nil (s t : string) : s +:+ t = EmptyString -> s = EmptyString /\ t = EmptyString.
Proof. destruct s; [by simpl; intros ->|]. rewrite str_app_cons. discriminate. Qed.

Lemma str_eqb_nil_false (s : string) : s <> EmptyString -> String.eqb s EmptyString = false.
Proof. intros Hs. by apply String.eqb_neq. Qed.

(** The library functions on small inputs, as Go evaluates them. *)
Example ReplaceAll_overlap : strings.ReplaceAll "aaa" "aa" "b" = "ba".
Proof. reflexivity. Qed.

Example ReplaceAll_empty_old : strings.ReplaceAll "ab" EmptyString "-" = "-a-b-".
Proof. reflexivity. Qed.

Example Split_cells : strings.Split "a | b | c" " | " = ["a"; "b"; "c"].
Proof. reflexivity. Qed.

Example Split_empty : strings.Split EmptyString "/" = [EmptyString].
Proof. reflexivity. Qed.

Example Split_slashes :
  strings.Split "/a//" "/" = [EmptyString; "a"; EmptyString; EmptyString].
Proof. reflexivity. Qed.

Example SplitN_two : strings.SplitN "a:b:c" ":" 2 = ["a"; "b:c"].
Proof. reflexivity. Qed.

Example TrimRight_newlines :
  strings.TrimRight ("a" +:+ LF +:+ "b" +:+ LF +:+ LF) LF = "a" +:+ LF +:+ "b".
Proof. reflexivity. Qed.

Example TrimSuffix_present : strings.TrimSuffix "title-abc" "-abc" = "title".
Proof. reflexivity. Qed.

Example TrimSuffix_absent : strings.TrimSuffix "title-abc" "-abd" = "title-abc".
Proof. reflexivity. Qed.

Example Cut_first : strings.Cut "k=v=w" "=" = ("k", "v=w", true).
Proof. reflexivity. Qed.

Example Parse_signed_url :
  url.Parse "https://prod-files-secure.s3.us-west-2.amazonaws.com/ws/id/%41b.pdf?X-Amz-Date=20250920T045407Z#top"
  = Ok (url.mkURL "https" EmptyString "prod-files-secure.s3.us-west-2.amazonaws.com"
                  "/ws/id/Ab.pdf" "X-Amz-Date=20250920T045407Z").
Proof. reflexivity. Qed.

Example slugify_title : slugify "Hello, World! 2024_v2" = "hello-world-2024_v2".
Proof. reflexivity. Qed.

Lemma flatMap_app (f : ascii -> string) (s t : string) :
  flatMap f (s +:+ t) = flatMap f s +:+ flatMap f t.
Proof.
  induction s as [|c s IH]; [reflexivity|].
  rewrite str_app_cons. simpl. rewrite IH. by rewrite str_app_assoc.
Qed.

Lemma flatMap_flatMap (f g : ascii -> string) (s : string) :
  flatMap g (flatMap f s) = flatMap (fun c => flatMap g (f c)) s.
Proof.
  induction s as [|c s IH]; [reflexivity|].
  simpl. rewrite flatMap_app. by rewrite IH.
Qed.

Lemma flatMap_ext (f g : ascii -> string) (s : string) :
  (forall c, f c = g c) -> flatMap f s = flatMap g s.
Proof. intros E. induction s as [|c s IH]; [reflexivity|]. simpl. by rewrite E, IH. Qed.

(** Replacing a single byte is a byte-wise substitution. *)
Lemma ReplaceAll_byte (s : string) (c : ascii) (new : string) :
  strings.ReplaceAll s (String c EmptyString) new
  = flatMap (fun d => if Ascii.eqb d c then new else String d EmptyString) s.
Proof.
  unfold strings.ReplaceAll.
  induction s as [|d s IH]; [reflexivity|].
  cbn [strings.replaceFrom strings.HasPrefix flatMap].
  destruct (Ascii.eqb d c); cbn [strings.len String.length Nat.sub];
    rewrite IH; reflexivity.
Qed.

(* ===================================================================== *)
(** * Rich text: annotations and escaping                                 *)
(* ===================================================================== *)

Lemma escapeMarkdown_bytewise (s : string) :
  escapeMarkdown s = flatMap escapeBracketByte s.
Proof.
  unfold escapeMarkdown. rewrite !ReplaceAll_byte, flatMap_flatMap.
  apply flatMap_ext. intros c. unfold escapeBracketByte.
  destruct (Ascii.eqb_spec c "[") as [->|Hc]; [reflexivity|].
  destruct (Ascii.eqb_spec c "]") as [->|Hd]; [reflexivity|].
  cbn [flatMap]. rewrite (proj2 (Ascii.eqb_neq _ _) Hd). reflexivity.
Qed.

Lemma escapeBackticks_bytewise (s : string) :
  escapeBackticks s = flatMap escapeBacktickByte s.
Proof. unfold escapeBackticks. by rewrite ReplaceAll_byte. Qed.

Lemma bracketsEscaped_flatMap (s : string) (b : bool) :
  bracketsEscaped b (flatMap escapeBracketByte s) = true.
Proof.
  revert b. induction s as [|c s IH]; intros b; [reflexivity|].
  cbn [flatMap]. unfold escapeBracketByte at 1.
  destruct (Ascii.eqb_spec c "[") as [->|Hc].
  { cbn. apply IH. }
  destruct (Ascii.eqb_spec c "]") as [->|Hd].
  { cbn. apply IH. }
  rewrite str_app_cons, str_app_nil_l. cbn [bracketsEscaped].
  unfold isBracket.
  rewrite (proj2 (Ascii.eqb_neq _ _) Hc), (proj2 (Ascii.eqb_neq _ _) Hd).
  cbn. apply IH.
Qed.

Lemma richTextArr_single (t : RichText) (resolve : option (string -> string)) :
  richTextArrToMarkdown [t] resolve = richTextSpan resolve t.
Proof. reflexivity. Qed.

Lemma richTextArr_fold (arr : list RichText) (resolve : option (string -> string))
  (acc : string) :
  fold_left (fun result t => result +:+ richTextSpan resolve t) arr acc
  = acc +:+ richTextArrToMarkdown arr resolve.
Proof.
  unfold richTextArrToMarkdown. revert acc.
  induction arr as [|t arr IH]; intros acc; cbn [fold_left].
  - by rewrite str_app_nil_r.
  - rewrite IH, (IH (EmptyString +:+ _)), str_app_nil_l. by rewrite str_app_assoc.
Qed.

Lemma richTextArr_cons (t : RichText) (arr : list RichText)
  (resolve : option (string -> string)) :
  richTextArrToMarkdown (t :: arr) resolve
  = richTextSpan resolve t +:+ richTextArrToMarkdown arr resolve.
Proof.
  unfold richTextArrToMarkdown at 1. cbn [fold_left].
  by rewrite richTextArr_fold, str_app_nil_l.
Qed.

Lemma richTextSpan_plain (t : RichText) (resolve : option (string -> string)) :
  Href t = EmptyString ->
  richTextSpan resolve t = richTextAnnotationsToMarkdown t.
Proof. intros E. unfold richTextSpan, richTextAnnotationsToMarkdown. by rewrite E. Qed.

(** C2, as the specification words it, fails: a span with all four
    annotations does not come out with the bold markers outermost and the
    underline tags next to the text. *)
Lemma annotation_order_counterexample :
  let t := mkRichText "text" EmptyString (mkAnnotations true true true true false) in
  richTextArrToMarkdown [t] None = "<u>~~***text***~~</u>"
  /\ richTextArrToMarkdown [t] None <> nestBoldOutermost (Annots t) (PlainText t).
Proof. split; [reflexivity | discriminate]. Qed.

(** C2, amended: for every span without the code annotation the wrappers are
    nested in the fixed order bold, italic, strikethrough, underline from
    the innermost (next to the text) to the outermost; a span with a link
    target carries this nesting, bracket-escaped, as its label; and however
    often the span is rendered, every copy is the same string. *)
Theorem annotation_order (t : RichText) (resolve : option (string -> string)) :
  Code (Annots t) = false ->
  richTextAnnotationsToMarkdown t = nestBoldInnermost (Annots t) (PlainText t)
  /\ (Href t = EmptyString ->
      richTextArrToMarkdown [t] resolve = nestBoldInnermost (Annots t) (PlainText t))
  /\ (Href t <> EmptyString ->
      richTextArrToMarkdown [t] resolve
      = "[" +:+ escapeMarkdown (nestBoldInnermost (Annots t) (PlainText t))
        +:+ "](" +:+ notionURLToHugoLink (Href t) resolve +:+ ")")
  /\ (forall n : nat,
      richTextArrToMarkdown (repeat t n) resolve
      = strings.Repeat (richTextArrToMarkdown [t] resolve) n).
Proof.
  intros HC.
  assert (E : richTextAnnotationsToMarkdown t
              = nestBoldInnermost (Annots t) (PlainText t)).
  { unfold richTextAnnotationsToMarkdown, nestBoldInnermost, wrapIf.
    rewrite HC. reflexivity. }
  split; [exact E|]. split; [|split].
  - intros HH. by rewrite richTextArr_single, richTextSpan_plain.
  - intros HH. rewrite richTextArr_single. unfold richTextSpan.
    rewrite (str_eqb_nil_false _ HH). cbn [negb]. by rewrite E.
  - intros n. induction n as [|n IH]; [reflexivity|].
    cbn [repeat strings.Repeat]. by rewrite richTextArr_cons, IH, richTextArr_single.
Qed.

Lemma annotation_order_witness :
  let t := mkRichText "a[b]" "https://example.com/x"
                      (mkAnnotations true false true false false) in
  Code (Annots t) = false
  /\ richTextArrToMarkdown [t] None = "[~~**a\[b\]**~~](https://example.com/x)".
Proof.
  intros t. split; [reflexivity|].
  destruct (annotation_order t None eq_refl) as (_ & _ & L & _).
  rewrite L; [reflexivity | discriminate].
Defined.

(** C3, as the specification words it, fails: a span without link target
    and without the code annotation keeps its brackets unescaped, and a
    code span with a link target has its brackets escaped as well. *)
Lemma bracket_escaping_counterexample :
  let plainSpan := mkRichText "a[b]" EmptyString Sample.plain in
  let codeLink := mkRichText "x[0]" "https://example.com/"
                             (mkAnnotations false false false false true) in
  richTextArrToMarkdown [plainSpan] None = "a[b]"
  /\ bracketsEscaped false (richTextArrToMarkdown [plainSpan] None) = false
  /\ richTextArrToMarkdown [codeLink] None = "[`x\[0\]`](https://example.com/)".
Proof. repeat split. Qed.

(** C3, amended: the label of every span with a link target has each of its
    brackets backslash-escaped, byte by byte, also under the code
    annotation; a span without link target is not bracket-escaped; for
    every span with the code annotation the text is put between backticks
    with only its backticks escaped, and no other annotation wraps it. *)
Theorem bracket_escaping (t : RichText) (resolve : option (string -> string)) :
  (Href t <> EmptyString ->
   exists label,
     richTextArrToMarkdown [t] resolve
     = "[" +:+ label +:+ "](" +:+ notionURLToHugoLink (Href t) resolve +:+ ")"
     /\ label = flatMap escapeBracketByte (richTextAnnotationsToMarkdown t)
     /\ bracketsEscaped false label = true)
  /\ (Href t = EmptyString ->
      richTextArrToMarkdown [t] resolve = richTextAnnotationsToMarkdown t)
  /\ (Code (Annots t) = true ->
      richTextAnnotationsToMarkdown t
      = "`" +:+ flatMap escapeBacktickByte (PlainText t) +:+ "`").
Proof.
  split; [|split].
  - intros HH. eexists. split; [|split; [reflexivity|]].
    + rewrite richTextArr_single. unfold richTextSpan.
      rewrite (str_eqb_nil_false _ HH). cbn [negb].
      by rewrite escapeMarkdown_bytewise.
    + apply bracketsEscaped_flatMap.
  - intros HH. by rewrite richTextArr_single, richTextSpan_plain.
  - intros HC. unfold richTextAnnotationsToMarkdown. rewrite HC.
    by rewrite escapeBackticks_bytewise.
Qed.

Lemma bracket_escaping_witness :
  let t := mkRichText "x[`]" EmptyString (mkAnnotations true true false false true) in
  richTextArrToMarkdown [t] None = "`x[\`]`".
Proof.
  intros t.
  destruct (bracket_escaping t None) as (_ & P & C).
  rewrite (P eq_refl), (C eq_refl). reflexivity.
Defined.

(* ===================================================================== *)
(** * The ['type'] property, front matter and paths                       *)
(* ===================================================================== *)

Section TypeProperty.
Context `{Library}.

Lemma ToLower_type_key (k : string) : strings.ToLower k <> "type" -> k <> "type".
Proof. intros Hk ->. by apply Hk. Qed.

Lemma typeState_setProperty (m : metadata) (k : string) (v : PropValue) :
  k <> "type" -> typeState (setProperty m k v) = typeState m.
Proof.
  intros Hk. unfold typeState, setProperty. cbn [pathType Properties].
  by rewrite lookup_insert_ne.
Qed.

Lemma parseProperty_other (m : metadata) (k : string) (prop : Property) :
  strings.ToLower k <> "type" ->
  typeState (parseProperty m (k, prop)) = typeState m.
Proof.
  intros Hk. unfold parseProperty.
  destruct (String.eqb _ "title" || String.eqb _ "name").
  { destruct prop as [[|t ?]| | | | | |]; try reflexivity.
    by rewrite typeState_setProperty. }
  destruct (String.eqb _ "slug").
  { destruct (extractPropertyValue prop) as [[str| |]|]; try reflexivity.
    destruct (negb _); [|reflexivity]. by rewrite typeState_setProperty. }
  destruct (String.eqb _ "date").
  { destruct prop as [| |[start|]| | | |]; try reflexivity.
    by rewrite typeState_setProperty. }
  rewrite (proj2 (String.eqb_neq _ _) Hk).
  destruct (String.eqb _ "status").
  { destruct prop; try reflexivity.
    destruct (String.eqb _ "draft"); by rewrite !typeState_setProperty. }
  destruct (extractPropertyValue prop); [|reflexivity].
  rewrite typeState_setProperty; [reflexivity|]. by apply ToLower_type_key.
Qed.

Lemma parseProperty_type (m : metadata) (k : string) (prop : Property) (value : string) :
  strings.ToLower k = "type" ->
  extractPropertyValue prop = Some (VString value) ->
  value <> EmptyString ->
  parseProperty m (k, prop) = parseType m value.
Proof.
  intros Hk Hv Hne. unfold parseProperty. rewrite Hk, Hv.
  cbn [String.eqb Ascii.eqb Bool.eqb orb].
  by rewrite (str_eqb_nil_false _ Hne).
Qed.

Lemma fold_parseProperty_type (value pt : string) (v : PropValue)
  (l : list (string * Property)) (m : metadata) :
  (forall m', typeState (parseType m' value) = (pt, Some v)) ->
  value <> EmptyString ->
  (forall k prop, In (k, prop) l -> strings.ToLower k = "type" ->
                  extractPropertyValue prop = Some (VString value)) ->
  typeState (fold_left parseProperty l m)
  = if existsb (fun e => String.eqb (strings.ToLower (fst e)) "type") l
    then (pt, Some v) else typeState m.
Proof.
  intros Hty Hne. revert m.
  induction l as [|[k prop] l IH]; intros m Hl; [reflexivity|].
  cbn [fold_left existsb fst].
  assert (Hl' : forall k prop, In (k, prop) l -> strings.ToLower k = "type" ->
                               extractPropertyValue prop = Some (VString value)).
  { intros k' p' Hin. apply Hl. by right. }
  rewrite (IH _ Hl').
  destruct (String.eqb_spec (strings.ToLower k) "type") as [Hk|Hk].
  - cbn [orb].
    rewrite (parseProperty_type m k prop value Hk (Hl k prop (or_introl eq_refl) Hk) Hne).
    rewrite Hty. by destruct (existsb _ l).
  - cbn [orb]. by rewrite parseProperty_other.
Qed.

Lemma parseMetadata_typeState (page : Page) (value pt : string) (v : PropValue) :
  (forall m', typeState (parseType m' value) = (pt, Some v)) ->
  value <> EmptyString -> pt <> EmptyString ->
  hasTypeProperty page value ->
  typeState (parseMetadata page) = (pt, Some v).
Proof.
  intros Hty Hne Hpt [(k & prop & Hin & Hk) Hall].
  unfold parseMetadata.
  set (m0 := if negb (IsZero (LastEditedTime page)) then _ else _).
  pose proof (fold_parseProperty_type value pt v _ m0 Hty Hne Hall) as E.
  assert (Hex : existsb (fun e => String.eqb (strings.ToLower (fst e)) "type")
                        (notionapi.Properties page) = true).
  { apply existsb_exists. exists (k, prop). split; [done|].
    cbn [fst]. rewrite Hk. reflexivity. }
  rewrite Hex in E. clear Hex.
  set (m1 := fold_left parseProperty _ m0) in *.
  unfold typeState in E. injection E as E1 E2.
  cbn [pathType Properties]. rewrite E1, (str_eqb_nil_false _ Hpt).
  unfold typeState. cbn [pathType Properties]. by rewrite E2.
Qed.

Lemma typeState_pages_friends (m : metadata) :
  typeState (parseType m "pages:friends") = ("pages", Some (VString "friends")).
Proof.
  unfold typeState. change (parseType m "pages:friends")
    with (setProperty (setPathType (setProperty m "type" (VString "pages:friends"))
                                   "pages") "type" (VString "friends")).
  cbn [pathType Properties setProperty setPathType]. by rewrite lookup_insert_eq.
Qed.

Lemma typeState_docs_guides (m : metadata) :
  typeState (parseType m "docs:guides")
  = ("docs:guides", Some (VString "docs:guides")).
Proof.
  unfold typeState. change (parseType m "docs:guides")
    with (setPathType (setProperty m "type" (VString "docs:guides")) "docs:guides").
  cbn [pathType Properties setProperty setPathType]. by rewrite lookup_insert_eq.
Qed.

(** C1, amended: for every page whose ['type'] property is
    ["pages:friends"] the front matter holds type ["friends"] and the path
    is ["/{slug}/"]; for every page whose ['type'] property is
    ["docs:guides"] the front matter holds type ["docs:guides"] verbatim
    and the path is ["/docsguides/{slug}/"]: the compound form is not split,
    and the path segment is its slug, which drops the colon. *)
Theorem compound_type (page : Page) :
  (hasTypeProperty page "pages:friends" ->
   Properties (parseMetadata page) !! "type" = Some (VString "friends")
   /\ GetPagePath page = "/" +:+ GetPageSlug page +:+ "/")
  /\ (hasTypeProperty page "docs:guides" ->
      Properties (parseMetadata page) !! "type" = Some (VString "docs:guides")
      /\ GetPagePath page = "/docsguides/" +:+ GetPageSlug page +:+ "/").
Proof.
  split; intros Hp.
  - pose proof (parseMetadata_typeState page _ _ _ typeState_pages_friends
                  ltac:(discriminate) ltac:(discriminate) Hp) as E.
    unfold typeState in E. injection E as E1 E2. split; [exact E2|].
    unfold GetPagePath, GetPageSlug. rewrite E1. reflexivity.
  - pose proof (parseMetadata_typeState page _ _ _ typeState_docs_guides
                  ltac:(discriminate) ltac:(discriminate) Hp) as E.
    unfold typeState in E. injection E as E1 E2. split; [exact E2|].
    unfold GetPagePath, GetPageSlug. rewrite E1. reflexivity.
Qed.

End TypeProperty.

(** C1, as the specification words it, fails on its second half: the path
    of a page of type ["docs:guides"] does not keep the colon. *)
Lemma compound_type_counterexample :
  hasTypeProperty (H := Sample.library) (Sample.page "docs:guides") "docs:guides"
  /\ GetPagePath (H := Sample.library) (Sample.page "docs:guides")
     = "/docsguides/my-friends/"
  /\ GetPagePath (H := Sample.library) (Sample.page "docs:guides")
     <> "/docs:guides/"
        +:+ GetPageSlug (H := Sample.library) (Sample.page "docs:guides") +:+ "/".
Proof.
  split; [|split].
  - split.
    + exists "Type", (SelectProperty "docs:guides"). split; [|reflexivity].
      right. by left.
    + intros k prop [E|[E|[]]]; injection E as <- <-; [discriminate|reflexivity].
  - vm_compute. reflexivity.
  - vm_compute. discriminate.
Qed.

Lemma compound_type_witness :
  hasTypeProperty (H := Sample.library) (Sample.page "pages:friends") "pages:friends"
  /\ Properties (parseMetadata (H := Sample.library) (Sample.page "pages:friends"))
       !! "type" = Some (VString "friends")
  /\ GetPagePath (H := Sample.library) (Sample.page "pages:friends") = "/my-friends/".
Proof.
  assert (Hp : hasTypeProperty (H := Sample.library)
                 (Sample.page "pages:friends") "pages:friends").
  { split.
    - exists "Type", (SelectProperty "pages:friends"). split; [|reflexivity].
      right. by left.
    - intros k prop [E|[E|[]]]; injection E as <- <-; [discriminate|reflexivity]. }
  split; [exact Hp|].
  destruct (compound_type (H := Sample.library) (Sample.page "pages:friends"))
    as [P _].
  destruct (P Hp) as [F G]. split; [exact F|]. rewrite G. reflexivity.
Defined.

(* ===================================================================== *)
(** * The file cache                                                      *)
(* ===================================================================== *)

Section FileCacheFacts.
Context `{Library} {W : Type} `{Platform W}.

(** The cases of [TestFileCache_ExtractFileIdentifier] without escapes. *)
Example extractFileIdentifier_s3 :
  extractFileIdentifier
    "https://s3.us-west-2.amazonaws.com/secure.notion-static.com/abc123/image.jpg?X-Amz-Algorithm=AWS4-HMAC-SHA256&X-Amz-Credential=test"
  = "/secure.notion-static.com/abc123/image.jpg".
Proof. reflexivity. Qed.

Example extractFileIdentifier_notion :
  extractFileIdentifier "https://www.notion.so/workspace/file-id?v=abc123"
  = "www.notion.so/workspace/file-id".
Proof. reflexivity. Qed.

Example extractFileIdentifier_external :
  extractFileIdentifier "https://example.com/image.jpg?param=value"
  = "example.com/image.jpg".
Proof. reflexivity. Qed.

(** Where the path of the URL has an extension, the file name depends on
    host and path only, whatever the query is. *)
Lemma generateFilename_with_extension (u1 u2 : string) (p1 p2 : url.URL) :
  url.Parse u1 = Ok p1 -> url.Parse u2 = Ok p2 ->
  url.Host p1 = url.Host p2 -> url.Path p1 = url.Path p2 ->
  filepath.Ext (url.Path p1) <> EmptyString ->
  generateFilename u1 = generateFilename u2.
Proof.
  intros E1 E2 Hh Hp Hext.
  unfold generateFilename, extractExtension, extractFileIdentifier.
  rewrite E1, E2, <- Hh, <- Hp, (str_eqb_nil_false _ Hext). reflexivity.
Qed.

(** [TestFileCache_ConsistentCaching]. *)
Example generateFilename_consistent :
  generateFilename
    "https://s3.us-west-2.amazonaws.com/secure.notion-static.com/abc123/image.jpg?X-Amz-Algorithm=AWS4-HMAC-SHA256&X-Amz-Date=20230101T000000Z"
  = generateFilename
      "https://s3.us-west-2.amazonaws.com/secure.notion-static.com/abc123/image.jpg?X-Amz-Algorithm=AWS4-HMAC-SHA256&X-Amz-Date=20230102T000000Z".
Proof. reflexivity. Qed.

(** C6 fails on the code: two URLs of one object without file extension,
    which differ only in the security token of their signature, get
    different file names, because the extension is guessed from the whole
    URL, query included. *)
Theorem generateFilename_resigned_differs :
  let u1 := "https://s3.us-west-2.amazonaws.com/secure.notion-static.com/abc123/file?X-Amz-Date=20230101T000000Z&X-Amz-Security-Token=FwoGZXpdfQ" in
  let u2 := "https://s3.us-west-2.amazonaws.com/secure.notion-static.com/abc123/file?X-Amz-Date=20230102T000000Z&X-Amz-Security-Token=IQoJb3JpZ2" in
  extractFileIdentifier u1 = extractFileIdentifier u2
  /\ extractExtension u1 = ".pdf"
  /\ extractExtension u2 = ".bin"
  /\ generateFilename u1 <> generateFilename u2.
Proof.
  intros u1 u2. repeat split.
  unfold generateFilename.
  change (extractExtension u1) with ".pdf".
  change (extractExtension u2) with ".bin".
  change (extractFileIdentifier u2) with (extractFileIdentifier u1).
  intros E. injection E as E. apply String.app_inj in E. discriminate.
Qed.

End FileCacheFacts.

(* ===================================================================== *)
(** * Running the renderer                                                *)
(* ===================================================================== *)

Section RenderFacts.
Context `{Library} {W : Type} `{Platform W}.
Implicit Types (r : Renderer) (st : Traced W) (w : W).
Implicit Types (gc : option (BlockID -> M W (result (list Block)))).
Implicit Types (resolver : option (string -> string)).

Lemma run_bind {V A B : Type} (m : M V A) (k : A -> M V B) (v : V) :
  (m ≫= k) v = k (fst (m v)) (snd (m v)).
Proof. unfold mbind, M_bind. by destruct (m v). Qed.

Lemma run_ret {V A : Type} (a : A) (v : V) : mret (M := M V) a v = (a, v).
Proof. reflexivity. Qed.

Lemma run_liftW {A : Type} (m : M W A) st :
  liftW m st = (fst (m (fst st)), (snd (m (fst st)), snd st)).
Proof. unfold liftW. by destruct (m (fst st)). Qed.

(** With fuel, a block of a kind that is never fetched is rendered by its
    formatter on empty child content, and the record of calls is as
    before. *)
Lemma renderBlock_unfetched r gc resolver (articlePath : string) (fuel : nat)
  (block : Block) st :
  snd (getBlockIDAndHasChildren block) = false ->
  renderBlock r gc resolver articlePath (S fuel) block st
  = let out := blockToMarkdownWithCache block EmptyString resolver (fileCache r)
                 articlePath (config r) (fst st) in
    (Returns (strings.TrimRight (fst (fst out)) LF, snd (fst out), None),
     (snd out, snd st)).
Proof.
  intros Hno. cbn [renderBlock].
  destruct (getBlockIDAndHasChildren block) as [id has]. cbn [snd] in Hno. subst has.
  rewrite run_bind.
  destruct gc; rewrite run_ret; cbn [fst snd];
    rewrite run_bind, run_liftW; cbn [fst snd];
    destruct (blockToMarkdownWithCache _ _ _ _ _ _ _) as [[s isList] w'];
    reflexivity.
Qed.

(** C10: a PDF block and a link-preview block are never fetched: with any
    callback, even a failing one, and whatever their has-children flag,
    rendering them leaves the record of callback calls unchanged and returns
    what the per-kind formatter makes of empty child content (which is what
    it makes of any child content). *)
Theorem pdf_and_link_preview_not_fetched r gc resolver (articlePath : string)
  (fuel : nat) (b : BasicBlock) (pdf : FileObject) (url : string) st :
  (let out := pdfToMarkdownWithCache pdf (fileCache r) articlePath (config r) (fst st) in
   renderBlock r gc resolver articlePath (S fuel) (PdfBlock b pdf) st
   = (Returns (strings.TrimRight (fst out) LF, false, None), (snd out, snd st)))
  /\ renderBlock r gc resolver articlePath (S fuel) (LinkPreviewBlock b url) st
     = (Returns (strings.TrimRight (linkPreviewToMarkdown url) LF, false, None), st)
  /\ (forall childContent : string,
        blockToMarkdownWithCache (PdfBlock b pdf) childContent resolver
          (fileCache r) articlePath (config r)
        = blockToMarkdownWithCache (PdfBlock b pdf) EmptyString resolver
            (fileCache r) articlePath (config r)
        /\ blockToMarkdownWithCache (W := W) (LinkPreviewBlock b url) childContent
             resolver (fileCache r) articlePath (config r)
           = blockToMarkdownWithCache (LinkPreviewBlock b url) EmptyString resolver
               (fileCache r) articlePath (config r)).
Proof.
  split; [|split].
  - rewrite renderBlock_unfetched by reflexivity.
    cbn [blockToMarkdownWithCache]. rewrite run_bind, run_ret. reflexivity.
  - rewrite renderBlock_unfetched by reflexivity.
    cbn [blockToMarkdownWithCache]. rewrite run_ret. by destruct st.
  - intros childContent. split; reflexivity.
Qed.

End RenderFacts.

Lemma pdf_and_link_preview_not_fetched_witness :
  let pdf := mkFileObject None (Some "https://example.com/paper.pdf") [] in
  renderBlock (H := Sample.library) (H0 := Sample.offline) Sample.renderer
    (Some Sample.children) None "posts/x/index.md" 1
    (PdfBlock (Sample.node "broken") pdf) (tt, [])
  = (Returns ("{{< pdf src=" +:+ DQ +:+ "https://example.com/paper.pdf" +:+ DQ +:+ " >}}",
              false, None), (tt, []))
  /\ renderBlock (H := Sample.library) (H0 := Sample.offline) Sample.renderer
       (Some Sample.children) None "posts/x/index.md" 1
       (ToggleBlock (Sample.node "broken") (Sample.text "t")) (tt, [])
     = (Returns (EmptyString, false, Some "notion: request timed out"),
        (tt, [("broken", Err "notion: request timed out")])).
Proof.
  intros pdf. split; [|reflexivity].
  destruct (pdf_and_link_preview_not_fetched (H := Sample.library)
              (H0 := Sample.offline) Sample.renderer (Some Sample.children) None
              "posts/x/index.md" 0 (Sample.node "broken") pdf EmptyString (tt, []))
    as [E _].
  rewrite E. reflexivity.
Defined.

(* ===================================================================== *)
(** * Media blocks and the cache                                          *)
(* ===================================================================== *)

Section MediaFacts.
Context `{Library} {W : Type} `{Platform W}.

(** A transport error, a status other than 200 and an error while creating
    or writing the local file each make [downloadFile] fail. *)
Lemma downloadFile_fails (url localPath : string) (w : W) :
  match http_Get url w with
  | (Err _, _) => True
  | (Ok resp, w1) =>
      StatusCode resp <> 200
      \/ (exists e, fst (os_Create localPath w1) = Some e)
      \/ (fst (os_Create localPath w1) = None
          /\ exists e, fst (io_Copy localPath (Body resp) (snd (os_Create localPath w1)))
                       = Some e)
  end ->
  exists err, fst (downloadFile url localPath w) = Some err.
Proof.
  unfold downloadFile. rewrite run_bind.
  destruct (http_Get url w) as [[resp|e] w1]; cbn [fst snd]; intros Hc.
  2: { eexists. reflexivity. }
  destruct (Nat.eqb_spec (StatusCode resp) 200) as [E|E]; cbn [negb].
  2: { eexists. reflexivity. }
  destruct Hc as [Hc|[[e Hc]|[Hc [e He]]]]; [done| |]; rewrite run_bind, Hc.
  - eexists. reflexivity.
  - rewrite run_bind, He. eexists. reflexivity.
Qed.

Lemma CacheFile_download_error (fc : FileCache) (notionURL articlePath : string)
  (filename err : string) (w : W) :
  let dir := filepath_Join [basePath fc; filepath_Dir articlePath] in
  let localPath := filepath_Join [dir; filename] in
  generateFilename notionURL = Ok filename ->
  fst (os_MkdirAll dir w) = None ->
  fst (os_Stat localPath (snd (os_MkdirAll dir w))) = false ->
  fst (downloadFile notionURL localPath
         (snd (os_Stat localPath (snd (os_MkdirAll dir w))))) = Some err ->
  fst (CacheFile fc notionURL articlePath w)
  = Err ("failed to download file: " +:+ err).
Proof.
  intros dir localPath Hg Hm Hs Hd. unfold CacheFile.
  fold dir. rewrite run_bind, Hm, Hg. fold localPath.
  rewrite run_bind, Hs, run_bind, Hd. reflexivity.
Qed.

Lemma processFileURLWithCache_fallback (f : FileObject) (u : string)
  (fc : FileCache) (articlePath e : string) (w w1 : W) :
  File f = Some u -> u <> EmptyString -> articlePath <> EmptyString ->
  CacheFile fc u articlePath w = (Err e, w1) ->
  processFileURLWithCache f (Some fc) articlePath w = ((u, mediaText f u), w1).
Proof.
  intros Hf Hu Ha Hc. unfold processFileURLWithCache, getFileURL.
  rewrite Hf, (str_eqb_nil_false _ Hu), (str_eqb_nil_false _ Ha).
  cbn [andb negb]. rewrite run_bind, Hc. reflexivity.
Qed.

(** C8: for every image, file, PDF or video block with an internally hosted
    file whose [CacheFile] call fails, the formatter puts the original
    remote URL where the local path would stand, and rendering the block
    returns this fragment with no error. *)
Theorem cache_failure_keeps_remote_url (r : Renderer)
  (gc : option (BlockID -> M W (result (list Block))))
  (resolver : option (string -> string)) (articlePath : string) (fuel : nat)
  (block : Block) (f : FileObject) (u : string) (fc : FileCache) (e : string)
  (w w1 : W) (log : list Call) :
  isMediaBlock block f ->
  File f = Some u -> u <> EmptyString ->
  fileCache r = Some fc -> articlePath <> EmptyString ->
  CacheFile fc u articlePath w = (Err e, w1) ->
  let out := mediaFragment (config r) block u (mediaText f u) w1 in
  (forall childContent : string,
     blockToMarkdownWithCache block childContent resolver (fileCache r) articlePath
       (config r) w = ((fst out, false), snd out))
  /\ (snd (getBlockIDAndHasChildren block) = false ->
      renderBlock r gc resolver articlePath (S fuel) block (w, log)
      = (Returns (strings.TrimRight (fst out) LF, false, None), (snd out, log))).
Proof.
  intros Hb Hf Hu Hfc Ha Hc out.
  pose proof (processFileURLWithCache_fallback f u fc articlePath e w w1
                Hf Hu Ha Hc) as Hp.
  assert (Hfmt : forall childContent : string,
             blockToMarkdownWithCache block childContent resolver (fileCache r)
               articlePath (config r) w = ((fst out, false), snd out)).
  { intros childContent. subst out. rewrite Hfc.
    destruct Hb as [b [-> | [-> | [-> | ->]]]];
      cbn [blockToMarkdownWithCache mediaFragment];
      unfold imageToMarkdownWithCache, fileToMarkdownWithCache,
        pdfToMarkdownWithCache, videoToMarkdownWithCache;
      rewrite !run_bind, Hp; cbn [fst snd];
      rewrite (str_eqb_nil_false _ Hu); rewrite ?run_ret; try reflexivity;
      destruct (renderTemplate _ _ w1); reflexivity. }
  split; [exact Hfmt|].
  intros Hno. rewrite renderBlock_unfetched by exact Hno.
  cbn [fst snd]. rewrite Hfmt. reflexivity.
Qed.

End MediaFacts.

Lemma cache_failure_keeps_remote_url_witness :
  let u := "https://prod-files-secure.s3.us-west-2.amazonaws.com/ws/id/photo.png?X-Amz-Signature=abc" in
  let f := mkFileObject (Some u) None [] in
  let block := ImageBlock (Sample.leaf "img") f in
  CacheFile (H := Sample.library) (H0 := Sample.offline)
    (NewFileCache "content") u "posts/x/index.md" tt
  = (Err "failed to download file: failed to fetch URL https://prod-files-secure.s3.us-west-2.amazonaws.com/ws/id/photo.png?X-Amz-Signature=abc: dial tcp: no route to host", tt)
  /\ renderBlock (H := Sample.library) (H0 := Sample.offline) Sample.renderer
       (Some Sample.children) None "posts/x/index.md" 1 block (tt, [])
     = (Returns ("![photo.png](https://prod-files-secure.s3.us-west-2.amazonaws.com/ws/id/photo.png?X-Amz-Signature=abc)",
                 false, None), (tt, [])).
Proof.
  intros u f block.
  assert (Hc : CacheFile (H := Sample.library) (H0 := Sample.offline)
                 (NewFileCache "content") u "posts/x/index.md" tt
               = (Err "failed to download file: failed to fetch URL https://prod-files-secure.s3.us-west-2.amazonaws.com/ws/id/photo.png?X-Amz-Signature=abc: dial tcp: no route to host", tt))
    by reflexivity.
  split; [exact Hc|].
  refine (proj2 (cache_failure_keeps_remote_url (H := Sample.library)
                   (H0 := Sample.offline) Sample.renderer (Some Sample.children)
                   None "posts/x/index.md" 0 block f u (NewFileCache "content") _ tt tt
                   [] _ eq_refl _ eq_refl _ Hc) eq_refl).
  - exists (Sample.leaf "img"). by left.
  - discriminate.
  - discriminate.
Defined.

(* ===================================================================== *)
(** * Tables                                                              *)
(* ===================================================================== *)

Lemma tableMaxCols_from (rows : list (list string)) (start : nat) :
  fold_left (fun maxCols parts => if maxCols <? length parts then length parts
                                  else maxCols) rows start
  = Nat.max start (tableWidth rows).
Proof.
  revert start. induction rows as [|row rows IH]; intros start; cbn [fold_left tableWidth foldr].
  - lia.
  - rewrite IH. fold (tableWidth rows).
    destruct (Nat.ltb_spec start (length row)); lia.
Qed.

Lemma tableMaxCols_width (rows : list (list string)) :
  tableMaxCols rows = tableWidth rows.
Proof. unfold tableMaxCols. rewrite tableMaxCols_from. lia. Qed.

Lemma tableWidth_bound (rows : list (list string)) (row : list string) :
  In row rows -> length row <= tableWidth rows.
Proof.
  induction rows as [|r rows IH]; [done|].
  cbn [tableWidth foldr]. fold (tableWidth rows).
  intros [->|Hin]; [lia|]. specialize (IH Hin). lia.
Qed.

Lemma tablePad_padRow (width : nat) (cells : list string) :
  tablePad width cells = padRow width cells.
Proof.
  unfold tablePad, padRow. destruct (Nat.ltb_spec (length cells) width) as [Hl|Hl].
  - reflexivity.
  - replace (width - length cells) with 0 by lia. cbn [repeat]. by rewrite app_nil_r.
Qed.

Lemma padRow_length (width : nat) (cells : list string) :
  length cells <= width -> length (padRow width cells) = width.
Proof. intros Hl. unfold padRow. rewrite length_app, repeat_length. lia. Qed.

Lemma tableNormalize_formatRow (width : nat) (cells : list string) :
  tableNormalize width cells = formatRow (padRow width cells).
Proof. unfold tableNormalize, formatRow. by rewrite tablePad_padRow. Qed.

Lemma Join_lines (rows : list string) :
  match rows with
  | [] => EmptyString
  | _ => LF +:+ strings.Join rows LF
  end = concatAll (map (fun row => LF +:+ row) rows).
Proof.
  destruct rows as [|row rows]; [reflexivity|].
  revert row. induction rows as [|row' rows IH]; intros row.
  - cbn [strings.Join map concatAll foldr]. by rewrite !str_app_nil_r.
  - change (strings.Join (row :: row' :: rows) LF)
      with (row +:+ LF +:+ strings.Join (row' :: rows) LF).
    rewrite (IH row'). cbn [map concatAll foldr]. by rewrite !str_app_assoc.
Qed.

(** With the column-header flag, the Markdown of a table is the first row
    the code reads from the child content, directly beneath it a separator
    row with ["---"] for each column, then the other rows it reads; every
    row is padded with empty cells at its end up to the width of the widest
    row. *)
Lemma tableToMarkdown_header (childContent : string)
  (header : list string) (others : list (list string)) :
  tableRows childContent = header :: others ->
  let width := tableWidth (header :: others) in
  tableToMarkdown true childContent
  = formatRow (padRow width header) +:+ LF
    +:+ formatRow (repeat "---" width)
    +:+ concatAll (map (fun row => LF +:+ formatRow (padRow width row)) others)
  /\ Forall (fun row => length (padRow width row) = width) (header :: others)
  /\ length (repeat "---" width) = width.
Proof.
  intros Hrows width. split; [|split].
  - unfold tableToMarkdown. unfold tableRows in Hrows.
    destruct (String.eqb_spec (strings.TrimSpace (dedentChildContent childContent))
                              EmptyString) as [E|_].
    { rewrite E in Hrows. discriminate Hrows. }
    destruct (strings.Split _ LF) as [|l ls] eqn:El; [discriminate Hrows|].
    rewrite Hrows, tableMaxCols_width. fold width.
    cbn [map]. rewrite !tableNormalize_formatRow.
    rewrite Join_lines, map_map.
    assert (E : map (fun x => LF +:+ tableNormalize width x) others
                = map (fun row => LF +:+ formatRow (padRow width row)) others).
    { apply map_ext. intros row. by rewrite tableNormalize_formatRow. }
    rewrite E. unfold formatRow. by rewrite !str_app_assoc.
  - apply Forall_forall. intros row Hin. apply padRow_length.
    apply tableWidth_bound. by apply list_elem_of_In.
  - apply repeat_length.
Qed.

(** C5 fails on the code: a table with the column-header flag whose rows
    have three, two and three cells, the last cell of the last row being
    empty.  The rows reach [tableToMarkdown] as lines of text, and
    [strings.TrimSpace], applied to the whole text, takes away the space
    that stands for the empty cell at the end of the last line.  That line
    is then read as the two cells ["Ada"] and ["Eng |"] and padded to three:
    the last row of the Markdown has four columns where the header and its
    separator row have three. *)
Theorem table_empty_edge_cell :
  let table := TableBlock (Sample.node "crew") true in
  let run := renderBlock (H := Sample.library) (H0 := Sample.offline) Sample.renderer
               (Some Sample.tree) None "posts/x/index.md" 2 table (tt, []) in
  fst (Sample.tree "crew" tt)
  = Ok [TableRowBlock (Sample.leaf "r1")
          [Sample.text "Name"; Sample.text "Role"; Sample.text "Team"];
        TableRowBlock (Sample.leaf "r2") [Sample.text "Grace"; Sample.text "Admiral"];
        TableRowBlock (Sample.leaf "r3") [Sample.text "Ada"; Sample.text "Eng"; []]]
  /\ tableRowToMarkdown [Sample.text "Ada"; Sample.text "Eng"; []] None
     = "Ada | Eng | "
  /\ fst run
     = Returns ("| Name | Role | Team |" +:+ LF
                +:+ "| --- | --- | --- |" +:+ LF
                +:+ "| Grace | Admiral |  |" +:+ LF
                +:+ "| Ada | Eng | |  |", false, None).
Proof. intros table run. repeat split; vm_compute; reflexivity. Qed.

(* ===================================================================== *)
(** * Errors of the children-fetch callback                               *)
(* ===================================================================== *)

Lemma clean_nil : clean [].
Proof. intros id e []. Qed.

Lemma clean_app (l1 l2 : list Call) : clean l1 -> clean l2 -> clean (l1 ++ l2).
Proof. intros H1 H2 id e Hin. apply in_app_or in Hin as [Hin|Hin]; [by eapply H1|by eapply H2]. Qed.

Lemma clean_ok (id : BlockID) (children : list Block) : clean [(id, Ok children)].
Proof. intros id' e [E|[]]. discriminate E. Qed.

Lemma failedLast_app (l1 l2 : list Call) (e : string) :
  clean l1 -> failedLast l2 e -> failedLast (l1 ++ l2) e.
Proof.
  intros H1 (pre & id & -> & Hpre). exists (l1 ++ pre), id.
  split; [by rewrite app_assoc|]. by apply clean_app.
Qed.

Lemma failedLast_single (id : BlockID) (e : string) : failedLast [(id, Err e)] e.
Proof. exists [], id. split; [reflexivity|apply clean_nil]. Qed.

Lemma failedLast_In (l : list Call) (e e' : string) (id : BlockID) :
  failedLast l e -> In (id, Err e') l -> e' = e.
Proof.
  intros (pre & id0 & -> & Hpre) Hin. apply in_app_or in Hin as [Hin|[E|[]]].
  - by apply Hpre in Hin.
  - by injection E.
Qed.

Section TraceFacts.
Context `{Library} {W : Type} `{Platform W}.
Variable r : Renderer.
Variable getChildren : option (BlockID -> M W (result (list Block))).
Variable resolver : option (string -> string).
Variable articlePath : string.

(** Continuing a clean run. *)
Lemma traceOK_after {A : Type} (errOf : A -> option string)
  (st st1 : Traced W) (new1 : list Call) (res : outcome A * Traced W) :
  snd st1 = snd st ++ new1 -> clean new1 ->
  traceOK errOf st1 res -> traceOK errOf st res.
Proof.
  intros E1 C1 (new & E & Hres). exists (new1 ++ new). split.
  - by rewrite E, E1, app_assoc.
  - destruct (fst res) as [a|]; [destruct (errOf a)|].
    + by apply failedLast_app.
    + by apply clean_app.
    + by apply clean_app.
Qed.

Lemma traceOK_renderChildren
  (render : Block -> M (Traced W) (outcome (string * bool * option string)))
  (block : Block) (children : list Block) :
  (forall cb st, traceOK snd st (render cb st)) ->
  forall childContent prevChildIsList st,
    traceOK snd st
      (renderChildren render block children childContent prevChildIsList st).
Proof.
  intros Hrender. induction children as [|cb rest IH];
    intros childContent prevChildIsList st.
  - exists []. split; [by rewrite app_nil_r|apply clean_nil].
  - cbn [renderChildren]. rewrite run_bind.
    destruct (Hrender cb st) as (new1 & E1 & Hres).
    destruct (render cb st) as [[[[cstr childIsList] [err|]]|] st1]; cbn [fst snd] in *.
    + exists new1. split; [exact E1|exact Hres].
    + eapply traceOK_after; [exact E1|exact Hres|apply IH].
    + exists new1. split; [exact E1|exact Hres].
Qed.

Lemma traceOK_renderBlocks
  (render : Block -> M (Traced W) (outcome (string * bool * option string)))
  (blocks : list Block) :
  (forall block st, traceOK snd st (render block st)) ->
  forall markdown prevIsList st,
    traceOK snd st (renderBlocks render blocks markdown prevIsList st).
Proof.
  intros Hrender. induction blocks as [|block rest IH];
    intros markdown prevIsList st.
  - exists []. split; [by rewrite app_nil_r|apply clean_nil].
  - cbn [renderBlocks]. rewrite run_bind.
    destruct (Hrender block st) as (new1 & E1 & Hres).
    destruct (render block st) as [[[[s isList] [err|]]|] st1]; cbn [fst snd] in *.
    + exists new1. split; [exact E1|exact Hres].
    + eapply traceOK_after; [exact E1|exact Hres|apply IH].
    + exists new1. split; [exact E1|exact Hres].
Qed.

Lemma traceOK_renderBlock (fuel : nat) :
  forall block st,
    traceOK snd st (renderBlock r getChildren resolver articlePath fuel block st).
Proof.
  induction fuel as [|fuel IH]; intros block st.
  { exists []. split; [by rewrite app_nil_r|apply clean_nil]. }
  cbn [renderBlock].
  destruct (getBlockIDAndHasChildren block) as [id has].
  rewrite run_bind.
  set (fetched := match getChildren with Some _ => _ | None => _ end).
  assert (Hf : traceOK snd st (fetched st)).
  { subst fetched. destruct getChildren as [callback|].
    2: { exists []. split; [by rewrite app_nil_r|apply clean_nil]. }
    destruct has.
    2: { exists []. split; [by rewrite app_nil_r|apply clean_nil]. }
    rewrite run_bind. unfold fetch at 1 2.
    destruct (callback id (fst st)) as [[children|err] w1]; cbn [fst snd].
    2: { exists [(id, Err err)]. split; [reflexivity|apply failedLast_single]. }
    rewrite run_bind.
    pose proof (traceOK_renderChildren _ block children IH EmptyString false
                  (w1, snd st ++ [(id, Ok children)])) as Hloop.
    eapply (traceOK_after snd st (w1, snd st ++ [(id, Ok children)]));
      [reflexivity|apply clean_ok|].
    destruct Hloop as (new & E & Hres). exists new.
    destruct (renderChildren _ _ _ _ _ _) as [[[cc [err|]]|] st2];
      cbn [fst snd] in *; split; assumption. }
  destruct Hf as (new & E & Hres).
  destruct (fetched st) as [[[cc [err|]]|] st1]; cbn [fst snd] in *.
  - exists new. split; assumption.
  - rewrite run_bind, run_liftW. cbn [fst snd].
    destruct (blockToMarkdownWithCache _ _ _ _ _ _ _) as [[s isList] w2].
    exists new. split; assumption.
  - exists new. split; assumption.
Qed.

End TraceFacts.

(* ===================================================================== *)
(** * Fuel                                                                *)
(* ===================================================================== *)

Section FuelFacts.
Context `{Library} {W : Type} `{Platform W}.
Variable r : Renderer.
Variable getChildren : option (BlockID -> M W (result (list Block))).
Variable resolver : option (string -> string).
Variable articlePath : string.

Lemma renderChildren_more
  (render1 render2 : Block -> M (Traced W) (outcome (string * bool * option string)))
  (parent : Block) (children : list Block) :
  (forall cb st a st', render1 cb st = (Returns a, st') ->
                       render2 cb st = (Returns a, st')) ->
  forall childContent prev st a st',
    renderChildren render1 parent children childContent prev st = (Returns a, st') ->
    renderChildren render2 parent children childContent prev st = (Returns a, st').
Proof.
  intros Hr. induction children as [|cb rest IH]; intros childContent prev st a st';
    [done|].
  cbn [renderChildren]. rewrite !run_bind.
  destruct (render1 cb st) as [[[[cstr l] [err|]]|] st1] eqn:E1; cbn [fst snd];
    try discriminate; rewrite (Hr _ _ _ _ E1); cbn [fst snd]; [done|apply IH].
Qed.

Lemma renderBlocks_more
  (render1 render2 : Block -> M (Traced W) (outcome (string * bool * option string)))
  (blocks : list Block) :
  (forall block st a st', render1 block st = (Returns a, st') ->
                          render2 block st = (Returns a, st')) ->
  forall markdown prev st a st',
    renderBlocks render1 blocks markdown prev st = (Returns a, st') ->
    renderBlocks render2 blocks markdown prev st = (Returns a, st').
Proof.
  intros Hr. induction blocks as [|block rest IH]; intros markdown prev st a st';
    [done|].
  cbn [renderBlocks]. rewrite !run_bind.
  destruct (render1 block st) as [[[[s l] [err|]]|] st1] eqn:E1; cbn [fst snd];
    try discriminate; rewrite (Hr _ _ _ _ E1); cbn [fst snd]; [done|apply IH].
Qed.

(** What a block returns with some fuel it returns with any more fuel. *)
Lemma renderBlock_more_fuel (fuel : nat) :
  forall fuel' block st a st',
    fuel <= fuel' ->
    renderBlock r getChildren resolver articlePath fuel block st = (Returns a, st') ->
    renderBlock r getChildren resolver articlePath fuel' block st = (Returns a, st').
Proof.
  induction fuel as [|fuel IH]; intros fuel' block st a st' Hle; [discriminate|].
  destruct fuel' as [|fuel']; [lia|]. cbn [renderBlock].
  destruct (getBlockIDAndHasChildren block) as [id has]. rewrite !run_bind.
  destruct getChildren as [callback|]; [|done].
  destruct has; [|done].
  rewrite !run_bind. destruct (fetch callback id st) as [[children|err] st1];
    cbn [fst snd]; [|done].
  rewrite !run_bind.
  destruct (renderChildren (renderBlock r (Some callback) resolver articlePath fuel)
              block children EmptyString false st1) as [[[cc [err|]]|] st2] eqn:E1;
    cbn [fst snd]; try discriminate.
  - rewrite (renderChildren_more _
               (renderBlock r (Some callback) resolver articlePath fuel')
               block children
               (fun cb st a st' => IH fuel' cb st a st' ltac:(lia)) _ _ _ _ _ E1).
    done.
  - rewrite (renderChildren_more _
               (renderBlock r (Some callback) resolver articlePath fuel')
               block children
               (fun cb st a st' => IH fuel' cb st a st' ltac:(lia)) _ _ _ _ _ E1).
    done.
Qed.

Lemma renderBlocksRecursive_more_fuel (fuel fuel' : nat) (blocks : list Block)
  (st st' : Traced W) (a : string * option string) :
  fuel <= fuel' ->
  renderBlocksRecursive r getChildren resolver articlePath fuel blocks st
  = (Returns a, st') ->
  renderBlocksRecursive r getChildren resolver articlePath fuel' blocks st
  = (Returns a, st').
Proof.
  intros Hle. unfold renderBlocksRecursive. apply renderBlocks_more.
  intros block st0 a0 st0'. by apply renderBlock_more_fuel.
Qed.

End FuelFacts.

Section PageFacts.
Context `{Library} {W : Type} `{Platform W}.

(** C7: whenever, during the rendering of a page, the children-fetch
    callback answers with an error for a block, at whatever depth,
    [RenderPage] returns that error with an empty file name and empty
    content; the failed call is the last one made. *)
Theorem fetch_error_aborts_page (r : Renderer) (fuel : nat) (page : Page)
  (blocks : list Block)
  (getChildren : option (BlockID -> M W (result (list Block))))
  (resolveArg : option (string -> string)) (st : Traced W) :
  let run := RenderPage r fuel page blocks getChildren resolveArg st in
  exists new,
    snd (snd run) = snd st ++ new
    /\ forall id e, In (id, Err e) new ->
         fst run = Returns (EmptyString, EmptyString, Some e)
         /\ exists pre, new = pre ++ [(id, Err e)] /\ clean pre.
Proof.
  intros run. subst run. unfold RenderPage, renderBlocksRecursive.
  rewrite run_bind.
  set (resolver := match resolveArg with None => resolve r | Some _ => resolveArg end).
  pose proof (traceOK_renderBlocks
                (renderBlock r getChildren resolver (buildFilename (parseMetadata page)) fuel)
                blocks
                (traceOK_renderBlock r getChildren resolver _ fuel)
                EmptyString false st) as (new & E & Hres).
  destruct (renderBlocks _ _ _ _ _) as [[[body [err|]]|] st1]; cbn [fst snd] in *.
  - exists new. split; [exact E|]. intros id e Hin.
    assert (e = err) as -> by (eapply failedLast_In; eauto).
    split; [reflexivity|].
    destruct Hres as (pre & id0 & -> & Hpre). exists pre. split; [|exact Hpre].
    apply in_app_or in Hin as [Hin|[E'|[]]]; [by apply Hpre in Hin|].
    by injection E' as ->.
  - exists new. destruct (buildFrontMatter _) as [fm|yamlErr]; cbn [fst snd];
      (split; [exact E|]); intros id e Hin; by apply Hres in Hin.
  - exists new. split; [exact E|]. intros id e Hin. by apply Hres in Hin.
Qed.

End PageFacts.

Lemma fetch_error_aborts_page_witness :
  let blocks := [ParagraphBlock (Sample.leaf "x") (Sample.text "hello");
                 BulletedListItemBlock (Sample.node "outer") (Sample.text "top");
                 ParagraphBlock (Sample.leaf "y") (Sample.text "never rendered")] in
  let run := RenderPage (H := Sample.library) (H0 := Sample.offline) Sample.renderer
               5 (Sample.page "post") blocks (Some Sample.children) None (tt, []) in
  In ("broken", Err "notion: request timed out") (snd (snd run))
  /\ fst run = Returns (EmptyString, EmptyString, Some "notion: request timed out").
Proof.
  intros blocks run.
  assert (Hin : In ("broken", Err "notion: request timed out") (snd (snd run))).
  { right. left. reflexivity. }
  split; [exact Hin|].
  destruct (fetch_error_aborts_page (H := Sample.library) (H0 := Sample.offline)
              Sample.renderer 5 (Sample.page "post") blocks (Some Sample.children)
              None (tt, [])) as (new & E & Hnew).
  cbn [snd] in E. rewrite app_nil_l in E. fold run in E, Hnew. rewrite E in Hin.
  exact (proj1 (Hnew _ _ Hin)).
Defined.

(* ===================================================================== *)
(** * Spacing between siblings                                            *)
(* ===================================================================== *)

Lemma str_app_ne_nil_r (s t : string) : t <> EmptyString -> s +:+ t <> EmptyString.
Proof. intros Ht E. apply str_app_eq_nil in E as [_ E]. by apply Ht. Qed.

Lemma str_app_ne_nil_l (s t : string) : s <> EmptyString -> s +:+ t <> EmptyString.
Proof. intros Hs E. apply str_app_eq_nil in E as [E _]. by apply Hs. Qed.

Lemma appendBlock_eq (markdown : string) (prevIsList : bool) (s : string)
  (isList : bool) :
  appendBlock markdown prevIsList s isList
  = if String.eqb markdown EmptyString then s
    else markdown +:+ siblingSeparator prevIsList isList +:+ s.
Proof.
  unfold appendBlock, siblingSeparator.
  destruct (String.eqb_spec markdown EmptyString) as [->|_]; cbn [negb]; [reflexivity|].
  destruct (prevIsList && isList); by rewrite !str_app_assoc.
Qed.

Lemma appendChild_eq (parent : Block) (childContent : string)
  (prevChildIsList : bool) (cstr : string) (childIsList : bool) :
  appendChild parent childContent prevChildIsList cstr childIsList
  = (if String.eqb childContent EmptyString then indentedFragment parent cstr
     else childContent +:+ siblingSeparator prevChildIsList childIsList
          +:+ indentedFragment parent cstr)
    +:+ columnBreak parent.
Proof.
  unfold appendChild, columnBreak, siblingSeparator. fold (indentedFragment parent cstr).
  destruct (isColumnListBlock parent).
  - destruct (String.eqb _ _); by rewrite ?str_app_assoc.
  - by rewrite str_app_nil_r.
Qed.

(** Each turn of either loop only adds text at the end. *)
Lemma joinBlocksFrom_extends (frs : list (string * bool)) (markdown : string)
  (prev : bool) :
  exists tail, fst (joinBlocksFrom markdown prev frs) = markdown +:+ tail.
Proof.
  revert markdown prev. induction frs as [|[s l] frs IH]; intros markdown prev.
  - exists EmptyString. cbn. by rewrite str_app_nil_r.
  - unfold joinBlocksFrom. cbn [fold_left fst snd].
    destruct (IH (appendBlock markdown prev s l) l) as [tail E].
    unfold joinBlocksFrom in E. rewrite E, appendBlock_eq.
    destruct (String.eqb_spec markdown EmptyString) as [->|_].
    + exists (s +:+ tail). reflexivity.
    + eexists. rewrite !str_app_assoc. reflexivity.
Qed.

Lemma joinChildrenFrom_extends (parent : Block) (frs : list (string * bool))
  (childContent : string) (prev : bool) :
  exists tail, fst (joinChildrenFrom parent childContent prev frs) = childContent +:+ tail.
Proof.
  revert childContent prev. induction frs as [|[s l] frs IH]; intros childContent prev.
  - exists EmptyString. cbn. by rewrite str_app_nil_r.
  - unfold joinChildrenFrom. cbn [fold_left fst snd].
    destruct (IH (appendChild parent childContent prev s l) l) as [tail E].
    unfold joinChildrenFrom in E. rewrite E, appendChild_eq.
    destruct (String.eqb_spec childContent EmptyString) as [->|_].
    + eexists. rewrite str_app_nil_l. reflexivity.
    + eexists. rewrite !str_app_assoc. reflexivity.
Qed.

Lemma joinBlocksFrom_last (pre : list (string * bool)) (s : string) (l : bool)
  (markdown : string) (prev : bool) :
  exists head,
    joinBlocksFrom markdown prev (pre ++ [(s, l)]) = (head +:+ s, l).
Proof.
  unfold joinBlocksFrom. rewrite fold_left_app. cbn [fold_left fst snd].
  destruct (fold_left _ pre (markdown, prev)) as [md p]. cbn [fst snd].
  rewrite appendBlock_eq. destruct (String.eqb md EmptyString).
  - exists EmptyString. reflexivity.
  - eexists. rewrite <- !str_app_assoc. reflexivity.
Qed.

Lemma joinChildrenFrom_last (parent : Block) (pre : list (string * bool))
  (s : string) (l : bool) (childContent : string) (prev : bool) :
  exists head,
    joinChildrenFrom parent childContent prev (pre ++ [(s, l)])
    = (head +:+ indentedFragment parent s +:+ columnBreak parent, l).
Proof.
  unfold joinChildrenFrom. rewrite fold_left_app. cbn [fold_left fst snd].
  destruct (fold_left _ pre (childContent, prev)) as [cc p]. cbn [fst snd].
  rewrite appendChild_eq. destruct (String.eqb cc EmptyString).
  - exists EmptyString. reflexivity.
  - eexists. rewrite <- !str_app_assoc. reflexivity.
Qed.

(** Two neighbours in the top-level loop. *)
Lemma joinBlocks_pair (pre post : list (string * bool)) (s1 s2 : string)
  (l1 l2 : bool) :
  s1 <> EmptyString ->
  exists head tail,
    joinBlocks (pre ++ (s1, l1) :: (s2, l2) :: post)
    = head +:+ s1 +:+ siblingSeparator l1 l2 +:+ s2 +:+ tail
    /\ joinBlocks (pre ++ [(s1, l1)]) = head +:+ s1.
Proof.
  intros Hs1. unfold joinBlocks.
  destruct (joinBlocksFrom_last pre s1 l1 EmptyString false) as [head E].
  exists head.
  replace (pre ++ (s1, l1) :: (s2, l2) :: post)
    with ((pre ++ [(s1, l1)]) ++ (s2, l2) :: post) by by rewrite <- app_assoc.
  unfold joinBlocksFrom in *. rewrite fold_left_app, E. cbn [fold_left fst snd].
  rewrite appendBlock_eq, (str_eqb_nil_false _ (str_app_ne_nil_r head s1 Hs1)).
  destruct (joinBlocksFrom_extends post
              ((head +:+ s1) +:+ siblingSeparator l1 l2 +:+ s2) l2) as [tail Et].
  unfold joinBlocksFrom in Et. rewrite Et. exists tail.
  split; [by rewrite !str_app_assoc|reflexivity].
Qed.

(** Two neighbours in the loop over the children of [parent]. *)
Lemma joinChildren_pair (parent : Block) (pre post : list (string * bool))
  (c1 c2 : string) (l1 l2 : bool) :
  indentedFragment parent c1 <> EmptyString ->
  exists head tail,
    joinChildren parent (pre ++ (c1, l1) :: (c2, l2) :: post)
    = head +:+ indentedFragment parent c1 +:+ columnBreak parent
      +:+ siblingSeparator l1 l2 +:+ indentedFragment parent c2 +:+ tail
    /\ joinChildren parent (pre ++ [(c1, l1)])
       = head +:+ indentedFragment parent c1 +:+ columnBreak parent.
Proof.
  intros Hc1. unfold joinChildren.
  destruct (joinChildrenFrom_last parent pre c1 l1 EmptyString false) as [head E].
  exists head.
  replace (pre ++ (c1, l1) :: (c2, l2) :: post)
    with ((pre ++ [(c1, l1)]) ++ (c2, l2) :: post) by by rewrite <- app_assoc.
  unfold joinChildrenFrom in *. rewrite fold_left_app, E. cbn [fold_left fst snd].
  rewrite appendChild_eq.
  rewrite (str_eqb_nil_false _
             (str_app_ne_nil_r head _ (str_app_ne_nil_l _ (columnBreak parent) Hc1))).
  destruct (joinChildrenFrom_extends parent post
              (((head +:+ indentedFragment parent c1 +:+ columnBreak parent)
                +:+ siblingSeparator l1 l2 +:+ indentedFragment parent c2)
               +:+ columnBreak parent) l2) as [tail Et].
  unfold joinChildrenFrom in Et. rewrite Et. eexists.
  split; [by rewrite !str_app_assoc|reflexivity].
Qed.

(** Trailing bytes are only trimmed off the end. *)
Lemma trimRightBy_app (p : ascii -> bool) (a b : string) :
  strings.trimRightBy p b <> EmptyString ->
  strings.trimRightBy p (a +:+ b) = a +:+ strings.trimRightBy p b.
Proof.
  intros Hb. induction a as [|c a IH]; [reflexivity|].
  rewrite !str_app_cons. cbn [strings.trimRightBy]. rewrite IH.
  destruct (a +:+ strings.trimRightBy p b) eqn:E; [|reflexivity].
  apply str_app_eq_nil in E as [_ E]. by apply Hb in E.
Qed.

(** A string is left alone by the trimming exactly when its last byte is
    not trimmed. *)
Lemma trimRightBy_id (p : ascii -> bool) (s : string) :
  endsIn p s = false -> strings.trimRightBy p s = s.
Proof.
  induction s as [|c s IH]; [reflexivity|]. cbn [endsIn strings.trimRightBy].
  destruct s as [|d s].
  - cbn. by intros ->.
  - intros E. rewrite (IH E). reflexivity.
Qed.

Lemma endsIn_trimRightBy (p : ascii -> bool) (s : string) :
  endsIn p (strings.trimRightBy p s) = false.
Proof.
  induction s as [|c s IH]; [reflexivity|]. cbn [strings.trimRightBy].
  destruct (strings.trimRightBy p s) as [|d t] eqn:E.
  - destruct (p c) eqn:Ep; [reflexivity|]. cbn. exact Ep.
  - exact IH.
Qed.

Lemma endsIn_ext (p q : ascii -> bool) (s : string) :
  (forall c, p c = q c) -> endsIn p s = endsIn q s.
Proof.
  intros E. induction s as [|c s IH]; [reflexivity|]. cbn [endsIn].
  destruct s; [apply E|exact IH].
Qed.

Lemma endsIn_LF (s : string) :
  endsIn (Ascii.eqb "010") s = endsIn (strings.inCutset LF) s.
Proof.
  apply endsIn_ext. intros c. unfold LF. cbn [strings.inCutset].
  rewrite orb_false_r. apply Ascii.eqb_sym.
Qed.

Lemma endsIn_app (p : ascii -> bool) (a b : string) :
  b <> EmptyString -> endsIn p (a +:+ b) = endsIn p b.
Proof.
  intros Hb. induction a as [|c a IH]; [reflexivity|].
  rewrite str_app_cons. cbn [endsIn]. rewrite IH.
  destruct (a +:+ b) eqn:E; [|reflexivity].
  apply str_app_eq_nil in E as [_ E]. by apply Hb in E.
Qed.

Lemma trimRightBy_app_nil (p : ascii -> bool) (a b : string) :
  strings.trimRightBy p b = EmptyString ->
  strings.trimRightBy p (a +:+ b) = strings.trimRightBy p a.
Proof.
  intros Hb. induction a as [|c a IH]; [exact Hb|].
  rewrite str_app_cons. cbn [strings.trimRightBy]. by rewrite IH.
Qed.

(** Text added after a string that does not end in a trimmed byte is
    trimmed on its own. *)
Lemma trimRightBy_app_keep (p : ascii -> bool) (a b : string) :
  a <> EmptyString -> endsIn p a = false ->
  exists b', strings.trimRightBy p (a +:+ b) = a +:+ b'.
Proof.
  intros Ha Hend.
  destruct (strings.trimRightBy p b) as [|d t] eqn:E.
  - exists EmptyString. by rewrite trimRightBy_app_nil, trimRightBy_id, str_app_nil_r.
  - exists (String d t). rewrite trimRightBy_app; [by rewrite E|]. by rewrite E.
Qed.

(** [strings.Split] around one byte. *)
Lemma splitFrom_byte (c : ascii) (s : string) (cuts : nat) :
  strings.len s <= cuts ->
  strings.splitFrom (String c EmptyString) cuts 0 s = splitByte c s.
Proof.
  revert cuts. induction s as [|d s IH]; intros cuts Hc; [reflexivity|].
  cbn [strings.len String.length] in Hc.
  destruct cuts as [|n]; [lia|].
  cbn [strings.splitFrom splitByte strings.HasPrefix strings.len String.length Nat.sub].
  destruct (Ascii.eqb d c).
  - rewrite IH; [reflexivity|]. unfold strings.len. lia.
  - rewrite IH; [reflexivity|]. unfold strings.len. lia.
Qed.

Lemma Split_byte (c : ascii) (s : string) :
  strings.Split s (String c EmptyString) = splitByte c s.
Proof. unfold strings.Split. by apply splitFrom_byte. Qed.

Lemma splitByte_ne_nil (c : ascii) (s : string) : splitByte c s <> [].
Proof.
  destruct s as [|d s]; [done|]. cbn [splitByte].
  destruct (Ascii.eqb d c); [done|]. by destruct (splitByte c s).
Qed.

(** The last piece of a text that does not end in the separator is not
    empty and does not end in it either. *)
Lemma splitByte_last (c : ascii) (s : string) :
  s <> EmptyString -> endsIn (Ascii.eqb c) s = false ->
  List.last (splitByte c s) EmptyString <> EmptyString
  /\ endsIn (Ascii.eqb c) (List.last (splitByte c s) EmptyString) = false.
Proof.
  induction s as [|d s IH]; [done|]. intros _ Hend.
  cbn [endsIn] in Hend. cbn [splitByte].
  destruct s as [|d' s'].
  - cbn [splitByte]. rewrite Ascii.eqb_sym in Hend. rewrite Hend. cbn. by rewrite Ascii.eqb_sym.
  - specialize (IH ltac:(discriminate) Hend).
    pose proof (splitByte_ne_nil c (String d' s')) as Hne.
    destruct (Ascii.eqb d c).
    + destruct (splitByte c (String d' s')) as [|p ps]; [done|]. exact IH.
    + destruct (splitByte c (String d' s')) as [|p ps]; [done|].
      destruct ps as [|q qs]; [|exact IH].
      cbn [List.last] in *. destruct IH as [Hp He]. split; [discriminate|].
      cbn [endsIn]. by destruct p.
Qed.

Lemma Join_last (ls : list string) (sep : string) :
  ls <> [] -> List.last ls EmptyString <> EmptyString ->
  exists pre, strings.Join ls sep = pre +:+ List.last ls EmptyString.
Proof.
  induction ls as [|l ls IH]; [done|]. intros _ Hl.
  destruct ls as [|l' ls'].
  - exists EmptyString. reflexivity.
  - destruct (IH ltac:(discriminate) Hl) as [pre E].
    exists (l +:+ sep +:+ pre).
    change (strings.Join (l :: l' :: ls') sep)
      with (l +:+ sep +:+ strings.Join (l' :: ls') sep).
    rewrite E, !str_app_assoc. reflexivity.
Qed.

(** The indented fragment of a child never ends in a newline. *)
Lemma indentedFragment_end (parent : Block) (cstr : string) :
  endsIn (Ascii.eqb "010") (indentedFragment parent cstr) = false.
Proof.
  unfold indentedFragment. change LF with (String "010"%char EmptyString).
  rewrite Split_byte.
  set (t := strings.TrimRight cstr (String "010"%char EmptyString)).
  assert (Ht : endsIn (Ascii.eqb "010") t = false).
  { subst t. unfold strings.TrimRight. rewrite endsIn_LF.
    apply endsIn_trimRightBy. }
  set (f := fun l : string => _).
  destruct (String.eqb_spec t EmptyString) as [->|Hne]; [reflexivity|].
  destruct (splitByte_last "010" t Hne Ht) as [Hl He].
  pose proof (splitByte_ne_nil "010" t) as Hnil.
  assert (Hfl : List.last (map f (splitByte "010" t)) EmptyString
                = f (List.last (splitByte "010" t) EmptyString)).
  { generalize (splitByte "010" t) Hnil. intros ls Hls.
    induction ls as [|l ls IH]; [done|].
    destruct ls as [|l' ls']; [reflexivity|]. apply IH. discriminate. }
  assert (Hf : f (List.last (splitByte "010" t) EmptyString) <> EmptyString
               /\ endsIn (Ascii.eqb "010") (f (List.last (splitByte "010" t) EmptyString))
                  = false).
  { subst f. cbv beta. destruct (String.eqb _ _); [by split|].
    split; [by apply str_app_ne_nil_r|]. by rewrite endsIn_app. }
  destruct (Join_last (map f (splitByte "010" t)) (String "010"%char EmptyString))
    as [pre E].
  { intros E. apply map_eq_nil in E. by apply Hnil. }
  { rewrite Hfl. apply Hf. }
  rewrite E, Hfl, endsIn_app; apply Hf.
Qed.

(** The indented fragment of a fragment that is not empty and does not
    end in a newline is not empty. *)
Lemma indentedFragment_ne (parent : Block) (cstr : string) :
  cstr <> EmptyString -> endsIn (Ascii.eqb "010") cstr = false ->
  indentedFragment parent cstr <> EmptyString.
Proof.
  intros Hne Hend. unfold indentedFragment.
  assert (Et : strings.TrimRight cstr LF = cstr).
  { apply trimRightBy_id. by rewrite <- endsIn_LF. }
  rewrite Et. change LF with (String "010"%char EmptyString). rewrite Split_byte.
  set (f := fun l : string => _).
  destruct (splitByte_last "010" cstr Hne Hend) as [Hl _].
  pose proof (splitByte_ne_nil "010" cstr) as Hnil.
  assert (Hfl : List.last (map f (splitByte "010" cstr)) EmptyString
                = f (List.last (splitByte "010" cstr) EmptyString)).
  { generalize (splitByte "010" cstr) Hnil. intros ls Hls.
    induction ls as [|l ls IH]; [done|].
    destruct ls as [|l' ls']; [reflexivity|]. apply IH. discriminate. }
  assert (Hf : f (List.last (splitByte "010" cstr) EmptyString) <> EmptyString).
  { subst f. cbv beta. destruct (String.eqb _ _); [exact Hl|].
    by apply str_app_ne_nil_r. }
  destruct (Join_last (map f (splitByte "010" cstr)) (String "010"%char EmptyString))
    as [pre E].
  { intros E. apply map_eq_nil in E. by apply Hnil. }
  { by rewrite Hfl. }
  rewrite E, Hfl. by apply str_app_ne_nil_r.
Qed.

Lemma renderBlocks_fragments {W : Type}
  (render : Block -> M (Traced W) (outcome (string * bool * option string)))
  (blocks : list Block) (markdown : string) (prevIsList : bool) (v : Traced W) :
  renderBlocks render blocks markdown prevIsList v
  = match renderFragments render blocks v with
    | (Returns (frs, None), v') =>
        (Returns (fst (joinBlocksFrom markdown prevIsList frs), None), v')
    | (Returns (_, Some err), v') => (Returns (EmptyString, Some err), v')
    | (OutOfFuel, v') => (OutOfFuel, v')
    end.
Proof.
  revert markdown prevIsList v.
  induction blocks as [|block rest IH]; intros markdown prevIsList v; [reflexivity|].
  cbn [renderBlocks renderFragments]. rewrite !run_bind.
  destruct (render block v) as [[[[s isList] [err|]]|] v1]; cbn [fst snd];
    try reflexivity.
  rewrite IH, run_bind.
  destruct (renderFragments render rest v1) as [[[frs [err|]]|] v2]; reflexivity.
Qed.

Lemma renderChildren_fragments {W : Type}
  (render : Block -> M (Traced W) (outcome (string * bool * option string)))
  (parent : Block) (children : list Block) (childContent : string)
  (prevChildIsList : bool) (v : Traced W) :
  renderChildren render parent children childContent prevChildIsList v
  = match renderFragments render children v with
    | (Returns (frs, None), v') =>
        (Returns (fst (joinChildrenFrom parent childContent prevChildIsList frs), None),
         v')
    | (Returns (_, Some err), v') => (Returns (EmptyString, Some err), v')
    | (OutOfFuel, v') => (OutOfFuel, v')
    end.
Proof.
  revert childContent prevChildIsList v.
  induction children as [|cb rest IH]; intros childContent prevChildIsList v;
    [reflexivity|].
  cbn [renderChildren renderFragments]. rewrite !run_bind.
  destruct (render cb v) as [[[[s isList] [err|]]|] v1]; cbn [fst snd];
    try reflexivity.
  rewrite IH, run_bind.
  destruct (renderFragments render rest v1) as [[[frs [err|]]|] v2]; reflexivity.
Qed.

(** The flags collected are the flags [render] returns. *)
Lemma renderFragments_flags {V : Type}
  (render : Block -> M V (outcome (string * bool * option string)))
  (flag : Block -> bool) :
  (forall block v s l v', render block v = (Returns (s, l, None), v') -> l = flag block) ->
  forall blocks v frs v',
    renderFragments render blocks v = (Returns (frs, None), v') ->
    map snd frs = map flag blocks.
Proof.
  intros Hflag. induction blocks as [|block rest IH]; intros v frs v'.
  - cbn. intros E. injection E as <- <-. reflexivity.
  - cbn [renderFragments]. rewrite run_bind.
    destruct (render block v) as [[[[s l] [err|]]|] v1] eqn:Er; cbn [fst snd];
      try discriminate.
    rewrite run_bind.
    destruct (renderFragments render rest v1) as [[[frs' [err|]]|] v2] eqn:Ef;
      cbn [fst snd]; try discriminate.
    intros E. injection E as <- <-. cbn [map snd].
    f_equal; [by eapply Hflag|by eapply IH].
Qed.

(** What holds of every fragment [render] returns holds of the fragments
    collected. *)
Lemma renderFragments_all {V : Type}
  (render : Block -> M V (outcome (string * bool * option string)))
  (P : string -> Prop) :
  (forall block v s l v', render block v = (Returns (s, l, None), v') -> P s) ->
  forall blocks v frs v',
    renderFragments render blocks v = (Returns (frs, None), v') ->
    Forall (fun fr => P (fst fr)) frs.
Proof.
  intros HP. induction blocks as [|block rest IH]; intros v frs v'.
  - cbn. intros E. injection E as <- <-. constructor.
  - cbn [renderFragments]. rewrite run_bind.
    destruct (render block v) as [[[[s l] [err|]]|] v1] eqn:Er; cbn [fst snd];
      try discriminate.
    rewrite run_bind.
    destruct (renderFragments render rest v1) as [[[frs' [err|]]|] v2] eqn:Ef;
      cbn [fst snd]; try discriminate.
    intros E. injection E as <- <-.
    constructor; [by eapply HP|by eapply IH].
Qed.

Section SiblingFacts.
Context `{Library} {W : Type} `{Platform W}.
Variable r : Renderer.
Variable getChildren : option (BlockID -> M W (result (list Block))).
Variable resolver : option (string -> string).
Variable articlePath : string.

Lemma blockToMarkdownWithCache_flag (block : Block) (childContent : string) (w : W) :
  snd (fst (blockToMarkdownWithCache block childContent resolver (fileCache r)
              articlePath (config r) w))
  = isListLike block.
Proof.
  destruct block; cbn [blockToMarkdownWithCache isListLike];
    rewrite ?run_bind; reflexivity.
Qed.

Lemma renderBlock_flag (fuel : nat) (block : Block) (st : Traced W)
  (s : string) (l : bool) (st' : Traced W) :
  renderBlock r getChildren resolver articlePath fuel block st
  = (Returns (s, l, None), st') ->
  l = isListLike block.
Proof.
  destruct fuel as [|fuel]; [discriminate|]. cbn [renderBlock].
  destruct (getBlockIDAndHasChildren block) as [id has]. rewrite run_bind.
  match goal with |- context [fst (?m st)] => destruct (m st) as [[[cc [err|]]|] st1] end;
    cbn [fst snd]; try discriminate.
  rewrite run_bind, run_liftW. cbn [fst snd].
  pose proof (blockToMarkdownWithCache_flag block cc (fst st1)) as Hflag.
  destruct (blockToMarkdownWithCache _ _ _ _ _ _ _) as [[s' l'] w2].
  cbn [fst snd] in *. intros E. injection E as _ <- _. exact Hflag.
Qed.

(** A fragment of [renderBlock] does not end in a newline. *)
Lemma renderBlock_end (fuel : nat) (block : Block) (st : Traced W)
  (s : string) (l : bool) (e : option string) (st' : Traced W) :
  renderBlock r getChildren resolver articlePath fuel block st
  = (Returns (s, l, e), st') ->
  endsIn (Ascii.eqb "010") s = false.
Proof.
  destruct fuel as [|fuel]; [discriminate|]. cbn [renderBlock].
  destruct (getBlockIDAndHasChildren block) as [id has]. rewrite run_bind.
  match goal with |- context [fst (?m st)] => destruct (m st) as [[[cc [err|]]|] st1] end;
    cbn [fst snd]; try discriminate.
  - rewrite run_ret. by intros [= <- <- <- <-].
  - rewrite run_bind, run_liftW. cbn [fst snd].
    destruct (blockToMarkdownWithCache _ _ _ _ _ _ _) as [[s' l'] w2].
    cbn [fst snd]. rewrite run_ret. intros [= <- <- <- <-].
    unfold strings.TrimRight. rewrite endsIn_LF. apply endsIn_trimRightBy.
Qed.

(** The child content a fetched block hands to its formatter. *)
Lemma renderBlock_fetched (fuel : nat) (block : Block) (st : Traced W)
  (callback : BlockID -> M W (result (list Block))) (id : BlockID)
  (children : list Block) (w1 : W) (cc : string) (st2 : Traced W) :
  getBlockIDAndHasChildren block = (id, true) ->
  callback id (fst st) = (Ok children, w1) ->
  renderChildren (renderBlock r (Some callback) resolver articlePath fuel) block children
    EmptyString false (w1, snd st ++ [(id, Ok children)])
  = (Returns (cc, None), st2) ->
  renderBlock r (Some callback) resolver articlePath (S fuel) block st
  = let out := blockToMarkdownWithCache block (strings.TrimRight cc LF) resolver
                 (fileCache r) articlePath (config r) (fst st2) in
    (Returns (strings.TrimRight (fst (fst out)) LF, snd (fst out), None),
     (snd out, snd st2)).
Proof.
  intros Hid Hcb Hloop. cbn [renderBlock]. rewrite Hid.
  rewrite run_bind.
  match goal with
  | |- context [fst (?m st)] =>
      assert (E : m st = (Returns (strings.TrimRight cc LF, None), st2))
  end.
  { rewrite run_bind. unfold fetch. rewrite Hcb. cbn [fst snd].
    rewrite run_bind, Hloop. reflexivity. }
  rewrite E. cbn [fst snd].
  rewrite run_bind, run_liftW. cbn [fst snd].
  destruct (blockToMarkdownWithCache _ _ _ _ _ _ _) as [[s l] w2]. reflexivity.
Qed.

(** C4, amended: of two consecutive siblings whose fragments are not
    empty, rendered at the top level or as children of one parent, the
    fragments (those of children with the indentation of the parent) stand
    next to each other in the joined text, separated by exactly one newline
    when both blocks are list-like and by a blank line otherwise; under a
    column list the column-break marker line comes between them as well.
    (At the top level it is enough that the first fragment is not empty.) *)
Theorem sibling_spacing (fuel : nat) :
  (forall (blocks : list Block) (st st' : Traced W) (body : string),
     renderBlocksRecursive r getChildren resolver articlePath fuel blocks st
     = (Returns (body, None), st') ->
     exists frs,
       renderFragments (renderBlock r getChildren resolver articlePath fuel) blocks st
       = (Returns (frs, None), st')
       /\ map snd frs = map isListLike blocks
       /\ body = joinBlocks frs
       /\ forall pre s1 l1 s2 l2 post,
            frs = pre ++ (s1, l1) :: (s2, l2) :: post ->
            s1 <> EmptyString ->
            exists head tail,
              body = head +:+ s1 +:+ siblingSeparator l1 l2 +:+ s2 +:+ tail
              /\ joinBlocks (pre ++ [(s1, l1)]) = head +:+ s1)
  /\ (forall (parent : Block) (children : list Block) (st st' : Traced W)
             (childContent : string),
        renderChildren (renderBlock r getChildren resolver articlePath fuel) parent
          children EmptyString false st
        = (Returns (childContent, None), st') ->
        exists frs,
          renderFragments (renderBlock r getChildren resolver articlePath fuel)
            children st
          = (Returns (frs, None), st')
          /\ map snd frs = map isListLike children
          /\ childContent = joinChildren parent frs
          /\ forall pre c1 l1 c2 l2 post,
               frs = pre ++ (c1, l1) :: (c2, l2) :: post ->
               c1 <> EmptyString -> c2 <> EmptyString ->
               exists head tail,
                 strings.TrimRight childContent LF
                 = head +:+ indentedFragment parent c1 +:+ columnBreak parent
                   +:+ siblingSeparator l1 l2 +:+ indentedFragment parent c2 +:+ tail
                 /\ joinChildren parent (pre ++ [(c1, l1)])
                    = head +:+ indentedFragment parent c1 +:+ columnBreak parent).
Proof.
  split.
  - intros blocks st st' body. unfold renderBlocksRecursive.
    rewrite renderBlocks_fragments.
    destruct (renderFragments _ blocks st) as [[[frs [err|]]|] st1] eqn:Ef;
      try discriminate.
    intros E. injection E as <- <-. exists frs.
    split; [reflexivity|]. split; [|split; [reflexivity|]].
    + eapply (renderFragments_flags _ isListLike); [|exact Ef].
      intros block v s l v'. apply renderBlock_flag.
    + intros pre s1 l1 s2 l2 post -> Hs1.
      destruct (joinBlocks_pair pre post s1 s2 l1 l2 Hs1) as (head & tail & E1 & E2).
      exists head, tail. split; [exact E1|exact E2].
  - intros parent children st st' childContent.
    rewrite renderChildren_fragments.
    destruct (renderFragments _ children st) as [[[frs [err|]]|] st1] eqn:Ef;
      try discriminate.
    intros E. injection E as <- <-. exists frs.
    split; [reflexivity|]. split; [|split; [reflexivity|]].
    + eapply (renderFragments_flags _ isListLike); [|exact Ef].
      intros block v s l v'. apply renderBlock_flag.
    + intros pre c1 l1 c2 l2 post -> Hc1 Hc2.
      assert (Hends : Forall (fun fr => endsIn (Ascii.eqb "010") (fst fr) = false)
                             (pre ++ (c1, l1) :: (c2, l2) :: post)).
      { eapply (renderFragments_all _ (fun s => endsIn (Ascii.eqb "010") s = false));
          [|exact Ef].
        intros block v s l v'. apply renderBlock_end. }
      apply Forall_app in Hends as [_ Hends].
      inversion Hends as [|? ? He1 Hends']; subst.
      inversion Hends' as [|? ? He2 _]; subst. cbn [fst] in He1, He2.
      apply (indentedFragment_ne parent) in Hc1; [|exact He1].
      apply (indentedFragment_ne parent) in Hc2; [|exact He2].
      destruct (joinChildren_pair parent pre post c1 c2 l1 l2 Hc1)
        as (head & tail & E1 & E2).
      fold (joinChildren parent (pre ++ (c1, l1) :: (c2, l2) :: post)).
      rewrite E1. unfold strings.TrimRight.
      assert (Hkeep : exists tail',
                 strings.trimRightBy (strings.inCutset LF)
                   (indentedFragment parent c2 +:+ tail)
                 = indentedFragment parent c2 +:+ tail').
      { apply trimRightBy_app_keep; [exact Hc2|].
        rewrite <- endsIn_LF. apply indentedFragment_end. }
      destruct Hkeep as [tail' Hkeep]. exists head, tail'. split; [|exact E2].
      rewrite <- !str_app_assoc.
      rewrite (str_app_assoc _ (indentedFragment parent c2) tail).
      rewrite trimRightBy_app; rewrite Hkeep.
      * by rewrite !str_app_assoc.
      * by apply str_app_ne_nil_l.
Qed.

End SiblingFacts.

(** C4, as the specification words it, fails under a column list: its two
    columns are not list-like and their fragments are not blank, yet what
    stands between the two fragments in the child content is not a blank
    line alone: the loop puts the column-break marker line after every
    child of a column list. *)
Lemma sibling_spacing_counterexample :
  let parent := ColumnListBlock (Sample.node "grid") in
  let children := [ColumnBlock (Sample.node "left"); ColumnBlock (Sample.node "right")] in
  let run := renderChildren
               (renderBlock (H := Sample.library) (H0 := Sample.offline)
                  Sample.renderer (Some Sample.tree) None "posts/x/index.md" 2)
               parent children EmptyString false (tt, []) in
  fst (Sample.tree "grid" tt) = Ok children
  /\ map isListLike children = [false; false]
  /\ fst run
     = Returns ("Left" +:+ LF +:+ COLUMN_BREAK +:+ LF +:+ LF +:+ LF +:+ "Right"
                +:+ LF +:+ COLUMN_BREAK +:+ LF, None)
  /\ (forall childContent, fst run = Returns (childContent, None) ->
      strings.Contains (strings.TrimRight childContent LF)
                       ("Left" +:+ LF +:+ LF +:+ "Right")
      = false).
Proof.
  intros parent children run. split; [reflexivity|]. split; [reflexivity|].
  assert (E : fst run
              = Returns ("Left" +:+ LF +:+ COLUMN_BREAK +:+ LF +:+ LF +:+ LF +:+ "Right"
                         +:+ LF +:+ COLUMN_BREAK +:+ LF, None))
    by (vm_compute; reflexivity).
  split; [exact E|].
  intros childContent E'. rewrite E in E'. injection E' as <-.
  vm_compute. reflexivity.
Qed.

Lemma sibling_spacing_witness :
  let blocks := [ParagraphBlock (Sample.leaf "p") (Sample.text "Shopping");
                 BulletedListItemBlock (Sample.leaf "a") (Sample.text "milk");
                 BulletedListItemBlock (Sample.leaf "b") (Sample.text "bread")] in
  let run := renderBlocksRecursive (H := Sample.library) (H0 := Sample.offline)
               Sample.renderer (Some Sample.children) None "posts/x/index.md" 2
               blocks (tt, []) in
  run = (Returns ("Shopping" +:+ LF +:+ LF +:+ "- milk" +:+ LF +:+ "- bread", None),
         (tt, []))
  /\ (exists head tail,
        "Shopping" +:+ LF +:+ LF +:+ "- milk" +:+ LF +:+ "- bread"
        = head +:+ "- milk" +:+ siblingSeparator true true +:+ "- bread" +:+ tail)
  /\ (exists head tail,
        "Shopping" +:+ LF +:+ LF +:+ "- milk" +:+ LF +:+ "- bread"
        = head +:+ "Shopping" +:+ siblingSeparator false true +:+ "- milk" +:+ tail)
  /\ (let parent := BulletedListItemBlock (Sample.node "list") (Sample.text "fruit") in
      let children := [BulletedListItemBlock (Sample.leaf "a") (Sample.text "a");
                       BulletedListItemBlock (Sample.leaf "b") (Sample.text "b")] in
      fst (renderChildren
             (renderBlock (H := Sample.library) (H0 := Sample.offline)
                Sample.renderer (Some Sample.children) None "posts/x/index.md" 2)
             parent children EmptyString false (tt, []))
      = Returns ("    - a" +:+ LF +:+ "    - b", None)
      /\ exists head tail,
           "    - a" +:+ LF +:+ "    - b"
           = head +:+ "    - a" +:+ siblingSeparator true true +:+ "    - b" +:+ tail).
Proof.
  intros blocks run.
  assert (Hrun : run = (Returns ("Shopping" +:+ LF +:+ LF +:+ "- milk" +:+ LF
                                 +:+ "- bread", None), (tt, []))) by reflexivity.
  split; [exact Hrun|].
  destruct (proj1 (sibling_spacing (H := Sample.library) (H0 := Sample.offline)
                     Sample.renderer (Some Sample.children) None "posts/x/index.md" 2)
              blocks (tt, []) (tt, []) _ Hrun) as (frs & Hfrs & _ & _ & Hpair).
  assert (Efrs : frs = [("Shopping", false); ("- milk", true); ("- bread", true)]).
  { vm_compute in Hfrs. by injection Hfrs as <-. }
  split; [|split].
  - destruct (Hpair [("Shopping", false)] "- milk" true "- bread" true [] Efrs
                ltac:(discriminate)) as (head & tail & E & _).
    by exists head, tail.
  - destruct (Hpair [] "Shopping" false "- milk" true [("- bread", true)] Efrs
                ltac:(discriminate)) as (head & tail & E & _).
    by exists head, tail.
  - intros parent children.
    assert (Hloop : renderChildren
                      (renderBlock (H := Sample.library) (H0 := Sample.offline)
                         Sample.renderer (Some Sample.children) None
                         "posts/x/index.md" 2)
                      parent children EmptyString false (tt, [])
                    = (Returns ("    - a" +:+ LF +:+ "    - b", None), (tt, [])))
      by reflexivity.
    split; [by rewrite Hloop|].
    destruct (proj2 (sibling_spacing (H := Sample.library) (H0 := Sample.offline)
                       Sample.renderer (Some Sample.children) None
                       "posts/x/index.md" 2)
                parent children (tt, []) (tt, []) _ Hloop)
      as (cfrs & Hcfrs & _ & _ & Hchildren).
    assert (Ecfrs : cfrs = [("- a", true); ("- b", true)]).
    { vm_compute in Hcfrs. by injection Hcfrs as <-. }
    destruct (Hchildren [] "- a" true "- b" true [] Ecfrs
                ltac:(discriminate) ltac:(discriminate)) as (head & tail & E & _).
    exists head, tail. exact E.
Defined.

(* ===================================================================== *)
(** * Link resolution                                                     *)
(* ===================================================================== *)

Lemma take_drop (n : nat) (s : string) : strings.take n s +:+ strings.drop n s = s.
Proof.
  revert s. induction n as [|n IH]; intros s; [reflexivity|].
  destruct s as [|c s]; [reflexivity|]. cbn [strings.take strings.drop].
  rewrite str_app_cons. by rewrite IH.
Qed.

Lemma drop_app_len (a b : string) : strings.drop (strings.len a) (a +:+ b) = b.
Proof. induction a as [|c a IH]; [reflexivity|]. exact IH. Qed.

Lemma drop_drop (n m : nat) (s : string) :
  strings.drop n (strings.drop m s) = strings.drop (m + n) s.
Proof.
  revert s. induction m as [|m IH]; intros s; [reflexivity|].
  destruct s as [|c s]; [by destruct n|]. cbn [strings.drop Nat.add]. apply IH.
Qed.

Lemma str_eqb_len (s t : string) :
  strings.len s <> strings.len t -> String.eqb s t = false.
Proof. intros Hl. apply String.eqb_neq. by intros ->. Qed.

Lemma TrimSuffix_app (a b : string) : strings.TrimSuffix (a +:+ b) b = a.
Proof.
  induction a as [|c a IH].
  - rewrite str_app_nil_l. destruct b; cbn [strings.TrimSuffix];
      by rewrite String.eqb_refl.
  - rewrite str_app_cons. cbn [strings.TrimSuffix]. rewrite <- str_app_cons.
    rewrite str_eqb_len.
    + by rewrite IH.
    + rewrite str_len_app. cbn. lia.
Qed.

(** [TrimSuffix] drops the suffix when there is one and changes nothing
    otherwise. *)
Lemma TrimSuffix_spec (s suffix : string) :
  (exists a, s = a +:+ suffix /\ strings.TrimSuffix s suffix = a)
  \/ ((forall a, s <> a +:+ suffix) /\ strings.TrimSuffix s suffix = s).
Proof.
  induction s as [|c s IH].
  - cbn [strings.TrimSuffix]. destruct (String.eqb_spec EmptyString suffix) as [<-|Hne].
    + left. by exists EmptyString.
    + right. split; [|by destruct suffix].
      intros a E. symmetry in E. apply str_app_eq_nil in E as [_ E]. by apply Hne.
  - cbn [strings.TrimSuffix].
    destruct (String.eqb_spec (String c s) suffix) as [<-|Hne].
    + left. by exists EmptyString.
    + destruct IH as [(a & -> & E)|[Hno E]].
      * left. exists (String c a). by rewrite E.
      * right. rewrite E. split; [|reflexivity].
        intros [|d a] Ea.
        -- rewrite str_app_nil_l in Ea. by apply Hne.
        -- rewrite str_app_cons in Ea. injection Ea as _ Ea. by apply Hno in Ea.
Qed.

Lemma ToLower_ASCII (s : string) :
  strings.isASCII s = true -> strings.ToLower s = strings.lowerASCII s.
Proof. intros E. unfold strings.ToLower. by rewrite E. Qed.

Lemma isASCII_app (a b : string) :
  strings.isASCII (a +:+ b) = strings.isASCII a && strings.isASCII b.
Proof.
  induction a as [|c a IH]; [reflexivity|].
  rewrite str_app_cons. cbn [strings.isASCII]. by rewrite IH, andb_assoc.
Qed.

Lemma lowerASCII_app (a b : string) :
  strings.lowerASCII (a +:+ b) = strings.lowerASCII a +:+ strings.lowerASCII b.
Proof.
  induction a as [|c a IH]; [reflexivity|].
  rewrite str_app_cons. cbn [strings.lowerASCII]. by rewrite IH.
Qed.

Lemma lowerASCII_ne (s : string) :
  s <> EmptyString -> strings.lowerASCII s <> EmptyString.
Proof. by destruct s. Qed.

Lemma keepSlugRunes_app (a b : string) :
  keepSlugRunes (a +:+ b) = keepSlugRunes a +:+ keepSlugRunes b.
Proof.
  induction a as [|c a IH]; [reflexivity|].
  rewrite str_app_cons. cbn [keepSlugRunes]. rewrite IH. by destruct (isSlugRune c).
Qed.

(** On an ASCII string [slugify] works byte by byte. *)
Lemma slugify_ASCII (s : string) :
  strings.isASCII s = true ->
  slugify s
  = keepSlugRunes
      (flatMap (fun d => if Ascii.eqb d " " then "-" else String d EmptyString)
               (strings.lowerASCII s)).
Proof. intros E. unfold slugify. by rewrite (ToLower_ASCII _ E), ReplaceAll_byte. Qed.

Lemma isHexOrDash_byte (c : ascii) :
  isHexOrDash c = true ->
  let spaced := if Ascii.eqb c "-" then " " else String c EmptyString in
  strings.isASCII (String c EmptyString) = true
  /\ strings.isASCII spaced = true
  /\ keepSlugRunes
       (flatMap (fun d => if Ascii.eqb d " " then "-" else String d EmptyString)
                (strings.lowerASCII spaced))
     = String (strings.lowerByte c) EmptyString.
Proof.
  destruct c as [[] [] [] [] [] [] [] []]; intros Hc; try discriminate Hc;
    repeat split.
Qed.

(** A text of hexadecimal digits and hyphens is ASCII and, its hyphens read
    as spaces, has its lower-case form as slug. *)
Lemma hex_dash_slug (s : string) :
  allHexOrDash s = true ->
  let spaced := flatMap (fun d => if Ascii.eqb d "-" then " " else String d EmptyString)
                        s in
  strings.isASCII s = true
  /\ strings.isASCII spaced = true
  /\ keepSlugRunes
       (flatMap (fun d => if Ascii.eqb d " " then "-" else String d EmptyString)
                (strings.lowerASCII spaced))
     = strings.lowerASCII s.
Proof.
  induction s as [|c s IH]; [intros _; cbv zeta; repeat split|].
  cbn [allHexOrDash]. intros Hc. apply andb_prop in Hc as [Hc Hs].
  destruct (IH Hs) as (H1 & H2 & H3).
  destruct (isHexOrDash_byte c Hc) as (B1 & B2 & B3).
  cbn [flatMap strings.lowerASCII]. cbv zeta.
  rewrite isASCII_app, lowerASCII_app, flatMap_app, keepSlugRunes_app.
  rewrite B2, B3, H2, H3. split; [|split; reflexivity].
  cbn [strings.isASCII] in *. rewrite H1. exact B1.
Qed.

Lemma slugify_hex_dash (s : string) :
  allHexOrDash s = true ->
  slugify (strings.ReplaceAll s "-" " ") = strings.ToLower s.
Proof.
  intros Hs. destruct (hex_dash_slug s Hs) as (H1 & H2 & H3).
  rewrite (ToLower_ASCII s H1), ReplaceAll_byte, slugify_ASCII by exact H2.
  exact H3.
Qed.

Lemma allHexOrDash_app (a b : string) :
  allHexOrDash (a +:+ b) = allHexOrDash a && allHexOrDash b.
Proof.
  induction a as [|c a IH]; [reflexivity|].
  rewrite str_app_cons. cbn [allHexOrDash]. by rewrite IH, andb_assoc.
Qed.

Lemma allHex_allHexOrDash (s : string) :
  regexp.allHex s = true -> allHexOrDash s = true.
Proof.
  induction s as [|c s IH]; [reflexivity|]. cbn [regexp.allHex allHexOrDash].
  intros Hc. apply andb_prop in Hc as [Hc Hs]. unfold isHexOrDash.
  by rewrite Hc, (IH Hs).
Qed.

Lemma HasPrefix_spec (s p : string) :
  strings.HasPrefix s p = true -> s = p +:+ strings.drop (strings.len p) s.
Proof.
  revert s. induction p as [|c p IH]; intros s; [reflexivity|].
  destruct s as [|d s]; [discriminate|]. cbn [strings.HasPrefix].
  destruct (Ascii.eqb_spec d c) as [->|]; [|discriminate].
  intros Hp. rewrite str_app_cons. cbn [strings.len String.length strings.drop].
  f_equal. by apply IH.
Qed.

Lemma matchGroups_chars (groups : list nat) (s : string) :
  regexp.matchGroups groups s = true -> allHexOrDash s = true.
Proof.
  revert s. induction groups as [|n gs IH]; intros s.
  - cbn. intros E. by apply String.eqb_eq in E as ->.
  - destruct gs as [|m gs'].
    + cbn [regexp.matchGroups]. intros E. apply andb_prop in E as [_ E].
      by apply allHex_allHexOrDash.
    + change (regexp.matchGroups (n :: m :: gs') s)
        with ((strings.len (strings.take n s) =? n) && regexp.allHex (strings.take n s)
              && strings.HasPrefix (strings.drop n s) "-"
              && regexp.matchGroups (m :: gs') (strings.drop (S n) s)).
      intros E. apply andb_prop in E as [E E4]. apply andb_prop in E as [E E3].
      apply andb_prop in E as [_ E2].
      rewrite <- (take_drop n s), allHexOrDash_app.
      rewrite (allHex_allHexOrDash _ E2). cbn [andb].
      rewrite (HasPrefix_spec _ _ E3). cbn [strings.len String.length].
      rewrite drop_drop. replace (n + 1) with (S n) by lia.
      rewrite str_app_cons, str_app_nil_l. cbn [allHexOrDash].
      by rewrite (IH _ E4).
Qed.

Lemma str_app_inv_tail (a b c : string) : a +:+ c = b +:+ c -> a = b.
Proof.
  revert b. induction a as [|x a IH]; intros [|y b] E.
  - reflexivity.
  - exfalso. apply (f_equal strings.len) in E. rewrite !str_len_app in E.
    cbn in E. lia.
  - exfalso. apply (f_equal strings.len) in E. rewrite !str_len_app in E.
    cbn in E. lia.
  - rewrite !str_app_cons in E. injection E as -> E. f_equal. by apply IH.
Qed.

Lemma findAtEnd_suffix (groups : list nat) (w : nat) (title id : string) :
  strings.len id = w -> regexp.matchGroups groups id = true ->
  regexp.findAtEnd groups w (title +:+ id) = Some id.
Proof.
  intros Hl Hm. unfold regexp.findAtEnd. rewrite str_len_app, Hl.
  replace (w <=? strings.len title + w) with true
    by (symmetry; apply Nat.leb_le; lia).
  replace (strings.len title + w - w) with (strings.len title) by lia.
  by rewrite drop_app_len, Hm.
Qed.

Lemma isPlainUUID_spec (id : string) :
  isPlainUUID id = true -> strings.len id = 32 /\ regexp.allHex id = true.
Proof.
  unfold isPlainUUID. cbn [regexp.matchGroups]. intros E.
  apply andb_prop in E as [E1 E2]. split; [by apply Nat.eqb_eq|exact E2].
Qed.

Lemma isDashedUUID_spec (id : string) :
  isDashedUUID id = true ->
  strings.len id = 36 /\ regexp.matchGroups [8; 4; 4; 4; 12] id = true.
Proof.
  unfold isDashedUUID. intros E. apply andb_prop in E as [E1 E2].
  split; [by apply Nat.eqb_eq|exact E2].
Qed.

(** A segment that ends in 32 hexadecimal digits does not end in the
    grouped form: the ninth of its last 36 bytes is a digit, not a hyphen. *)
Lemma reDashed_plain (title id : string) :
  isPlainUUID id = true -> regexp.reDashed (title +:+ id) = None.
Proof.
  intros Hid. apply isPlainUUID_spec in Hid as [Hl Hh].
  unfold regexp.reDashed, regexp.findAtEnd. rewrite str_len_app, Hl.
  destruct (Nat.leb_spec 36 (strings.len title + 32)) as [Hn|_]; [|reflexivity].
  set (win := strings.drop (strings.len title + 32 - 36) (title +:+ id)).
  change (regexp.matchGroups [8; 4; 4; 4; 12] win)
    with ((strings.len (strings.take 8 win) =? 8) && regexp.allHex (strings.take 8 win)
          && strings.HasPrefix (strings.drop 8 win) "-"
          && regexp.matchGroups [4; 4; 4; 12] (strings.drop 9 win)).
  assert (E : strings.HasPrefix (strings.drop 8 win) "-" = false).
  { subst win. rewrite drop_drop.
    replace (strings.len title + 32 - 36 + 8) with (strings.len title + 4) by lia.
    rewrite <- drop_drop, drop_app_len.
    destruct id as [|c0 [|c1 [|c2 [|c3 [|c4 rest]]]]]; try discriminate Hl.
    cbn [strings.drop strings.HasPrefix].
    cbn [regexp.allHex] in Hh.
    do 4 (apply andb_prop in Hh as [_ Hh]).
    apply andb_prop in Hh as [Hh _].
    destruct (Ascii.eqb_spec c4 "-") as [->|]; [discriminate Hh|reflexivity]. }
  rewrite E, andb_false_r. reflexivity.
Qed.

Lemma extractUUID_spec (title id : string) :
  isPlainUUID id || isDashedUUID id = true ->
  extractUUID (title +:+ id) = (id, titleFragment title).
Proof.
  intros Hid. unfold extractUUID, titleFragment.
  apply orb_prop in Hid as [Hid|Hid].
  - rewrite (reDashed_plain _ _ Hid).
    destruct (isPlainUUID_spec _ Hid) as [Hl _].
    unfold regexp.reNoDash. rewrite (findAtEnd_suffix _ _ _ _ Hl Hid).
    by rewrite TrimSuffix_app.
  - destruct (isDashedUUID_spec _ Hid) as [Hl Hm].
    unfold regexp.reDashed. rewrite (findAtEnd_suffix _ _ _ _ Hl Hm).
    destruct (TrimSuffix_spec title "-") as [(a & -> & E)|[Hno E]]; rewrite E.
    + rewrite str_app_assoc, TrimSuffix_app, str_eqb_len; [reflexivity|].
      rewrite !str_len_app. cbn. lia.
    + destruct (TrimSuffix_spec (title +:+ id) ("-" +:+ id)) as [(a & Ea & _)|[_ E']].
      * exfalso. rewrite <- str_app_assoc in Ea.
        apply str_app_inv_tail in Ea. by apply Hno in Ea.
      * rewrite E', String.eqb_refl. by rewrite TrimSuffix_app.
Qed.

(** C9 fails on the code where no title fragment remains.  The code itself
    says that it falls back to the identifier when no title is found (the
    slug is then to be the normalized identifier), and so does the claim;
    but with an empty title part the code slugifies the whole last segment
    first, and that slug is never empty: the link of a bare identifier in
    the grouped form keeps the hyphens, and the link of a bare identifier in
    capitals is in lower case, while the normalized identifier is neither. *)
Theorem notion_link_bare_identifier :
  notionURLToHugoLink "https://www.notion.so/01234567-89ab-cdef-0123-456789abcdef"
                      (Some (fun _ => EmptyString))
  = "/posts/01234567-89ab-cdef-0123-456789abcdef/"
  /\ normalizeUUID "01234567-89ab-cdef-0123-456789abcdef"
     = "0123456789abcdef0123456789abcdef"
  /\ notionURLToHugoLink "https://www.notion.so/0123456789ABCDEF0123456789ABCDEF"
                         (Some (fun _ => EmptyString))
     = "/posts/0123456789abcdef0123456789abcdef/"
  /\ normalizeUUID "0123456789ABCDEF0123456789ABCDEF"
     = "0123456789ABCDEF0123456789ABCDEF".
Proof. repeat split; vm_compute; reflexivity. Qed.

(** X30: what the fallback link of a notion.so URL is.  For every URL
    whose host holds notion.so and whose last path segment ends in an
    identifier (32 hexadecimal digits, plain or grouped 8-4-4-4-12), when
    there is no resolver or the resolver returns the empty string for the
    normalized identifier, the link is ["/posts/{slug}/"], where the slug is
    - the slug of the title fragment (the text before the identifier without
      the joining hyphen, hyphens read as spaces) when that slug is not empty;
    - the normalized (hyphen-stripped) identifier when a title fragment
      remains but its slug is empty;
    - the last segment in lower case, the identifier with its hyphens, when
      no title fragment remains. *)
Theorem notion_link_fallback (raw : string) (parsed : url.URL) (title id : string)
  (resolve : option (string -> string)) :
  url.Parse raw = Ok parsed ->
  strings.Contains (url.Host parsed) "notion.so" = true ->
  lastPathSegment (url.Path parsed) = title +:+ id ->
  isPlainUUID id || isDashedUUID id = true ->
  resolverSilent resolve id ->
  notionURLToHugoLink raw resolve = "/posts/" +:+ fallbackSlug title id +:+ "/".
Proof.
  intros Hparse Hhost Hseg Hid Hres. unfold notionURLToHugoLink.
  assert (Hne : url.Host parsed <> EmptyString).
  { intros E. rewrite E in Hhost. discriminate Hhost. }
  destruct (String.eqb_spec raw EmptyString) as [->|_].
  { exfalso. injection Hparse as <-. by apply Hne. }
  rewrite Hparse, (str_eqb_nil_false _ Hne), Hhost. cbn [negb].
  unfold lastPathSegment in Hseg.
  pose proof (splitByte_ne_nil "/" (strings.Trim (url.Path parsed) "/")) as Hsplit.
  rewrite <- Split_byte in Hsplit.
  destruct (strings.Split (strings.Trim (url.Path parsed) "/") "/") as [|seg segs] eqn:Es;
    [done|].
  rewrite Hseg, (extractUUID_spec _ _ Hid).
  assert (Hidne : id <> EmptyString).
  { intros ->. by apply orb_prop in Hid as [Hid|Hid]. }
  rewrite (str_eqb_nil_false _ Hidne).
  assert (Hsilent : match resolve with
                    | Some f => f (strings.ReplaceAll id "-" EmptyString)
                    | None => EmptyString
                    end = EmptyString).
  { destruct resolve as [f|]; [exact Hres|reflexivity]. }
  rewrite Hsilent. cbn [String.eqb negb]. unfold fallbackSlug.
  destruct (String.eqb_spec (titleFragment title) EmptyString) as [Et|_];
    [|reflexivity].
  assert (Hchars : allHexOrDash (title +:+ id) = true).
  { rewrite allHexOrDash_app.
    assert (Hi : allHexOrDash id = true).
    { apply orb_prop in Hid as [Hid|Hid].
      - apply isPlainUUID_spec in Hid as [_ Hh]. by apply allHex_allHexOrDash.
      - apply isDashedUUID_spec in Hid as [_ Hm]. by eapply matchGroups_chars. }
    rewrite Hi, andb_true_r. unfold titleFragment in Et.
    destruct (TrimSuffix_spec title "-") as [(a & -> & E)|[_ E]].
    - rewrite Et in E. by subst a.
    - rewrite Et in E. by subst title. }
  rewrite (slugify_hex_dash _ Hchars), str_eqb_nil_false; [reflexivity|].
  rewrite ToLower_ASCII by (by destruct (hex_dash_slug _ Hchars)).
  apply lowerASCII_ne, str_app_ne_nil_r. by destruct id.
Qed.

Lemma notion_link_fallback_witness :
  let raw := "https://www.notion.so/ws/Release-Notes-01234567-89ab-cdef-0123-456789abcdef?pvs=4" in
  let parsed := url.mkURL "https" EmptyString "www.notion.so"
                  "/ws/Release-Notes-01234567-89ab-cdef-0123-456789abcdef" "pvs=4" in
  url.Parse raw = Ok parsed
  /\ lastPathSegment (url.Path parsed)
     = "Release-Notes-" +:+ "01234567-89ab-cdef-0123-456789abcdef"
  /\ notionURLToHugoLink raw (Some (fun _ => EmptyString)) = "/posts/release-notes/".
Proof.
  intros raw parsed. split; [reflexivity|]. split; [reflexivity|].
  exact (notion_link_fallback raw parsed "Release-Notes-"
           "01234567-89ab-cdef-0123-456789abcdef" (Some (fun _ => EmptyString))
           eq_refl eq_refl eq_refl eq_refl eq_refl).
Defined.

(* ===================================================================== *)
(** * UTF-8, white space and case mapping                                 *)
(* ===================================================================== *)

Lemma take_app_len (a b : string) : strings.take (strings.len a) (a +:+ b) = a.
Proof.
  induction a as [|c a IH]; [by destruct b|].
  rewrite str_app_cons. cbn [strings.len String.length strings.take].
  f_equal. exact IH.
Qed.


Lemma Contains_byte_cons (d c : ascii) (r : string) :
  strings.Contains (String d r) (String c EmptyString)
  = Ascii.eqb d c || strings.Contains r (String c EmptyString).
Proof.
  cbn [strings.Contains strings.HasPrefix]. by destruct (Ascii.eqb d c).
Qed.


Lemma Contains_byte_app (a b : string) (c : ascii) :
  strings.Contains (a +:+ b) (String c EmptyString)
  = strings.Contains a (String c EmptyString)
    || strings.Contains b (String c EmptyString).
Proof.
  induction a as [|d a IH]; [reflexivity|].
  rewrite str_app_cons, !Contains_byte_cons, IH. by rewrite orb_assoc.
Qed.


Lemma endsIn_snoc (p : ascii -> bool) (q : string) (c : ascii) :
  endsIn p (q +:+ String c EmptyString) = p c.
Proof.
  induction q as [|d q IH]; [reflexivity|]. rewrite str_app_cons.
  cbn [endsIn]. destruct (q +:+ String c EmptyString) eqn:E; [|exact IH].
  by apply str_app_eq_nil in E as [_ ?].
Qed.

Lemma str_snoc (s : string) :
  s <> EmptyString -> exists q c, s = q +:+ String c EmptyString.
Proof.
  induction s as [|d r IH]; [done|]. intros _. destruct r as [|e r'].
  - by exists EmptyString, d.
  - destruct (IH ltac:(done)) as (q & c & E). exists (String d q), c.
    by rewrite str_app_cons, <- E.
Qed.

Lemma str_app_eq_app (a b c d : string) :
  a +:+ b = c +:+ d ->
  (exists m, c = a +:+ m /\ b = m +:+ d) \/ (exists m, a = c +:+ m /\ d = m +:+ b).
Proof.
  revert c. induction a as [|x a IH]; intros c E.
  - left. by exists c.
  - destruct c as [|y c].
    + right. by exists (String x a).
    + rewrite !str_app_cons in E. injection E as -> E.
      destruct (IH c E) as [(m & -> & ->)|(m & -> & ->)]; [left|right]; by exists m.
Qed.

Lemma allBytes_app (p : ascii -> bool) (a b : string) :
  allBytes p (a +:+ b) = allBytes p a && allBytes p b.
Proof.
  induction a as [|c a IH]; [reflexivity|].
  rewrite str_app_cons. cbn [allBytes]. by rewrite IH, andb_assoc.
Qed.

Lemma allBytes_endsIn (p : ascii -> bool) (m : string) :
  allBytes p m = true -> m <> EmptyString -> endsIn p m = true.
Proof.
  intros Hm Hne. destruct (str_snoc m Hne) as (m' & c & ->).
  rewrite allBytes_app in Hm. apply andb_prop in Hm as [_ Hc].
  cbn in Hc. rewrite andb_true_r in Hc. by rewrite endsIn_snoc.
Qed.

Lemma between_bounds (lo hi : nat) (c : ascii) :
  utf8.between lo hi c = true -> lo <= nat_of_ascii c <= hi.
Proof.
  unfold utf8.between. intros [H1 H2]%andb_prop.
  apply Nat.leb_le in H1, H2. lia.
Qed.

Lemma between_nonASCII (lo hi : nat) (c : ascii) :
  128 <= lo -> utf8.between lo hi c = true -> nonASCII c = true.
Proof.
  intros Hlo Hb. apply between_bounds in Hb. unfold nonASCII.
  apply negb_true_iff, Nat.ltb_ge. unfold utf8.RuneSelf. lia.
Qed.

Lemma isCont_nonASCII (c : ascii) : utf8.isCont c = true -> nonASCII c = true.
Proof. apply between_nonASCII. lia. Qed.

Lemma first_bounds (c : ascii) (sz lo hi : nat) :
  utf8.first c = Some (sz, lo, hi) -> 128 <= lo.
Proof.
  unfold utf8.first.
  repeat (match goal with
          | |- context [if ?b then _ else _] => destruct b
          end; [intros [= <- <- <-]; lia|]).
  discriminate.
Qed.

(** A rune takes its first byte and a number of bytes that are not ASCII. *)
Lemma DecodeRune_shape (c : ascii) (r : string) :
  exists a b, r = a +:+ b
    /\ snd (utf8.DecodeRuneInString (String c r)) = S (strings.len a)
    /\ allBytes nonASCII a = true.
Proof.
  cbn [utf8.DecodeRuneInString].
  destruct (nat_of_ascii c <? utf8.RuneSelf); [by exists EmptyString, r|].
  destruct (utf8.first c) as [[[sz lo] hi]|] eqn:Ef; [|by exists EmptyString, r].
  apply first_bounds in Ef.
  destruct r as [|s1 r1]; [by exists EmptyString, EmptyString|].
  destruct (utf8.between lo hi s1) eqn:E1; cbn [negb];
    [|by exists EmptyString, (String s1 r1)].
  apply (between_nonASCII _ _ _ Ef) in E1.
  destruct (sz <=? 2).
  { exists (String s1 EmptyString), r1. cbn. by rewrite E1. }
  destruct r1 as [|s2 r2]; [by exists EmptyString, (String s1 EmptyString)|].
  destruct (utf8.isCont s2) eqn:E2; cbn [negb];
    [|by exists EmptyString, (String s1 (String s2 r2))].
  apply isCont_nonASCII in E2.
  destruct (sz <=? 3).
  { exists (String s1 (String s2 EmptyString)), r2. cbn. by rewrite E1, E2. }
  destruct r2 as [|s3 r3];
    [by exists EmptyString, (String s1 (String s2 EmptyString))|].
  destruct (utf8.isCont s3) eqn:E3; cbn [negb];
    [|by exists EmptyString, (String s1 (String s2 (String s3 r3)))].
  apply isCont_nonASCII in E3.
  exists (String s1 (String s2 (String s3 EmptyString))), r3. cbn.
  by rewrite E1, E2, E3.
Qed.

Lemma DecodeRune_ASCII (c : ascii) (r : string) :
  nonASCII c = false ->
  utf8.DecodeRuneInString (String c r) = (utf8.byte c, 1).
Proof.
  unfold nonASCII. intros E%negb_false_iff. cbn [utf8.DecodeRuneInString].
  by rewrite E.
Qed.

Lemma mapFrom_skip (f : Z -> Z) (k : nat) (s : string) :
  strings.mapFrom f k s = strings.mapFrom f 0 (strings.drop k s).
Proof.
  revert k. induction s as [|c r IH]; intros [|k]; try reflexivity.
  cbn [strings.mapFrom strings.drop]. apply IH.
Qed.

(** [Map] rune by rune. *)
Lemma Map_cons (f : Z -> Z) (c : ascii) (r : string) :
  strings.Map f (String c r)
  = (if (0 <=? f (fst (utf8.DecodeRuneInString (String c r))))%Z
     then utf8.EncodeRune (f (fst (utf8.DecodeRuneInString (String c r))))
     else EmptyString)
    +:+ strings.Map f (strings.drop (snd (utf8.DecodeRuneInString (String c r)) - 1) r).
Proof.
  unfold strings.Map. cbn [strings.mapFrom].
  destruct (utf8.DecodeRuneInString (String c r)) as [rune size]. cbn [fst snd].
  by rewrite mapFrom_skip.
Qed.

Lemma byte_range (c : ascii) : (0 <= utf8.byte c < 256)%Z.
Proof. unfold utf8.byte. pose proof (nat_ascii_bounded c). lia. Qed.

Lemma byte_ASCII (c : ascii) : nonASCII c = false -> (0 <= utf8.byte c <= 127)%Z.
Proof.
  unfold nonASCII, utf8.byte, utf8.RuneSelf. intros E%negb_false_iff.
  apply Nat.ltb_lt in E. lia.
Qed.

Lemma ofZ_byte (c : ascii) : utf8.ofZ (utf8.byte c) = c.
Proof. unfold utf8.ofZ, utf8.byte. by rewrite Nat2Z.id, ascii_nat_embedding. Qed.

Lemma EncodeRune_ASCII (c : ascii) :
  nonASCII c = false -> utf8.EncodeRune (utf8.byte c) = String c EmptyString.
Proof.
  intros Hc. pose proof (byte_ASCII c Hc) as Hb. unfold utf8.EncodeRune.
  replace ((0 <=? utf8.byte c)%Z && (utf8.byte c <=? 127)%Z) with true.
  - by rewrite ofZ_byte.
  - symmetry. apply andb_true_intro. split; apply Z.leb_le; lia.
Qed.

Lemma Contains_drop_nonASCII (a b : string) (c : ascii) :
  nonASCII c = false -> allBytes nonASCII a = true ->
  strings.Contains (a +:+ b) (String c EmptyString)
  = strings.Contains b (String c EmptyString).
Proof.
  intros Hc. induction a as [|d a IH]; [reflexivity|].
  cbn [allBytes]. intros [Hd Ha]%andb_prop.
  rewrite str_app_cons, Contains_byte_cons, (IH Ha).
  destruct (Ascii.eqb_spec d c) as [->|]; [congruence|reflexivity].
Qed.

(** A mapping that keeps an ASCII byte keeps its occurrences. *)
Lemma Map_keeps_byte (f : Z -> Z) (c : ascii) :
  nonASCII c = false -> f (utf8.byte c) = utf8.byte c ->
  forall s, strings.Contains s (String c EmptyString) = true ->
            strings.Contains (strings.Map f s) (String c EmptyString) = true.
Proof.
  intros Hc Hf s.
  assert (H : forall n s, strings.len s <= n ->
              strings.Contains s (String c EmptyString) = true ->
              strings.Contains (strings.Map f s) (String c EmptyString) = true);
    [|by apply (H (strings.len s))].
  clear s. induction n as [|n IH]; intros [|d r] Hn Hs; try discriminate Hs.
  { cbn in Hn. lia. }
  rewrite Map_cons, Contains_byte_app.
  destruct (Ascii.eqb_spec d c) as [->|Hd].
  - rewrite (DecodeRune_ASCII c r Hc). cbn [fst snd]. rewrite Hf.
    replace (0 <=? utf8.byte c)%Z with true
      by (symmetry; apply Z.leb_le; pose proof (byte_range c); lia).
    rewrite (EncodeRune_ASCII c Hc), Contains_byte_cons, Ascii.eqb_refl.
    reflexivity.
  - destruct (DecodeRune_shape d r) as (a & b & -> & Hsize & Ha).
    rewrite Hsize. cbn [Nat.sub]. rewrite Nat.sub_0_r, drop_app_len.
    rewrite Contains_byte_cons in Hs. apply Ascii.eqb_neq in Hd.
    rewrite Hd, (Contains_drop_nonASCII a b c Hc Ha) in Hs. cbn [orb] in Hs.
    rewrite IH; [apply orb_true_r| |exact Hs].
    cbn [strings.len String.length] in Hn. rewrite str_len_app in Hn. lia.
Qed.

Lemma lowerByte_colon (c : ascii) :
  Ascii.eqb (strings.lowerByte c) ":" = Ascii.eqb c ":".
Proof.
  destruct c as [b0 b1 b2 b3 b4 b5 b6 b7].
  by destruct b0, b1, b2, b3, b4, b5, b6, b7.
Qed.

(** [ToLower] keeps the colons of a string. *)
Lemma ToLower_keeps_colon (s : string) :
  strings.Contains s ":" = true -> strings.Contains (strings.ToLower s) ":" = true.
Proof.
  unfold strings.ToLower. destruct (strings.isASCII s).
  - induction s as [|c r IH]; [done|].
    cbn [strings.lowerASCII]. rewrite !Contains_byte_cons.
    rewrite lowerByte_colon.
    destruct (Ascii.eqb c ":"); [done|exact IH].
  - by apply Map_keeps_byte.
Qed.

Lemma ASCII_not_between (lo hi : nat) (c : ascii) :
  128 <= lo -> nonASCII c = false -> utf8.between lo hi c = false.
Proof.
  intros Hlo Hc. destruct (utf8.between lo hi c) eqn:E; [|reflexivity].
  apply (between_nonASCII _ _ _ Hlo) in E. congruence.
Qed.

Lemma ASCII_not_cont (c : ascii) : nonASCII c = false -> utf8.isCont c = false.
Proof. apply ASCII_not_between. lia. Qed.

(** Text that starts with an ASCII byte completes no rune. *)
Lemma DecodeRune_app_ASCII (s t : string) (c : ascii) :
  s <> EmptyString -> nonASCII c = false ->
  utf8.DecodeRuneInString (s +:+ String c t) = utf8.DecodeRuneInString s.
Proof.
  intros Hs Hc. destruct s as [|s0 r]; [done|]. rewrite str_app_cons.
  cbn [utf8.DecodeRuneInString].
  destruct (nat_of_ascii s0 <? utf8.RuneSelf); [reflexivity|].
  destruct (utf8.first s0) as [[[sz lo] hi]|] eqn:Ef; [|reflexivity].
  apply first_bounds in Ef.
  destruct r as [|s1 r1].
  { rewrite str_app_nil_l. by rewrite (ASCII_not_between lo hi c Ef Hc). }
  rewrite str_app_cons.
  destruct (utf8.between lo hi s1); cbn [negb]; [|reflexivity].
  destruct (sz <=? 2); [reflexivity|].
  destruct r1 as [|s2 r2].
  { rewrite str_app_nil_l. by rewrite (ASCII_not_cont c Hc). }
  rewrite str_app_cons.
  destruct (utf8.isCont s2); cbn [negb]; [|reflexivity].
  destruct (sz <=? 3); [reflexivity|].
  destruct r2 as [|s3 r3].
  { rewrite str_app_nil_l. by rewrite (ASCII_not_cont c Hc). }
  rewrite str_app_cons. reflexivity.
Qed.

(** A rune that was read does not depend on the text after it. *)
Lemma DecodeRune_app_valid (s t : string) :
  fst (utf8.DecodeRuneInString s) <> utf8.RuneError ->
  utf8.DecodeRuneInString (s +:+ t) = utf8.DecodeRuneInString s.
Proof.
  destruct s as [|s0 r]; [done|]. rewrite str_app_cons.
  cbn [utf8.DecodeRuneInString].
  destruct (nat_of_ascii s0 <? utf8.RuneSelf); [reflexivity|].
  destruct (utf8.first s0) as [[[sz lo] hi]|]; [|reflexivity].
  destruct r as [|s1 r1]; [done|]. rewrite str_app_cons.
  destruct (utf8.between lo hi s1); cbn [negb]; [|reflexivity].
  destruct (sz <=? 2); [reflexivity|].
  destruct r1 as [|s2 r2]; [done|]. rewrite str_app_cons.
  destruct (utf8.isCont s2); cbn [negb]; [|reflexivity].
  destruct (sz <=? 3); [reflexivity|].
  destruct r2 as [|s3 r3]; [done|]. rewrite str_app_cons. reflexivity.
Qed.

Lemma trimLeftFuncFrom_skip (f : Z -> bool) (k : nat) (s : string) :
  strings.trimLeftFuncFrom f k s = strings.trimLeftFuncFrom f 0 (strings.drop k s).
Proof.
  revert k. induction s as [|c r IH]; intros [|k]; try reflexivity.
  cbn [strings.trimLeftFuncFrom strings.drop]. apply IH.
Qed.

(** [TrimLeftFunc] rune by rune. *)
Lemma TrimLeftFunc_cons (f : Z -> bool) (c : ascii) (r : string) :
  strings.TrimLeftFunc (String c r) f
  = if f (fst (utf8.DecodeRuneInString (String c r)))
    then strings.TrimLeftFunc
           (strings.drop (snd (utf8.DecodeRuneInString (String c r)) - 1) r) f
    else String c r.
Proof.
  unfold strings.TrimLeftFunc. cbn [strings.trimLeftFuncFrom].
  destruct (utf8.DecodeRuneInString (String c r)) as [rune size]. cbn [fst snd].
  by rewrite trimLeftFuncFrom_skip.
Qed.

(** Induction on the length of a string. *)
Lemma string_len_ind (P : string -> Prop) :
  (forall s, (forall t, strings.len t < strings.len s -> P t) -> P s) ->
  forall s, P s.
Proof.
  intros IH s.
  assert (H : forall n t, strings.len t < n -> P t);
    [|apply (H (S (strings.len s))); lia].
  induction n as [|n IHn]; intros t Hn; [lia|].
  apply IH. intros u Hu. apply IHn. lia.
Qed.

(** What [TrimLeftFunc] leaves is empty or starts with a rune that does
    not satisfy [f], and it is the end of the text. *)
Lemma TrimLeftFunc_stops (f : Z -> bool) (s : string) :
  strings.TrimLeftFunc s f = EmptyString
  \/ f (fst (utf8.DecodeRuneInString (strings.TrimLeftFunc s f))) = false.
Proof.
  induction s as [s IH] using string_len_ind.
  destruct s as [|c r]; [by left|]. rewrite TrimLeftFunc_cons.
  destruct (f (fst (utf8.DecodeRuneInString (String c r)))) eqn:E; [|by right].
  apply IH. destruct (DecodeRune_shape c r) as (a & b & -> & Hsize & _).
  rewrite Hsize. cbn [Nat.sub]. rewrite Nat.sub_0_r, drop_app_len.
  cbn [strings.len String.length]. rewrite str_len_app. lia.
Qed.

Lemma TrimLeftFunc_suffix (f : Z -> bool) (s : string) :
  exists p, s = p +:+ strings.TrimLeftFunc s f.
Proof.
  induction s as [s IH] using string_len_ind.
  destruct s as [|c r]; [by exists EmptyString|]. rewrite TrimLeftFunc_cons.
  destruct (f (fst (utf8.DecodeRuneInString (String c r)))); [|by exists EmptyString].
  destruct (DecodeRune_shape c r) as (a & b & -> & Hsize & _).
  rewrite Hsize. cbn [Nat.sub]. rewrite Nat.sub_0_r, drop_app_len.
  destruct (IH b) as [p Hp].
  { cbn [strings.len String.length]. rewrite str_len_app. lia. }
  exists (String c a +:+ p). rewrite str_app_assoc, <- Hp. by rewrite str_app_cons.
Qed.

Lemma TrimLeftFunc_fixed (f : Z -> bool) (s : string) :
  s = EmptyString \/ f (fst (utf8.DecodeRuneInString s)) = false ->
  strings.TrimLeftFunc s f = s.
Proof.
  destruct s as [|c r]; [reflexivity|]. intros [|E]; [done|].
  by rewrite TrimLeftFunc_cons, E.
Qed.

(** An ASCII byte after the text: it is dropped with the text when [f]
    holds of it and of all the text, and stays otherwise. *)
Lemma TrimLeftFunc_snoc_ASCII (f : Z -> bool) (s : string) (c : ascii) :
  nonASCII c = false ->
  strings.TrimLeftFunc (s +:+ String c EmptyString) f
  = if f (utf8.byte c) && String.eqb (strings.TrimLeftFunc s f) EmptyString
    then EmptyString
    else strings.TrimLeftFunc s f +:+ String c EmptyString.
Proof.
  intros Hc. induction s as [s IH] using string_len_ind.
  destruct s as [|d r].
  - rewrite str_app_nil_l, TrimLeftFunc_cons, (DecodeRune_ASCII c _ Hc).
    cbn [fst snd Nat.sub strings.drop]. by destruct (f (utf8.byte c)).
  - rewrite str_app_cons, !TrimLeftFunc_cons, <- str_app_cons.
    rewrite (DecodeRune_app_ASCII (String d r) EmptyString c ltac:(done) Hc).
    destruct (f (fst (utf8.DecodeRuneInString (String d r)))) eqn:E.
    + destruct (DecodeRune_shape d r) as (a & b & -> & Hsize & _).
      rewrite Hsize. cbn [Nat.sub]. rewrite Nat.sub_0_r, str_app_assoc, !drop_app_len.
      apply IH. cbn [strings.len String.length]. rewrite str_len_app. lia.
    + rewrite andb_false_r. by rewrite str_app_cons.
Qed.

Lemma from_drop (n : nat) (s : string) : utf8.from n s = strings.drop n s.
Proof. reflexivity. Qed.

Lemma len_drop (n : nat) (s : string) :
  strings.len (strings.drop n s) = strings.len s - n.
Proof. revert s. induction n as [|n IH]; intros [|c r]; try reflexivity. apply IH. Qed.

Lemma len_take (n : nat) (s : string) :
  strings.len (strings.take n s) = Nat.min n (strings.len s).
Proof.
  revert s. induction n as [|n IH]; intros [|c r]; try reflexivity.
  cbn [strings.take strings.len String.length Nat.min]. f_equal. apply IH.
Qed.

Lemma get_app_r (q w : string) (i : nat) :
  String.get (strings.len q + i) (q +:+ w) = String.get i w.
Proof. induction q as [|c q IH]; [reflexivity|]. exact IH. Qed.

Lemma get_0 (c : ascii) (r : string) : String.get 0 (String c r) = Some c.
Proof. reflexivity. Qed.

Lemma lastStart_le (s : string) (lim : Z) (turns : nat) (start : Z) :
  (utf8.lastStart s lim turns start <= start)%Z.
Proof.
  revert start. induction turns as [|t IH]; intros start; [cbn; lia|].
  cbn [utf8.lastStart]. destruct (start <? lim)%Z; [lia|].
  destruct (String.get (Z.to_nat start) s) as [c|]; [|lia].
  destruct (utf8.RuneStart c); [lia|]. specialize (IH (start - 1)%Z). lia.
Qed.

(** [DecodeLastRuneInString] on a text that ends with the byte [c]. *)
Lemma DecodeLast_snoc (q : string) (c : ascii) :
  let s := q +:+ String c EmptyString in
  let end_ := Z.of_nat (S (strings.len q)) in
  utf8.DecodeLastRuneInString s
  = if nat_of_ascii c <? utf8.RuneSelf then (utf8.byte c, 1)
    else
      let start := Z.max 0 (utf8.lastStart s (Z.max 0 (end_ - 4)) 4 (end_ - 1 - 1)) in
      let '(r, size) := utf8.DecodeRuneInString (strings.drop (Z.to_nat start) s) in
      if negb (start + Z.of_nat size =? end_)%Z then (utf8.RuneError, 1) else (r, size).
Proof.
  intros s end_. unfold utf8.DecodeLastRuneInString.
  assert (El : String.length s = S (strings.len q)).
  { subst s. change (String.length ?x) with (strings.len x).
    rewrite str_len_app. cbn. lia. }
  rewrite El. fold end_.
  assert (Hz : (end_ =? 0)%Z = false) by (apply Z.eqb_neq; subst end_; lia).
  rewrite Hz.
  replace (Z.to_nat (end_ - 1)) with (strings.len q + 0) by (subst end_; lia).
  subst s. rewrite get_app_r, get_0.
  destruct (nat_of_ascii c <? utf8.RuneSelf); [reflexivity|].
  rewrite from_drop. reflexivity.
Qed.

Lemma DecodeLast_snoc_ASCII (q : string) (c : ascii) :
  nonASCII c = false ->
  utf8.DecodeLastRuneInString (q +:+ String c EmptyString) = (utf8.byte c, 1).
Proof.
  unfold nonASCII. intros E%negb_false_iff. rewrite DecodeLast_snoc. by rewrite E.
Qed.

(** The last rune is an ASCII byte, or the error rune of width one, or the
    rune that the end of the text encodes. *)
Lemma DecodeLast_cases (s : string) :
  s <> EmptyString ->
  (exists q c, s = q +:+ String c EmptyString /\ nonASCII c = false
               /\ utf8.DecodeLastRuneInString s = (utf8.byte c, 1))
  \/ utf8.DecodeLastRuneInString s = (utf8.RuneError, 1)
  \/ (exists q w, s = q +:+ w /\ w <> EmptyString
                  /\ utf8.DecodeRuneInString w = utf8.DecodeLastRuneInString s
                  /\ snd (utf8.DecodeLastRuneInString s) = strings.len w).
Proof.
  intros Hs. destruct (str_snoc s Hs) as (q & c & ->).
  destruct (nonASCII c) eqn:Hc.
  2: { left. exists q, c. by rewrite DecodeLast_snoc_ASCII. }
  right. rewrite DecodeLast_snoc. unfold nonASCII in Hc.
  apply negb_true_iff in Hc. rewrite Hc. cbv zeta.
  set (s := q +:+ String c EmptyString).
  set (end_ := Z.of_nat (S (strings.len q))).
  set (start := Z.max 0 (utf8.lastStart s (Z.max 0 (end_ - 4)) 4 (end_ - 1 - 1))).
  assert (Hstart : (0 <= start <= end_ - 1)%Z).
  { subst start.
    pose proof (lastStart_le s (Z.max 0 (end_ - 4)) 4 (end_ - 1 - 1)%Z).
    subst end_. lia. }
  assert (Hlen : strings.len s = S (strings.len q)).
  { subst s. rewrite str_len_app. cbn. lia. }
  destruct (utf8.DecodeRuneInString (strings.drop (Z.to_nat start) s))
    as [r size] eqn:Ed.
  destruct (start + Z.of_nat size =? end_)%Z eqn:Ee; cbn [negb]; [|by left].
  right. exists (strings.take (Z.to_nat start) s), (strings.drop (Z.to_nat start) s).
  apply Z.eqb_eq in Ee.
  assert (Hw : strings.len (strings.drop (Z.to_nat start) s) = size).
  { rewrite len_drop, Hlen. subst end_. lia. }
  split; [by rewrite take_drop|]. split; [|by split].
  intros E. rewrite E in Hw. cbn in Hw. subst end_. lia.
Qed.

Lemma DecodeLast_size (s : string) :
  s <> EmptyString ->
  1 <= snd (utf8.DecodeLastRuneInString s) <= strings.len s.
Proof.
  intros Hs. destruct (DecodeLast_cases s Hs)
    as [(q & c & -> & _ & ->)|[->|(q & w & -> & Hw & _ & ->)]]; cbn [snd].
  - rewrite str_len_app. cbn. lia.
  - destruct s; [done|]. cbn. lia.
  - rewrite str_len_app. destruct w; [done|]. cbn. lia.
Qed.

Lemma trimRightFuncTurns_enough (f : Z -> bool) (n m : nat) (s : string) :
  strings.len s <= n -> strings.len s <= m ->
  strings.trimRightFuncTurns f n s = strings.trimRightFuncTurns f m s.
Proof.
  revert m s. induction n as [|n IH]; intros m s Hn Hm.
  - destruct s; [by destruct m|cbn in Hn; lia].
  - destruct s as [|c r]; [by destruct m|].
    destruct m as [|m]; [cbn in Hm; lia|].
    cbn [strings.trimRightFuncTurns].
    pose proof (DecodeLast_size (String c r) ltac:(done)) as Hsize.
    destruct (utf8.DecodeLastRuneInString (String c r)) as [rune size].
    cbn [snd] in Hsize. destruct (f rune); [|reflexivity].
    apply IH; rewrite len_take; lia.
Qed.

(** [TrimRightFunc] rune by rune. *)
Lemma TrimRightFunc_eq (f : Z -> bool) (s : string) :
  s <> EmptyString ->
  strings.TrimRightFunc s f
  = if f (fst (utf8.DecodeLastRuneInString s))
    then strings.TrimRightFunc
           (strings.take (strings.len s - snd (utf8.DecodeLastRuneInString s)) s) f
    else s.
Proof.
  intros Hs. unfold strings.TrimRightFunc.
  pose proof (DecodeLast_size s Hs) as Hsize.
  destruct s as [|c r]; [done|].
  change (strings.len (String c r)) with (S (strings.len r)) at 1.
  cbn [strings.trimRightFuncTurns].
  destruct (utf8.DecodeLastRuneInString (String c r)) as [rune size].
  cbn [fst snd] in *. destruct (f rune); [|reflexivity].
  change (strings.len (String c r)) with (S (strings.len r)) in *.
  apply trimRightFuncTurns_enough; rewrite ?len_take; lia.
Qed.

Lemma TrimRightFunc_stops (f : Z -> bool) (s : string) :
  strings.TrimRightFunc s f = EmptyString
  \/ f (fst (utf8.DecodeLastRuneInString (strings.TrimRightFunc s f))) = false.
Proof.
  induction s as [s IH] using string_len_ind.
  destruct (String.eqb_spec s EmptyString) as [->|Hs]; [by left|].
  rewrite (TrimRightFunc_eq f s Hs).
  destruct (f (fst (utf8.DecodeLastRuneInString s))) eqn:E; [|by right].
  apply IH. pose proof (DecodeLast_size s Hs). rewrite len_take. lia.
Qed.

Lemma TrimRightFunc_fixed (f : Z -> bool) (s : string) :
  s = EmptyString \/ f (fst (utf8.DecodeLastRuneInString s)) = false ->
  strings.TrimRightFunc s f = s.
Proof.
  destruct (String.eqb_spec s EmptyString) as [->|Hs]; [reflexivity|].
  intros [|E]; [done|]. by rewrite (TrimRightFunc_eq f s Hs), E.
Qed.

Lemma TrimRightFunc_prefix (f : Z -> bool) (s : string) :
  exists w, s = strings.TrimRightFunc s f +:+ w.
Proof.
  induction s as [s IH] using string_len_ind.
  destruct (String.eqb_spec s EmptyString) as [->|Hs]; [by exists EmptyString|].
  rewrite (TrimRightFunc_eq f s Hs).
  destruct (f (fst (utf8.DecodeLastRuneInString s)));
    [|exists EmptyString; by rewrite str_app_nil_r].
  set (n := strings.len s - snd (utf8.DecodeLastRuneInString s)).
  destruct (IH (strings.take n s)) as [w Hw].
  { pose proof (DecodeLast_size s Hs). rewrite len_take. lia. }
  exists (w +:+ strings.drop n s).
  by rewrite <- str_app_assoc, <- Hw, take_drop.
Qed.

Lemma TrimRightFunc_snoc_ASCII (f : Z -> bool) (s : string) (c : ascii) :
  nonASCII c = false ->
  strings.TrimRightFunc (s +:+ String c EmptyString) f
  = if f (utf8.byte c) then strings.TrimRightFunc s f
    else s +:+ String c EmptyString.
Proof.
  intros Hc. rewrite TrimRightFunc_eq by (by apply str_app_ne_nil_r).
  rewrite (DecodeLast_snoc_ASCII s c Hc). cbn [fst snd].
  destruct (f (utf8.byte c)); [|reflexivity].
  rewrite str_len_app. cbn [strings.len String.length].
  replace (strings.len s + 1 - 1) with (strings.len s) by lia.
  by rewrite take_app_len.
Qed.

(* ===================================================================== *)
(** * [strings.TrimSpace]                                                 *)
(* ===================================================================== *)

Lemma TrimSpace_nil : strings.TrimSpace EmptyString = EmptyString.
Proof. reflexivity. Qed.

(** White space in ASCII at the start is dropped. *)
Lemma TrimSpace_cons_space (c : ascii) (y : string) :
  isSpaceByte c = true ->
  strings.TrimSpace (String c y) = strings.TrimSpace y.
Proof.
  unfold isSpaceByte. intros [Hs Hc%negb_true_iff]%andb_prop.
  unfold strings.TrimSpace, strings.TrimFunc.
  rewrite TrimLeftFunc_cons, (DecodeRune_ASCII c y Hc). cbn [fst snd Nat.sub].
  by rewrite Hs.
Qed.

(** White space in ASCII at the end is dropped. *)
Lemma TrimSpace_snoc_space (y : string) (c : ascii) :
  isSpaceByte c = true ->
  strings.TrimSpace (y +:+ String c EmptyString) = strings.TrimSpace y.
Proof.
  unfold isSpaceByte. intros [Hs Hc%negb_true_iff]%andb_prop.
  unfold strings.TrimSpace, strings.TrimFunc.
  rewrite (TrimLeftFunc_snoc_ASCII _ y c Hc), Hs. cbn [andb].
  destruct (String.eqb_spec (strings.TrimLeftFunc y unicode.IsSpace) EmptyString)
    as [E|_].
  - by rewrite E.
  - by rewrite (TrimRightFunc_snoc_ASCII _ _ c Hc), Hs.
Qed.

(** An ASCII byte at the end that is no white space stays, and all that
    [TrimSpace] drops is at the start. *)
Lemma TrimSpace_snoc_keep (y : string) (c : ascii) :
  nonASCII c = false -> isSpaceByte c = false ->
  strings.TrimSpace (y +:+ String c EmptyString)
  = strings.TrimLeftFunc y unicode.IsSpace +:+ String c EmptyString.
Proof.
  intros Hc Hs. unfold isSpaceByte in Hs. rewrite Hc, andb_true_r in Hs.
  unfold strings.TrimSpace, strings.TrimFunc.
  rewrite (TrimLeftFunc_snoc_ASCII _ y c Hc), Hs. cbn [andb].
  by rewrite (TrimRightFunc_snoc_ASCII _ _ c Hc), Hs.
Qed.

Lemma IsSpace_RuneError : unicode.IsSpace utf8.RuneError = false.
Proof. reflexivity. Qed.

(** Trimming twice is trimming once. *)
Lemma TrimSpace_idempotent (s : string) :
  strings.TrimSpace (strings.TrimSpace s) = strings.TrimSpace s.
Proof.
  unfold strings.TrimSpace, strings.TrimFunc.
  set (t := strings.TrimLeftFunc s unicode.IsSpace).
  set (u := strings.TrimRightFunc t unicode.IsSpace).
  assert (Hu : strings.TrimLeftFunc u unicode.IsSpace = u).
  { apply TrimLeftFunc_fixed.
    destruct (String.eqb_spec u EmptyString) as [|Hne]; [by left|]. right.
    destruct (unicode.IsSpace (fst (utf8.DecodeRuneInString u))) eqn:E;
      [|reflexivity].
    exfalso. destruct (TrimRightFunc_prefix unicode.IsSpace t) as [w Hw].
    fold u in Hw.
    assert (Ev : utf8.DecodeRuneInString (u +:+ w) = utf8.DecodeRuneInString u).
    { apply DecodeRune_app_valid. intros Er. rewrite Er in E. discriminate E. }
    rewrite <- Hw in Ev.
    destruct (TrimLeftFunc_stops unicode.IsSpace s) as [Et|Et]; fold t in Et.
    - rewrite Et in Hw. symmetry in Hw. by apply str_app_eq_nil in Hw as [? _].
    - rewrite Ev, E in Et. discriminate Et. }
  rewrite Hu. apply TrimRightFunc_fixed. apply TrimRightFunc_stops.
Qed.

Lemma first_bounds_full (c : ascii) (sz lo hi : nat) :
  utf8.first c = Some (sz, lo, hi) ->
  128 <= lo /\ hi <= 191 /\ 194 <= nat_of_ascii c.
Proof.
  unfold utf8.first.
  repeat (match goal with
          | |- (if ?b then _ else _) = _ -> _ =>
              let E := fresh "E" in
              destruct b eqn:E;
              [apply between_bounds in E; intros [= <- <- <-]; lia|]
          end).
  discriminate.
Qed.

Lemma between_cont (lo hi : nat) (c : ascii) :
  128 <= lo -> hi <= 191 -> utf8.between lo hi c = true -> utf8.isCont c = true.
Proof.
  intros Hlo Hhi Hb. apply between_bounds in Hb. unfold utf8.isCont, utf8.between.
  apply andb_true_intro. split; apply Nat.leb_le; lia.
Qed.

(** A text that is one rune of more than one byte: a byte that starts a
    rune, and up to three continuation bytes. *)
Lemma DecodeRune_whole (w : string) (r : Z) :
  utf8.DecodeRuneInString w = (r, strings.len w) -> 2 <= strings.len w ->
  exists c0 rest, w = String c0 rest /\ utf8.RuneStart c0 = true
                  /\ allBytes utf8.isCont rest = true /\ strings.len rest <= 3.
Proof.
  destruct w as [|c0 w1]; [cbn; lia|]. intros Hd Hl. exists c0, w1.
  split; [reflexivity|]. cbn [utf8.DecodeRuneInString] in Hd.
  change (strings.len (String c0 w1)) with (S (strings.len w1)) in *.
  destruct (nat_of_ascii c0 <? utf8.RuneSelf); [injection Hd as _ Hd; lia|].
  destruct (utf8.first c0) as [[[sz lo] hi]|] eqn:Ef; [|injection Hd as _ Hd; lia].
  apply first_bounds_full in Ef as (Hlo & Hhi & Hc0).
  assert (Hstart : utf8.RuneStart c0 = true).
  { unfold utf8.RuneStart, utf8.isCont, utf8.between. apply negb_true_iff.
    apply andb_false_intro2. apply Nat.leb_gt. lia. }
  destruct w1 as [|c1 w2]; [cbn in Hl; lia|].
  destruct (utf8.between lo hi c1) eqn:E1; cbn [negb] in Hd;
    [|injection Hd as _ Hd; cbn in Hd; lia].
  apply (between_cont _ _ _ Hlo Hhi) in E1.
  destruct (sz <=? 2).
  { injection Hd as _ Hd. destruct w2; [|cbn in Hd; lia].
    cbn. rewrite E1. repeat split; [done|lia]. }
  destruct w2 as [|c2 w3]; [injection Hd as _ Hd; cbn in Hd; lia|].
  destruct (utf8.isCont c2) eqn:E2; cbn [negb] in Hd;
    [|injection Hd as _ Hd; cbn in Hd; lia].
  destruct (sz <=? 3).
  { injection Hd as _ Hd. destruct w3; [|cbn in Hd; lia].
    cbn. rewrite E1, E2. repeat split; [done|lia]. }
  destruct w3 as [|c3 w4]; [injection Hd as _ Hd; cbn in Hd; lia|].
  destruct (utf8.isCont c3) eqn:E3; cbn [negb] in Hd;
    [|injection Hd as _ Hd; cbn in Hd; lia].
  injection Hd as _ Hd. destruct w4; [|cbn in Hd; lia].
  cbn. rewrite E1, E2, E3. repeat split; [done|lia].
Qed.

(** The loop of [DecodeLastRuneInString] goes back over continuation bytes
    to the byte that starts the rune. *)
Lemma lastStart_found (q : string) (c0 : ascii) (mid tail : string)
  (lim : Z) (turns : nat) :
  utf8.RuneStart c0 = true -> allBytes utf8.isCont mid = true ->
  (lim <= Z.of_nat (strings.len q))%Z -> strings.len mid < turns ->
  utf8.lastStart (q +:+ String c0 (mid +:+ tail)) lim turns
    (Z.of_nat (strings.len q + strings.len mid))
  = Z.of_nat (strings.len q).
Proof.
  intros Hc0 Hmid Hlim. revert tail turns Hmid.
  induction mid as [mid IH] using string_len_ind. intros tail turns Hmid Hturns.
  destruct turns as [|t]; [lia|]. cbn [utf8.lastStart].
  replace (Z.of_nat (strings.len q + strings.len mid) <? lim)%Z with false
    by (symmetry; apply Z.ltb_ge; lia).
  rewrite Nat2Z.id, get_app_r.
  destruct (String.eqb_spec mid EmptyString) as [->|Hne].
  - cbn [strings.len String.length String.get]. rewrite Hc0. f_equal. lia.
  - destruct (str_snoc mid Hne) as (m & c & ->).
    rewrite str_len_app. cbn [strings.len String.length].
    replace (strings.len m + 1) with (S (strings.len m)) by lia.
    cbn [String.get].
    replace (String.get (strings.len m)
               ((m +:+ String c EmptyString) +:+ tail))
      with (Some c).
    2: { rewrite str_app_assoc.
         rewrite <- (Nat.add_0_r (strings.len m)) at 1. by rewrite get_app_r. }
    assert (Hm : allBytes utf8.isCont m = true /\ utf8.isCont c = true).
    { clear -Hmid. induction m as [|d m IHm].
      - cbn in Hmid. by rewrite andb_true_r in Hmid.
      - rewrite str_app_cons in Hmid. cbn [allBytes] in *.
        apply andb_prop in Hmid as [Hd Hr]. destruct (IHm Hr) as [H1 H2].
        by rewrite Hd, H1. }
    destruct Hm as [Hm Hc]. unfold utf8.RuneStart at 1. rewrite Hc. cbn [negb].
    replace (Z.of_nat (strings.len q + S (strings.len m)) - 1)%Z
      with (Z.of_nat (strings.len q + strings.len m)) by lia.
    rewrite str_app_assoc.
    apply IH; [|exact Hm|].
    + rewrite str_len_app. cbn. lia.
    + rewrite str_len_app in Hturns. cbn in Hturns. lia.
Qed.

Lemma allBytes_snoc (p : ascii -> bool) (m : string) (c : ascii) :
  allBytes p (m +:+ String c EmptyString) = allBytes p m && p c.
Proof.
  induction m as [|d m IH]; [cbn; by rewrite andb_true_r|].
  rewrite str_app_cons. cbn [allBytes]. by rewrite IH, andb_assoc.
Qed.

(** A rune of more than one byte at the end of a text is its last rune. *)
Lemma DecodeLast_complete (q w : string) (r : Z) :
  utf8.DecodeRuneInString w = (r, strings.len w) -> 2 <= strings.len w ->
  utf8.DecodeLastRuneInString (q +:+ w) = (r, strings.len w).
Proof.
  intros Hd Hl.
  destruct (DecodeRune_whole w r Hd Hl) as (c0 & rest & E & Hc0 & Hrest & Hlen).
  assert (Hne : rest <> EmptyString).
  { intros ->. subst w. cbn in Hl. lia. }
  destruct (str_snoc rest Hne) as (mid & c & Er). subst rest.
  rewrite allBytes_snoc in Hrest. apply andb_prop in Hrest as [Hmid Hc].
  assert (Hn : (nat_of_ascii c <? utf8.RuneSelf) = false).
  { apply isCont_nonASCII in Hc. unfold nonASCII in Hc. by apply negb_true_iff in Hc. }
  assert (Elen : strings.len w = S (S (strings.len mid))).
  { subst w. cbn [strings.len String.length].
    change (String.length ?x) with (strings.len x). rewrite str_len_app. cbn. lia. }
  rewrite Elen in *. clear Hl. subst w.
  rewrite <- str_app_cons, <- str_app_assoc, DecodeLast_snoc. cbv zeta.
  rewrite Hn, str_app_assoc, str_app_cons.
  rewrite str_len_app. cbn [strings.len String.length].
  change (String.length mid) with (strings.len mid).
  replace (Z.of_nat (S (strings.len q + S (strings.len mid))) - 1 - 1)%Z
    with (Z.of_nat (strings.len q + strings.len mid)) by lia.
  rewrite (lastStart_found q c0 mid (String c EmptyString) _ 4 Hc0 Hmid).
  - rewrite Z.max_r by lia. rewrite Nat2Z.id, drop_app_len, Hd.
    replace (Z.of_nat (strings.len q) + Z.of_nat (S (S (strings.len mid)))
             =? Z.of_nat (S (strings.len q + S (strings.len mid))))%Z with true;
      [reflexivity|].
    symmetry. apply Z.eqb_eq. lia.
  - rewrite str_len_app in Hlen. cbn in Hlen. lia.
  - rewrite str_len_app in Hlen. cbn in Hlen. lia.
Qed.

(** What [TrimSpace] returns starts and ends with a rune that is no white
    space, when it is not empty. *)
Lemma TrimSpace_starts (s : string) :
  strings.TrimSpace s = EmptyString
  \/ unicode.IsSpace (fst (utf8.DecodeRuneInString (strings.TrimSpace s))) = false.
Proof.
  pose proof (TrimSpace_idempotent s) as E.
  unfold strings.TrimSpace at 1, strings.TrimFunc in E.
  set (u := strings.TrimSpace s) in *.
  pose proof (TrimLeftFunc_stops unicode.IsSpace u) as [Hl|Hl].
  - left. rewrite Hl in E. exact (eq_sym E).
  - destruct (TrimRightFunc_prefix unicode.IsSpace
                (strings.TrimLeftFunc u unicode.IsSpace)) as [w Hw].
    rewrite E in Hw.
    destruct (TrimLeftFunc_suffix unicode.IsSpace u) as [p Hp].
    rewrite Hw in Hp.
    assert (Hpw : p = EmptyString /\ w = EmptyString).
    { apply (f_equal strings.len) in Hp. rewrite !str_len_app in Hp.
      split; [destruct p|destruct w]; try reflexivity; cbn in Hp; lia. }
    destruct Hpw as [_ ->]. rewrite str_app_nil_r in Hw. rewrite Hw in Hl.
    by right.
Qed.

Lemma TrimSpace_ends (s : string) :
  strings.TrimSpace s = EmptyString
  \/ unicode.IsSpace (fst (utf8.DecodeLastRuneInString (strings.TrimSpace s))) = false.
Proof. apply TrimRightFunc_stops. Qed.

(** Text with a rune at its start that is no white space loses nothing at
    its start, whatever follows in ASCII. *)
Lemma TrimLeftFunc_keep_app (f : Z -> bool) (a t : string) :
  a <> EmptyString -> f (fst (utf8.DecodeRuneInString a)) = false ->
  startsASCII t = true ->
  strings.TrimLeftFunc (a +:+ t) f = a +:+ t.
Proof.
  intros Ha Hf Ht. apply TrimLeftFunc_fixed. right.
  destruct t as [|c t']; [by rewrite str_app_nil_r|].
  cbn [startsASCII] in Ht. apply negb_true_iff in Ht.
  by rewrite (DecodeRune_app_ASCII a t' c Ha Ht).
Qed.

(** The bytes the last rune takes: one ASCII byte, or bytes that are not
    ASCII. *)
Lemma DecodeLast_dropped (s : string) :
  s <> EmptyString ->
  exists q w, s = q +:+ w
    /\ strings.len w = snd (utf8.DecodeLastRuneInString s)
    /\ ((exists c, w = String c EmptyString /\ nonASCII c = false
                   /\ utf8.DecodeLastRuneInString s = (utf8.byte c, 1))
        \/ (allBytes nonASCII w = true
            /\ (utf8.DecodeLastRuneInString s = (utf8.RuneError, 1)
                \/ utf8.DecodeRuneInString w = utf8.DecodeLastRuneInString s))).
Proof.
  intros Hs. destruct (str_snoc s Hs) as (q0 & c & ->).
  destruct (nonASCII c) eqn:Hc.
  2: { exists q0, (String c EmptyString). rewrite (DecodeLast_snoc_ASCII q0 c Hc).
       split; [reflexivity|]. split; [reflexivity|]. left. by exists c. }
  destruct (DecodeLast_cases (q0 +:+ String c EmptyString) Hs)
    as [(q & c' & E & Hc' & _)|[E|(q & w & E & Hw & Hd & Hlen)]].
  - exfalso. assert (c = c').
    { apply (f_equal (endsIn (Ascii.eqb c))) in E. rewrite !endsIn_snoc in E.
      rewrite Ascii.eqb_refl in E. symmetry in E. by apply Ascii.eqb_eq in E. }
    congruence.
  - exists q0, (String c EmptyString). rewrite E. cbn [snd].
    split; [reflexivity|]. split; [reflexivity|]. right.
    split; [cbn; by rewrite Hc|by left].
  - exists q, w. split; [exact E|]. split; [by rewrite Hlen|]. right.
    split; [|by right].
    destruct w as [|d r]; [done|].
    destruct (DecodeRune_shape d r) as (a & b & Er & Hsize & Ha).
    rewrite Hd, Hlen in Hsize. subst r.
    cbn [strings.len String.length] in Hsize.
    change (String.length ?x) with (strings.len x) in Hsize.
    rewrite str_len_app in Hsize.
    assert (b = EmptyString) by (destruct b; [reflexivity|cbn in Hsize; lia]).
    subst b. rewrite str_app_nil_r in *. cbn [allBytes]. rewrite Ha, andb_true_r.
    destruct (nonASCII d) eqn:Hd'; [reflexivity|exfalso].
    rewrite (DecodeRune_ASCII d a Hd') in Hd.
    destruct a as [|e a'].
    + apply (f_equal (endsIn (Ascii.eqb c))) in E.
      rewrite endsIn_snoc, Ascii.eqb_refl in E.
      change (String d EmptyString) with (EmptyString +:+ String d EmptyString) in E.
      rewrite <- str_app_assoc, endsIn_snoc in E. symmetry in E.
      apply Ascii.eqb_eq in E. congruence.
    + rewrite <- Hd in Hlen. cbn in Hlen. lia.
Qed.

(** Text with a rune at its end that is no white space loses nothing at
    its end, whatever stands before it with an ASCII byte last. *)
Lemma TrimRightFunc_keep_app (t z : string) :
  z <> EmptyString ->
  unicode.IsSpace (fst (utf8.DecodeLastRuneInString z)) = false ->
  endsIn nonASCII t = false ->
  strings.TrimRightFunc (t +:+ z) unicode.IsSpace = t +:+ z.
Proof.
  intros Hz Hf Ht. apply TrimRightFunc_fixed. right.
  destruct (unicode.IsSpace (fst (utf8.DecodeLastRuneInString (t +:+ z)))) eqn:E;
    [exfalso|reflexivity].
  destruct (DecodeLast_dropped (t +:+ z) ltac:(by apply str_app_ne_nil_r))
    as (q & w & Es & Hlen & [(c & -> & Hc & Hd)|[Hw [Hd|Hd]]]).
  - destruct (str_snoc z Hz) as (z' & c' & ->).
    assert (c' = c).
    { apply (f_equal (endsIn (Ascii.eqb c))) in Es.
      rewrite <- str_app_assoc, !endsIn_snoc, Ascii.eqb_refl in Es.
      by apply Ascii.eqb_eq in Es. }
    subst c'. rewrite (DecodeLast_snoc_ASCII z' c Hc) in Hf.
    rewrite Hd in E. cbn [fst] in *. congruence.
  - rewrite Hd in E. discriminate E.
  - assert (Hin : exists q', z = q' +:+ w).
    { destruct (str_app_eq_app t z q w Es) as [(m & _ & Ez)|(m & Et & Ew)].
      - by exists m.
      - destruct (String.eqb_spec m EmptyString) as [->|Hm].
        + exists EmptyString. by rewrite Ew.
        + exfalso. rewrite Ew, allBytes_app in Hw.
          apply andb_prop in Hw as [Hw _].
          rewrite Et, (endsIn_app _ _ _ Hm), (allBytes_endsIn _ _ Hw Hm) in Ht.
          discriminate Ht. }
    destruct Hin as [q' ->].
    pose proof (DecodeLast_size (t +:+ q' +:+ w)
                  ltac:(by apply str_app_ne_nil_r)) as Hsize.
    destruct (utf8.DecodeLastRuneInString (t +:+ q' +:+ w)) as [r n] eqn:Ed.
    cbn [fst snd] in *.
    destruct (Nat.le_gt_cases 2 n) as [Hn|Hn].
    + rewrite <- Hlen in Hd, Hn.
      rewrite (DecodeLast_complete q' w r Hd Hn) in Hf. cbn [fst] in Hf. congruence.
    + destruct w as [|d [|e w']]; cbn in Hlen; try lia.
      cbn [allBytes] in Hw. rewrite andb_true_r in Hw. unfold nonASCII in Hw.
      apply negb_true_iff in Hw.
      cbn [utf8.DecodeRuneInString] in Hd. rewrite Hw in Hd.
      destruct (utf8.first d) as [[[sz lo] hi]|]; injection Hd as <- _;
        discriminate E.
Qed.

(** An ASCII byte that does not satisfy [f] is not dropped. *)
Lemma TrimLeftFunc_keeps_byte (f : Z -> bool) (c : ascii) (s : string) :
  nonASCII c = false -> f (utf8.byte c) = false ->
  strings.Contains s (String c EmptyString) = true ->
  strings.Contains (strings.TrimLeftFunc s f) (String c EmptyString) = true.
Proof.
  intros Hc Hf. induction s as [s IH] using string_len_ind.
  destruct s as [|d r]; [done|]. intros Hs. rewrite TrimLeftFunc_cons.
  destruct (f (fst (utf8.DecodeRuneInString (String d r)))) eqn:E; [|exact Hs].
  destruct (DecodeRune_shape d r) as (a & b & -> & Hsize & Ha).
  rewrite Hsize. cbn [Nat.sub]. rewrite Nat.sub_0_r, drop_app_len.
  apply IH.
  - cbn [strings.len String.length]. rewrite str_len_app. lia.
  - rewrite Contains_byte_cons, (Contains_drop_nonASCII a b c Hc Ha) in Hs.
    destruct (Ascii.eqb_spec d c) as [->|]; [|exact Hs].
    rewrite (DecodeRune_ASCII c _ Hc) in E. cbn [fst] in E. congruence.
Qed.

Lemma Contains_byte_snoc (s : string) (d c : ascii) :
  strings.Contains (s +:+ String d EmptyString) (String c EmptyString)
  = strings.Contains s (String c EmptyString) || Ascii.eqb d c.
Proof.
  rewrite Contains_byte_app, Contains_byte_cons. by rewrite orb_false_r.
Qed.

Lemma Contains_nonASCII_r (a b : string) (c : ascii) :
  nonASCII c = false -> allBytes nonASCII b = true ->
  strings.Contains (a +:+ b) (String c EmptyString)
  = strings.Contains a (String c EmptyString).
Proof.
  intros Hc Hb. rewrite Contains_byte_app.
  rewrite <- (str_app_nil_r b), (Contains_drop_nonASCII b EmptyString c Hc Hb).
  apply orb_false_r.
Qed.

Lemma TrimRightFunc_keeps_byte (f : Z -> bool) (c : ascii) (s : string) :
  nonASCII c = false -> f (utf8.byte c) = false ->
  strings.Contains s (String c EmptyString) = true ->
  strings.Contains (strings.TrimRightFunc s f) (String c EmptyString) = true.
Proof.
  intros Hc Hf. induction s as [s IH] using string_len_ind.
  destruct (String.eqb_spec s EmptyString) as [->|Hs]; [done|]. intros Hin.
  rewrite (TrimRightFunc_eq f s Hs).
  destruct (f (fst (utf8.DecodeLastRuneInString s))) eqn:E; [|exact Hin].
  pose proof (DecodeLast_size s Hs) as Hsize.
  destruct (DecodeLast_dropped s Hs) as (q & w & Es & Hlen & Hw).
  assert (Et : strings.take (strings.len s - snd (utf8.DecodeLastRuneInString s)) s = q).
  { rewrite <- Hlen, Es at 1. rewrite str_len_app.
    replace (strings.len q + strings.len w - strings.len w) with (strings.len q) by lia.
    rewrite Es. apply take_app_len. }
  rewrite Et. apply IH.
  - rewrite Es, str_len_app. lia.
  - rewrite Es in Hin. destruct Hw as [(d & -> & Hd & Ed)|[Hw _]].
    + rewrite Contains_byte_snoc in Hin.
      destruct (Ascii.eqb_spec d c) as [Edc|]; [|by rewrite orb_false_r in Hin].
      rewrite Ed, Edc in E. cbn [fst] in E. congruence.
    + by rewrite (Contains_nonASCII_r q w c Hc Hw) in Hin.
Qed.

(** A text with an ASCII byte that is no white space is not blank. *)
Lemma TrimSpace_keeps_byte (c : ascii) (s : string) :
  nonASCII c = false -> isSpaceByte c = false ->
  strings.Contains s (String c EmptyString) = true ->
  strings.Contains (strings.TrimSpace s) (String c EmptyString) = true.
Proof.
  intros Hc Hs Hin. unfold isSpaceByte in Hs. rewrite Hc, andb_true_r in Hs.
  unfold strings.TrimSpace, strings.TrimFunc.
  apply TrimRightFunc_keeps_byte; [exact Hc|exact Hs|].
  by apply TrimLeftFunc_keeps_byte.
Qed.

(** A text between two trimmed texts that are not empty, with ASCII where
    it meets them, is left as it is. *)
Lemma TrimSpace_between (a z t t' : string) :
  a <> EmptyString -> z <> EmptyString ->
  strings.TrimSpace a = a -> strings.TrimSpace z = z ->
  startsASCII t = true -> endsIn nonASCII t' = false ->
  a +:+ t = t' +:+ z ->
  strings.TrimSpace (a +:+ t) = a +:+ t.
Proof.
  intros Ha Hz Ea Ez Ht Ht' E. unfold strings.TrimSpace, strings.TrimFunc.
  rewrite TrimLeftFunc_keep_app; [|exact Ha| |exact Ht].
  - rewrite E. apply TrimRightFunc_keep_app; [exact Hz| |exact Ht'].
    destruct (TrimSpace_ends z) as [H|H]; rewrite Ez in H; [done|exact H].
  - destruct (TrimSpace_starts a) as [H|H]; rewrite Ea in H; [done|exact H].
Qed.

(* ===================================================================== *)
(** * Slugs                                                               *)
(* ===================================================================== *)

Lemma isSlugRune_lower (c : ascii) : isSlugRune c = true -> strings.lowerByte c = c.
Proof.
  destruct c as [b0 b1 b2 b3 b4 b5 b6 b7].
  destruct b0, b1, b2, b3, b4, b5, b6, b7; vm_compute; congruence.
Qed.

Lemma isSlugRune_not_space (c : ascii) : isSlugRune c = true -> Ascii.eqb c " " = false.
Proof.
  destruct c as [b0 b1 b2 b3 b4 b5 b6 b7].
  destruct b0, b1, b2, b3, b4, b5, b6, b7; vm_compute; congruence.
Qed.

Lemma keepSlugRunes_safe (s : string) : allSlugRunes (keepSlugRunes s) = true.
Proof.
  induction s as [|c r IH]; [reflexivity|]. cbn [keepSlugRunes].
  destruct (isSlugRune c) eqn:E; [|exact IH].
  cbn [allSlugRunes]. by rewrite E, IH.
Qed.

Lemma slugify_safe (s : string) : allSlugRunes (slugify s) = true.
Proof. apply keepSlugRunes_safe. Qed.

Lemma isSlugRune_ASCII (c : ascii) :
  isSlugRune c = true -> (nat_of_ascii c <? utf8.RuneSelf) = true.
Proof.
  destruct c as [b0 b1 b2 b3 b4 b5 b6 b7].
  destruct b0, b1, b2, b3, b4, b5, b6, b7; vm_compute; congruence.
Qed.

Lemma allSlugRunes_ASCII (s : string) :
  allSlugRunes s = true -> strings.isASCII s = true.
Proof.
  induction s as [|c r IH]; [reflexivity|]. cbn [allSlugRunes strings.isASCII].
  intros [Hc Hr]%andb_prop. by rewrite (isSlugRune_ASCII c Hc), (IH Hr).
Qed.

Lemma slugify_fixed (s : string) : allSlugRunes s = true -> slugify s = s.
Proof.
  intros Hs. rewrite slugify_ASCII by (by apply allSlugRunes_ASCII).
  induction s as [|c r IH]; [reflexivity|]. cbn [allSlugRunes] in Hs.
  apply andb_prop in Hs as [Hc Hr].
  cbn [strings.lowerASCII flatMap].
  rewrite (isSlugRune_lower c Hc), (isSlugRune_not_space c Hc).
  rewrite str_app_cons, str_app_nil_l. cbn [keepSlugRunes].
  by rewrite Hc, (IH Hr).
Qed.

(** X1: [slugify] only ever returns lower-case letters, digits, hyphens and
    underscores, and slugifying a slug changes nothing. *)
Theorem slugify_safe_idempotent (s : string) :
  allSlugRunes (slugify s) = true /\ slugify (slugify s) = slugify s.
Proof. split; [apply slugify_safe|]. apply slugify_fixed, slugify_safe. Qed.

(* ===================================================================== *)
(** * The loop of [parseMetadata]                                         *)
(* ===================================================================== *)

(** In a left fold whose steps either overwrite an observed value or leave
    it alone, the last step that writes decides. *)
Lemma fold_left_last_writer {A B X : Type} (f : A -> B -> A) (obs : A -> X)
  (w : B -> option X) (l : list B) :
  (forall a b, In b l -> obs (f a b) = default (obs a) (w b)) ->
  forall a, obs (fold_left f l a) = default (obs a) (last (omap w l)).
Proof.
  induction l as [|b l IH]; intros Hw a; [reflexivity|].
  cbn [fold_left]. rewrite IH by (intros; apply Hw; by right).
  rewrite Hw by (by left). cbn [omap list_omap].
  destruct (w b) as [x|]; [|reflexivity].
  rewrite last_cons. by destruct (last _).
Qed.

Lemma last_omap_map {B X Y : Type} (w : B -> option X) (g : X -> Y) (l : list B) :
  last (omap (fun b => option_map g (w b)) l) = option_map g (last (omap w l)).
Proof.
  induction l as [|b l IH]; [reflexivity|]. cbn [omap list_omap].
  destruct (w b) as [x|]; cbn [option_map]; [|exact IH].
  rewrite !last_cons, IH. by destruct (last (omap w l)).
Qed.

Lemma fold_left_invariant {A B : Type} (f : A -> B -> A) (P : A -> Prop)
  (l : list B) :
  (forall a b, In b l -> P a -> P (f a b)) ->
  forall a, P a -> P (fold_left f l a).
Proof.
  induction l as [|b l IH]; intros Hf a Ha; [exact Ha|].
  cbn [fold_left]. apply IH.
  - intros a' b' Hin. apply Hf. by right.
  - apply Hf; [by left|exact Ha].
Qed.

Section MetadataFacts.
Context `{Library}.

Lemma parseMetadata_loop (page : Page) :
  parseMetadata page
  = finishMetadata (fold_left parseProperty (notionapi.Properties page)
                              (startMetadata page)).
Proof. reflexivity. Qed.

Lemma finishMetadata_Properties (m : metadata) :
  Properties (finishMetadata m) = Properties m.
Proof.
  unfold finishMetadata. cbn [pathType Properties].
  destruct (String.eqb _ _); [|reflexivity].
  by destruct (Properties m !! "type") as [[]|].
Qed.

Lemma finishMetadata_Title (m : metadata) : Title (finishMetadata m) = Title m.
Proof.
  unfold finishMetadata. cbn [pathType Properties].
  destruct (String.eqb _ _); [|reflexivity].
  by destruct (Properties m !! "type") as [[]|].
Qed.

Lemma finishMetadata_Slug (m : metadata) :
  Slug (finishMetadata m)
  = slugify (if String.eqb (Slug m) EmptyString then Title m else Slug m).
Proof.
  unfold finishMetadata. cbn [pathType Properties].
  destruct (String.eqb (pathType m) _); [|reflexivity].
  by destruct (Properties m !! "type") as [[]|].
Qed.

Lemma finishMetadata_pathType (m : metadata) :
  pathType (finishMetadata m)
  = if String.eqb (pathType m) EmptyString then
      match Properties m !! "type" with
      | Some (VString str) => str
      | _ => EmptyString
      end
    else pathType m.
Proof.
  unfold finishMetadata. cbn [pathType Properties].
  destruct (String.eqb (pathType m) _) eqn:E; [|reflexivity].
  destruct (Properties m !! "type") as [[]|]; cbn [pathType setPathType];
    try reflexivity; by apply String.eqb_eq in E.
Qed.

Lemma parseType_frame (m : metadata) (value key : string) :
  key <> "type" -> Properties (parseType m value) !! key = Properties m !! key.
Proof.
  intros Hk. unfold parseType.
  destruct (strings.Contains value ":").
  - destruct (strings.SplitN value ":" 2) as [|p0 [|p1 [|p2 ps]]];
      cbn [Properties setProperty setPathType]; rewrite ?lookup_insert_ne by done;
      try reflexivity.
    destruct (String.eqb _ "pages");
      cbn [Properties setProperty setPathType]; by rewrite ?lookup_insert_ne by done.
  - destruct (String.eqb _ "post");
      cbn [Properties setProperty setPathType]; by rewrite ?lookup_insert_ne by done.
Qed.

Lemma parseType_Title_Slug (m : metadata) (value : string) :
  Title (parseType m value) = Title m /\ Slug (parseType m value) = Slug m.
Proof.
  unfold parseType.
  destruct (strings.Contains value ":").
  - destruct (strings.SplitN value ":" 2) as [|p0 [|p1 [|p2 ps]]]; try by split.
    by destruct (String.eqb _ "pages").
  - by destruct (String.eqb _ "post").
Qed.

Lemma ToLower_literal_key (k name : string) :
  strings.ToLower name = name -> strings.ToLower k <> name -> k <> name.
Proof. intros Hn Hk ->. by apply Hk. Qed.

(** A turn of the loop writes only the keys its arm names. *)
Lemma parseProperty_frame (m : metadata) (k : string) (prop : Property)
  (key : string) :
  key <> k ->
  (key = "title" ->
   strings.ToLower k <> "title" /\ strings.ToLower k <> "name") ->
  (key = "slug" -> strings.ToLower k <> "slug") ->
  (key = "date" -> strings.ToLower k <> "date") ->
  (key = "type" -> strings.ToLower k <> "type") ->
  (key = "status" \/ key = "draft" -> strings.ToLower k <> "status") ->
  Properties (parseProperty m (k, prop)) !! key = Properties m !! key.
Proof.
  intros Hk Htitle Hslug Hdate Htype Hstatus. unfold parseProperty.
  destruct (String.eqb_spec (strings.ToLower k) "title") as [E|_].
  { cbn [orb]. destruct prop as [[|t ?]| | | | | |]; try reflexivity.
    cbn [Properties setProperty]. rewrite lookup_insert_ne; [reflexivity|].
    intros <-. by destruct (Htitle eq_refl). }
  destruct (String.eqb_spec (strings.ToLower k) "name") as [E|_].
  { cbn [orb]. destruct prop as [[|t ?]| | | | | |]; try reflexivity.
    cbn [Properties setProperty]. rewrite lookup_insert_ne; [reflexivity|].
    intros <-. by destruct (Htitle eq_refl). }
  cbn [orb].
  destruct (String.eqb_spec (strings.ToLower k) "slug") as [E|_].
  { destruct (extractPropertyValue prop) as [[str| |]|]; try reflexivity.
    destruct (negb _); [|reflexivity].
    cbn [Properties setProperty]. rewrite lookup_insert_ne; [reflexivity|].
    intros <-. by apply Hslug. }
  destruct (String.eqb_spec (strings.ToLower k) "date") as [E|_].
  { destruct prop as [| |[start|]| | | |]; try reflexivity.
    cbn [Properties setProperty]. rewrite lookup_insert_ne; [reflexivity|].
    intros <-. by apply Hdate. }
  destruct (String.eqb_spec (strings.ToLower k) "type") as [E|_].
  { destruct (extractPropertyValue prop) as [[str| |]|]; try reflexivity.
    destruct (negb _); [|reflexivity].
    apply parseType_frame. intros ->. by apply Htype. }
  destruct (String.eqb_spec (strings.ToLower k) "status") as [E|_].
  { destruct prop; try reflexivity.
    assert (key <> "status") by (intros ->; apply Hstatus; [by left|done]).
    assert (key <> "draft") by (intros ->; apply Hstatus; [by right|done]).
    destruct (String.eqb _ "draft");
      cbn [Properties setProperty]; by rewrite ?lookup_insert_ne by done. }
  destruct (extractPropertyValue prop); [|reflexivity].
  cbn [Properties setProperty]. by rewrite lookup_insert_ne by done.
Qed.

Lemma parseProperty_date (m : metadata) (entry : string * Property) :
  Properties (parseProperty m entry) !! "date"
  = default (Properties m !! "date")
            (option_map (fun start => Some (VString (time_Format start)))
                        (customDate entry)).
Proof.
  destruct entry as [k prop]. unfold customDate, keyIs. cbn [fst snd].
  destruct (String.eqb_spec (strings.ToLower k) "date") as [E|E].
  - unfold parseProperty. rewrite E. cbn [String.eqb Ascii.eqb Bool.eqb orb].
    destruct prop as [| |[start|]| | | |]; try reflexivity.
    cbn [Properties setProperty option_map default]. by rewrite lookup_insert_eq.
  - rewrite parseProperty_frame; try done.
    + by destruct prop as [| |[start|]| | | |].
    + intros <-. by apply E.
    + intros [?|?]; discriminate.
Qed.

Lemma parseProperty_Title (m : metadata) (entry : string * Property) :
  Title (parseProperty m entry) = default (Title m) (customTitle entry).
Proof.
  destruct entry as [k prop]. unfold customTitle, keyIs, parseProperty.
  cbn [fst snd].
  destruct (String.eqb _ "title" || String.eqb _ "name").
  { by destruct prop as [[|t ?]| | | | | |]. }
  assert (E : default (Title m)
                match prop with
                | TitleProperty (t :: _) => None
                | _ => None
                end = Title m).
  { by destruct prop as [[|t ?]| | | | | |]. }
  rewrite E. clear E.
  destruct (String.eqb _ "slug").
  { destruct (extractPropertyValue prop) as [[str| |]|]; try reflexivity.
    by destruct (negb _). }
  destruct (String.eqb _ "date").
  { by destruct prop as [| |[start|]| | | |]. }
  destruct (String.eqb _ "type").
  { destruct (extractPropertyValue prop) as [[str| |]|]; try reflexivity.
    destruct (negb _); [|reflexivity]. apply parseType_Title_Slug. }
  destruct (String.eqb _ "status").
  { destruct prop; try reflexivity. by destruct (String.eqb _ "draft"). }
  by destruct (extractPropertyValue prop).
Qed.

Lemma parseProperty_Slug (m : metadata) (entry : string * Property) :
  Slug (parseProperty m entry) = default (Slug m) (customSlug entry).
Proof.
  destruct entry as [k prop]. unfold customSlug, keyIs, parseProperty.
  cbn [fst snd].
  destruct (String.eqb_spec (strings.ToLower k) "title") as [E|_].
  { rewrite E. cbn. by destruct prop as [[|t ?]| | | | | |]. }
  destruct (String.eqb_spec (strings.ToLower k) "name") as [E|_].
  { rewrite E. cbn. by destruct prop as [[|t ?]| | | | | |]. }
  cbn [orb].
  destruct (String.eqb (strings.ToLower k) "slug").
  { destruct (extractPropertyValue prop) as [[str| |]|]; try reflexivity.
    by destruct (String.eqb str EmptyString). }
  destruct (String.eqb _ "date").
  { by destruct prop as [| |[start|]| | | |]. }
  destruct (String.eqb _ "type").
  { destruct (extractPropertyValue prop) as [[str| |]|]; try reflexivity.
    destruct (negb _); [|reflexivity]. apply parseType_Title_Slug. }
  destruct (String.eqb _ "status").
  { destruct prop; try reflexivity. by destruct (String.eqb _ "draft"). }
  by destruct (extractPropertyValue prop).
Qed.

Lemma startMetadata_date (page : Page) :
  Properties (startMetadata page) !! "date"
  = if IsZero (CreatedTime page) then None
    else Some (VString (time_Format (CreatedTime page))).
Proof.
  unfold startMetadata.
  destruct (IsZero (CreatedTime page)), (IsZero (LastEditedTime page));
    cbn [negb Properties setProperty];
    rewrite ?lookup_insert_ne by done; rewrite ?lookup_insert_eq; done.
Qed.

(** X2: the ['date'] of the front matter is the start of the custom date
    property visited last (a property filed under ["date"] in any case that
    holds a date); without one it is the creation time of the page, and it
    is absent when that time is the zero time. *)
Theorem date_priority (page : Page) :
  Properties (parseMetadata page) !! "date"
  = match last (omap customDate (notionapi.Properties page)) with
    | Some start => Some (VString (time_Format start))
    | None =>
        if IsZero (CreatedTime page) then None
        else Some (VString (time_Format (CreatedTime page)))
    end.
Proof.
  rewrite parseMetadata_loop, finishMetadata_Properties.
  rewrite (fold_left_last_writer parseProperty (fun m => Properties m !! "date")
             (fun e => option_map (fun start => Some (VString (time_Format start)))
                                  (customDate e))).
  2: { intros a b _. apply parseProperty_date. }
  rewrite startMetadata_date, last_omap_map.
  by destruct (last (omap customDate _)).
Qed.

Lemma last_omap_prop {B X : Type} (w : B -> option X) (P : X -> Prop) (l : list B) :
  (forall b x, In b l -> w b = Some x -> P x) ->
  forall x, last (omap w l) = Some x -> P x.
Proof.
  induction l as [|b l IH]; intros Hw x; [discriminate|].
  assert (Hw' : forall b' x', In b' l -> w b' = Some x' -> P x').
  { intros b' x' Hin. apply Hw. by right. }
  cbn [omap list_omap]. destruct (w b) as [y|] eqn:E; [|by apply IH].
  rewrite last_cons. destruct (last (omap w l)) as [z|].
  - intros [= <-]. by apply IH.
  - intros [= <-]. apply (Hw b); [by left|exact E].
Qed.

Lemma customSlug_ne (entry : string * Property) (s : string) :
  customSlug entry = Some s -> s <> EmptyString.
Proof.
  unfold customSlug. destruct (keyIs "slug" entry); [|discriminate].
  destruct (extractPropertyValue _) as [[str| |]|]; try discriminate.
  destruct (String.eqb_spec str EmptyString); [discriminate|]. by intros [= <-].
Qed.

Lemma startMetadata_fields (page : Page) :
  Title (startMetadata page) = "untitled"
  /\ Slug (startMetadata page) = EmptyString
  /\ pathType (startMetadata page) = EmptyString.
Proof.
  unfold startMetadata.
  by destruct (IsZero (CreatedTime page)), (IsZero (LastEditedTime page)).
Qed.

Lemma parseMetadata_Title (page : Page) :
  Title (parseMetadata page)
  = default "untitled" (last (omap customTitle (notionapi.Properties page))).
Proof.
  rewrite parseMetadata_loop, finishMetadata_Title.
  rewrite (fold_left_last_writer parseProperty Title customTitle).
  2: { intros a b _. apply parseProperty_Title. }
  by rewrite (proj1 (startMetadata_fields page)).
Qed.

Lemma parseMetadata_Slug (page : Page) :
  Slug (parseMetadata page)
  = slugify (match last (omap customSlug (notionapi.Properties page)) with
             | Some s => s
             | None =>
                 default "untitled"
                         (last (omap customTitle (notionapi.Properties page)))
             end).
Proof.
  rewrite parseMetadata_loop, finishMetadata_Slug.
  rewrite (fold_left_last_writer parseProperty Slug customSlug).
  2: { intros a b _. apply parseProperty_Slug. }
  rewrite (fold_left_last_writer parseProperty Title customTitle).
  2: { intros a b _. apply parseProperty_Title. }
  destruct (startMetadata_fields page) as (-> & -> & _).
  destruct (last (omap customSlug _)) as [s|] eqn:E;
    cbn [default from_option id]; [|reflexivity].
  apply (last_omap_prop customSlug (fun s => s <> EmptyString)) in E.
  - by rewrite (str_eqb_nil_false _ E).
  - intros b x _. apply customSlug_ne.
Qed.

(** X3: the slug of a page is the slugified text of the ['slug'] property
    visited last, when one holds a non-empty text; otherwise the slugified
    title, which is the first text of the ['title'] or ['name'] property
    visited last, and ["untitled"] without one. *)
Theorem slug_source (page : Page) :
  Title (parseMetadata page)
  = default "untitled" (last (omap customTitle (notionapi.Properties page)))
  /\ GetPageSlug page
     = slugify (match last (omap customSlug (notionapi.Properties page)) with
                | Some s => s
                | None => Title (parseMetadata page)
                end)
  /\ allSlugRunes (GetPageSlug page) = true.
Proof.
  split; [apply parseMetadata_Title|]. unfold GetPageSlug. split.
  - rewrite parseMetadata_Slug, parseMetadata_Title. reflexivity.
  - rewrite parseMetadata_Slug. apply slugify_safe.
Qed.

(** X4: the site path of a page is ["/"], an optional section and the slug
    followed by ["/"]; the section, when there is one, is a non-empty run of
    lower-case letters, digits, hyphens and underscores, so that no other
    byte of a title or type reaches the path. *)
Theorem GetPagePath_shape (page : Page) :
  exists section_,
    GetPagePath page = "/" +:+ section_ +:+ GetPageSlug page +:+ "/"
    /\ (section_ = EmptyString
        \/ exists t, section_ = t +:+ "/" /\ t <> EmptyString
                     /\ allSlugRunes t = true)
    /\ allSlugRunes (GetPageSlug page) = true.
Proof.
  unfold GetPagePath, GetPageSlug.
  set (m := parseMetadata page).
  assert (Hs : allSlugRunes (Slug m) = true).
  { subst m. rewrite parseMetadata_Slug. apply slugify_safe. }
  destruct (String.eqb_spec (slugify (pathType m)) EmptyString) as [E|E].
  { exists "posts/". split; [reflexivity|]. split; [|exact Hs].
    right. exists "posts". by repeat split. }
  destruct (String.eqb_spec (slugify (pathType m)) "pages") as [E'|E'].
  { exists EmptyString. split; [reflexivity|]. split; [by left|exact Hs]. }
  exists (slugify (pathType m) +:+ "/"). split.
  { by rewrite !str_app_assoc. }
  split; [|exact Hs]. right. exists (slugify (pathType m)).
  split; [reflexivity|]. split; [exact E|apply slugify_safe].
Qed.

Lemma extractPropertyValue_no_flag (prop : Property) (b : bool) :
  extractPropertyValue prop <> Some (VBool b).
Proof. by destruct prop as [[|? ?]|[|? ?]|[?|]| | | |]. Qed.

Lemma parseType_type (m : metadata) (value : string) :
  exists s, Properties (parseType m value) !! "type" = Some (VString s).
Proof.
  unfold parseType.
  destruct (strings.Contains value ":").
  - destruct (strings.SplitN value ":" 2) as [|p0 [|p1 [|p2 ps]]];
      cbn [Properties setProperty setPathType]; rewrite ?lookup_insert_eq; eauto.
    destruct (String.eqb _ "pages");
      cbn [Properties setProperty setPathType]; rewrite ?lookup_insert_eq; eauto.
  - destruct (String.eqb _ "post");
      cbn [Properties setProperty setPathType]; rewrite ?lookup_insert_eq; eauto.
Qed.

(** A turn of the loop stores a boolean only as the draft flag of a draft
    status. *)
Lemma parseProperty_flag (m : metadata) (k : string) (prop : Property)
  (key : string) (b : bool) :
  Properties (parseProperty m (k, prop)) !! key = Some (VBool b) ->
  Properties m !! key = Some (VBool b)
  \/ (b = true /\ key = "draft" /\ isDraftStatus (k, prop) = true).
Proof.
  unfold parseProperty, isDraftStatus, keyIs. cbn [fst snd].
  destruct (String.eqb _ "title" || String.eqb _ "name").
  { destruct prop as [[|t ?]| | | | | |]; try (by left).
    cbn [Properties setProperty].
    destruct (decide (key = "title")) as [->|Hk].
    - by rewrite lookup_insert_eq.
    - rewrite lookup_insert_ne by done. by left. }
  destruct (String.eqb _ "slug").
  { destruct (extractPropertyValue prop) as [[str| |]|]; try (by left).
    destruct (negb _); [|by left]. cbn [Properties setProperty].
    destruct (decide (key = "slug")) as [->|Hk].
    - by rewrite lookup_insert_eq.
    - rewrite lookup_insert_ne by done. by left. }
  destruct (String.eqb _ "date").
  { destruct prop as [| |[start|]| | | |]; try (by left).
    cbn [Properties setProperty].
    destruct (decide (key = "date")) as [->|Hk].
    - by rewrite lookup_insert_eq.
    - rewrite lookup_insert_ne by done. by left. }
  destruct (String.eqb _ "type").
  { destruct (extractPropertyValue prop) as [[str| |]|]; try (by left).
    destruct (negb _); [|by left].
    destruct (decide (key = "type")) as [->|Hk].
    - destruct (parseType_type m str) as [s ->]. discriminate.
    - rewrite parseType_frame by done. by left. }
  destruct (String.eqb _ "status").
  { destruct prop as [| | | | |statusName|]; try (by left).
    cbn [andb].
    destruct (String.eqb (strings.ToLower statusName) "draft");
      cbn [Properties setProperty].
    - destruct (decide (key = "draft")) as [->|Hk].
      + rewrite lookup_insert_eq. intros [= <-]. by right.
      + rewrite lookup_insert_ne by done.
        destruct (decide (key = "status")) as [->|Hk'].
        * by rewrite lookup_insert_eq.
        * rewrite lookup_insert_ne by done. by left.
    - destruct (decide (key = "status")) as [->|Hk'].
      + by rewrite lookup_insert_eq.
      + rewrite lookup_insert_ne by done. by left. }
  destruct (extractPropertyValue prop) as [value|] eqn:E; [|by left].
  cbn [Properties setProperty].
  destruct (decide (key = k)) as [->|Hk].
  - rewrite lookup_insert_eq. intros [= ->].
    by destruct (extractPropertyValue_no_flag prop b).
  - rewrite lookup_insert_ne by done. by left.
Qed.

Lemma parseProperty_draft (m : metadata) (k : string) (prop : Property) :
  k <> "draft" ->
  Properties (parseProperty m (k, prop)) !! "draft"
  = default (Properties m !! "draft")
            (if isDraftStatus (k, prop) then Some (Some (VBool true)) else None).
Proof.
  intros Hk. unfold isDraftStatus, keyIs. cbn [fst snd].
  destruct (String.eqb_spec (strings.ToLower k) "status") as [E|E].
  - unfold parseProperty. rewrite E. cbn [String.eqb Ascii.eqb Bool.eqb orb].
    destruct prop as [| | | | |statusName|]; try reflexivity. cbn [andb].
    destruct (String.eqb (strings.ToLower statusName) "draft");
      cbn [Properties setProperty default].
    + by rewrite lookup_insert_eq.
    + by rewrite lookup_insert_ne.
  - rewrite parseProperty_frame;
      [by destruct prop|by intros <-|discriminate..|by intros _].
Qed.

Lemma last_omap_const {B X : Type} (hit : B -> bool) (x : X) (l : list B) :
  last (omap (fun b => if hit b then Some x else None) l)
  = if existsb hit l then Some x else None.
Proof.
  induction l as [|b l IH]; [reflexivity|]. cbn [omap list_omap existsb].
  destruct (hit b); cbn [orb]; [|exact IH].
  rewrite last_cons, IH. by destruct (existsb hit l).
Qed.

Lemma startMetadata_no_flag (page : Page) (key : string) (b : bool) :
  Properties (startMetadata page) !! key <> Some (VBool b).
Proof.
  unfold startMetadata.
  destruct (IsZero (CreatedTime page)), (IsZero (LastEditedTime page));
    cbn [negb Properties setProperty];
    repeat match goal with
           | |- context [<[?k := _]> _ !! key] =>
               destruct (decide (key = k)) as [->|?];
               [rewrite lookup_insert_eq; discriminate
               |rewrite lookup_insert_ne by done]
           end;
    by rewrite lookup_empty.
Qed.

(** X5: the front matter never holds a boolean [false], so a page that is
    no draft gets no ['draft'] entry at all; the only boolean ever stored is
    [draft: true], and only for a page with a ['status'] property whose name
    is ["draft"] up to case.  Such a page is marked as a draft, unless it
    also has a property whose key is exactly ["draft"]. *)
Theorem draft_flag (page : Page) :
  (forall (key : string) (b : bool),
     Properties (parseMetadata page) !! key = Some (VBool b) ->
     b = true /\ key = "draft"
     /\ existsb isDraftStatus (notionapi.Properties page) = true)
  /\ (existsb isDraftStatus (notionapi.Properties page) = true ->
      existsb (fun e => String.eqb (fst e) "draft") (notionapi.Properties page)
      = false ->
      Properties (parseMetadata page) !! "draft" = Some (VBool true)).
Proof.
  rewrite parseMetadata_loop, finishMetadata_Properties. split.
  - apply (fold_left_invariant parseProperty
             (fun m => forall key b, Properties m !! key = Some (VBool b) ->
                b = true /\ key = "draft"
                /\ existsb isDraftStatus (notionapi.Properties page) = true)).
    + intros m [k prop] Hin IH key b Hb.
      destruct (parseProperty_flag m k prop key b Hb) as [Hold|(-> & -> & Hd)].
      * by apply IH.
      * repeat split. apply existsb_exists. by exists (k, prop).
    + intros key b Hb. by destruct (startMetadata_no_flag page key b).
  - intros Hd Hk.
    rewrite (fold_left_last_writer parseProperty (fun m => Properties m !! "draft")
               (fun e => if isDraftStatus e then Some (Some (VBool true)) else None)).
    + rewrite last_omap_const, Hd. reflexivity.
    + intros m [k prop] Hin. apply parseProperty_draft.
      intros ->. apply not_true_iff_false in Hk. apply Hk.
      apply existsb_exists. by exists ("draft", prop).
Qed.

End MetadataFacts.

Lemma draft_flag_witness :
  let page := mkPage (mkTime 1 0 0) (mkTime 2 0 0)
                [("Name", TitleProperty (Sample.text "Notes"));
                 ("Status", StatusProperty "DRAFT")] in
  existsb isDraftStatus (notionapi.Properties page) = true
  /\ Properties (parseMetadata (H := Sample.library) page) !! "draft"
     = Some (VBool true).
Proof.
  intros page. split; [reflexivity|].
  apply (proj2 (draft_flag (H := Sample.library) page)); reflexivity.
Defined.

Section PostsFacts.
Context `{Library}.

Lemma typeState_post (m : metadata) (value : string) :
  strings.ToLower value = "post" ->
  typeState (parseType m value) = ("posts", Some (VString "posts")).
Proof.
  intros Hv. unfold typeState, parseType.
  assert (Hcolon : strings.Contains value ":" = false).
  { destruct (strings.Contains value ":") eqn:E; [|reflexivity].
    apply ToLower_keeps_colon in E. rewrite Hv in E. discriminate E. }
  rewrite Hcolon, Hv. cbn [String.eqb Ascii.eqb Bool.eqb].
  cbn [pathType Properties setProperty setPathType].
  by rewrite lookup_insert_eq.
Qed.

Lemma typeState_untouched (page : Page) :
  existsb (keyIs "type") (notionapi.Properties page) = false ->
  typeState (fold_left parseProperty (notionapi.Properties page)
                       (startMetadata page))
  = (EmptyString, None).
Proof.
  intros Hno.
  apply (fold_left_invariant parseProperty
           (fun m => typeState m = (EmptyString, None))).
  - intros m [k prop] Hin IH. rewrite parseProperty_other; [exact IH|].
    intros Hk. apply not_true_iff_false in Hno. apply Hno.
    apply existsb_exists. exists (k, prop). split; [exact Hin|].
    unfold keyIs. cbn [fst]. by rewrite Hk.
  - unfold typeState, startMetadata.
    destruct (IsZero (CreatedTime page)), (IsZero (LastEditedTime page));
      cbn [negb pathType Properties setProperty];
      by rewrite ?lookup_insert_ne by done.
Qed.

(** X6: [posts] is the default section.  A page without any ['type']
    property gets no ['type'] entry in its front matter and the path
    ["/posts/{slug}/"]; a page whose ['type'] property is ["post"] in any
    case gets the same path, and its front matter says ["posts"]. *)
Theorem posts_is_default_section (page : Page) :
  (existsb (keyIs "type") (notionapi.Properties page) = false ->
   Properties (parseMetadata page) !! "type" = None
   /\ GetPagePath page = "/posts/" +:+ GetPageSlug page +:+ "/")
  /\ (forall value : string,
        strings.ToLower value = "post" ->
        hasTypeProperty page value ->
        Properties (parseMetadata page) !! "type" = Some (VString "posts")
        /\ GetPagePath page = "/posts/" +:+ GetPageSlug page +:+ "/").
Proof.
  split.
  - intros Hno. pose proof (typeState_untouched page Hno) as E.
    unfold typeState in E. injection E as E1 E2.
    unfold GetPagePath, GetPageSlug.
    rewrite parseMetadata_loop, finishMetadata_Properties, finishMetadata_pathType.
    by rewrite E1, E2.
  - intros value Hv Hp.
    assert (Hne : value <> EmptyString) by (intros ->; discriminate).
    pose proof (parseMetadata_typeState page value "posts" (VString "posts")
                  (fun m => typeState_post m value Hv) Hne ltac:(discriminate) Hp)
      as E.
    unfold typeState in E. injection E as E1 E2. split; [exact E2|].
    unfold GetPagePath, GetPageSlug. by rewrite E1.
Qed.

End PostsFacts.

Lemma posts_is_default_section_witness :
  hasTypeProperty (H := Sample.library) (Sample.page "Post") "Post"
  /\ Properties (parseMetadata (H := Sample.library) (Sample.page "Post")) !! "type"
     = Some (VString "posts")
  /\ GetPagePath (H := Sample.library) (Sample.page "Post") = "/posts/my-friends/".
Proof.
  assert (Hp : hasTypeProperty (H := Sample.library) (Sample.page "Post") "Post").
  { split.
    - exists "Type", (SelectProperty "Post"). split; [|reflexivity].
      right. by left.
    - intros k prop [E|[E|[]]]; injection E as <- <-; [discriminate|reflexivity]. }
  split; [exact Hp|].
  destruct (posts_is_default_section (H := Sample.library) (Sample.page "Post"))
    as [_ P].
  destruct (P "Post" eq_refl Hp) as [F G]. split; [exact F|]. rewrite G. reflexivity.
Defined.

(* ===================================================================== *)
(** * Links to Notion pages                                               *)
(* ===================================================================== *)

Lemma allHex_app (a b : string) :
  regexp.allHex (a +:+ b) = regexp.allHex a && regexp.allHex b.
Proof.
  induction a as [|c a IH]; [reflexivity|].
  rewrite str_app_cons. cbn [regexp.allHex]. by rewrite IH, andb_assoc.
Qed.

Lemma normalizeUUID_app (a b : string) :
  normalizeUUID (a +:+ b) = normalizeUUID a +:+ normalizeUUID b.
Proof. unfold normalizeUUID. by rewrite !ReplaceAll_byte, flatMap_app. Qed.

Lemma ishex_not_dash (c : ascii) : url.ishex c = true -> Ascii.eqb c "-" = false.
Proof.
  destruct c as [b0 b1 b2 b3 b4 b5 b6 b7].
  destruct b0, b1, b2, b3, b4, b5, b6, b7; vm_compute; congruence.
Qed.

Lemma normalizeUUID_hex (s : string) :
  regexp.allHex s = true -> normalizeUUID s = s.
Proof.
  unfold normalizeUUID. rewrite ReplaceAll_byte.
  induction s as [|c r IH]; [reflexivity|]. cbn [regexp.allHex flatMap].
  intros [Hc Hr]%andb_prop. rewrite (ishex_not_dash c Hc), (IH Hr). reflexivity.
Qed.

(** Stripping the hyphens of a grouped identifier leaves the digits of its
    groups. *)
Lemma normalizeUUID_groups (groups : list nat) (s : string) :
  regexp.matchGroups groups s = true ->
  strings.len (normalizeUUID s) = list_sum groups
  /\ regexp.allHex (normalizeUUID s) = true.
Proof.
  revert s. induction groups as [|n gs IH]; intros s.
  - cbn. intros E. by apply String.eqb_eq in E as ->.
  - destruct gs as [|m gs'].
    + cbn [regexp.matchGroups list_sum foldr]. intros [E1 E2]%andb_prop.
      rewrite (normalizeUUID_hex _ E2). apply Nat.eqb_eq in E1. split; [lia|exact E2].
    + change (regexp.matchGroups (n :: m :: gs') s)
        with ((strings.len (strings.take n s) =? n) && regexp.allHex (strings.take n s)
              && strings.HasPrefix (strings.drop n s) "-"
              && regexp.matchGroups (m :: gs') (strings.drop (S n) s)).
      intros E. apply andb_prop in E as [E E4]. apply andb_prop in E as [E E3].
      apply andb_prop in E as [E1 E2]. apply Nat.eqb_eq in E1.
      destruct (IH _ E4) as [IH1 IH2].
      rewrite <- (take_drop n s), normalizeUUID_app, (normalizeUUID_hex _ E2).
      rewrite (HasPrefix_spec _ _ E3). cbn [strings.len String.length].
      rewrite drop_drop. replace (n + 1) with (S n) by lia.
      rewrite (normalizeUUID_app "-").
      change (normalizeUUID "-") with EmptyString. rewrite str_app_nil_l.
      rewrite str_len_app, allHex_app, E1, E2, IH1, IH2.
      split; reflexivity.
Qed.

Lemma normalizeUUID_digits (id : string) :
  isPlainUUID id || isDashedUUID id = true ->
  strings.len (normalizeUUID id) = 32 /\ regexp.allHex (normalizeUUID id) = true.
Proof.
  intros [Hid|Hid]%orb_prop.
  - exact (normalizeUUID_groups [32] id Hid).
  - apply isDashedUUID_spec in Hid as [_ Hm].
    exact (normalizeUUID_groups [8; 4; 4; 4; 12] id Hm).
Qed.

(** What the renderer makes of a link whose identifier the resolver knows. *)
Lemma resolver_hit (raw : string) (parsed : url.URL) (title id : string)
  (f : string -> string) :
  url.Parse raw = Ok parsed ->
  strings.Contains (url.Host parsed) "notion.so" = true ->
  lastPathSegment (url.Path parsed) = title +:+ id ->
  isPlainUUID id || isDashedUUID id = true ->
  f (normalizeUUID id) <> EmptyString ->
  notionURLToHugoLink raw (Some f) = f (normalizeUUID id).
Proof.
  intros Hparse Hhost Hseg Hid Hres. unfold notionURLToHugoLink.
  assert (Hne : url.Host parsed <> EmptyString).
  { intros E. rewrite E in Hhost. discriminate Hhost. }
  destruct (String.eqb_spec raw EmptyString) as [->|_].
  { exfalso. injection Hparse as <-. by apply Hne. }
  rewrite Hparse, (str_eqb_nil_false _ Hne), Hhost. cbn [negb].
  unfold lastPathSegment in Hseg.
  pose proof (splitByte_ne_nil "/" (strings.Trim (url.Path parsed) "/")) as Hsplit.
  rewrite <- Split_byte in Hsplit.
  destruct (strings.Split (strings.Trim (url.Path parsed) "/") "/") as [|seg segs] eqn:Es;
    [done|].
  rewrite Hseg, (extractUUID_spec _ _ Hid).
  assert (Hidne : id <> EmptyString).
  { intros ->. by apply orb_prop in Hid as [Hid|Hid]. }
  rewrite (str_eqb_nil_false _ Hidne).
  fold (normalizeUUID id). by rewrite (str_eqb_nil_false _ Hres).
Qed.

(** X7: a link to a notion.so page whose last path segment ends in an
    identifier is replaced by the path the resolver knows for it.  The
    resolver is asked with the identifier stripped of its hyphens, which is
    32 hexadecimal digits, and whatever stands before the identifier plays
    no part. *)
Theorem notion_link_resolved (raw : string) (parsed : url.URL) (title id : string)
  (f : string -> string) :
  url.Parse raw = Ok parsed ->
  strings.Contains (url.Host parsed) "notion.so" = true ->
  lastPathSegment (url.Path parsed) = title +:+ id ->
  isPlainUUID id || isDashedUUID id = true ->
  f (normalizeUUID id) <> EmptyString ->
  notionURLToHugoLink raw (Some f) = f (normalizeUUID id)
  /\ strings.len (normalizeUUID id) = 32
  /\ regexp.allHex (normalizeUUID id) = true.
Proof.
  intros Hparse Hhost Hseg Hid Hres. split; [|by apply normalizeUUID_digits].
  by eapply resolver_hit.
Qed.

Lemma notion_link_resolved_witness :
  let raw := "https://www.notion.so/ws/Release-Notes-01234567-89ab-cdef-0123-456789abcdef?pvs=4" in
  let f := fun id : string =>
             if String.eqb id "0123456789abcdef0123456789abcdef"
             then "/blog/release-notes/" else EmptyString in
  notionURLToHugoLink raw (Some f) = "/blog/release-notes/".
Proof.
  intros raw f.
  exact (proj1 (notion_link_resolved raw
                  (url.mkURL "https" EmptyString "www.notion.so"
                     "/ws/Release-Notes-01234567-89ab-cdef-0123-456789abcdef" "pvs=4")
                  "Release-Notes-" "01234567-89ab-cdef-0123-456789abcdef" f
                  eq_refl eq_refl eq_refl eq_refl ltac:(discriminate))).
Defined.

Lemma extractUUID_short (segment : string) :
  strings.len segment < 32 -> extractUUID segment = (EmptyString, EmptyString).
Proof.
  intros Hl. unfold extractUUID, regexp.reDashed, regexp.reNoDash, regexp.findAtEnd.
  destruct (Nat.leb_spec 36 (strings.len segment)); [lia|].
  destruct (Nat.leb_spec 32 (strings.len segment)); [lia|reflexivity].
Qed.

(** X8: [notionURLToHugoLink] leaves a link target as it is when the target
    does not parse as a URL, when its host does not contain ["notion.so"],
    and when its last path segment is shorter than an identifier (32
    bytes); the resolver is not consulted in any of these cases. *)
Theorem foreign_link_unchanged (raw : string) (resolve : option (string -> string)) :
  match url.Parse raw with
  | Err _ => True
  | Ok parsed =>
      strings.Contains (url.Host parsed) "notion.so" = false
      \/ strings.len (lastPathSegment (url.Path parsed)) < 32
  end ->
  notionURLToHugoLink raw resolve = raw.
Proof.
  intros Hraw. unfold notionURLToHugoLink.
  destruct (String.eqb raw EmptyString); [reflexivity|].
  destruct (url.Parse raw) as [parsed|e]; [|reflexivity].
  destruct (String.eqb (url.Host parsed) EmptyString); [reflexivity|].
  destruct (strings.Contains (url.Host parsed) "notion.so") eqn:Eh;
    [|reflexivity].
  cbn [negb]. destruct Hraw as [Hraw|Hraw]; [discriminate|].
  unfold lastPathSegment in Hraw.
  destruct (strings.Split _ "/") as [|seg segs]; [reflexivity|].
  by rewrite (extractUUID_short _ Hraw).
Qed.

Lemma foreign_link_unchanged_witness :
  notionURLToHugoLink "https://www.notion.so/help/guides" (Some (fun _ => "/posts/x/"))
  = "https://www.notion.so/help/guides"
  /\ notionURLToHugoLink "https://example.com/0123456789abcdef0123456789abcdef"
                         (Some (fun _ => "/posts/x/"))
     = "https://example.com/0123456789abcdef0123456789abcdef".
Proof.
  split.
  - apply foreign_link_unchanged. right. vm_compute. lia.
  - apply foreign_link_unchanged. left. reflexivity.
Defined.

(* ===================================================================== *)
(** * URLs and their queries                                              *)
(* ===================================================================== *)

Lemma Count_app (a b : string) (c : ascii) :
  strings.Count (a +:+ b) c = strings.Count a c + strings.Count b c.
Proof.
  induction a as [|d a IH]; [reflexivity|].
  rewrite str_app_cons. cbn [strings.Count]. rewrite IH. lia.
Qed.

Lemma Contains_Count (s : string) (c : ascii) :
  strings.Contains s (String c EmptyString) = false -> strings.Count s c = 0.
Proof.
  induction s as [|d r IH]; [reflexivity|]. rewrite Contains_byte_cons.
  intros [Hd Hr]%orb_false_elim. cbn [strings.Count].
  rewrite Ascii.eqb_sym, Hd, (IH Hr). reflexivity.
Qed.

Lemma Cut_none (s sep : string) :
  strings.Contains s sep = false -> strings.Cut s sep = (s, EmptyString, false).
Proof.
  induction s as [|d r IH]; cbn [strings.Contains strings.Cut].
  - by destruct (strings.HasPrefix EmptyString sep).
  - destruct (strings.HasPrefix (String d r) sep); [discriminate|].
    intros Hr. by rewrite (IH Hr).
Qed.

Lemma Cut_byte_app (a b : string) (c : ascii) :
  strings.Contains a (String c EmptyString) = false ->
  strings.Cut (a +:+ String c b) (String c EmptyString) = (a, b, true).
Proof.
  induction a as [|d a IH].
  - intros _. rewrite str_app_nil_l. cbn [strings.Cut strings.HasPrefix].
    by rewrite Ascii.eqb_refl.
  - rewrite Contains_byte_cons. intros [Hd Ha]%orb_false_elim.
    rewrite str_app_cons. cbn [strings.Cut strings.HasPrefix].
    by rewrite Hd, (IH Ha).
Qed.

Lemma HasSuffix_byte (s : string) (c : ascii) :
  strings.HasSuffix s (String c EmptyString) = endsIn (fun d => Ascii.eqb d c) s.
Proof.
  induction s as [|d r IH]; [reflexivity|].
  cbn [strings.HasSuffix endsIn String.eqb].
  destruct r as [|e r'].
  - cbn. by destruct (Ascii.eqb d c).
  - rewrite <- IH. by destruct (Ascii.eqb d c).
Qed.

Lemma endsIn_Count (s : string) (c : ascii) :
  endsIn (fun d => Ascii.eqb d c) s = true -> strings.Count s c <> 0.
Proof.
  induction s as [|d r IH]; [discriminate|]. cbn [endsIn strings.Count].
  destruct r as [|e r'].
  - rewrite Ascii.eqb_sym. intros ->. cbn. lia.
  - intros Hr. specialize (IH Hr). lia.
Qed.

(** The query of [rest ? q], as [parse] cuts it, when [rest] has no question
    mark. *)
Lemma parse_query_cut (rest q : string) :
  strings.Contains rest "?" = false ->
  (if strings.HasSuffix (rest +:+ String "?" q) "?"
      && (strings.Count (rest +:+ String "?" q) "?" =? 1)
   then (strings.take (strings.len (rest +:+ String "?" q) - 1)
                      (rest +:+ String "?" q), EmptyString)
   else let '(before, after, _) := strings.Cut (rest +:+ String "?" q) "?" in
        (before, after))
  = (rest, q).
Proof.
  intros Hrest. rewrite (Cut_byte_app _ _ _ Hrest).
  destruct q as [|c q'].
  - rewrite str_len_app. cbn [strings.len String.length].
    replace (strings.len rest + 1 - 1) with (strings.len rest) by lia.
    rewrite take_app_len. by destruct (_ && _).
  - rewrite HasSuffix_byte, Count_app, (Contains_Count _ _ Hrest).
    rewrite endsIn_app by done.
    change (endsIn (fun d => Ascii.eqb d "?") (String "?" (String c q')))
      with (endsIn (fun d => Ascii.eqb d "?") (String c q')).
    change (strings.Count (String "?" (String c q')) "?")
      with (1 + strings.Count (String c q') "?").
    destruct (endsIn _ (String c q')) eqn:E; [|reflexivity].
    apply endsIn_Count in E.
    destruct (Nat.eqb_spec (0 + (1 + strings.Count (String c q') "?")) 1);
      [lia|reflexivity].
Qed.

Lemma parse_query_none (rest : string) :
  strings.Contains rest "?" = false ->
  (if strings.HasSuffix rest "?" && (strings.Count rest "?" =? 1)
   then (strings.take (strings.len rest - 1) rest, EmptyString)
   else let '(before, after, _) := strings.Cut rest "?" in (before, after))
  = (rest, EmptyString).
Proof.
  intros Hrest. by rewrite (Contains_Count _ _ Hrest), andb_false_r, (Cut_none _ _ Hrest).
Qed.

Lemma stringContainsCTLByte_app (a b : string) :
  url.stringContainsCTLByte (a +:+ b)
  = url.stringContainsCTLByte a || url.stringContainsCTLByte b.
Proof.
  induction a as [|c a IH]; [reflexivity|].
  rewrite str_app_cons. cbn [url.stringContainsCTLByte]. rewrite IH.
  by rewrite !orb_assoc.
Qed.

(** [getScheme] does not look past a question mark. *)
Lemma getSchemeFrom_query (q pre s : string) :
  url.getSchemeFrom (pre +:+ s +:+ String "?" q) (strings.len pre) (s +:+ String "?" q)
  = match url.getSchemeFrom (pre +:+ s) (strings.len pre) s with
    | Ok (scheme, rest) => Ok (scheme, rest +:+ String "?" q)
    | Err e => Err e
    end.
Proof.
  revert pre. induction s as [|c r IH]; intros pre.
  - rewrite !str_app_nil_l, str_app_nil_r. reflexivity.
  - assert (Estep : forall t, pre +:+ String c t = (pre +:+ String c EmptyString) +:+ t).
    { intros t. by rewrite str_app_assoc. }
    assert (Elen : S (strings.len pre) = strings.len (pre +:+ String c EmptyString)).
    { rewrite str_len_app. cbn. lia. }
    assert (Etake : forall t, strings.take (strings.len pre) (pre +:+ String c t) = pre).
    { intros t. apply take_app_len. }
    rewrite str_app_cons. cbn [url.getSchemeFrom].
    rewrite !Etake, (Estep r), (Estep (r +:+ String "?" q)), Elen.
    destruct (url.isAlpha c); [apply IH|].
    destruct (url.isDigit c || Ascii.eqb c "+" || Ascii.eqb c "-" || Ascii.eqb c ".").
    { destruct (strings.len pre); [by rewrite !str_app_assoc|apply IH]. }
    destruct (Ascii.eqb c ":"); [by destruct (strings.len pre)|].
    by rewrite !str_app_assoc.
Qed.

Lemma getScheme_query (base q : string) :
  url.getScheme (base +:+ String "?" q)
  = match url.getScheme base with
    | Ok (scheme, rest) => Ok (scheme, rest +:+ String "?" q)
    | Err e => Err e
    end.
Proof. exact (getSchemeFrom_query q EmptyString base). Qed.

Lemma getSchemeFrom_rest (c : ascii) (raw : string) (s : string) (i : nat)
  (scheme rest : string) :
  strings.Contains raw (String c EmptyString) = false ->
  strings.Contains s (String c EmptyString) = false ->
  url.getSchemeFrom raw i s = Ok (scheme, rest) ->
  strings.Contains rest (String c EmptyString) = false.
Proof.
  intros Hraw. revert i. induction s as [|d r IH]; intros i.
  - intros _ [= _ <-]. exact Hraw.
  - rewrite Contains_byte_cons. intros [_ Hr]%orb_false_elim.
    cbn [url.getSchemeFrom].
    destruct (url.isAlpha d); [by apply IH|].
    destruct (url.isDigit d || Ascii.eqb d "+" || Ascii.eqb d "-" || Ascii.eqb d ".").
    { destruct i; [|by apply IH]. by intros [= _ <-]. }
    destruct (Ascii.eqb d ":").
    { destruct i; [discriminate|]. by intros [= _ <-]. }
    by intros [= _ <-].
Qed.

(** The URL [parsed] with the query [q]. *)
Lemma parse_query (base q : string) :
  strings.Contains base "?" = false ->
  url.stringContainsCTLByte q = false ->
  url.parse (base +:+ String "?" q)
  = match url.parse base with
    | Ok p => Ok (url.mkURL (url.Scheme p) (url.Opaque p) (url.Host p) (url.Path p) q)
    | Err e => Err e
    end.
Proof.
  intros Hbase Hq. unfold url.parse.
  rewrite stringContainsCTLByte_app. cbn [url.stringContainsCTLByte].
  rewrite Hq, orb_false_r.
  change ((nat_of_ascii "?" <? 32) || (nat_of_ascii "?" =? 127) || false) with false.
  rewrite ?orb_false_r.
  destruct (url.stringContainsCTLByte base); [reflexivity|].
  assert (Estar : String.eqb (base +:+ String "?" q) "*" = false).
  { destruct base as [|c [|d base']]; [reflexivity| |];
      rewrite !str_app_cons; cbn [String.eqb]; by destruct (Ascii.eqb c "*"). }
  rewrite Estar, getScheme_query.
  destruct (String.eqb_spec base "*") as [->|_].
  { assert (Eg : url.getScheme "*" = Ok (EmptyString, "*")) by reflexivity.
    rewrite Eg. cbv beta iota.
    rewrite (parse_query_cut "*" q eq_refl). reflexivity. }
  destruct (url.getScheme base) as [[scheme rest]|e] eqn:Es; [|reflexivity].
  assert (Hrest : strings.Contains rest "?" = false).
  { exact (getSchemeFrom_rest "?" base base 0 scheme rest Hbase Hbase Es). }
  rewrite (parse_query_cut rest q Hrest), (parse_query_none rest Hrest).
  destruct (negb (strings.HasPrefix rest "/")
            && negb (String.eqb (strings.ToLower scheme) EmptyString));
    [reflexivity|].
  destruct (negb (strings.HasPrefix rest "/")
            && strings.Contains (fst (fst (strings.Cut rest "/"))) ":");
    [reflexivity|].
  destruct ((negb (String.eqb (strings.ToLower scheme) EmptyString)
             || negb (strings.HasPrefix rest "///"))
            && strings.HasPrefix rest "//").
  - destruct (strings.Cut (strings.drop 2 rest) "/") as [[auth after] found].
    destruct (url.parseAuthority auth); [|reflexivity].
    by destruct (url.unescape _ _).
  - by destruct (url.unescape _ _).
Qed.

(** [url.Parse] reads the scheme, host and path of a URL without looking
    at its query. *)
Lemma Parse_query (base q : string) :
  strings.Contains base "?" = false -> strings.Contains base "#" = false ->
  strings.Contains q "#" = false -> url.stringContainsCTLByte q = false ->
  url.Parse (base +:+ String "?" q)
  = match url.Parse base with
    | Ok p => Ok (url.mkURL (url.Scheme p) (url.Opaque p) (url.Host p) (url.Path p) q)
    | Err e => Err e
    end.
Proof.
  intros Hb Hb' Hq Hq'. unfold url.Parse.
  rewrite (Cut_none base "#" Hb'), (Cut_none (base +:+ String "?" q) "#").
  2: { rewrite Contains_byte_app, Hb', Contains_byte_cons, Hq. reflexivity. }
  rewrite (parse_query base q Hb Hq').
  by destruct (url.parse base).
Qed.

(* ===================================================================== *)
(** * Names and contents of the cache                                     *)
(* ===================================================================== *)

Lemma Ext_dot (path : string) :
  filepath.Ext path = EmptyString \/ strings.HasPrefix (filepath.Ext path) "." = true.
Proof.
  induction path as [|c r IH]; [by left|]. cbn [filepath.Ext].
  destruct (filepath.Ext r) as [|e es] eqn:E.
  - destruct (Ascii.eqb_spec c ".") as [->|]; [|by left].
    destruct (negb _); [by right|by left].
  - destruct IH as [IH|IH]; [discriminate|by right].
Qed.

Lemma extractExtension_dot (u : string) :
  strings.HasPrefix (extractExtension u) "." = true.
Proof.
  unfold extractExtension. destruct (url.Parse u) as [parsed|e]; [|reflexivity].
  destruct (String.eqb_spec (filepath.Ext (url.Path parsed)) EmptyString) as [E|E].
  - by repeat destruct (strings.Contains u _).
  - by destruct (Ext_dot (url.Path parsed)).
Qed.

Section CacheFacts.
Context `{Library} {W : Type} `{Platform W}.

(** X9: whatever query signs a file URL, the identifier the cache hashes is
    that of the URL without its query; when the path of the URL ends in a
    file extension, the file name in the cache is the same as well, so a
    URL that is signed again finds the file cached under its first
    signature. *)
Theorem file_identifier_ignores_query (base q : string) (p : url.URL) :
  strings.Contains base "?" = false -> strings.Contains base "#" = false ->
  strings.Contains q "#" = false -> url.stringContainsCTLByte q = false ->
  url.Parse base = Ok p ->
  extractFileIdentifier (base +:+ "?" +:+ q) = extractFileIdentifier base
  /\ (filepath.Ext (url.Path p) <> EmptyString ->
      generateFilename (base +:+ "?" +:+ q) = generateFilename base).
Proof.
  intros Hb Hb' Hq Hq' Hp.
  change (base +:+ "?" +:+ q) with (base +:+ String "?" q).
  pose proof (Parse_query base q Hb Hb' Hq Hq') as E. rewrite Hp in E.
  split.
  - unfold extractFileIdentifier. by rewrite E, Hp.
  - intros Hext. by apply (generateFilename_with_extension _ _ _ _ E Hp).
Qed.

(** X10: when the file is already in the directory of the article,
    [CacheFile] answers with its relative path, ["./"] and the name (eight
    digits of the digest and an extension that starts with a dot), after
    making the directory and looking for the file; nothing is downloaded
    and nothing written. *)
Theorem CacheFile_hit (fc : FileCache) (u articlePath : string) (w w1 w2 : W) :
  let dir := filepath_Join [basePath fc; filepath_Dir articlePath] in
  let name := strings.take 8 (sha256_hex (extractFileIdentifier u))
              +:+ extractExtension u in
  os_MkdirAll dir w = (None, w1) ->
  os_Stat (filepath_Join [dir; name]) w1 = (true, w2) ->
  CacheFile fc u articlePath w = (Ok ("./" +:+ name), w2)
  /\ strings.HasPrefix (extractExtension u) "." = true.
Proof.
  intros dir name Hm Hs. split; [|apply extractExtension_dot].
  unfold CacheFile, generateFilename. fold dir. rewrite run_bind, Hm.
  cbn [fst snd]. fold name. by rewrite run_bind, Hs.
Qed.

(** X11: when the file is not yet there, [CacheFile] downloads it: a
    response with status 200 is written to the file and the relative path
    returned; any other status is an error, raised before the file is
    created, and so is a failing request. *)
Theorem CacheFile_miss (fc : FileCache) (u articlePath : string) (w w1 w2 w3 : W)
  (answer : result Response) :
  let dir := filepath_Join [basePath fc; filepath_Dir articlePath] in
  let name := strings.take 8 (sha256_hex (extractFileIdentifier u))
              +:+ extractExtension u in
  let localPath := filepath_Join [dir; name] in
  os_MkdirAll dir w = (None, w1) ->
  os_Stat localPath w1 = (false, w2) ->
  http_Get u w2 = (answer, w3) ->
  match answer with
  | Ok resp =>
      if StatusCode resp =? 200 then
        forall w4 w5,
          os_Create localPath w3 = (None, w4) ->
          io_Copy localPath (Body resp) w4 = (None, w5) ->
          CacheFile fc u articlePath w = (Ok ("./" +:+ name), w5)
      else
        CacheFile fc u articlePath w
        = (Err ("failed to download file: HTTP " +:+ itoa (StatusCode resp)
                +:+ " when fetching " +:+ u), w3)
  | Err e =>
      CacheFile fc u articlePath w
      = (Err ("failed to download file: failed to fetch URL " +:+ u +:+ ": " +:+ e),
         w3)
  end.
Proof.
  intros dir name localPath Hm Hs Hg.
  assert (E : CacheFile fc u articlePath w
              = (let '(failed, w') := downloadFile u localPath w2 in
                 match failed with
                 | Some err => (Err ("failed to download file: " +:+ err), w')
                 | None => (Ok ("./" +:+ name), w')
                 end)).
  { unfold CacheFile, generateFilename. fold dir. rewrite run_bind, Hm.
    cbn [fst snd]. fold name. fold localPath. rewrite run_bind, Hs.
    cbn [fst snd]. rewrite run_bind.
    by destruct (downloadFile u localPath w2) as [[err|] w']. }
  rewrite E. clear E. unfold downloadFile. rewrite run_bind, Hg. cbn [fst snd].
  destruct answer as [resp|e]; [|reflexivity].
  destruct (StatusCode resp =? 200); cbn [negb]; [|reflexivity].
  intros w4 w5 Hc Hw. rewrite run_bind, Hc. cbn [fst snd].
  by rewrite run_bind, Hw.
Qed.

End CacheFacts.

Lemma file_identifier_ignores_query_witness :
  let base := "https://s3.us-west-2.amazonaws.com/bucket/abc123/photo.png" in
  generateFilename (H := Sample.library) (base +:+ "?" +:+ "X-Amz-Signature=0a1b")
  = generateFilename (H := Sample.library) base.
Proof.
  intros base.
  exact (proj2 (file_identifier_ignores_query (H := Sample.library) base
                  "X-Amz-Signature=0a1b"
                  (url.mkURL "https" EmptyString "s3.us-west-2.amazonaws.com"
                             "/bucket/abc123/photo.png" EmptyString)
                  eq_refl eq_refl eq_refl eq_refl eq_refl)
               ltac:(discriminate)).
Defined.

Lemma CacheFile_hit_witness :
  CacheFile (H := Sample.library) (H0 := Recorded.machine true 200)
    (NewFileCache "content") "https://example.com/a/photo.png?sig=1"
    "posts/x/index.md" []
  = (Ok "./9f86d081.png",
     ["mkdir content/posts/x"; "stat content/posts/x/9f86d081.png"]).
Proof.
  exact (proj1 (CacheFile_hit (H := Sample.library) (H0 := Recorded.machine true 200)
                  (NewFileCache "content") "https://example.com/a/photo.png?sig=1"
                  "posts/x/index.md" [] _ _ eq_refl eq_refl)).
Defined.

Lemma CacheFile_miss_witness :
  CacheFile (H := Sample.library) (H0 := Recorded.machine false 200)
    (NewFileCache "content") "https://example.com/a/photo.png?sig=1"
    "posts/x/index.md" []
  = (Ok "./9f86d081.png",
     ["mkdir content/posts/x"; "stat content/posts/x/9f86d081.png";
      "get https://example.com/a/photo.png?sig=1";
      "create content/posts/x/9f86d081.png";
      "copy bytes to content/posts/x/9f86d081.png"])
  /\ CacheFile (H := Sample.library) (H0 := Recorded.machine false 404)
       (NewFileCache "content") "https://example.com/a/photo.png?sig=1"
       "posts/x/index.md" []
     = (Err "failed to download file: HTTP 404 when fetching https://example.com/a/photo.png?sig=1",
        ["mkdir content/posts/x"; "stat content/posts/x/9f86d081.png";
         "get https://example.com/a/photo.png?sig=1"]).
Proof.
  split.
  - exact (CacheFile_miss (H := Sample.library) (H0 := Recorded.machine false 200)
             (NewFileCache "content") "https://example.com/a/photo.png?sig=1"
             "posts/x/index.md" [] _ _ _ _ eq_refl eq_refl eq_refl _ _ eq_refl eq_refl).
  - exact (CacheFile_miss (H := Sample.library) (H0 := Recorded.machine false 404)
             (NewFileCache "content") "https://example.com/a/photo.png?sig=1"
             "posts/x/index.md" [] _ _ _ _ eq_refl eq_refl eq_refl).
Defined.

(* ===================================================================== *)
(** * Labels of bare URLs                                                 *)
(* ===================================================================== *)

Lemma len_take_le (n : nat) (s : string) : strings.len (strings.take n s) <= n.
Proof.
  revert s. induction n as [|n IH]; intros [|c s]; cbn; try lia.
  specialize (IH s). unfold strings.len in IH. lia.
Qed.

(** X12: the label [shortenURLLabel] makes for a bare URL is never longer
    than 43 bytes: 40, and three more for the dots that follow a host and
    first path segment of up to 40 bytes; that length is reached. *)
Theorem shortenURLLabel_bound :
  (forall raw : string, strings.len (shortenURLLabel raw) <= 43)
  /\ strings.len
       (shortenURLLabel
          "https://example.com/aaaaaaaaaaaaaaaaaaaaaaaaaaaa/bbbbbbbbbbbbbbbbbbbbbbb")
     = 43.
Proof.
  split; [|reflexivity]. intros raw. unfold shortenURLLabel.
  destruct (String.eqb raw EmptyString); [cbn; lia|]. cbv zeta.
  change (40 - 3) with 37. change (40 - 10) with 30.
  set (fallback := if strings.len raw <=? 40 then raw
                   else strings.take 37 raw +:+ "...").
  assert (Hf : strings.len fallback <= 40).
  { subst fallback. destruct (Nat.leb_spec (strings.len raw) 40); [lia|].
    rewrite str_len_app. pose proof (len_take_le 37 raw).
    change (strings.len "...") with 3. lia. }
  clearbody fallback.
  destruct (url.Parse raw) as [u|e]; [|lia].
  destruct (String.eqb (url.Scheme u) EmptyString); [lia|].
  set (hostAndPath := if negb (String.eqb (url.Host u) EmptyString) then _
                      else fallback).
  assert (Hh : strings.len hostAndPath <= 43).
  { subst hostAndPath. destruct (negb _); [|lia].
    set (cleanURL := if negb (String.eqb (url.RawQuery u) EmptyString) then _ else _).
    destruct (Nat.leb_spec (strings.len cleanURL) 40); [lia|].
    destruct ((0 <? length _) && _ && (strings.len _ <=? 40)) eqn:Ec.
    - apply andb_prop in Ec as [_ Ec]. apply Nat.leb_le in Ec.
      rewrite str_len_app. change (strings.len "...") with 3. lia.
    - destruct (Nat.leb_spec (strings.len (url.Host u)) 37); [|lia].
      rewrite str_len_app. change (strings.len "...") with 3. lia. }
  clearbody hostAndPath.
  set (filename := filepath.Base (url.Path u)). clearbody filename.
  destruct (negb (String.eqb filename ".") && negb (String.eqb filename "/")
            && strings.Contains filename "."); [|exact Hh].
  destruct (_ && _ && (_ + _ + 5 <=? 40)) eqn:Ec.
  { apply andb_prop in Ec as [_ Ec]. apply Nat.leb_le in Ec.
    rewrite !str_len_app. change (strings.len "/.../") with 5. lia. }
  destruct (Nat.leb_spec (strings.len filename) 40); [lia|].
  destruct (37 <? strings.len filename); [|exact Hh].
  destruct (_ && _ && _ && _) eqn:Ee.
  - apply andb_prop in Ee as [Ee _]. apply andb_prop in Ee as [Ee _].
    apply andb_prop in Ee as [Ee _]. apply Nat.leb_le in Ee.
    rewrite !str_len_app.
    pose proof (len_take_le (40 - strings.len (filepath.Ext filename) - 3)
                  (strings.take (strings.len filename
                                 - strings.len (filepath.Ext filename)) filename)).
    change (strings.len "...") with 3. lia.
  - rewrite str_len_app. pose proof (len_take_le 37 filename).
    change (strings.len "...") with 3. lia.
Qed.

(* ===================================================================== *)
(** * Indentation of children                                             *)
(* ===================================================================== *)

Lemma Join_cons (l : string) (ls : list string) (sep : string) :
  ls <> [] -> strings.Join (l :: ls) sep = l +:+ sep +:+ strings.Join ls sep.
Proof. by destruct ls. Qed.

(** Joining the pieces of a split gives the text back. *)
Lemma Join_splitByte (c : ascii) (s : string) :
  strings.Join (splitByte c s) (String c EmptyString) = s.
Proof.
  induction s as [|d r IH]; [reflexivity|]. cbn [splitByte].
  pose proof (splitByte_ne_nil c r) as Hne.
  destruct (Ascii.eqb_spec d c) as [->|Hd].
  - rewrite Join_cons by done. by rewrite IH.
  - destruct (splitByte c r) as [|p ps]; [done|].
    destruct ps as [|q qs].
    + cbn [strings.Join] in *. by rewrite IH.
    + rewrite Join_cons by done. rewrite Join_cons in IH by done.
      by rewrite str_app_cons, IH.
Qed.

Lemma splitByte_no_sep (c : ascii) (s : string) :
  Forall (fun l => strings.Contains l (String c EmptyString) = false) (splitByte c s).
Proof.
  induction s as [|d r IH]; [by repeat constructor|]. cbn [splitByte].
  destruct (Ascii.eqb d c) eqn:Ed; [by constructor|].
  destruct (splitByte c r) as [|p ps].
  - repeat constructor. by rewrite Contains_byte_cons, Ed.
  - inversion IH as [|? ? Hp Hps]; subst. constructor; [|exact Hps].
    by rewrite Contains_byte_cons, Ed.
Qed.

Lemma splitByte_whole (c : ascii) (a : string) :
  strings.Contains a (String c EmptyString) = false -> splitByte c a = [a].
Proof.
  induction a as [|d a IH]; [reflexivity|]. rewrite Contains_byte_cons.
  intros [Hd Ha]%orb_false_elim. cbn [splitByte]. by rewrite Hd, (IH Ha).
Qed.

Lemma splitByte_app (c : ascii) (a b : string) :
  strings.Contains a (String c EmptyString) = false ->
  splitByte c (a +:+ String c b) = a :: splitByte c b.
Proof.
  induction a as [|d a IH].
  - intros _. rewrite str_app_nil_l. cbn [splitByte]. by rewrite Ascii.eqb_refl.
  - rewrite Contains_byte_cons. intros [Hd Ha]%orb_false_elim.
    rewrite str_app_cons. cbn [splitByte]. by rewrite Hd, (IH Ha).
Qed.

(** Splitting a text joined from pieces that are free of the separator
    gives the pieces back. *)
Lemma splitByte_Join (c : ascii) (ls : list string) :
  ls <> [] ->
  Forall (fun l => strings.Contains l (String c EmptyString) = false) ls ->
  splitByte c (strings.Join ls (String c EmptyString)) = ls.
Proof.
  induction ls as [|l ls IH]; [done|]. intros _ Hls.
  inversion Hls as [|? ? Hl Hls']; subst.
  destruct ls as [|l' ls']; [by apply splitByte_whole|].
  rewrite Join_cons by done.
  change (String c EmptyString +:+ strings.Join (l' :: ls') (String c EmptyString))
    with (String c (strings.Join (l' :: ls') (String c EmptyString))).
  rewrite (splitByte_app _ _ _ Hl), IH; done.
Qed.

Lemma childIndent_isListLike (parent : Block) :
  childIndent parent = if isListLike parent then "    " else EmptyString.
Proof. by destruct parent. Qed.

Lemma indentedFragment_plain (parent : Block) (cstr : string) :
  isListLike parent = false ->
  indentedFragment parent cstr = strings.TrimRight cstr LF.
Proof.
  intros Hp. unfold indentedFragment. rewrite childIndent_isListLike, Hp.
  change LF with (String "010"%char EmptyString). rewrite Split_byte.
  rewrite <- (Join_splitByte "010" (strings.TrimRight cstr _)) at 2.
  f_equal. rewrite <- (map_id (splitByte _ _)) at 2.
  apply map_ext. intros l. by destruct (String.eqb _ _).
Qed.

(** X13: a parent that is no list item hands the fragments of its children
    on as they are: without indentation, and with only the newlines at
    their end removed, of which a fragment that [renderBlock] returned has
    none. *)
Theorem children_pass_through (parent : Block) (cstr : string) :
  isListLike parent = false ->
  indentedFragment parent cstr = strings.TrimRight cstr LF
  /\ (endsIn (Ascii.eqb "010") cstr = false -> indentedFragment parent cstr = cstr).
Proof.
  intros Hp. split; [by apply indentedFragment_plain|].
  intros Hend. rewrite (indentedFragment_plain _ _ Hp). apply trimRightBy_id.
  by rewrite <- endsIn_LF.
Qed.

Lemma children_pass_through_witness :
  let parent := ToggleBlock (Sample.node "t") (Sample.text "more") in
  let cstr := "- a" +:+ LF +:+ "    - b" in
  indentedFragment parent cstr = cstr.
Proof.
  intros parent cstr.
  exact (proj2 (children_pass_through parent cstr eq_refl) eq_refl).
Defined.

(** X14: [dedentChildContent] takes back the indentation a list item gives
    to its children: dedenting the indented fragment of a child gives the
    fragment without the newlines at its end, provided no blank line of it
    starts with four spaces (blank lines are not indented, but dedented). *)
Theorem dedent_undoes_indent (parent : Block) (cstr : string) :
  isListLike parent = true ->
  forallb (fun l => negb (String.eqb (strings.TrimSpace l) EmptyString
                          && strings.HasPrefix l "    "))
          (strings.Split (strings.TrimRight cstr LF) LF) = true ->
  dedentChildContent (indentedFragment parent cstr) = strings.TrimRight cstr LF.
Proof.
  intros Hp Hblank. unfold indentedFragment, dedentChildContent.
  rewrite childIndent_isListLike, Hp.
  change LF with (String "010"%char EmptyString) in *. rewrite !Split_byte in *.
  set (s := strings.TrimRight cstr _) in *.
  set (f := fun l : string => if String.eqb (strings.TrimSpace l) EmptyString then l
                              else "    " +:+ l).
  set (g := fun l : string => if strings.HasPrefix l "    "
                              then strings.TrimPrefix l "    " else l).
  assert (Hsplit : splitByte "010" (strings.Join (map f (splitByte "010" s))
                                                 (String "010"%char EmptyString))
                   = map f (splitByte "010" s)).
  { apply splitByte_Join.
    - intros E. apply map_eq_nil in E. by apply (splitByte_ne_nil "010" s).
    - apply List.Forall_map. eapply List.Forall_impl; [|apply splitByte_no_sep].
      intros l Hl. subst f. cbv beta. destruct (String.eqb _ _); [exact Hl|].
      by rewrite Contains_byte_app, Hl. }
  assert (Hmap : map g (map f (splitByte "010" s)) = splitByte "010" s).
  { rewrite map_map. rewrite <- (map_id (splitByte _ _)) at 2.
    apply map_ext_in. intros l Hin.
    rewrite forallb_forall in Hblank. specialize (Hblank l Hin).
    subst f g. cbv beta.
    destruct (String.eqb (strings.TrimSpace l) EmptyString).
    - cbn [andb negb] in Hblank. apply negb_true_iff in Hblank. by rewrite Hblank.
    - reflexivity. }
  assert (E : strings.Join (map g (splitByte "010"
                (strings.Join (map f (splitByte "010" s)) (String "010"%char EmptyString))))
                (String "010"%char EmptyString) = s).
  { by rewrite Hsplit, Hmap, Join_splitByte. }
  destruct (String.eqb_spec (strings.Join (map f (splitByte "010" s))
                                          (String "010"%char EmptyString))
                            EmptyString) as [E0|_]; [|exact E].
  rewrite E0 in E. rewrite E0. exact E.
Qed.

Lemma dedent_undoes_indent_witness :
  let parent := BulletedListItemBlock (Sample.node "list") (Sample.text "item") in
  let cstr := "first" +:+ LF +:+ LF +:+ "    code" +:+ LF in
  indentedFragment parent cstr = "    first" +:+ LF +:+ LF +:+ "        code"
  /\ dedentChildContent (indentedFragment parent cstr)
     = "first" +:+ LF +:+ LF +:+ "    code".
Proof.
  intros parent cstr. split; [reflexivity|].
  exact (dedent_undoes_indent parent cstr eq_refl eq_refl).
Defined.

(* ===================================================================== *)
(** * The default templates                                               *)
(* ===================================================================== *)

(** Text without the first byte of [old] is copied by a replacement. *)
Lemma replaceFrom_free (old new s t : string) (c : ascii) (olds : string) :
  old = String c olds ->
  strings.Contains s (String c EmptyString) = false ->
  strings.replaceFrom old new 0 (s +:+ t) = s +:+ strings.replaceFrom old new 0 t.
Proof.
  intros -> Hs. induction s as [|d s IH]; [reflexivity|].
  rewrite Contains_byte_cons in Hs. apply orb_false_elim in Hs as [Hd Hs].
  rewrite !str_app_cons. cbn [strings.replaceFrom strings.HasPrefix].
  by rewrite Hd, (IH Hs).
Qed.

Section TemplateFacts.
Context {W : Type} `{Platform W}.

Lemma renderTemplate_single (template k v : string) (w : W) :
  fst (renderTemplate template [(k, v)] w)
  = strings.ReplaceAll template ("{{." +:+ k +:+ "}}") v.
Proof.
  unfold renderTemplate. rewrite run_bind, run_ret. cbn [fst].
  pose proof (map_range_perm [(k, v)] w) as Hp.
  apply Permutation_sym, Permutation_length_1_inv in Hp. by rewrite Hp.
Qed.

Lemma renderTemplate_pair (template k1 v1 k2 v2 out : string) (w : W) :
  renderTemplateIn template [(k1, v1); (k2, v2)] = out ->
  renderTemplateIn template [(k2, v2); (k1, v1)] = out ->
  fst (renderTemplate template [(k1, v1); (k2, v2)] w) = out.
Proof.
  intros E1 E2. unfold renderTemplate. rewrite run_bind, run_ret. cbn [fst].
  pose proof (map_range_perm [(k1, v1); (k2, v2)] w) as Hp.
  apply Permutation_sym, Permutation_length_2_inv in Hp as [Hp|Hp]; by rewrite Hp.
Qed.

(** X15: what the templates of the default configuration produce does not
    depend on the order in which the placeholders are visited.  An
    equation and the text of a callout are inserted as they are, whatever
    they contain; the link of a file, the shortcodes of a PDF, a video and
    an embed, and the details of a toggle are as written below when the
    values put in contain no opening brace. *)
Theorem default_templates (w : W) :
  (forall expression : string,
     fst (renderTemplate (MathTemplate DefaultRenderConfig)
            [("Expression", expression)] w)
     = "{{< math >}}" +:+ LF +:+ "$$" +:+ LF +:+ expression +:+ LF +:+ "$$" +:+ LF
       +:+ "{{< /math >}}")
  /\ (forall content : string,
        fst (renderTemplate (CalloutTemplate DefaultRenderConfig)
               [("Content", content)] w)
        = "> " +:+ content)
  /\ (forall url text : string,
        strings.Contains url "{" = false -> strings.Contains text "{" = false ->
        fst (renderTemplate (FileTemplate DefaultRenderConfig)
               [("URL", url); ("Text", text)] w)
        = "[" +:+ text +:+ "](" +:+ url +:+ ")"
        /\ fst (renderTemplate (PDFTemplate DefaultRenderConfig)
                  [("URL", url); ("Text", text)] w)
           = "{{< pdf src=" +:+ DQ +:+ url +:+ DQ +:+ " >}}"
        /\ fst (renderTemplate (VideoTemplate DefaultRenderConfig)
                  [("URL", url); ("Text", text)] w)
           = "{{< video src=" +:+ DQ +:+ url +:+ DQ +:+ " >}}"
        /\ fst (renderTemplate (EmbedTemplate DefaultRenderConfig)
                  [("URL", url); ("Text", text)] w)
           = "{{< embed url=" +:+ DQ +:+ url +:+ DQ +:+ " >}}")
  /\ (forall summary content : string,
        strings.Contains summary "{" = false ->
        strings.Contains content "{" = false ->
        fst (renderTemplate (DetailsTemplate DefaultRenderConfig)
               [("Summary", summary); ("Content", content)] w)
        = "{{< details summary=" +:+ DQ +:+ summary +:+ DQ +:+ ">}}" +:+ LF
          +:+ content +:+ LF +:+ "{{< /details >}}").
Proof.
  split; [|split; [|split]].
  - intros expression. rewrite renderTemplate_single. reflexivity.
  - intros content. rewrite renderTemplate_single. cbn. by rewrite str_app_nil_r.
  - intros url text Hu Ht.
    repeat split; apply renderTemplate_pair; unfold renderTemplateIn; cbn;
      rewrite ?(replaceFrom_free _ _ _ _ "{" _ eq_refl Hu),
              ?(replaceFrom_free _ _ _ _ "{" _ eq_refl Ht);
      reflexivity.
  - intros summary content Hs Hc.
    apply renderTemplate_pair; unfold renderTemplateIn; cbn;
      rewrite ?(replaceFrom_free _ _ _ _ "{" _ eq_refl Hs),
              ?(replaceFrom_free _ _ _ _ "{" _ eq_refl Hc);
      reflexivity.
Qed.

End TemplateFacts.

Lemma default_templates_witness :
  fst (renderTemplate (H := Recorded.machine false 200)
         (FileTemplate DefaultRenderConfig)
         [("URL", "./9f86d081.pdf"); ("Text", "Annual report")] [])
  = "[Annual report](./9f86d081.pdf)".
Proof.
  destruct (default_templates (H := Recorded.machine false 200) [])
    as (_ & _ & Hmedia & _).
  exact (proj1 (Hmedia "./9f86d081.pdf" "Annual report" eq_refl eq_refl)).
Defined.

(* ===================================================================== *)
(** * Runs of spans                                                       *)
(* ===================================================================== *)

(** X16: the spans of a rich text are rendered one by one and put side by
    side with nothing in between, so that rendering distributes over
    concatenation; spans without link and annotation give their plain text
    unchanged, with no byte of it escaped. *)
Theorem richText_concatenation (resolve : option (string -> string)) :
  (forall a b : list RichText,
     richTextArrToMarkdown (a ++ b) resolve
     = richTextArrToMarkdown a resolve +:+ richTextArrToMarkdown b resolve)
  /\ (forall arr : list RichText,
        forallb isPlainSpan arr = true ->
        richTextArrToMarkdown arr resolve = concatAll (map PlainText arr)).
Proof.
  split.
  - intros a b. unfold richTextArrToMarkdown at 1.
    rewrite fold_left_app, richTextArr_fold.
    fold (richTextArrToMarkdown a resolve). reflexivity.
  - induction arr as [|t arr IH]; [reflexivity|].
    cbn [forallb]. intros [Ht Harr]%andb_prop.
    rewrite richTextArr_cons, (IH Harr). cbn [map concatAll foldr]. f_equal.
    unfold isPlainSpan in Ht. apply andb_prop in Ht as [Hh Ha].
    apply negb_true_iff in Ha.
    repeat (apply orb_false_elim in Ha as [Ha ?]).
    unfold richTextSpan. rewrite Hh. cbn [negb].
    by repeat match goal with E : _ = false |- _ => rewrite E; clear E end.
Qed.

Lemma richText_concatenation_witness :
  richTextArrToMarkdown
    [mkRichText "a [b] " EmptyString Sample.plain;
     mkRichText "*c*" EmptyString Sample.plain] None
  = "a [b] *c*".
Proof.
  exact (proj2 (richText_concatenation None)
               [mkRichText "a [b] " EmptyString Sample.plain;
                mkRichText "*c*" EmptyString Sample.plain] eq_refl).
Defined.

(* ===================================================================== *)
(** * Pages that need no fetching                                         *)
(* ===================================================================== *)

Section FlatFacts.
Context `{Library} {W : Type} `{Platform W}.

Lemma renderBlock_no_callback (r : Renderer) (resolver : option (string -> string))
  (articlePath : string) (fuel : nat) (block : Block) (st : Traced W) :
  renderBlock r None resolver articlePath (S fuel) block st
  = let out := blockToMarkdownWithCache block EmptyString resolver (fileCache r)
                 articlePath (config r) (fst st) in
    (Returns (strings.TrimRight (fst (fst out)) LF, snd (fst out), None),
     (snd out, snd st)).
Proof.
  cbn [renderBlock]. destruct (getBlockIDAndHasChildren block) as [id has].
  rewrite run_bind, run_ret. cbn [fst snd]. rewrite run_bind, run_liftW.
  cbn [fst snd].
  by destruct (blockToMarkdownWithCache _ _ _ _ _ _ _) as [[s isList] w'].
Qed.

Lemma renderFragments_flat (r : Renderer)
  (gc : option (BlockID -> M W (result (list Block))))
  (resolver : option (string -> string)) (articlePath : string) (fuel : nat)
  (blocks : list Block) :
  neverFetches gc blocks = true ->
  forall st : Traced W,
    renderFragments (renderBlock r gc resolver articlePath (S fuel)) blocks st
    = (Returns (fst (flatFragments r resolver articlePath blocks (fst st)), None),
       (snd (flatFragments r resolver articlePath blocks (fst st)), snd st)).
Proof.
  induction blocks as [|block rest IH]; intros Hflat st.
  - cbn [renderFragments flatFragments fst snd]. rewrite run_ret. by destruct st.
  - assert (Hrest : neverFetches gc rest = true).
    { destruct gc; [|reflexivity]. cbn [neverFetches forallb] in *.
      by apply andb_prop in Hflat as [_ Hflat]. }
    assert (E : renderBlock r gc resolver articlePath (S fuel) block st
                = let out := blockToMarkdownWithCache block EmptyString resolver
                               (fileCache r) articlePath (config r) (fst st) in
                  (Returns (strings.TrimRight (fst (fst out)) LF, snd (fst out), None),
                   (snd out, snd st))).
    { destruct gc as [callback|]; [|apply renderBlock_no_callback].
      apply renderBlock_unfetched. cbn [neverFetches forallb] in Hflat.
      apply andb_prop in Hflat as [Hb _]. by apply negb_true_iff in Hb. }
    cbn [renderFragments flatFragments]. rewrite run_bind, E. cbv zeta.
    cbn [fst snd]. rewrite run_bind, (IH Hrest). cbn [fst snd].
    by rewrite run_ret.
Qed.

(** X17: a page none of whose top-level blocks says it has children, and
    any page when no callback is given, is rendered with one unit of fuel
    and without a call to the callback.  The only error [RenderPage] can
    then return is that of the YAML encoder; otherwise the file name is the
    one [buildFilename] gives and the content is the front matter followed
    by the body, which is the fragments of the blocks, each formatted with
    empty child content and without the newlines at its end, joined as
    siblings are. *)
Theorem RenderPage_without_fetching (r : Renderer) (fuel : nat) (page : Page)
  (blocks : list Block)
  (getChildren : option (BlockID -> M W (result (list Block))))
  (resolveArg : option (string -> string)) (st : Traced W) :
  neverFetches getChildren blocks = true ->
  let resolver := match resolveArg with None => resolve r | Some _ => resolveArg end in
  let flat := flatFragments r resolver (buildFilename (parseMetadata page)) blocks
                (fst st) in
  RenderPage r (S fuel) page blocks getChildren resolveArg st
  = (Returns match buildFrontMatter (parseMetadata page) with
             | Ok fm =>
                 (buildFilename (parseMetadata page), fm +:+ joinBlocks (fst flat),
                  None)
             | Err err => (EmptyString, EmptyString, Some err)
             end,
     (snd flat, snd st)).
Proof.
  intros Hflat resolver flat. unfold RenderPage, renderBlocksRecursive.
  fold resolver.
  rewrite run_bind, renderBlocks_fragments.
  rewrite (renderFragments_flat r getChildren resolver
             (buildFilename (parseMetadata page)) fuel blocks Hflat st).
  fold flat. cbn [fst snd]. unfold joinBlocks.
  by destruct (buildFrontMatter (parseMetadata page)).
Qed.

End FlatFacts.

Lemma RenderPage_without_fetching_witness :
  let blocks := [Heading1Block (Sample.leaf "h") (Sample.text "Friends");
                 DividerBlock (Sample.leaf "d");
                 OtherBlock (Sample.node "broken")] in
  RenderPage (H := Sample.library) (H0 := Sample.offline) Sample.renderer 1
    (Sample.page "pages:friends") blocks (Some Sample.children) None (tt, [])
  = (Returns ("my-friends/index.md",
              "---" +:+ LF +:+ "lastmod:" +:+ LF +:+ "type:" +:+ LF +:+ "title:" +:+ LF
              +:+ "date:" +:+ LF +:+ "---" +:+ LF +:+ LF
              +:+ "# Friends" +:+ LF +:+ LF +:+ "---" +:+ LF +:+ LF, None),
     (tt, [])).
Proof.
  intros blocks.
  rewrite (RenderPage_without_fetching (H := Sample.library) (H0 := Sample.offline)
             Sample.renderer 0 (Sample.page "pages:friends") blocks
             (Some Sample.children) None (tt, []) eq_refl).
  vm_compute. reflexivity.
Defined.

(* ===================================================================== *)
(** * The command: resolver map and output paths                          *)
(* ===================================================================== *)

Lemma HasPrefix_app (a b : string) : strings.HasPrefix (a +:+ b) a = true.
Proof.
  induction a as [|c a IH]; [reflexivity|].
  rewrite str_app_cons. cbn [strings.HasPrefix]. by rewrite Ascii.eqb_refl.
Qed.

(** X18: with an output directory, the file of a page is always written
    below it: the directory is put in front of the file name unless the
    name already starts with it; doing so twice changes nothing, and
    without an output directory the file name is kept. *)
Theorem finalPath_below_outDir (outDir filename : string) :
  (outDir <> EmptyString ->
   strings.HasPrefix (main.finalPath outDir filename) (outDir +:+ "/") = true)
  /\ main.finalPath outDir (main.finalPath outDir filename)
     = main.finalPath outDir filename
  /\ main.finalPath EmptyString filename = filename.
Proof.
  assert (Hbelow : outDir <> EmptyString ->
            strings.HasPrefix (main.finalPath outDir filename) (outDir +:+ "/") = true).
  { intros Hne. unfold main.finalPath. rewrite (str_eqb_nil_false _ Hne). cbn [negb andb].
    destruct (strings.HasPrefix filename (outDir +:+ "/")) eqn:E; cbn [negb].
    - exact E.
    - rewrite <- str_app_assoc. apply HasPrefix_app. }
  split; [exact Hbelow|]. split; [|reflexivity].
  destruct (String.eqb_spec outDir EmptyString) as [->|Hne]; [reflexivity|].
  unfold main.finalPath at 1. by rewrite (Hbelow Hne), andb_false_r.
Qed.

Lemma finalPath_below_outDir_witness :
  main.finalPath "content" "posts/my-friends/index.md"
  = "content/posts/my-friends/index.md"
  /\ strings.HasPrefix (main.finalPath "content" "posts/my-friends/index.md")
                       ("content" +:+ "/") = true.
Proof.
  split; [reflexivity|].
  exact (proj1 (finalPath_below_outDir "content" "posts/my-friends/index.md")
               ltac:(discriminate)).
Defined.

Section CommandFacts.
Context `{Library}.

Lemma GetPagePath_ne (page : Page) : GetPagePath page <> EmptyString.
Proof.
  unfold GetPagePath.
  destruct (String.eqb _ EmptyString); [discriminate|].
  destruct (String.eqb _ "pages"); discriminate.
Qed.

Lemma pageMap_lookup (pages : list (string * Page)) (pageID : string) :
  main.pageMap pages !! pageID = last (omap (pathUnder pageID) pages).
Proof.
  unfold main.pageMap.
  rewrite (fold_left_last_writer
             (fun (m : gmap string string) (p : string * Page) =>
                <[strings.ReplaceAll (fst p) "-" EmptyString := GetPagePath (snd p)]> m)
             (fun m => m !! pageID)
             (fun p => option_map Some (pathUnder pageID p))).
  - rewrite last_omap_map, lookup_empty. by destruct (last _).
  - intros m p _. unfold pathUnder, normalizeUUID.
    destruct (String.eqb_spec (strings.ReplaceAll (fst p) "-" EmptyString) pageID)
      as [E|E]; cbn [option_map default].
    + by rewrite E, lookup_insert_eq.
    + by rewrite lookup_insert_ne.
Qed.

Lemma last_omap_In {B X : Type} (w : B -> option X) (l : list B) (b : B) (x : X) :
  In b l -> w b = Some x -> exists y, last (omap w l) = Some y.
Proof.
  induction l as [|b' l IH]; [done|]. intros [->|Hin] Hw; cbn [omap list_omap].
  - rewrite Hw, last_cons. destruct (last _); eauto.
  - destruct (IH Hin Hw) as [y Hy]. destruct (w b'); [|eauto].
    rewrite last_cons, Hy. eauto.
Qed.

(** X19: the resolver the command builds answers, for an identifier without
    hyphens, with the site path of the page of the database that has this
    identifier (the last one, should several have it) and with the empty
    string for any other.  So a link to a page of the database, whatever
    title its URL carries, becomes the site path of that page. *)
Theorem database_link_resolves (pages : list (string * Page)) :
  (forall pageID : string,
     main.resolve (main.pageMap pages) pageID
     = default EmptyString (last (omap (pathUnder pageID) pages)))
  /\ (forall (pid : string) (page : Page) (raw : string) (parsed : url.URL)
             (title id : string),
        In (pid, page) pages ->
        (forall pid' page', In (pid', page') pages ->
           normalizeUUID pid' = normalizeUUID pid ->
           GetPagePath page' = GetPagePath page) ->
        url.Parse raw = Ok parsed ->
        strings.Contains (url.Host parsed) "notion.so" = true ->
        lastPathSegment (url.Path parsed) = title +:+ id ->
        isPlainUUID id || isDashedUUID id = true ->
        normalizeUUID id = normalizeUUID pid ->
        notionURLToHugoLink raw (Some (main.resolve (main.pageMap pages)))
        = GetPagePath page).
Proof.
  assert (Hres : forall pageID : string,
            main.resolve (main.pageMap pages) pageID
            = default EmptyString (last (omap (pathUnder pageID) pages))).
  { intros pageID. unfold main.resolve. rewrite pageMap_lookup.
    by destruct (last _). }
  split; [exact Hres|].
  intros pid page raw parsed title id Hin Huniq Hparse Hhost Hseg Hid Hsame.
  assert (Hpath : main.resolve (main.pageMap pages) (normalizeUUID id)
                  = GetPagePath page).
  { rewrite Hres, Hsame.
    destruct (last_omap_In (pathUnder (normalizeUUID pid)) pages (pid, page)
                (GetPagePath page) Hin) as [y Hy].
    { unfold pathUnder. cbn [fst snd]. by rewrite String.eqb_refl. }
    rewrite Hy. cbn [default from_option Datatypes.id].
    apply (last_omap_prop (pathUnder (normalizeUUID pid))
             (fun y => y = GetPagePath page) pages); [|exact Hy].
    intros [pid' page'] x Hin'. unfold pathUnder. cbn [fst snd].
    destruct (String.eqb_spec (normalizeUUID pid') (normalizeUUID pid)) as [E|E];
      [|discriminate].
    intros [= <-]. by apply (Huniq pid'). }
  rewrite (resolver_hit raw parsed title id _ Hparse Hhost Hseg Hid); [exact Hpath|].
  rewrite Hpath. apply GetPagePath_ne.
Qed.

End CommandFacts.

Lemma database_link_resolves_witness :
  let pages := [("01234567-89ab-cdef-0123-456789abcdef", Sample.page "pages:friends")] in
  notionURLToHugoLink
    "https://www.notion.so/ws/Old-Title-0123456789abcdef0123456789abcdef?pvs=4"
    (Some (main.resolve (main.pageMap (H := Sample.library) pages)))
  = "/my-friends/".
Proof.
  intros pages.
  rewrite (proj2 (database_link_resolves (H := Sample.library) pages)
             "01234567-89ab-cdef-0123-456789abcdef" (Sample.page "pages:friends")
             "https://www.notion.so/ws/Old-Title-0123456789abcdef0123456789abcdef?pvs=4"
             (url.mkURL "https" EmptyString "www.notion.so"
                "/ws/Old-Title-0123456789abcdef0123456789abcdef" "pvs=4")
             "Old-Title-" "0123456789abcdef0123456789abcdef").
  - vm_compute. reflexivity.
  - by left.
  - intros pid' page' [E|[]] _. by injection E as <- <-.
  - vm_compute. reflexivity.
  - vm_compute. reflexivity.
  - vm_compute. reflexivity.
  - vm_compute. reflexivity.
  - vm_compute. reflexivity.
Defined.

(* ===================================================================== *)
(** * What [renderBlock] returns and when it fetches                      *)
(* ===================================================================== *)

Section BlockFacts.
Context `{Library} {W : Type} `{Platform W}.
Variable r : Renderer.
Variable resolver : option (string -> string).
Variable articlePath : string.

(** X20: a fragment [renderBlock] returns never ends in a newline.
    Without an error its list flag tells whether the block is a bulleted,
    numbered or to-do item; with an error the fragment is empty and the
    flag is off. *)
Theorem renderBlock_fragment_shape
  (getChildren : option (BlockID -> M W (result (list Block))))
  (fuel : nat) (block : Block) (st st' : Traced W)
  (s : string) (l : bool) (e : option string) :
  renderBlock r getChildren resolver articlePath fuel block st
  = (Returns (s, l, e), st') ->
  endsIn (Ascii.eqb "010") s = false
  /\ match e with
     | None => l = isListLike block
     | Some _ => s = EmptyString /\ l = false
     end.
Proof.
  destruct fuel as [|fuel]; [discriminate|]. cbn [renderBlock].
  destruct (getBlockIDAndHasChildren block) as [id has]. rewrite run_bind.
  match goal with |- context [fst (?m st)] => destruct (m st) as [[[cc [err|]]|] st1] end;
    cbn [fst snd]; try discriminate.
  - rewrite run_ret. intros [= <- <- <- <-]. by repeat split.
  - rewrite run_bind, run_liftW. cbn [fst snd].
    pose proof (blockToMarkdownWithCache_flag r resolver articlePath block cc (fst st1))
      as Hflag.
    destruct (blockToMarkdownWithCache _ _ _ _ _ _ _) as [[s' l'] w2].
    cbn [fst snd] in *. rewrite run_ret. intros [= <- <- <- <-].
    split; [|exact Hflag].
    unfold strings.TrimRight. rewrite endsIn_LF. apply endsIn_trimRightBy.
Qed.

(** X21: a block that says it has children is fetched, with its own
    identifier, before anything else is asked of the callback; and when
    the callback answers with no children, the block is rendered like one
    without, after that single call. *)
Theorem fetch_comes_first (callback : BlockID -> M W (result (list Block)))
  (fuel : nat) (block : Block) (id : BlockID) (st : Traced W) :
  getBlockIDAndHasChildren block = (id, true) ->
  let run := renderBlock r (Some callback) resolver articlePath (S fuel) block st in
  (exists more,
     snd (snd run) = snd st ++ (id, fst (callback id (fst st))) :: more)
  /\ (fst (callback id (fst st)) = Ok [] ->
      run = let out := blockToMarkdownWithCache block EmptyString resolver
                         (fileCache r) articlePath (config r)
                         (snd (callback id (fst st))) in
            (Returns (strings.TrimRight (fst (fst out)) LF, snd (fst out), None),
             (snd out, snd st ++ [(id, Ok [])]))).
Proof.
  intros Hg run. split.
  - subst run. cbn [renderBlock]. rewrite Hg, run_bind.
    match goal with
    | |- context [fst (?m st)] => set (fetched := m)
    end.
    assert (Hf : exists more,
               snd (snd (fetched st))
               = snd st ++ (id, fst (callback id (fst st))) :: more).
    { subst fetched. rewrite run_bind. unfold fetch.
      destruct (callback id (fst st)) as [[children|err] w1]; cbn [fst snd].
      2: { rewrite run_ret. by exists []. }
      rewrite run_bind.
      destruct (traceOK_renderChildren
                  (renderBlock r (Some callback) resolver articlePath fuel) block
                  children
                  (traceOK_renderBlock r (Some callback) resolver articlePath fuel)
                  EmptyString false (w1, snd st ++ [(id, Ok children)]))
        as (new & E & _).
      cbn [fst snd] in E.
      destruct (renderChildren _ _ _ _ _ _) as [[[cc [err|]]|] st2];
        cbn [fst snd] in *; rewrite run_ret; cbn [fst snd];
        exists new; by rewrite E, <- app_assoc. }
    destruct Hf as [more Hf].
    destruct (fetched st) as [[[cc [err|]]|] st1]; cbn [fst snd] in *.
    + rewrite run_ret. by exists more.
    + rewrite run_bind, run_liftW. cbn [fst snd].
      destruct (blockToMarkdownWithCache _ _ _ _ _ _ _) as [[s isList] w2].
      by exists more.
    + rewrite run_ret. by exists more.
  - intros Hans. subst run.
    destruct (callback id (fst st)) as [answer w1] eqn:Ec. cbn [fst snd] in *.
    subst answer.
    by rewrite (renderBlock_fetched r resolver articlePath fuel block st callback id
                  [] w1 EmptyString (w1, snd st ++ [(id, Ok [])]) Hg Ec eq_refl).
Qed.

End BlockFacts.

Lemma renderBlock_fragment_shape_witness :
  let block := BulletedListItemBlock (Sample.node "list") (Sample.text "fruit") in
  renderBlock (H := Sample.library) (H0 := Sample.offline) Sample.renderer
    (Some Sample.children) None "posts/x/index.md" 2 block (tt, [])
  = (Returns ("- fruit" +:+ LF +:+ "    - a" +:+ LF +:+ "    - b", true, None),
     (tt, [("list", Ok [BulletedListItemBlock (Sample.leaf "a") (Sample.text "a");
                        BulletedListItemBlock (Sample.leaf "b") (Sample.text "b")])]))
  /\ endsIn (Ascii.eqb "010") ("- fruit" +:+ LF +:+ "    - a" +:+ LF +:+ "    - b")
     = false.
Proof.
  intros block.
  assert (E : renderBlock (H := Sample.library) (H0 := Sample.offline) Sample.renderer
                (Some Sample.children) None "posts/x/index.md" 2 block (tt, [])
              = (Returns ("- fruit" +:+ LF +:+ "    - a" +:+ LF +:+ "    - b", true, None),
                 (tt, [("list",
                        Ok [BulletedListItemBlock (Sample.leaf "a") (Sample.text "a");
                            BulletedListItemBlock (Sample.leaf "b") (Sample.text "b")])])))
    by reflexivity.
  split; [exact E|].
  exact (proj1 (renderBlock_fragment_shape (H := Sample.library) (H0 := Sample.offline)
                  Sample.renderer None "posts/x/index.md" (Some Sample.children)
                  2 block (tt, []) _ _ _ _ E)).
Defined.

Lemma fetch_comes_first_witness :
  let block := ToggleBlock (Sample.node "empty") (Sample.text "more") in
  renderBlock (H := Sample.library) (H0 := Sample.offline) Sample.renderer
    (Some Sample.children) None "posts/x/index.md" 1 block (tt, [])
  = (Returns ("> more", false, None), (tt, [("empty", Ok [])])).
Proof.
  intros block.
  exact (proj2 (fetch_comes_first (H := Sample.library) (H0 := Sample.offline)
                  Sample.renderer None "posts/x/index.md" Sample.children 0 block
                  "empty" (tt, []) eq_refl) eq_refl).
Defined.

(* ===================================================================== *)
(** * Labels and media without cache                                      *)
(* ===================================================================== *)

Lemma escapeMarkdown_ne (s : string) :
  s <> EmptyString -> escapeMarkdown s <> EmptyString.
Proof.
  rewrite escapeMarkdown_bytewise. destruct s as [|c r]; [done|]. intros _.
  cbn [flatMap]. apply str_app_ne_nil_l. unfold escapeBracketByte.
  destruct (Ascii.eqb c "["); [discriminate|].
  destruct (Ascii.eqb c "]"); discriminate.
Qed.

Lemma Contains_ne (s sub : string) :
  sub <> EmptyString -> strings.Contains s sub = true -> s <> EmptyString.
Proof. intros Hsub Hc ->. by destruct sub. Qed.

Lemma shortenURLLabel_ne (raw : string) :
  raw <> EmptyString -> shortenURLLabel raw <> EmptyString.
Proof.
  intros Hraw. unfold shortenURLLabel. rewrite (str_eqb_nil_false _ Hraw). cbv zeta.
  set (fallback := if strings.len raw <=? 40 then raw else _).
  assert (Hf : fallback <> EmptyString).
  { subst fallback. destruct (_ <=? _); [exact Hraw|]. by apply str_app_ne_nil_r. }
  clearbody fallback.
  destruct (url.Parse raw) as [u|e]; [|exact Hf].
  destruct (String.eqb (url.Scheme u) EmptyString); [exact Hf|].
  set (hostAndPath := if negb (String.eqb (url.Host u) EmptyString) then _
                      else fallback).
  assert (Hh : hostAndPath <> EmptyString).
  { subst hostAndPath.
    destruct (String.eqb_spec (url.Host u) EmptyString) as [|Hhost]; [exact Hf|].
    cbn [negb].
    destruct (_ <=? 40).
    - destruct (negb (String.eqb (url.RawQuery u) EmptyString));
        rewrite ?str_app_assoc; by apply str_app_ne_nil_l.
    - destruct (_ && _ && _); [by apply str_app_ne_nil_r|].
      destruct (_ <=? _); [by apply str_app_ne_nil_r|exact Hf]. }
  clearbody hostAndPath.
  set (filename := filepath.Base (url.Path u)). clearbody filename.
  destruct (negb (String.eqb filename ".") && negb (String.eqb filename "/")
            && strings.Contains filename ".") eqn:Ec; [|exact Hh].
  apply andb_prop in Ec as [_ Ec].
  destruct (_ && _ && (_ + _ + 5 <=? 40)).
  { apply str_app_ne_nil_r. discriminate. }
  destruct (_ <=? 40); [by apply (Contains_ne _ "." ltac:(discriminate))|].
  destruct (_ <? _); [|exact Hh].
  destruct (_ && _ && _ && _).
  - apply str_app_ne_nil_r. discriminate.
  - by apply str_app_ne_nil_r.
Qed.

(** X24: the text of the link a bookmark or link preview renders is never
    empty for a non-empty URL: it is the first paragraph of the caption
    when that is not empty, and the shortened URL with its brackets escaped
    otherwise. *)
Theorem link_label_never_empty (url : string) (caption : list RichText) :
  url <> EmptyString ->
  let label := if String.eqb (captionFirstParagraph caption None) EmptyString
               then escapeMarkdown (shortenURLLabel url)
               else captionFirstParagraph caption None in
  bookmarkToMarkdown url caption = "[" +:+ label +:+ "](" +:+ url +:+ ")"
  /\ linkPreviewToMarkdown url
     = "[" +:+ escapeMarkdown (shortenURLLabel url) +:+ "](" +:+ url +:+ ")"
  /\ label <> EmptyString
  /\ escapeMarkdown (shortenURLLabel url) <> EmptyString.
Proof.
  intros Hurl label.
  assert (Hshort : escapeMarkdown (shortenURLLabel url) <> EmptyString).
  { by apply escapeMarkdown_ne, shortenURLLabel_ne. }
  split; [|split; [reflexivity|split; [|exact Hshort]]].
  - subst label. unfold bookmarkToMarkdown, renderLinkWithCaption.
    destruct caption as [|t ts]; [reflexivity|].
    by destruct (String.eqb _ EmptyString).
  - subst label.
    destruct (String.eqb_spec (captionFirstParagraph caption None) EmptyString);
      [exact Hshort|done].
Qed.

Lemma link_label_never_empty_witness :
  bookmarkToMarkdown "https://example.com/docs/guide.pdf" []
  = "[example.com/.../guide.pdf](https://example.com/docs/guide.pdf)".
Proof.
  exact (proj1 (link_label_never_empty "https://example.com/docs/guide.pdf" []
                  ltac:(discriminate))).
Defined.

Section UncachedFacts.
Context `{Library} {W : Type} `{Platform W}.

(** X25: a file that Notion does not host itself is never cached, and no
    file is when there is no cache or no article path: the media block then
    keeps its URL, and nothing is asked of the file system or the network.
    An image so rendered has the brackets of a label made from its URL
    escaped twice, once with the label and once more as alternative
    text. *)
Theorem uncached_media (f : FileObject) (fc : option FileCache)
  (articlePath : string) (w : W) :
  File f = None \/ fc = None \/ articlePath = EmptyString ->
  let u := fst (getFileURL f) in
  processFileURLWithCache f fc articlePath w
  = (if String.eqb u EmptyString then (EmptyString, EmptyString)
     else (u, mediaText f u), w)
  /\ (u <> EmptyString -> getCaption f = [] ->
      imageToMarkdownWithCache f fc articlePath w
      = ("![" +:+ escapeMarkdown (escapeMarkdown (shortenURLLabel u))
         +:+ "](" +:+ u +:+ ")", w)).
Proof.
  intros Hno u.
  assert (E : processFileURLWithCache f fc articlePath w
              = (if String.eqb u EmptyString then (EmptyString, EmptyString)
                 else (u, mediaText f u), w)).
  { subst u. unfold processFileURLWithCache, mediaText.
    destruct (getFileURL f) as [originalURL shouldCache] eqn:Eg. cbn [fst].
    destruct (String.eqb originalURL EmptyString); [reflexivity|].
    destruct fc as [cache|]; [|reflexivity].
    assert (Hoff : shouldCache && negb (String.eqb articlePath EmptyString) = false).
    { destruct Hno as [Hfile|[Hfc| ->]]; [|discriminate|by rewrite andb_false_r].
      unfold getFileURL in Eg. rewrite Hfile in Eg.
      destruct (External f); by injection Eg as <- <-. }
    by rewrite Hoff. }
  split; [exact E|]. intros Hu Hcap. unfold imageToMarkdownWithCache.
  rewrite run_bind, E. cbn [fst snd]. rewrite (str_eqb_nil_false _ Hu).
  cbn [fst snd]. rewrite (str_eqb_nil_false _ Hu).
  unfold mediaText. by rewrite Hcap.
Qed.

End UncachedFacts.

Lemma uncached_media_witness :
  let f := mkFileObject None (Some "https://example.com/img/a[1].png") [] in
  imageToMarkdownWithCache (H := Sample.library) (H0 := Recorded.machine false 200)
    f (Some (NewFileCache "content")) "posts/x/index.md" []
  = ("![example.com/.../a\\[1\\].png](https://example.com/img/a[1].png)", []).
Proof.
  intros f.
  exact (proj2 (uncached_media (H := Sample.library) (H0 := Recorded.machine false 200)
                  f (Some (NewFileCache "content")) "posts/x/index.md" []
                  (or_introl eq_refl))
               ltac:(discriminate) eq_refl).
Defined.

(* ===================================================================== *)
(** * Properties of the user, and compound types                          *)
(* ===================================================================== *)

Section CustomFacts.
Context `{Library}.

Lemma parseProperty_custom (m : metadata) (k : string) (entry : string * Property) :
  isSpecialKey (strings.ToLower k) = false -> k <> "draft" ->
  Properties (parseProperty m entry) !! k
  = default (Properties m !! k) (option_map Some (customValue k entry)).
Proof.
  intros Hk Hd. destruct entry as [k' prop]. unfold customValue. cbn [fst snd].
  destruct (String.eqb_spec k' k) as [->|Hne].
  - unfold isSpecialKey in Hk.
    repeat (apply orb_false_elim in Hk as [Hk ?]).
    unfold parseProperty.
    repeat match goal with E : String.eqb _ _ = false |- _ => rewrite E; clear E end.
    cbn [orb].
    destruct (extractPropertyValue prop) as [v|]; cbn [option_map default]; [|done].
    cbn [Properties setProperty]. by rewrite lookup_insert_eq.
  - cbn [option_map default].
    apply parseProperty_frame; try (intros ->; discriminate Hk); [congruence|].
    intros [-> | ->]; [discriminate Hk|done].
Qed.

(** X26: every other property of the page goes to the front matter under
    its key as written: for a key that is none of the special ones in any
    case, nor ["draft"], the front matter holds the value of the property
    with this key that was visited last.  Without such a property there is
    no entry, except for ["lastmod"], which is the time of the last edit
    unless that is the zero time. *)
Theorem custom_properties (page : Page) (k : string) :
  isSpecialKey (strings.ToLower k) = false -> k <> "draft" ->
  Properties (parseMetadata page) !! k
  = match last (omap (customValue k) (notionapi.Properties page)) with
    | Some v => Some v
    | None =>
        if String.eqb k "lastmod" && negb (IsZero (LastEditedTime page))
        then Some (VString (time_Format (LastEditedTime page)))
        else None
    end.
Proof.
  intros Hk Hd. rewrite parseMetadata_loop, finishMetadata_Properties.
  rewrite (fold_left_last_writer parseProperty (fun m => Properties m !! k)
             (fun e => option_map Some (customValue k e))).
  2: { intros m e _. by apply parseProperty_custom. }
  rewrite last_omap_map.
  destruct (last (omap (customValue k) _)) as [v|]; [reflexivity|].
  cbn [option_map default from_option].
  assert (Hdate : k <> "date") by (intros ->; discriminate Hk).
  unfold startMetadata.
  destruct (IsZero (CreatedTime page)), (IsZero (LastEditedTime page));
    cbn [negb Properties setProperty andb]; rewrite ?andb_false_r, ?andb_true_r;
    destruct (String.eqb_spec k "lastmod") as [->|Hl];
    rewrite ?lookup_insert_eq; rewrite ?lookup_insert_ne by done;
    rewrite ?lookup_insert_ne by done; by rewrite ?lookup_empty.
Qed.

Lemma splitFrom_no_cut (sep s : string) : strings.splitFrom sep 0 0 s = [s].
Proof. by destruct s. Qed.

Lemma SplitN_colon (a b : string) :
  strings.Contains a ":" = false ->
  strings.SplitN (a +:+ String ":" b) ":" 2 = [a; b].
Proof.
  unfold strings.SplitN. induction a as [|d a IH].
  - intros _. rewrite str_app_nil_l. cbn [strings.splitFrom strings.HasPrefix].
    cbn. by rewrite splitFrom_no_cut.
  - rewrite Contains_byte_cons. intros [Hd Ha]%orb_false_elim.
    rewrite str_app_cons. cbn [strings.splitFrom strings.HasPrefix].
    by rewrite Hd, (IH Ha).
Qed.

Lemma typeState_compound (m : metadata) (category value : string) :
  strings.Contains category ":" = false ->
  typeState (parseType m (category +:+ ":" +:+ value))
  = if String.eqb (strings.ToLower (strings.TrimSpace category)) "pages"
    then ("pages", Some (VString (strings.TrimSpace value)))
    else (strings.ToLower (category +:+ ":" +:+ value),
          Some (VString (category +:+ ":" +:+ value))).
Proof.
  intros Hc. unfold typeState, parseType.
  change (category +:+ ":" +:+ value) with (category +:+ String ":" value).
  rewrite Contains_byte_app, Contains_byte_cons, Ascii.eqb_refl, orb_true_r.
  rewrite (SplitN_colon _ _ Hc).
  destruct (String.eqb _ "pages");
    cbn [pathType Properties setProperty setPathType]; by rewrite lookup_insert_eq.
Qed.

(** X27: a compound type [category:value] whose category is ["pages"], up
    to case and surrounding white space, puts the page at ["/{slug}/"] and
    the trimmed value in the front matter; with any other category the
    front matter keeps the compound type as written and the path type is
    the whole of it in lower case. *)
Theorem compound_type_general (page : Page) (category value : string) :
  strings.Contains category ":" = false ->
  hasTypeProperty page (category +:+ ":" +:+ value) ->
  if String.eqb (strings.ToLower (strings.TrimSpace category)) "pages"
  then Properties (parseMetadata page) !! "type"
       = Some (VString (strings.TrimSpace value))
       /\ GetPagePath page = "/" +:+ GetPageSlug page +:+ "/"
  else Properties (parseMetadata page) !! "type"
       = Some (VString (category +:+ ":" +:+ value))
       /\ pathType (parseMetadata page)
          = strings.ToLower (category +:+ ":" +:+ value).
Proof.
  intros Hc Hp.
  assert (Hne : category +:+ ":" +:+ value <> EmptyString).
  { apply str_app_ne_nil_r. discriminate. }
  destruct (String.eqb (strings.ToLower (strings.TrimSpace category)) "pages") eqn:Ecat.
  - pose proof (parseMetadata_typeState page _ "pages"
                  (VString (strings.TrimSpace value))
                  (fun m => eq_trans (typeState_compound m category value Hc)
                                     ltac:(by rewrite Ecat))
                  Hne ltac:(discriminate) Hp) as E.
    unfold typeState in E. injection E as E1 E2. split; [exact E2|].
    unfold GetPagePath, GetPageSlug. by rewrite E1.
  - assert (Hlow : strings.ToLower (category +:+ ":" +:+ value) <> EmptyString).
    { apply (Contains_ne _ ":"); [discriminate|]. apply ToLower_keeps_colon.
      change (category +:+ ":" +:+ value) with (category +:+ String ":" value).
      by rewrite Contains_byte_app, Contains_byte_cons, Ascii.eqb_refl, orb_true_r. }
    pose proof (parseMetadata_typeState page _
                  (strings.ToLower (category +:+ ":" +:+ value))
                  (VString (category +:+ ":" +:+ value))
                  (fun m => eq_trans (typeState_compound m category value Hc)
                                     ltac:(by rewrite Ecat))
                  Hne Hlow Hp) as E.
    unfold typeState in E. by injection E as E1 E2.
Qed.

End CustomFacts.

Lemma custom_properties_witness :
  let page := mkPage (mkTime 1 0 0) (mkTime 2 0 0)
                [("Title", TitleProperty (Sample.text "Notes"));
                 ("Tags", MultiSelectProperty ["go"; "notion"])] in
  Properties (parseMetadata (H := Sample.library) page) !! "Tags"
  = Some (VStrings ["go"; "notion"]).
Proof.
  intros page.
  exact (custom_properties (H := Sample.library) page "Tags" eq_refl
           ltac:(discriminate)).
Defined.

Lemma compound_type_general_witness :
  hasTypeProperty (H := Sample.library) (Sample.page " Pages : about us ")
                  (" Pages " +:+ ":" +:+ " about us ")
  /\ Properties (parseMetadata (H := Sample.library) (Sample.page " Pages : about us "))
       !! "type" = Some (VString "about us")
  /\ GetPagePath (H := Sample.library) (Sample.page " Pages : about us ")
     = "/my-friends/".
Proof.
  assert (Hp : hasTypeProperty (H := Sample.library) (Sample.page " Pages : about us ")
                 (" Pages " +:+ ":" +:+ " about us ")).
  { split.
    - exists "Type", (SelectProperty " Pages : about us "). split; [|reflexivity].
      right. by left.
    - intros k prop [E|[E|[]]]; injection E as <- <-; [discriminate|reflexivity]. }
  split; [exact Hp|].
  pose proof (compound_type_general (H := Sample.library)
                (Sample.page " Pages : about us ") " Pages " " about us "
                eq_refl Hp) as [F G].
  split; [exact F|]. rewrite G. reflexivity.
Defined.

(* ===================================================================== *)
(** * Callouts                                                            *)
(* ===================================================================== *)

Section CalloutFacts.
Context `{Library} {W : Type} `{Platform W}.

(** X28: with the default configuration every line of a rendered callout
    is a quote line: when the text of the callout has no newline, each
    line of the fragment, whether it comes from the text, from the
    children or is the separating line, starts with ["> "]. *)
Theorem callout_lines_quoted (richText : list RichText) (childContent : string)
  (resolve : option (string -> string)) (w : W) :
  strings.Contains (richTextArrToMarkdown richText resolve) LF = false ->
  forallb (fun l => strings.HasPrefix l "> ")
          (strings.Split
             (fst (calloutToMarkdown richText childContent resolve
                     DefaultRenderConfig w)) LF)
  = true.
Proof.
  intros Htext. unfold calloutToMarkdown. rewrite renderTemplate_single.
  assert (E : forall content : string,
            strings.ReplaceAll (CalloutTemplate DefaultRenderConfig)
                               ("{{." +:+ "Content" +:+ "}}") content
            = "> " +:+ content).
  { intros content. cbn. by rewrite str_app_nil_r. }
  rewrite E. clear E. change LF with (String "010"%char EmptyString) in *.
  rewrite Split_byte. unfold calloutContent.
  set (text := richTextArrToMarkdown richText resolve) in *.
  assert (Hhead : strings.Contains ("> " +:+ text) (String "010"%char EmptyString)
                  = false).
  { by rewrite Contains_byte_app, Htext. }
  destruct (negb (String.eqb childContent EmptyString)).
  2: { rewrite (splitByte_whole _ _ Hhead). cbn [forallb]. by rewrite HasPrefix_app. }
  change LF with (String "010"%char EmptyString). rewrite Split_byte.
  set (lines := splitByte "010" (dedentChildContent childContent)).
  set (quote := fun l : string =>
                  if String.eqb (strings.TrimSpace l) EmptyString then "> "
                  else "> " +:+ l).
  set (childLines := (if calloutAddSeparator lines then ["> "] else [])
                     ++ map quote lines).
  assert (Hne : childLines <> []).
  { subst childLines. intros E. apply app_eq_nil in E as [_ E].
    apply map_eq_nil in E. by apply (splitByte_ne_nil "010" (dedentChildContent childContent)). }
  assert (Hquoted : Forall (fun l => strings.Contains l (String "010"%char EmptyString)
                                     = false
                                     /\ strings.HasPrefix l "> " = true) childLines).
  { subst childLines. apply Forall_app. split.
    - destruct (calloutAddSeparator lines); by repeat constructor.
    - apply List.Forall_map. subst lines.
      eapply List.Forall_impl; [|apply (splitByte_no_sep "010")].
      intros l Hl. subst quote. cbv beta.
      destruct (String.eqb _ EmptyString); [by split|].
      split; [by rewrite Contains_byte_app, Hl|apply HasPrefix_app]. }
  rewrite <- str_app_assoc, <- (Join_cons _ _ _ Hne).
  rewrite splitByte_Join.
  - cbn [forallb]. rewrite HasPrefix_app. cbn [andb].
    apply forallb_forall. intros l Hin.
    rewrite List.Forall_forall in Hquoted. by apply Hquoted.
  - done.
  - constructor; [exact Hhead|].
    eapply List.Forall_impl; [|exact Hquoted]. by intros l [Hl _].
Qed.

End CalloutFacts.

Lemma callout_lines_quoted_witness :
  fst (calloutToMarkdown (H0 := Recorded.machine false 200) (Sample.text "Note")
         ("first" +:+ LF +:+ LF +:+ "second") None DefaultRenderConfig [])
  = "> Note" +:+ LF +:+ "> " +:+ LF +:+ "> first" +:+ LF +:+ "> " +:+ LF +:+ "> second"
  /\ forallb (fun l => strings.HasPrefix l "> ")
       (strings.Split
          (fst (calloutToMarkdown (H0 := Recorded.machine false 200) (Sample.text "Note")
                  ("first" +:+ LF +:+ LF +:+ "second") None DefaultRenderConfig []))
          LF)
     = true.
Proof.
  split; [reflexivity|].
  exact (callout_lines_quoted (H0 := Recorded.machine false 200) (Sample.text "Note")
           ("first" +:+ LF +:+ LF +:+ "second") None [] eq_refl).
Defined.

(* ===================================================================== *)
(** * Column lists                                                        *)
(* ===================================================================== *)

Lemma splitByte_app_sep (c : ascii) (a b : string) :
  splitByte c (a +:+ String c b) = splitByte c a ++ splitByte c b.
Proof.
  induction a as [|d a IH].
  - rewrite str_app_nil_l. cbn [splitByte]. by rewrite Ascii.eqb_refl.
  - rewrite str_app_cons. cbn [splitByte]. rewrite IH.
    pose proof (splitByte_ne_nil c a) as Hne.
    destruct (Ascii.eqb d c); [reflexivity|].
    by destruct (splitByte c a).
Qed.

Lemma Join_app (l1 l2 : list string) (sep : string) :
  l1 <> [] -> l2 <> [] ->
  strings.Join (l1 ++ l2) sep = strings.Join l1 sep +:+ sep +:+ strings.Join l2 sep.
Proof.
  intros H1 H2. induction l1 as [|x l1 IH]; [done|].
  destruct l1 as [|y l1'].
  - cbn [app]. by rewrite Join_cons.
  - change ((x :: y :: l1') ++ l2) with (x :: (y :: l1') ++ l2).
    rewrite Join_cons by done. rewrite IH by done.
    rewrite (Join_cons x (y :: l1')) by done. by rewrite !str_app_assoc.
Qed.

Lemma dedent_lines (s : string) :
  dedentChildContent s
  = strings.Join
      (map (fun l => if strings.HasPrefix l "    " then strings.TrimPrefix l "    " else l)
           (splitByte "010" s))
      LF.
Proof.
  unfold dedentChildContent. change LF with (String "010"%char EmptyString).
  rewrite Split_byte. by destruct s.
Qed.

(** [dedentChildContent] works line by line. *)
Lemma dedent_app_LF (a b : string) :
  dedentChildContent (a +:+ LF +:+ b)
  = dedentChildContent a +:+ LF +:+ dedentChildContent b.
Proof.
  rewrite !dedent_lines.
  change (a +:+ LF +:+ b) with (a +:+ String "010"%char b).
  rewrite splitByte_app_sep, map_app, Join_app; [reflexivity| |].
  - intros E. apply map_eq_nil in E. by apply (splitByte_ne_nil "010" a).
  - intros E. apply map_eq_nil in E. by apply (splitByte_ne_nil "010" b).
Qed.

Lemma dedent_LF (b : string) :
  dedentChildContent (LF +:+ b) = LF +:+ dedentChildContent b.
Proof. exact (dedent_app_LF EmptyString b). Qed.

Lemma dedent_separator (prev l : bool) (b : string) :
  dedentChildContent (siblingSeparator prev l +:+ b)
  = siblingSeparator prev l +:+ dedentChildContent b.
Proof.
  unfold siblingSeparator. destruct (prev && l).
  - apply dedent_LF.
  - by rewrite !str_app_assoc, !dedent_LF.
Qed.

Lemma dedent_more (prev : bool) (rest : list (string * bool)) :
  dedentChildContent (COLUMN_BREAK +:+ moreColumns (fun c => c) prev rest)
  = COLUMN_BREAK +:+ moreColumns dedentChildContent prev rest.
Proof.
  revert prev. induction rest as [|[c l] rest IH]; intros prev; [reflexivity|].
  cbn [moreColumns].
  rewrite (dedent_app_LF COLUMN_BREAK), dedent_separator, dedent_app_LF, IH.
  reflexivity.
Qed.

Lemma moreColumns_end (p : ascii -> bool) (f : string -> string) (prev : bool)
  (rest : list (string * bool)) (x : string) :
  p "_"%char = false ->
  endsIn p (x +:+ COLUMN_BREAK +:+ moreColumns f prev rest) = false.
Proof.
  intros Hp. revert prev x. induction rest as [|[c l] rest IH]; intros prev x.
  - cbn [moreColumns]. rewrite str_app_nil_r, endsIn_app by done. exact Hp.
  - cbn [moreColumns].
    replace (x +:+ COLUMN_BREAK +:+ LF +:+ siblingSeparator prev l +:+ f c +:+ LF
             +:+ COLUMN_BREAK +:+ moreColumns f l rest)
      with ((x +:+ COLUMN_BREAK +:+ LF +:+ siblingSeparator prev l +:+ f c +:+ LF)
            +:+ COLUMN_BREAK +:+ moreColumns f l rest)
      by (by rewrite !str_app_assoc).
    apply IH.
Qed.

(** The child content of a column list, as the loop of [renderBlock]
    builds it from fragments that do not end in a newline. *)
Lemma joinChildrenFrom_columns (b : BasicBlock) (rest : list (string * bool))
  (a : string) (prev : bool) :
  forallb (fun fr => negb (endsIn (Ascii.eqb "010") (fst fr))) rest = true ->
  fst (joinChildrenFrom (ColumnListBlock b) (a +:+ LF) prev rest)
  = a +:+ moreColumns (fun c => c) prev rest +:+ LF.
Proof.
  revert a prev. induction rest as [|[c l] rest IH]; intros a prev Hend.
  - unfold joinChildrenFrom. cbn [fold_left fst moreColumns].
    by rewrite str_app_nil_l.
  - cbn [forallb fst] in Hend. apply andb_prop in Hend as [Hc Hrest].
    apply negb_true_iff in Hc.
    unfold joinChildrenFrom. cbn [fold_left fst snd].
    rewrite appendChild_eq, indentedFragment_plain by done.
    unfold strings.TrimRight. rewrite trimRightBy_id by (by rewrite <- endsIn_LF).
    rewrite str_eqb_nil_false by (by apply str_app_ne_nil_r).
    change (columnBreak (ColumnListBlock b)) with (LF +:+ COLUMN_BREAK +:+ LF).
    pose proof (IH (a +:+ LF +:+ siblingSeparator prev l +:+ c +:+ LF +:+ COLUMN_BREAK)
                   l Hrest) as E.
    unfold joinChildrenFrom in E.
    assert (Es : ((a +:+ LF) +:+ siblingSeparator prev l +:+ c)
                 +:+ LF +:+ COLUMN_BREAK +:+ LF
                 = (a +:+ LF +:+ siblingSeparator prev l +:+ c +:+ LF +:+ COLUMN_BREAK)
                   +:+ LF) by (by rewrite !str_app_assoc).
    rewrite Es, E. cbn [moreColumns]. by rewrite !str_app_assoc.
Qed.

Lemma joinChildren_columns (b : BasicBlock) (c : string) (l : bool)
  (rest : list (string * bool)) :
  forallb (fun fr => negb (endsIn (Ascii.eqb "010") (fst fr))) ((c, l) :: rest) = true ->
  strings.TrimRight (joinChildren (ColumnListBlock b) ((c, l) :: rest)) LF
  = c +:+ LF +:+ COLUMN_BREAK +:+ moreColumns (fun c => c) l rest.
Proof.
  intros Hend. cbn [forallb fst] in Hend. apply andb_prop in Hend as [Hc Hrest].
  apply negb_true_iff in Hc.
  unfold joinChildren, joinChildrenFrom. cbn [fold_left fst snd].
  rewrite appendChild_eq, indentedFragment_plain by done.
  unfold strings.TrimRight at 2. rewrite trimRightBy_id by (by rewrite <- endsIn_LF).
  cbn [String.eqb].
  change (columnBreak (ColumnListBlock b)) with (LF +:+ COLUMN_BREAK +:+ LF).
  pose proof (joinChildrenFrom_columns b rest (c +:+ LF +:+ COLUMN_BREAK) l Hrest) as E.
  unfold joinChildrenFrom in E.
  assert (Es : c +:+ LF +:+ COLUMN_BREAK +:+ LF = (c +:+ LF +:+ COLUMN_BREAK) +:+ LF)
    by (by rewrite !str_app_assoc).
  rewrite Es, E. unfold strings.TrimRight.
  rewrite <- str_app_assoc, trimRightBy_app_nil by reflexivity.
  rewrite !str_app_assoc. apply trimRightBy_id.
  rewrite <- endsIn_LF, <- (str_app_assoc c LF). by apply moreColumns_end.
Qed.

Lemma splitFrom_skip (sep a t : string) (n : nat) :
  strings.splitFrom sep n (strings.len a) (a +:+ t) = strings.splitFrom sep n 0 t.
Proof.
  induction a as [|c a IH]; [reflexivity|].
  rewrite str_app_cons. cbn [strings.len String.length strings.splitFrom]. exact IH.
Qed.

(** A match that starts before a byte the separator does not have ends
    before it. *)
Lemma HasPrefix_app_byte (a b sep : string) (c : ascii) :
  strings.Contains sep (String c EmptyString) = false ->
  strings.HasPrefix (a +:+ String c b) sep = true -> strings.HasPrefix a sep = true.
Proof.
  revert sep. induction a as [|d a IH]; intros [|e sep'] Hsep; try done.
  - rewrite Contains_byte_cons in Hsep. apply orb_false_elim in Hsep as [He _].
    rewrite str_app_nil_l. cbn [strings.HasPrefix].
    by rewrite Ascii.eqb_sym, He.
  - rewrite Contains_byte_cons in Hsep. apply orb_false_elim in Hsep as [_ Hsep].
    rewrite str_app_cons. cbn [strings.HasPrefix].
    destruct (Ascii.eqb d e); [|done]. by apply IH.
Qed.

Lemma splitFrom_step (sep r : string) (c : ascii) (cuts : nat) :
  strings.splitFrom sep (S cuts) 0 (String c r)
  = if strings.HasPrefix (String c r) sep
    then EmptyString :: strings.splitFrom sep cuts (strings.len sep - 1) r
    else match strings.splitFrom sep (S cuts) 0 r with
         | p :: ps => String c p :: ps
         | [] => [String c EmptyString]
         end.
Proof. reflexivity. Qed.

Lemma splitFrom_marker (rest : string) (cuts : nat) :
  strings.splitFrom COLUMN_BREAK (S cuts) 0 (COLUMN_BREAK +:+ rest)
  = EmptyString :: strings.splitFrom COLUMN_BREAK cuts 0 rest.
Proof.
  pose proof (HasPrefix_app COLUMN_BREAK rest) as Hp.
  change (COLUMN_BREAK +:+ rest) with (String "_" ("_COLUMN_BREAK__" +:+ rest)) in *.
  cbn [strings.splitFrom]. rewrite Hp.
  f_equal; exact (splitFrom_skip COLUMN_BREAK "_COLUMN_BREAK__" rest cuts).
Qed.

Lemma LF_cons (s : string) : LF +:+ s = String "010" s.
Proof. reflexivity. Qed.

Lemma marker_not_at_LF (s : string) :
  strings.HasPrefix (String "010" s) COLUMN_BREAK = false.
Proof. reflexivity. Qed.

Lemma marker_has_no_LF :
  strings.Contains COLUMN_BREAK (String "010" EmptyString) = false.
Proof. vm_compute. reflexivity. Qed.

Lemma Contains_cons_false (d : ascii) (x sep : string) :
  strings.Contains (String d x) sep = false ->
  strings.HasPrefix (String d x) sep = false /\ strings.Contains x sep = false.
Proof.
  cbn [strings.Contains]. destruct (strings.HasPrefix (String d x) sep); [|done].
  by destruct sep.
Qed.

(** The text before a marker that stands on a line of its own is a piece
    of the split, when the marker does not occur in it. *)
Lemma splitFrom_line (x rest : string) (cuts : nat) :
  strings.Contains x COLUMN_BREAK = false ->
  strings.splitFrom COLUMN_BREAK (S cuts) 0 (x +:+ LF +:+ COLUMN_BREAK +:+ rest)
  = (x +:+ LF) :: strings.splitFrom COLUMN_BREAK cuts 0 rest.
Proof.
  induction x as [|d x IH]; intros Hx.
  - rewrite !str_app_nil_l, LF_cons.
    rewrite splitFrom_step, marker_not_at_LF.
    by rewrite splitFrom_marker.
  - apply Contains_cons_false in Hx as [Hp Hx].
    rewrite !str_app_cons, splitFrom_step.
    destruct (strings.HasPrefix (String d (x +:+ LF +:+ COLUMN_BREAK +:+ rest))
                                COLUMN_BREAK) eqn:Hq.
    + exfalso. rewrite <- str_app_cons, LF_cons in Hq.
      apply HasPrefix_app_byte in Hq; [|exact marker_has_no_LF]. congruence.
    + by rewrite (IH Hx).
Qed.

Lemma Contains_marker_LF (y : string) :
  strings.Contains (LF +:+ y) COLUMN_BREAK = strings.Contains y COLUMN_BREAK.
Proof. reflexivity. Qed.

Lemma splitFrom_more (f : string -> string) (rest : list (string * bool))
  (prev : bool) (cuts : nat) :
  length rest <= cuts ->
  forallb (fun fr => negb (strings.Contains (f (fst fr)) COLUMN_BREAK)) rest = true ->
  strings.splitFrom COLUMN_BREAK cuts 0 (moreColumns f prev rest)
  = morePieces f prev rest.
Proof.
  revert prev cuts. induction rest as [|[c l] rest IH]; intros prev cuts Hlen Hfree.
  - by destruct cuts.
  - cbn [length] in Hlen. destruct cuts as [|n]; [lia|].
    cbn [forallb fst] in Hfree. apply andb_prop in Hfree as [Hc Hrest].
    apply negb_true_iff in Hc.
    cbn [moreColumns morePieces].
    assert (Hx : strings.Contains (LF +:+ siblingSeparator prev l +:+ f c) COLUMN_BREAK
                 = false).
    { rewrite Contains_marker_LF. unfold siblingSeparator.
      destruct (prev && l); rewrite ?str_app_assoc, ?Contains_marker_LF; exact Hc. }
    pose proof (splitFrom_line _ (moreColumns f l rest) n Hx) as E.
    rewrite !str_app_assoc in E. rewrite E, IH; [|lia|exact Hrest].
    reflexivity.
Qed.

Lemma moreColumns_length (f : string -> string) (prev : bool)
  (rest : list (string * bool)) :
  length rest <= strings.len (moreColumns f prev rest).
Proof.
  revert prev. induction rest as [|[c l] rest IH]; intros prev; [cbn; lia|].
  cbn [moreColumns length]. rewrite !str_len_app. specialize (IH l).
  change (strings.len LF) with 1. lia.
Qed.

Lemma TrimSpace_app_LF (y : string) :
  strings.TrimSpace (y +:+ LF) = strings.TrimSpace y.
Proof. exact (TrimSpace_snoc_space y "010" eq_refl). Qed.

Lemma TrimSpace_piece (prev l : bool) (d : string) :
  strings.TrimSpace (LF +:+ siblingSeparator prev l +:+ d +:+ LF)
  = strings.TrimSpace d.
Proof.
  unfold siblingSeparator.
  destruct (prev && l); rewrite ?str_app_assoc;
    change (LF +:+ ?s) with (String "010" s);
    rewrite !TrimSpace_cons_space by reflexivity; apply TrimSpace_app_LF.
Qed.

Lemma TrimSpace_morePieces (f : string -> string) (prev : bool)
  (rest : list (string * bool)) :
  map strings.TrimSpace (morePieces f prev rest)
  = map (fun fr => strings.TrimSpace (f (fst fr))) rest ++ [EmptyString].
Proof.
  revert prev. induction rest as [|[c l] rest IH]; intros prev; [reflexivity|].
  cbn [morePieces map fst app]. by rewrite TrimSpace_piece, IH.
Qed.

(** A text that ends in an ASCII byte that is no white space is not
    blank. *)
Lemma TrimSpace_ne (s : string) :
  s <> EmptyString -> endsIn (fun c => nonASCII c || isSpaceByte c) s = false ->
  strings.TrimSpace s <> EmptyString.
Proof.
  intros Hs Hend. destruct (str_snoc s Hs) as (q & c & ->).
  rewrite endsIn_snoc in Hend. apply orb_false_elim in Hend as [Hc Hsp].
  rewrite (TrimSpace_snoc_keep q c Hc Hsp). by apply str_app_ne_nil_r.
Qed.

Lemma Join_concatAll (l : list string) : strings.Join l EmptyString = concatAll l.
Proof.
  induction l as [|x l IH]; [reflexivity|]. destruct l as [|y l'].
  - cbn. by rewrite str_app_nil_r.
  - rewrite Join_cons by done. rewrite IH. reflexivity.
Qed.

Lemma Split_marker (s : string) :
  strings.Split s COLUMN_BREAK = strings.splitFrom COLUMN_BREAK (strings.len s) 0 s.
Proof. reflexivity. Qed.

(** X29: a column list turns its columns into the cells of a one-row HTML
    table, in order: each cell holds the fragment of one column, dedented
    and trimmed, and a column whose fragment is blank gives no cell; with no
    cell left the block is empty.  This holds when no fragment ends in a
    newline (as the fragments of [renderBlock] never do) and none contains
    the marker line the renderer puts between the columns. *)
Theorem columns_become_cells (b : BasicBlock) (frs : list (string * bool)) :
  forallb (fun fr => negb (endsIn (Ascii.eqb "010") (fst fr))) frs = true ->
  forallb (fun fr => negb (strings.Contains (dedentChildContent (fst fr)) COLUMN_BREAK))
          frs = true ->
  columnListToMarkdown
    (strings.TrimRight (joinChildren (ColumnListBlock b) frs) LF)
  = match filter (fun p => negb (String.eqb p EmptyString))
                 (map (fun fr => strings.TrimSpace (dedentChildContent (fst fr))) frs)
    with
    | [] => EmptyString
    | cells => "<table><tr>" +:+ concatAll (map columnCell cells) +:+ "</tr></table>"
    end.
Proof.
  intros Hend Hfree. destruct frs as [|[c l] rest]; [reflexivity|].
  rewrite (joinChildren_columns b c l rest Hend).
  cbn [forallb fst] in Hfree. apply andb_prop in Hfree as [Hc Hrest].
  apply negb_true_iff in Hc.
  unfold columnListToMarkdown.
  destruct (String.eqb_spec
              (strings.TrimSpace (c +:+ LF +:+ COLUMN_BREAK
                                  +:+ moreColumns (fun c => c) l rest))
              EmptyString) as [E|_].
  { exfalso. revert E. apply TrimSpace_ne.
    - by destruct c.
    - rewrite <- (str_app_assoc c LF). by apply moreColumns_end. }
  rewrite dedent_app_LF, dedent_more.
  assert (Hsplit : strings.Split (dedentChildContent c +:+ LF +:+ COLUMN_BREAK
                     +:+ moreColumns dedentChildContent l rest) COLUMN_BREAK
                   = (dedentChildContent c +:+ LF)
                     :: morePieces dedentChildContent l rest).
  { rewrite Split_marker.
    pose proof (moreColumns_length dedentChildContent l rest) as Hlen.
    destruct (strings.len (_ +:+ _)) as [|n] eqn:En.
    - rewrite !str_len_app in En. change (strings.len COLUMN_BREAK) with 16 in En. lia.
    - rewrite splitFrom_line by exact Hc. f_equal.
      apply splitFrom_more; [|exact Hrest].
      rewrite !str_len_app in En. change (strings.len COLUMN_BREAK) with 16 in En.
      lia. }
  rewrite Hsplit. cbn [map fst].
  rewrite TrimSpace_app_LF, TrimSpace_morePieces.
  change (strings.TrimSpace (dedentChildContent c)
          :: map (fun fr => strings.TrimSpace (dedentChildContent fr.1)) rest
             ++ [EmptyString])
    with ((strings.TrimSpace (dedentChildContent c)
           :: map (fun fr => strings.TrimSpace (dedentChildContent fr.1)) rest)
          ++ [EmptyString]).
  rewrite filter_app.
  change (filter (fun p => negb (String.eqb p EmptyString)) [EmptyString])
    with (@nil string).
  rewrite app_nil_r.
  destruct (filter _ _) as [|cell cells]; [reflexivity|].
  by rewrite Join_concatAll.
Qed.

Lemma columns_become_cells_witness :
  columnListToMarkdown
    (strings.TrimRight
       (joinChildren (ColumnListBlock (mkBasic "columns" true))
          [("left", false); (EmptyString, false); ("- a" +:+ LF +:+ "- b", true)])
       LF)
  = "<table><tr><td>" +:+ LF +:+ LF +:+ "left" +:+ LF +:+ "</td><td>" +:+ LF +:+ LF
    +:+ "- a" +:+ LF +:+ "- b" +:+ LF +:+ "</td></tr></table>".
Proof.
  rewrite (columns_become_cells (mkBasic "columns" true)
             [("left", false); (EmptyString, false); ("- a" +:+ LF +:+ "- b", true)]).
  - vm_compute. reflexivity.
  - vm_compute. reflexivity.
  - vm_compute. reflexivity.
Defined.

(* ===================================================================== *)
(** * Tables: from the rows to the Markdown                               *)
(* ===================================================================== *)

Lemma Join_concat (l : string) (ls : list string) (sep : string) :
  strings.Join (l :: ls) sep = l +:+ concatAll (map (fun x => sep +:+ x) ls).
Proof.
  revert l. induction ls as [|l' ls IH]; intros l.
  - cbn [strings.Join map concatAll foldr]. by rewrite str_app_nil_r.
  - rewrite Join_cons by done. rewrite (IH l'). cbn [map concatAll foldr].
    by rewrite !str_app_assoc.
Qed.

Lemma Contains_byte_Join (c : ascii) (ls : list string) (sep : string) :
  strings.Contains sep (String c EmptyString) = false ->
  Forall (fun l => strings.Contains l (String c EmptyString) = false) ls ->
  strings.Contains (strings.Join ls sep) (String c EmptyString) = false.
Proof.
  intros Hsep Hls. induction Hls as [|l ls Hl Hls IH]; [reflexivity|].
  destruct ls as [|l' ls']; [exact Hl|].
  rewrite Join_cons by done. by rewrite !Contains_byte_app, Hl, Hsep.
Qed.

Lemma Contains_byte_endsIn (c : ascii) (s : string) :
  strings.Contains s (String c EmptyString) = false -> endsIn (Ascii.eqb c) s = false.
Proof.
  induction s as [|d r IH]; [reflexivity|]. rewrite Contains_byte_cons.
  intros [Hd Hr]%orb_false_elim. cbn [endsIn].
  destruct r as [|e r']; [by rewrite Ascii.eqb_sym|]. by apply IH.
Qed.

(** A text that [strings.TrimSpace] leaves as it is does not start with
    white space. *)
Lemma TrimSpace_fixed_head (d : ascii) (r : string) :
  strings.TrimSpace (String d r) = String d r -> isSpaceByte d = false.
Proof.
  intros Hfix. destruct (TrimSpace_starts (String d r)) as [E|E];
    rewrite Hfix in E; [discriminate|].
  unfold isSpaceByte. destruct (nonASCII d) eqn:Hd; [apply andb_false_r|].
  rewrite (DecodeRune_ASCII d r Hd) in E. cbn [fst] in E. by rewrite E.
Qed.

Lemma rowLine_not_indented (row : list string) :
  Forall (fun c => strings.TrimSpace c = c) row ->
  strings.HasPrefix (strings.Join row " | ") "    " = false.
Proof.
  intros Htrim. destruct row as [|c cells]; [reflexivity|].
  rewrite Join_concat. inversion Htrim as [|? ? Hc _]; subst.
  destruct c as [|d r].
  - rewrite str_app_nil_l. by destruct cells.
  - rewrite str_app_cons. cbn [strings.HasPrefix].
    destruct (Ascii.eqb_spec d " ") as [->|]; [|reflexivity].
    apply TrimSpace_fixed_head in Hc. discriminate Hc.
Qed.

Lemma rowLine_not_blank (row : list string) :
  Forall (fun c => strings.TrimSpace c = c) row -> blankRow row = false ->
  strings.TrimSpace (strings.Join row " | ") <> EmptyString.
Proof.
  intros Htrim Hblank. destruct row as [|c [|c' cells]]; [discriminate| |].
  - cbn [strings.Join]. inversion Htrim as [|? ? Hc _]; subst. rewrite Hc.
    cbn [blankRow] in Hblank. by apply String.eqb_neq.
  - apply (Contains_ne _ "|"); [done|].
    apply TrimSpace_keeps_byte; [reflexivity|reflexivity|].
    rewrite Join_cons by done. rewrite !Contains_byte_app.
    change (strings.Contains " | " "|") with true. by rewrite orb_true_r.
Qed.

Lemma HasPrefix_Contains_bar (s : string) :
  strings.HasPrefix s " | " = true -> strings.Contains s "|" = true.
Proof.
  intros Hp. rewrite (HasPrefix_spec _ _ Hp). reflexivity.
Qed.

Lemma Contains_cell_bar (s : string) :
  strings.Contains s "|" = false -> strings.Contains s " | " = false.
Proof.
  induction s as [|d r IH]; [reflexivity|]. rewrite Contains_byte_cons.
  intros [Hd Hr]%orb_false_elim. cbn [strings.Contains].
  destruct (strings.HasPrefix (String d r) " | ") eqn:Hp; [|by apply IH].
  apply HasPrefix_Contains_bar in Hp. rewrite Contains_byte_cons, Hd, Hr in Hp.
  discriminate.
Qed.

Lemma splitFrom_cell_whole (c : string) (cuts : nat) :
  strings.Contains c "|" = false -> strings.splitFrom " | " cuts 0 c = [c].
Proof.
  induction c as [|d r IH]; [reflexivity|]. intros Hc.
  destruct cuts as [|n]; [reflexivity|]. cbn [strings.splitFrom].
  destruct (strings.HasPrefix (String d r) " | ") eqn:Hp.
  { apply HasPrefix_Contains_bar in Hp. rewrite Hp in Hc. discriminate. }
  rewrite Contains_byte_cons in Hc. apply orb_false_elim in Hc as [_ Hr].
  by rewrite (IH Hr).
Qed.

(** The first cut of a row falls behind its first cell, whatever the cell
    ends in. *)
Lemma splitFrom_cell (c rest : string) (cuts : nat) :
  strings.Contains c "|" = false ->
  strings.splitFrom " | " (S cuts) 0 (c +:+ " | " +:+ rest)
  = c :: strings.splitFrom " | " cuts 0 rest.
Proof.
  induction c as [|d r IH]; intros Hc.
  - rewrite str_app_nil_l. reflexivity.
  - rewrite Contains_byte_cons in Hc. apply orb_false_elim in Hc as [Hd Hr].
    rewrite str_app_cons. cbn [strings.splitFrom].
    assert (Hp : strings.HasPrefix (String d (r +:+ " | " +:+ rest)) " | " = false).
    { cbn [strings.HasPrefix]. destruct (Ascii.eqb_spec d " ") as [->|]; [|reflexivity].
      destruct r as [|e r']; [reflexivity|].
      rewrite Contains_byte_cons in Hr. apply orb_false_elim in Hr as [He _].
      rewrite str_app_cons. cbn [strings.HasPrefix]. by rewrite He. }
    by rewrite Hp, (IH Hr).
Qed.

Lemma Join_length_bound (cols : list string) (sep : string) :
  sep <> EmptyString -> length cols <= S (strings.len (strings.Join cols sep)).
Proof.
  intros Hsep. induction cols as [|c cols IH]; [cbn; lia|].
  destruct cols as [|c' cols']; [cbn; lia|].
  rewrite Join_cons by done. rewrite !str_len_app.
  cbn [length] in *. destruct sep; [done|]. cbn [strings.len String.length]. lia.
Qed.

(** Splitting a row around [" | "] gives its cells back. *)
Lemma splitFrom_row (cols : list string) (cuts : nat) :
  cols <> [] -> length cols <= S cuts ->
  Forall (fun c => strings.Contains c "|" = false) cols ->
  strings.splitFrom " | " cuts 0 (strings.Join cols " | ") = cols.
Proof.
  revert cuts. induction cols as [|c cols IH]; [done|].
  intros cuts _ Hlen Hbar. inversion Hbar as [|? ? Hc Hbar']; subst.
  destruct cols as [|c' cols']; [by apply splitFrom_cell_whole|].
  rewrite Join_cons by done.
  destruct cuts as [|n]; [cbn [length] in Hlen; lia|].
  rewrite (splitFrom_cell c _ n Hc), IH; try done.
  cbn [length] in *. lia.
Qed.

Lemma Contains_Join_sep (c : string) (cols : list string) (sep : string) :
  cols <> [] -> strings.Contains (strings.Join (c :: cols) sep) sep = true.
Proof.
  intros Hne. rewrite Join_cons by done.
  induction c as [|d c IH].
  - rewrite str_app_nil_l.
    destruct (sep +:+ strings.Join cols sep) eqn:E;
      cbn [strings.Contains]; rewrite <- E, HasPrefix_app; reflexivity.
  - rewrite str_app_cons. cbn [strings.Contains]. rewrite IH.
    by destruct (strings.HasPrefix _ sep).
Qed.

(** The table parser reads the line of a row back as its cells. *)
Lemma tableParseLine_row (row : list string) :
  row <> [] ->
  Forall (fun c => strings.TrimSpace c = c) row ->
  Forall (fun c => strings.Contains c "|" = false) row ->
  tableParseLine (strings.Join row " | ") = row.
Proof.
  intros Hne Htrim Hbar.
  assert (Hmap : map strings.TrimSpace row = row).
  { clear Hne Hbar. induction Htrim as [|c cs Hc _ IH]; [reflexivity|].
    cbn [map]. by rewrite Hc, IH. }
  unfold tableParseLine. destruct row as [|c [|c' cols']]; [done| |].
  - cbn [strings.Join]. inversion Hbar as [|? ? Hc _]; subst.
    rewrite (Contains_cell_bar _ Hc), Split_byte, (splitByte_whole _ _ Hc).
    exact Hmap.
  - rewrite Contains_Join_sep by done. unfold strings.Split.
    rewrite splitFrom_row; [exact Hmap|done| |exact Hbar].
    apply Join_length_bound. discriminate.
Qed.

(** The rows of a table under their parent: the lines, a blank line between
    each two. *)
Lemma joinChildrenFrom_lines (parent : Block) (lines : list string)
  (childContent : string) (prev : bool) :
  isListLike parent = false -> isColumnListBlock parent = false ->
  childContent <> EmptyString ->
  Forall (fun l => endsIn (Ascii.eqb "010") l = false) lines ->
  fst (joinChildrenFrom parent childContent prev
         (map (fun l => (strings.TrimRight l LF, false)) lines))
  = childContent +:+ concatAll (map (fun l => (LF +:+ LF) +:+ l) lines).
Proof.
  intros Hlist Hcol Hne Hend. revert childContent prev Hne.
  induction Hend as [|l ls Hl _ IH]; intros childContent prev Hne.
  - cbn. by rewrite str_app_nil_r.
  - unfold joinChildrenFrom in *. cbn [map fold_left fst snd].
    rewrite appendChild_eq, indentedFragment_plain by exact Hlist.
    unfold columnBreak. rewrite Hcol, str_app_nil_r.
    apply String.eqb_neq in Hne. rewrite Hne.
    assert (Hfix : strings.TrimRight l LF = l).
    { apply trimRightBy_id. by rewrite <- endsIn_LF. }
    rewrite !Hfix. unfold siblingSeparator. rewrite andb_false_r.
    rewrite IH.
    + cbn [map concatAll foldr]. by rewrite !str_app_assoc.
    + rewrite str_app_assoc. apply str_app_ne_nil_r. discriminate.
Qed.

Lemma joinChildren_lines (parent : Block) (first : string) (rest : list string) :
  isListLike parent = false -> isColumnListBlock parent = false ->
  first <> EmptyString ->
  Forall (fun l => endsIn (Ascii.eqb "010") l = false) (first :: rest) ->
  joinChildren parent (map (fun l => (strings.TrimRight l LF, false)) (first :: rest))
  = strings.Join (first :: rest) (LF +:+ LF).
Proof.
  intros Hlist Hcol Hne Hend. inversion Hend as [|? ? Hf Hrest]; subst.
  assert (Hfix : strings.TrimRight first LF = first).
  { apply trimRightBy_id. by rewrite <- endsIn_LF. }
  unfold joinChildren, joinChildrenFrom. cbn [map fold_left fst snd].
  rewrite appendChild_eq, indentedFragment_plain by exact Hlist.
  unfold columnBreak. rewrite Hcol, str_app_nil_r. cbn [String.eqb].
  rewrite !Hfix.
  pose proof (joinChildrenFrom_lines parent rest first false Hlist Hcol Hne Hrest) as E.
  unfold joinChildrenFrom in E. rewrite E. by rewrite Join_concat.
Qed.

Lemma concatAll_blank_lines (rest : list string) :
  concatAll (map (fun l => (LF +:+ LF) +:+ l) rest)
  = concatAll (map (fun l => LF +:+ l) (flat_map (fun l => [EmptyString; l]) rest)).
Proof.
  induction rest as [|l rest IH]; [reflexivity|].
  cbn [map flat_map app]. unfold concatAll in *. cbn [foldr]. rewrite <- IH.
  reflexivity.
Qed.

(** A blank line between the lines is an empty line among them. *)
Lemma Join_blank_lines (first : string) (rest : list string) :
  strings.Join (first :: rest) (LF +:+ LF)
  = strings.Join (first :: flat_map (fun l => [EmptyString; l]) rest) LF.
Proof. by rewrite !Join_concat, concatAll_blank_lines. Qed.

Lemma splitByte_lines (first : string) (rest : list string) :
  Forall (fun l => strings.Contains l LF = false) (first :: rest) ->
  splitByte "010" (strings.Join (first :: rest) (LF +:+ LF))
  = first :: flat_map (fun l => [EmptyString; l]) rest.
Proof.
  intros Hfree. rewrite Join_blank_lines. apply splitByte_Join; [done|].
  inversion Hfree as [|? ? Hf Hrest]; subst. constructor; [exact Hf|].
  clear Hfree Hf. induction Hrest as [|l ls Hl _ IH]; [constructor|].
  cbn [flat_map app]. constructor; [reflexivity|]. by constructor.
Qed.

Lemma dedent_rows (first : string) (rest : list string) :
  Forall (fun l => strings.Contains l LF = false) (first :: rest) ->
  Forall (fun l => strings.HasPrefix l "    " = false) (first :: rest) ->
  dedentChildContent (strings.Join (first :: rest) (LF +:+ LF))
  = strings.Join (first :: rest) (LF +:+ LF).
Proof.
  intros Hfree Hflush. rewrite dedent_lines, (splitByte_lines _ _ Hfree).
  rewrite Join_blank_lines. f_equal.
  inversion Hflush as [|? ? Hf Hrest]; subst. cbn [map]. rewrite Hf. f_equal.
  clear Hfree Hflush Hf. induction Hrest as [|l ls Hl _ IH]; [reflexivity|].
  cbn [flat_map app map]. change (strings.HasPrefix EmptyString "    ") with false.
  cbv iota. by rewrite Hl, IH.
Qed.

Lemma startsASCII_app (a b : string) :
  startsASCII a = true -> startsASCII b = true -> startsASCII (a +:+ b) = true.
Proof. by destruct a. Qed.

Lemma endsIn_app_false (p : ascii -> bool) (a b : string) :
  endsIn p a = false -> endsIn p b = false -> endsIn p (a +:+ b) = false.
Proof.
  intros Ha Hb. destruct b as [|c b']; [by rewrite str_app_nil_r|].
  by rewrite endsIn_app.
Qed.

(** What follows the first of the joined texts starts with the separator,
    what stands before the last ends with it. *)
Lemma Join_head (a : string) (ls : list string) (sep : string) :
  sep <> EmptyString -> startsASCII sep = true ->
  exists t, strings.Join (a :: ls) sep = a +:+ t /\ startsASCII t = true.
Proof.
  intros Hne Hsep. rewrite Join_concat. eexists. split; [reflexivity|].
  destruct ls as [|l ls']; [reflexivity|]. cbn [map concatAll foldr].
  by destruct sep.
Qed.

Lemma Join_tail (ls : list string) (sep : string) :
  ls <> [] -> sep <> EmptyString -> endsIn nonASCII sep = false ->
  exists t, strings.Join ls sep = t +:+ List.last ls EmptyString
            /\ endsIn nonASCII t = false.
Proof.
  intros Hls Hne Hsep. induction ls as [|l ls IH]; [done|].
  destruct ls as [|l' ls'].
  - exists EmptyString. by split.
  - destruct IH as (t & E & Ht); [done|]. rewrite Join_cons by done. rewrite E.
    exists (l +:+ sep +:+ t). split.
    + change (List.last (l :: l' :: ls') EmptyString)
        with (List.last (l' :: ls') EmptyString).
      by rewrite !str_app_assoc.
    + rewrite <- str_app_assoc. apply endsIn_app_false; [|exact Ht].
      by rewrite endsIn_app.
Qed.

Lemma tableParse_lines (first : string) (rest : list string) :
  Forall (fun l => strings.TrimSpace l <> EmptyString) (first :: rest) ->
  tableParse (first :: flat_map (fun l => [EmptyString; l]) rest)
  = map tableParseLine (first :: rest).
Proof.
  intros Hkeep. unfold tableParse. f_equal.
  assert (Hin : forall l : string, strings.TrimSpace l <> EmptyString ->
                  Is_true (negb (String.eqb (strings.TrimSpace l) EmptyString))).
  { intros l Hl. apply String.eqb_neq in Hl. by rewrite Hl. }
  inversion Hkeep as [|? ? Hf Hrest]; subst.
  rewrite filter_cons_True by by apply Hin. f_equal.
  clear Hkeep Hf. induction Hrest as [|l ls Hl _ IH]; [reflexivity|].
  cbn [flat_map app]. rewrite filter_cons_False by (intros Hno; exact Hno).
  rewrite filter_cons_True by by apply Hin. by rewrite IH.
Qed.

Lemma last_map {A B : Type} (f : A -> B) (l : list A) (d : A) :
  List.last (map f l) (f d) = f (List.last l d).
Proof.
  induction l as [|x l IH]; [reflexivity|]. destruct l as [|y l']; [reflexivity|].
  exact IH.
Qed.

Lemma Forall_last {A : Type} (P : A -> Prop) (l : list A) (d : A) :
  Forall P l -> l <> [] -> P (List.last l d).
Proof.
  intros Hl Hne. induction Hl as [|x l Hx Hl IH]; [done|].
  destruct l as [|y l']; [exact Hx|]. by apply IH.
Qed.

Lemma plainCell_spec (c : string) :
  plainCell c = true ->
  strings.Contains c "|" = false /\ strings.Contains c LF = false.
Proof.
  unfold plainCell. intros [Hbar Hlf]%andb_prop.
  by apply negb_true_iff in Hbar, Hlf.
Qed.

(** The line of a row that is trimmed, plain and not blank. *)
Lemma rowLine_facts (row : list string) :
  Forall (fun c => strings.TrimSpace c = c) row ->
  negb (blankRow row) && forallb plainCell row = true ->
  strings.Contains (strings.Join row " | ") LF = false
  /\ strings.HasPrefix (strings.Join row " | ") "    " = false
  /\ strings.TrimSpace (strings.Join row " | ") <> EmptyString
  /\ tableParseLine (strings.Join row " | ") = row.
Proof.
  intros Htrim [Hblank Hplain]%andb_prop. apply negb_true_iff in Hblank.
  assert (Hcells : Forall (fun c => strings.Contains c "|" = false
                                    /\ strings.Contains c LF = false) row).
  { apply Forall_forall. intros c Hin. apply plainCell_spec.
    rewrite forallb_forall in Hplain. apply Hplain. by apply list_elem_of_In. }
  split; [|split; [|split]].
  - apply Contains_byte_Join; [reflexivity|].
    eapply Forall_impl; [exact Hcells|]. by intros c [_ Hc].
  - by apply rowLine_not_indented.
  - by apply rowLine_not_blank.
  - apply tableParseLine_row; [by destruct row|exact Htrim|].
    eapply Forall_impl; [exact Hcells|]. by intros c [Hc _].
Qed.

(** The text of the rows of a table is left as it is by
    [strings.TrimSpace] when its first and its last cell are not empty. *)
Lemma TrimSpace_rows (rows : list (list string)) :
  Forall (Forall (fun c => strings.TrimSpace c = c)) rows ->
  hd EmptyString (hd [] rows) <> EmptyString ->
  List.last (List.last rows []) EmptyString <> EmptyString ->
  strings.TrimSpace
    (strings.Join (map (fun row => strings.Join row " | ") rows) (LF +:+ LF))
  = strings.Join (map (fun row => strings.Join row " | ") rows) (LF +:+ LF).
Proof.
  intros Htrim Hfirst Hlast.
  destruct rows as [|[|a cells] others]; [done|done|].
  cbn [hd] in Hfirst.
  set (rows := (a :: cells) :: others) in *.
  set (z := List.last (List.last rows []) EmptyString) in *.
  set (content := strings.Join _ (LF +:+ LF)).
  assert (Hrow : List.last rows [] <> []).
  { intros E. subst z. by rewrite E in Hlast. }
  assert (Ha : strings.TrimSpace a = a).
  { inversion Htrim as [|? ? Hr _]; subst. by inversion Hr. }
  assert (Hz : strings.TrimSpace z = z).
  { subst z. apply (Forall_last (fun c => strings.TrimSpace c = c)); [|exact Hrow].
    by apply (Forall_last (Forall (fun c => strings.TrimSpace c = c))). }
  assert (Hhead : exists t, content = a +:+ t /\ startsASCII t = true).
  { subst content rows. cbn [map].
    destruct (Join_head (strings.Join (a :: cells) " | ")
                (map (fun row => strings.Join row " | ") others) (LF +:+ LF))
      as (t2 & E2 & H2); [done|reflexivity|].
    destruct (Join_head a cells " | ") as (t1 & E1 & H1); [done|reflexivity|].
    exists (t1 +:+ t2). split; [|by apply startsASCII_app].
    by rewrite E2, E1, str_app_assoc. }
  assert (Htail : exists t, content = t +:+ z /\ endsIn nonASCII t = false).
  { subst content.
    destruct (Join_tail (map (fun row => strings.Join row " | ") rows) (LF +:+ LF))
      as (t2 & E2 & H2); [done|done|reflexivity|].
    assert (El : List.last (map (fun row => strings.Join row " | ") rows) EmptyString
                 = strings.Join (List.last rows []) " | ")
      by exact (last_map (fun row => strings.Join row " | ") rows []).
    rewrite El in E2.
    destruct (Join_tail (List.last rows []) " | ") as (t1 & E1 & H1);
      [exact Hrow|done|reflexivity|].
    exists (t2 +:+ t1). split; [|by apply endsIn_app_false].
    by rewrite E2, E1, str_app_assoc. }
  destruct Hhead as (t & Et & Hstart). destruct Htail as (t' & Et' & Hend).
  rewrite Et. apply (TrimSpace_between a z t t'); try done.
  by rewrite <- Et.
Qed.

Lemma readableRows_spec (rows : list (list string)) :
  readableRows rows = true ->
  Forall (fun row => negb (blankRow row) && forallb plainCell row = true) rows
  /\ hd EmptyString (hd [] rows) <> EmptyString
  /\ List.last (List.last rows []) EmptyString <> EmptyString.
Proof.
  unfold readableRows. intros [[Hrows Hfirst]%andb_prop Hlast]%andb_prop.
  apply negb_true_iff, String.eqb_neq in Hfirst, Hlast.
  split; [|by split]. apply Forall_forall. intros row Hin.
  rewrite forallb_forall in Hrows. apply Hrows. by apply list_elem_of_In.
Qed.

(** The table formatter reads the rows back from the text their lines are
    joined to. *)
Lemma tableRows_rows (parent : Block) (rows : list (list string)) :
  isListLike parent = false -> isColumnListBlock parent = false ->
  Forall (Forall (fun c => strings.TrimSpace c = c)) rows ->
  readableRows rows = true ->
  tableRows
    (strings.TrimRight
       (joinChildren parent
          (map (fun row => (strings.TrimRight (strings.Join row " | ") LF, false)) rows))
       LF)
  = rows.
Proof.
  intros Hlist Hcol Htrim Hread.
  destruct (readableRows_spec rows Hread) as (Hrows & Hfirst & Hlast).
  pose (line := fun row : list string => strings.Join row " | ").
  assert (Hfacts : Forall (fun row =>
              strings.Contains (line row) LF = false
              /\ strings.HasPrefix (line row) "    " = false
              /\ strings.TrimSpace (line row) <> EmptyString
              /\ tableParseLine (line row) = row) rows).
  { apply Forall_forall. intros row Hin. apply rowLine_facts.
    - rewrite Forall_forall in Htrim. by apply Htrim.
    - rewrite Forall_forall in Hrows. by apply Hrows. }
  assert (Hparse : map tableParseLine (map line rows) = rows).
  { clear -Hfacts. induction Hfacts as [|row rows (_ & _ & _ & Hrow) _ IH];
      [reflexivity|]. cbn [map]. by rewrite Hrow, IH. }
  assert (Hlines : Forall (fun l =>
              strings.Contains l LF = false
              /\ strings.HasPrefix l "    " = false
              /\ strings.TrimSpace l <> EmptyString) (map line rows)).
  { apply List.Forall_map. eapply Forall_impl; [exact Hfacts|].
    intros row (H1 & H2 & H3 & _). by repeat split. }
  assert (Hspace : strings.TrimSpace (strings.Join (map line rows) (LF +:+ LF))
                   = strings.Join (map line rows) (LF +:+ LF))
    by by apply TrimSpace_rows.
  assert (Hfrs : map (fun row => (strings.TrimRight (strings.Join row " | ") LF, false))
                     rows
                 = map (fun l => (strings.TrimRight l LF, false)) (map line rows))
    by by rewrite map_map.
  rewrite Hfrs. clear Hfrs Hfacts Hrows Htrim Hread Hfirst Hlast.
  rewrite <- Hparse at 2. clear Hparse.
  destruct (map line rows) as [|first rest]; [by destruct rows|].
  assert (Hfree : Forall (fun l => strings.Contains l LF = false) (first :: rest)).
  { eapply Forall_impl; [exact Hlines|]. by intros l (H1 & _). }
  assert (Hflush : Forall (fun l => strings.HasPrefix l "    " = false) (first :: rest)).
  { eapply Forall_impl; [exact Hlines|]. by intros l (_ & H2 & _). }
  assert (Hkeep : Forall (fun l => strings.TrimSpace l <> EmptyString) (first :: rest)).
  { eapply Forall_impl; [exact Hlines|]. by intros l (_ & _ & H3). }
  assert (Hne : Forall (fun l => l <> EmptyString) (first :: rest)).
  { eapply Forall_impl; [exact Hkeep|]. intros l Hl ->. by apply Hl. }
  assert (Hend : Forall (fun l => endsIn (Ascii.eqb "010") l = false) (first :: rest)).
  { eapply Forall_impl; [exact Hfree|]. intros l Hl. by apply Contains_byte_endsIn. }
  rewrite joinChildren_lines; [|exact Hlist|exact Hcol| |exact Hend].
  2: { by inversion Hne. }
  assert (Htrim : strings.TrimRight (strings.Join (first :: rest) (LF +:+ LF)) LF
                  = strings.Join (first :: rest) (LF +:+ LF)).
  { apply trimRightBy_id. rewrite <- endsIn_LF.
    destruct (Join_last (first :: rest) (LF +:+ LF)) as [pre E]; [done| |].
    - by apply (Forall_last (fun l => l <> EmptyString)).
    - rewrite E, endsIn_app.
      + by apply (Forall_last (fun l => endsIn (Ascii.eqb "010") l = false)).
      + by apply (Forall_last (fun l => l <> EmptyString)). }
  rewrite Htrim. unfold tableRows.
  rewrite (dedent_rows _ _ Hfree Hflush), Hspace.
  change (strings.Split ?s LF) with (strings.Split s (String "010" EmptyString)).
  rewrite Split_byte.
  rewrite (splitByte_lines _ _ Hfree). by apply tableParse_lines.
Qed.

Lemma tableToMarkdown_text (hasColumnHeader : bool) (childContent : string)
  (rows : list (list string)) :
  tableRows childContent = rows -> rows <> [] ->
  tableToMarkdown hasColumnHeader childContent = tableText hasColumnHeader rows.
Proof.
  intros Hrows Hne. destruct rows as [|header others]; [done|].
  unfold tableText. destruct hasColumnHeader.
  - destruct (tableToMarkdown_header childContent header others Hrows) as [E _].
    rewrite E. cbn [map]. rewrite Join_concat. cbn [map concatAll foldr].
    by rewrite map_map, !str_app_assoc.
  - unfold tableToMarkdown. unfold tableRows in Hrows.
    destruct (String.eqb_spec (strings.TrimSpace (dedentChildContent childContent))
                              EmptyString) as [E|_].
    { rewrite E in Hrows. discriminate Hrows. }
    destruct (strings.Split _ LF) as [|l ls] eqn:El; [discriminate Hrows|].
    rewrite Hrows, tableMaxCols_width. f_equal.
    apply map_ext. intros cells. apply tableNormalize_formatRow.
Qed.

Lemma tableText_end (hasColumnHeader : bool) (rows : list (list string)) :
  endsIn (Ascii.eqb "010") (tableText hasColumnHeader rows) = false.
Proof.
  assert (Hrow : forall cells, formatRow cells <> EmptyString
                               /\ endsIn (Ascii.eqb "010") (formatRow cells) = false).
  { intros cells. unfold formatRow. split; [done|].
    by rewrite <- str_app_assoc, endsIn_app. }
  assert (Hjoin : forall ls : list string,
             Forall (fun l => l <> EmptyString
                              /\ endsIn (Ascii.eqb "010") l = false) ls ->
             endsIn (Ascii.eqb "010") (strings.Join ls LF) = false).
  { intros ls Hls. destruct ls as [|l ls']; [reflexivity|].
    pose proof (Forall_last _ (l :: ls') EmptyString Hls ltac:(done)) as [Hl He].
    destruct (Join_last (l :: ls') LF) as [pre E]; [done|exact Hl|].
    by rewrite E, endsIn_app. }
  assert (Hall : forall width (rs : list (list string)),
             Forall (fun l => l <> EmptyString
                              /\ endsIn (Ascii.eqb "010") l = false)
                    (map (fun row => formatRow (padRow width row)) rs)).
  { intros width rs. apply List.Forall_map, Forall_forall. intros row _. apply Hrow. }
  unfold tableText. destruct hasColumnHeader; [|apply Hjoin, Hall].
  destruct rows as [|header others]; [reflexivity|]. cbn [map].
  apply Hjoin. constructor; [apply Hrow|]. constructor; [apply Hrow|apply Hall].
Qed.

Lemma tableRowToMarkdown_cols (cells : list (list RichText))
  (resolve : option (string -> string)) :
  tableRowToMarkdown cells resolve = strings.Join (rowCols resolve cells) " | ".
Proof. by destruct cells. Qed.

Lemma rowCols_trimmed (cells : list (list RichText))
  (resolve : option (string -> string)) :
  Forall (fun c => strings.TrimSpace c = c) (rowCols resolve cells).
Proof.
  apply List.Forall_map, Forall_forall. intros cell _. apply TrimSpace_idempotent.
Qed.

Section TableFacts.
Context `{Library} {W : Type} `{Platform W}.

Lemma flatFragments_rows (r : Renderer) (resolver : option (string -> string))
  (articlePath : string) (rows : list (BasicBlock * list (list RichText))) (w : W) :
  flatFragments r resolver articlePath
    (map (fun row => TableRowBlock (fst row) (snd row)) rows) w
  = (map (fun row => (strings.TrimRight (tableRowToMarkdown (snd row) resolver) LF,
                      false)) rows,
     w).
Proof.
  induction rows as [|row rows IH]; [reflexivity|].
  cbn [map flatFragments blockToMarkdownWithCache]. rewrite run_ret.
  cbn [fst snd]. by rewrite IH.
Qed.

(** X22: a table block whose children are rows is rendered as the Markdown
    table of the texts of their cells, each text trimmed: one line per row,
    every row padded with empty cells to the width of the widest, and with
    the column-header flag a separator row beneath the first.  This holds
    when no cell text contains a vertical bar or a newline, no row is
    without cells or a single empty cell, and the first cell of the first
    row and the last cell of the last row are not empty.  The callback is
    called once, for the table. *)
Theorem table_of_rows (r : Renderer) (callback : BlockID -> M W (result (list Block)))
  (resolver : option (string -> string)) (articlePath : string) (fuel : nat)
  (b : BasicBlock) (hasColumnHeader : bool)
  (rows : list (BasicBlock * list (list RichText))) (st : Traced W) (w1 : W) :
  let children := map (fun row => TableRowBlock (fst row) (snd row)) rows in
  let cols := map (fun row => rowCols resolver (snd row)) rows in
  HasChildren b = true ->
  callback (ID b) (fst st) = (Ok children, w1) ->
  forallb (fun row => negb (HasChildren (fst row))) rows = true ->
  readableRows cols = true ->
  renderBlock r (Some callback) resolver articlePath (S (S fuel))
    (TableBlock b hasColumnHeader) st
  = (Returns (tableText hasColumnHeader cols, false, None),
     (w1, snd st ++ [(ID b, Ok children)])).
Proof.
  intros children cols Hhas Hcall Hleaves Hread.
  set (frs := map (fun row => (strings.TrimRight (strings.Join row " | ") LF, false))
                  cols).
  assert (Hloop : renderChildren
                    (renderBlock r (Some callback) resolver articlePath (S fuel))
                    (TableBlock b hasColumnHeader) children EmptyString false
                    (w1, snd st ++ [(ID b, Ok children)])
                  = (Returns (joinChildren (TableBlock b hasColumnHeader) frs, None),
                     (w1, snd st ++ [(ID b, Ok children)]))).
  { rewrite renderChildren_fragments, renderFragments_flat.
    - subst children. rewrite flatFragments_rows. cbn [fst snd].
      assert (Efrs : map (fun row : BasicBlock * list (list RichText) =>
                            (strings.TrimRight (tableRowToMarkdown (snd row) resolver) LF,
                             false)) rows
                     = frs).
      { subst frs cols. rewrite map_map. apply map_ext. intros row.
        by rewrite tableRowToMarkdown_cols. }
      by rewrite Efrs.
    - subst children. cbn [neverFetches]. clear -Hleaves.
      induction rows as [|[bb cells] rows IH]; [reflexivity|].
      cbn [map forallb fst snd getBlockIDAndHasChildren] in *.
      apply andb_prop in Hleaves as [Hb Hrest]. by rewrite Hb, IH. }
  assert (Hid : getBlockIDAndHasChildren (TableBlock b hasColumnHeader) = (ID b, true))
    by (cbn [getBlockIDAndHasChildren]; by rewrite Hhas).
  rewrite (renderBlock_fetched _ _ _ _ _ _ callback (ID b) children w1 _ _
             Hid Hcall Hloop).
  cbn [blockToMarkdownWithCache]. rewrite run_ret. cbn [fst snd].
  assert (Hrows : tableRows (strings.TrimRight
                               (joinChildren (TableBlock b hasColumnHeader) frs) LF)
                  = cols).
  { apply tableRows_rows; [reflexivity|reflexivity| |exact Hread].
    subst cols. apply List.Forall_map, Forall_forall. intros row _.
    apply rowCols_trimmed. }
  rewrite (tableToMarkdown_text hasColumnHeader _ cols Hrows).
  - unfold strings.TrimRight. rewrite trimRightBy_id; [reflexivity|].
    rewrite <- endsIn_LF. apply tableText_end.
  - intros E. rewrite E in Hread. discriminate Hread.
Qed.

End TableFacts.

Lemma table_of_rows_witness :
  renderBlock (H := Sample.library) (H0 := Sample.offline) Sample.renderer
    (Some Sample.tree) None "posts/x/index.md" 2
    (TableBlock (Sample.node "people") true) (tt, [])
  = (Returns ("| Name | Born |" +:+ LF +:+ "| --- | --- |" +:+ LF
              +:+ "| Ada Lovelace | 1815 |" +:+ LF +:+ "| Grace |  |", false, None),
     (tt, [("people",
            Ok [TableRowBlock (Sample.leaf "p1") [Sample.text "Name"; Sample.text "Born"];
                TableRowBlock (Sample.leaf "p2")
                  [Sample.text " Ada Lovelace "; Sample.text "1815"];
                TableRowBlock (Sample.leaf "p3") [Sample.text "Grace"]])])).
Proof.
  rewrite (table_of_rows (H := Sample.library) (H0 := Sample.offline) Sample.renderer
             Sample.tree None "posts/x/index.md" 0 (Sample.node "people") true
             [(Sample.leaf "p1", [Sample.text "Name"; Sample.text "Born"]);
              (Sample.leaf "p2", [Sample.text " Ada Lovelace "; Sample.text "1815"]);
              (Sample.leaf "p3", [Sample.text "Grace"])]
             (tt, []) tt).
  - vm_compute. reflexivity.
  - reflexivity.
  - vm_compute. reflexivity.
  - reflexivity.
  - vm_compute. reflexivity.
Defined.
